(* ===== verification/_CoqProject ===== *)
-Q . S2P
Prelude.v
Floats.v
Packet.v
Queue.v
QueueConc.v
QueueAtomic.v
Ingress.v
Health.v
HealthView.v
NetAddr.v
Text.v
Config.v
Corpus.v
Backend.v
Checkpoint.v
Diagnostics.v
Tick.v
Daemon.v
Typing.v
Startup.v
Control.v
Service.v
Probe.v
Durable.v
Harness.v
ExactlyOnce.v
FaultMatrix.v
Replay.v
Workload.v
Inprocess.v
Agreement.v
Secondary.v
Ablation.v
Process.v
Pulses.v
SecondaryLink.v
Report.v
Wire.v
TestHealth.v
TestIngress.v
TestRuntime.v
TestConfig.v
TestBackend.v
TestCheckpoint.v
TestDaemon.v
TestControl.v
TestSmoke.v
