(* ===== verification/Prelude.v ===== *)
(** * Brainstem daemon: a verification library

    The daemon restores a spiking network from a checkpoint and steps it at a
    fixed rate: each tick takes a packet from a backend, queues it with what
    other producers sent, drains one input, steps the network and publishes its
    spikes, while a health machine and an HTTP control surface report on it.
    This library models the whole of it in Gallina and proves what each part
    promises.  This file is the root: the shared vocabulary, after the map of
    the development.

    ** The parts, and the files that model them

    - [Floats], [NetAddr], [Text]: what the code uses of the standard library -
      IEEE 754 singles and doubles, numeric addresses, UTF-8, lines, words.
    - [Packet]: [IngressPacket] and the finite check (src/backend.rs,
      src/ingress/mod.rs).
    - [Queue], [QueueConc], [QueueAtomic]: one bounded queue with its four overflow policies
      (src/ingress/queue.rs).  [Queue] has a function per critical section of
      the mutex; [QueueConc] interleaves any number of producers and consumers
      as a step relation, with time-outs, spurious wake-ups and notifications;
      [QueueAtomic] is the specification it refines.
    - [Ingress]: the four-class ingress, its validation, per-class admission and
      the drain of a tick (src/ingress/mod.rs).
    - [Corpus]: typed corpus-ipc frames (src/ingress/corpus.rs).
    - [Backend]: sources and sinks as type classes, and the stub, no-op,
      collecting and ZeroMQ instances (src/backend.rs).
    - [Health], [HealthView]: the health machine, its snapshot and the metrics
      page (src/health/).
    - [Config]: the configuration, its validation, the service registry and the
      log filter (src/config.rs, src/registry.rs, src/logging.rs).
    - [Checkpoint]: path resolution, sidecar validation and restoration
      (src/checkpoint/mod.rs).
    - [Diagnostics], [Tick], [Daemon]: the rate limiter, the body of a tick, and
      construction, boot, the bounded run, the live loop, the awaited signals and
      every shutdown path (src/daemon.rs).  The daemon is proved against the classes of [Backend],
      whatever instance it runs on.
    - [Typing]: the machine type of every piece of a tick's state, and its
      preservation by every operation, for any backend that keeps its side
      ([TypedSource], [TypedSink]).
    - [Startup]: [main] and [run] of the binary (src/bin/brainstem_daemon.rs),
      composing [Config], [Checkpoint], [Backend] and [Daemon].
    - [Control], [Probe]: the HTTP surface (src/control.rs), and its composition
      with [Health].
    - [Service]: [run_loop] with its control task and the clients' connections,
      interleaved at their awaits (src/daemon.rs, src/control.rs); the stop
      channel is the class [WatchChannel] and its laws.
    - [Durable], [Harness], [ExactlyOnce], [FaultMatrix]: the restart and
      fault-injection harness (src/runtime/).
    - [Replay]: what a run of the daemon is to its network, once a backend
      delivers a given packet per tick; the class [Recorder] is a sink that
      keeps what it is handed, while its transport is in order.
    - [Workload], [Inprocess], [Agreement]: the experiment's workload and its
      in-process driver, which runs the same events through the daemon and
      through a bare network (examples/usefulness_common/mod.rs,
      examples/usefulness_inprocess.rs), and the agreement of the two.
    - [Secondary], [Ablation]: the segment workload, its driver and its masking
      variants (examples/usefulness_secondary_common/mod.rs,
      examples/usefulness_secondary_inprocess.rs).
    - [Process], [Pulses], [SecondaryLink]: the drivers that spawn the binary and
      measure it over ZeroMQ and HTTP (examples/usefulness_common/process.rs and
      frames.rs, examples/usefulness_transport.rs,
      examples/usefulness_secondary_transport.rs).
    - [Report]: the summaries the two in-process drivers write.
    - [Wire]: the started binary and its transport driver as one system, joined
      by the two ZeroMQ sockets.
    - [TestHealth], [TestIngress], [TestRuntime], [TestConfig], [TestBackend],
      [TestCheckpoint], [TestDaemon], [TestControl], [TestSmoke]: the tests of
      the repository under their own names, as boolean definitions the kernel
      evaluates on the model; each file ends with the lemma that all its tests
      pass.  They check the translation itself, where the theorems check what
      was translated.

    State is a record with the struct's fields, an operation a function of the
    method's name, [&mut self] and [Result] the monad [stateful] (what was
    changed before an early return stays changed), error variants the code's
    error sites.  Clock readings, socket outcomes and the order in which a
    [select!]'s branches become ready are arguments, so every theorem holds for
    all of them.

    ** What the theorems show

    - Queues: refinement of an atomic bounded queue (linearizability), bounded
      depth and FIFO conservation in every reachable concurrent
      state, no lost wake-up, exact metrics, blocked pushes bounded by their
      deadline, a final shutdown.  Ingress: class isolation, bounds, and what is
      admitted is what a tick drains.
    - Health: refinement of a five-state lifecycle automaton, sticky terminal
      states, consistent snapshots, monotone counters, exact staleness; the
      metrics page scrapes back to the snapshot.  The automaton is the code's: a
      [Fatal] event is terminal before [ProcessStarted] too, where docs/health.md
      would ignore it ([Health.unstarted_fatal_terminal]); for a process started
      first the two agree.  The overload thresholds are those of the default
      ingress's 209 slots ([Tick.default_pressure]; docs/health.md shows 216).
    - Configuration and start: acceptance is exactly the documented conditions,
      the bind host by a grammar of its own ([Config.bind_host]), endpoints split
      unambiguously, no socket before every check, its options before its bind,
      no failure after them.  Checkpoints: a live network is finite, sized, non-blank and
      frozen; resolution fails closed.
    - Ticks: only finite inputs are stepped; admission, outcome and published
      counters of every branch.  Runs: boot is all or nothing, the calls a run
      makes on its backend on every path, the live loop as a bounded run, and
      type preservation: no counter, packet or spike ever leaves its machine
      type.
    - Control: framed replies, request reading that ends on any socket, bounded
      connections, and a probe that answers what the lifecycle automaton says.
      The running service refines the sequential run whatever clients do, claims
      readiness only from inside the tick loop, and once past it always returns.
    - Restarts: outputs are numbered without gap or repeat over any crashes, a
      crashed packet that is sent again is published exactly once, and every
      fault point has the outcome its oracle lists.
    - Experiments: the daemon and the bare network record the same spikes, or
      fail together; the frames sent are the frames counted; masking a channel
      and zeroing it at the sender are the same experiment; a transport run
      reports what it sent and received, and its daemon is reaped or killed.
      Over the wire, what the binary publishes is what the restored network
      spikes when stepped directly on the driver's frames, tick by tick.
      These comparisons assume of the codec that it reads back the finite
      batches it wrote, and the modulator snapshots that are finite and in
      corpus-ipc's ranges (it checks them as it decodes; the repository documents
      a tempo of 0.5 to 2.0), of [validate] that it accepts what is so, and of
      the network that its step ids are its neurons; they cover workloads whose
      modulators are in those ranges and whose packets fit the queues (a modulator packet is four values, so an accepted
      [max_payload_len] below four would refuse them all).

    ** Integers, fuel and bounds

    A machine integer is a [Z] with the operation's own overflow: [wadd64] and
    [wmul64] wrap (the release profile's [+=], and [wrapping_*]), [sat_*]
    saturate, [checked_*] return an option.  The test and development profiles
    panic where the release profile wraps.  Fuel appears where a loop is not structural, and is
    enough by a theorem or by construction: the push loop frees a slot per turn,
    the ZeroMQ drain has the code's own limit of 32, a request is read in at
    most 1024 reads ([request_read_terminates]), and decimal printing has a digit
    per bit.  The waits of the transport drivers are bounded by a deadline of the
    clock only: they run over the listed answers of the environment, and a list
    that reaches the deadline is long enough ([ready_loop_ends],
    [exit_loop_ends]).  Instants and durations are unbounded integers.

    ** Not modelled

    The neuromod, corpus-ipc, zmq, serde, TOML, clap, SHA-256 and tracing crates
    are arguments wherever the code calls them, with their documented behaviour
    as named hypotheses.  Left out because they only reach the environment:
    logging, the tokio runtime and its ticker, socket wrappers, serde derives and
    their defaults other than those named in [Config], the spawning of the child
    process, the JSON text of the drivers' summaries, the accessors of the
    harness, and the test clock's locking.  Of the tests, those whose subject is
    a library are left out (serde's JSON, TOML sections, libzmq's teardown), and
    tests/pub_lifecycle.rs, which needs the real process. *)

From Stdlib Require Export ZArith Lia.
From stdpp Require Export base tactics option list strings gmap.
#[export] Set Default Goal Selector "!".

Declare Scope rust_scope.
Delimit Scope rust_scope with rust.
Local Open Scope Z_scope.

(** ** Fallible code *)

(** Rust's [Result<A, E>], with the error first so that [result E] is a functor. *)
Inductive result (E A : Type) : Type :=
| Ok (a : A)
| Err (e : E).
Arguments Ok {E A} a.
Arguments Err {E A} e.

#[export] Instance result_ret E : MRet (result E) := fun A a => Ok a.
#[export] Instance result_bind E : MBind (result E) := fun A B f m =>
  match m with Ok a => f a | Err e => Err e end.
#[export] Instance result_fmap E : FMap (result E) := fun A B f m =>
  match m with Ok a => Ok (f a) | Err e => Err e end.
#[export] Instance result_eq_dec E A `{EqDecision E, EqDecision A} :
  EqDecision (result E A).
Proof. solve_decision. Defined.

Definition is_ok {E A} (m : result E A) : bool :=
  match m with Ok _ => true | Err _ => false end.

(** [Option::ok_or_else]. *)
Definition ok_or {E A} (o : option A) (e : E) : result E A :=
  match o with Some a => Ok a | None => Err e end.

(** [Result::map_err]. *)
Definition map_err {E F A} (f : E -> F) (m : result E A) : result F A :=
  match m with Ok a => Ok a | Err e => Err (f e) end.

(** [bail!(e)] unless [b]: the shape of every validation guard. *)
Definition require {E} (b : bool) (e : E) : result E unit :=
  if b then Ok tt else Err e.

Lemma require_ok {E} b (e : E) : require b e = Ok tt <-> b = true.
Proof. by destruct b. Qed.

Lemma result_bind_ok {E A B} (m : result E A) (f : A -> result E B) b :
  m ≫= f = Ok b <-> exists a, m = Ok a /\ f a = Ok b.
Proof.
  destruct m as [a|e]; simpl; split.
  - by exists a.
  - by intros (? & [= <-] & ?).
  - done.
  - by intros (? & [=] & ?).
Qed.

Lemma result_bind_err {E A B} (m : result E A) (f : A -> result E B) e :
  m ≫= f = Err e <-> m = Err e \/ exists a, m = Ok a /\ f a = Err e.
Proof.
  destruct m as [a|e']; simpl; split.
  - right. by exists a.
  - by intros [[=]|(? & [= <-] & ?)].
  - intros [= ->]. by left.
  - by intros [[= ->]|(? & [=] & ?)].
Qed.

Lemma require_bind_ok {E B} b (e : E) (m : result E B) x :
  require b e ≫= (fun _ => m) = Ok x <-> b = true /\ m = Ok x.
Proof. destruct b; simpl; [tauto|]. split; [done|by intros [? _]]. Qed.

Lemma map_err_ok {E F A} (f : E -> F) (m : result E A) a : map_err f m = Ok a <-> m = Ok a.
Proof. destruct m; simpl; split; by intros [= ->]. Qed.

(** ** Stateful fallible code

    A method taking [&mut self] and returning [Result] keeps the mutations it
    made before an early return: the state is threaded through [Err] too. *)
Definition stateful (S E A : Type) : Type := S -> S * result E A.

#[export] Instance stateful_ret S E : MRet (stateful S E) :=
  fun A a s => (s, Ok a).
#[export] Instance stateful_bind S E : MBind (stateful S E) := fun A B f m s =>
  match m s with
  | (s', Ok a) => f a s'
  | (s', Err e) => (s', Err e)
  end.

Definition get {S E} : stateful S E S := fun s => (s, Ok s).
Definition modify {S E} (f : S -> S) : stateful S E unit := fun s => (f s, Ok tt).
Definition bail {S E A} (e : E) : stateful S E A := fun s => (s, Err e).
Definition lift_result {S E A} (m : result E A) : stateful S E A := fun s => (s, m).

Lemma stateful_bind_ok {S E A B} (m : stateful S E A) (f : A -> stateful S E B) s s' b :
  (m ≫= f) s = (s', Ok b) -> exists s1 a, m s = (s1, Ok a) /\ f a s1 = (s', Ok b).
Proof. unfold mbind, stateful_bind. destruct (m s) as [s1 [a|e]]; [eauto|done]. Qed.

(** Hoare triples for [stateful] code: [P] before, [Q] on success and [R] on an
    early return. *)
Definition triple {S E A} (P : S -> Prop) (m : stateful S E A)
    (Q : A -> S -> Prop) (R : E -> S -> Prop) : Prop :=
  forall s, P s ->
    match m s with
    | (s', Ok a) => Q a s'
    | (s', Err e) => R e s'
    end.

Section Triples.
Context {S E : Type}.
Implicit Types (P : S -> Prop).

Lemma triple_ret {A} P (a : A) Q (R : E -> S -> Prop) :
  (forall s, P s -> Q a s) -> triple P (mret a) Q R.
Proof. intros H s Hs. apply H, Hs. Qed.

Lemma triple_bind {A B} P (m : stateful S E A) (f : A -> stateful S E B) Q M R :
  triple P m M R -> (forall a, triple (M a) (f a) Q R) ->
  triple P (m ≫= f) Q R.
Proof.
  intros Hm Hf s Hs. specialize (Hm s Hs). unfold mbind, stateful_bind.
  destruct (m s) as [s' [a|e]]; [apply Hf, Hm | apply Hm].
Qed.

Lemma triple_modify P f (Q : unit -> S -> Prop) (R : E -> S -> Prop) :
  (forall s, P s -> Q tt (f s)) -> triple P (modify f) Q R.
Proof. intros H s Hs. apply H, Hs. Qed.

Lemma triple_bail {A} P (e : E) (Q : A -> S -> Prop) R :
  (forall s, P s -> R e s) -> triple P (bail e) Q R.
Proof. intros H s Hs. apply H, Hs. Qed.

Lemma triple_get P (Q : S -> S -> Prop) (R : E -> S -> Prop) :
  (forall s, P s -> Q s s) -> triple P get Q R.
Proof. intros H s Hs. apply H, Hs. Qed.

Lemma triple_weaken {A} P P' (m : stateful S E A) Q Q' R R' :
  triple P' m Q' R' -> (forall s, P s -> P' s) ->
  (forall a s, Q' a s -> Q a s) -> (forall e s, R' e s -> R e s) ->
  triple P m Q R.
Proof.
  intros Hm HP HQ HR s Hs. specialize (Hm s (HP s Hs)).
  destruct (m s) as [s' [a|e]]; auto.
Qed.
End Triples.

(** ** Machine integers

    [u64] and (on the 64-bit targets the crate ships for) [usize] values are
    integers in [0 .. u64_max]. [+=] on a counter wraps, which is what the
    release profile compiles it to; [saturating_*] and [checked_*] are the
    methods of the same names. *)
Definition u64_max : Z := 18446744073709551615.
Definition u32_max : Z := 4294967295.
Definition u16_max : Z := 65535.

Definition wrap64 (z : Z) : Z := z mod (u64_max + 1).
Definition wadd64 (a b : Z) : Z := wrap64 (a + b).
Definition wmul64 (a b : Z) : Z := wrap64 (a * b).
Definition sat_add64 (a b : Z) : Z := Z.min (a + b) u64_max.
Definition sat_sub (a b : Z) : Z := Z.max 0 (a - b).
Definition checked_add64 (a b : Z) : option Z :=
  if a + b <=? u64_max then Some (a + b) else None.
Definition checked_mul64 (a b : Z) : option Z :=
  if a * b <=? u64_max then Some (a * b) else None.
Definition is_u64 (z : Z) : Prop := 0 <= z <= u64_max.
Definition is_u64b (z : Z) : bool := (0 <=? z) && (z <=? u64_max).

(** [Vec::len]. *)
Definition len {A} (l : list A) : Z := Z.of_nat (length l).

Lemma wrap64_small z : is_u64 z -> wrap64 z = z.
Proof. unfold wrap64, is_u64, u64_max. intros. apply Z.mod_small. lia. Qed.

Lemma wrap64_range z : is_u64 (wrap64 z).
Proof.
  assert (0 < u64_max + 1) as H by (unfold u64_max; lia).
  pose proof (Z.mod_pos_bound z _ H). unfold wrap64, is_u64. lia.
Qed.

Lemma wadd64_range a b : is_u64 (wadd64 a b).
Proof. apply wrap64_range. Qed.

Lemma wadd64_small a b : 0 <= a -> 0 <= b -> a + b <= u64_max -> wadd64 a b = a + b.
Proof. intros. apply wrap64_small. unfold is_u64. lia. Qed.

Lemma wadd64_wrap_l a b : wadd64 (wrap64 a) b = wrap64 (a + b).
Proof. unfold wadd64, wrap64. apply Zplus_mod_idemp_l. Qed.

Lemma wadd64_0_r a : wadd64 (wrap64 a) 0 = wrap64 a.
Proof. rewrite wadd64_wrap_l. f_equal. lia. Qed.

Lemma sat_add64_range a b : is_u64 a -> is_u64 b -> is_u64 (sat_add64 a b).
Proof. unfold is_u64, sat_add64, u64_max. lia. Qed.

Lemma sat_add64_ge a b : 0 <= b -> a <= u64_max -> a <= sat_add64 a b.
Proof. unfold sat_add64. lia. Qed.

Lemma is_u64b_spec z : is_u64b z = true <-> is_u64 z.
Proof. unfold is_u64b, is_u64. rewrite andb_true_iff, !Z.leb_le. done. Qed.

Lemma len_nonneg {A} (l : list A) : 0 <= len l.
Proof. unfold len. lia. Qed.

Lemma len_app {A} (l k : list A) : len (l ++ k) = len l + len k.
Proof. unfold len. rewrite length_app. lia. Qed.

Lemma len_cons {A} (x : A) l : len (x :: l) = len l + 1.
Proof. unfold len. simpl. lia. Qed.

Lemma len_nil {A} : len (@nil A) = 0.
Proof. done. Qed.

Lemma len_zero_inv {A} (l : list A) : len l = 0 -> l = [].
Proof. unfold len. destruct l; simpl; [done | lia]. Qed.

Create HintDb brain discriminated.
#[export] Hint Resolve wadd64_range wrap64_range sat_add64_range len_nonneg : brain.
Create Rewrite HintDb len_simpl.
#[export] Hint Rewrite @len_app @len_cons @len_nil : len_simpl.

(** ** Options and lists *)

Definition is_some {A} (o : option A) : bool :=
  match o with Some _ => true | None => false end.

(** [Option::or]. *)
Definition option_or {A} (a b : option A) : option A :=
  match a with Some _ => a | None => b end.

Lemma is_some_true {A} (o : option A) : is_some o = true <-> is_Some o.
Proof. destruct o; simpl; split; [eauto | done | done | by intros [? ?]]. Qed.

(** [iter().position(p)]. *)
Fixpoint position {A} (p : A -> bool) (l : list A) : option nat :=
  match l with
  | [] => None
  | x :: l' => if p x then Some 0%nat else S <$> position p l'
  end.

Lemma position_None {A} (p : A -> bool) l :
  position p l = None <-> Forall (fun x => p x = false) l.
Proof.
  induction l as [|x l IH]; simpl.
  - by split; intros; [constructor|].
  - rewrite Forall_cons. destruct (p x).
    + split; [done | by intros [? _]].
    + rewrite fmap_None, IH. tauto.
Qed.

Lemma position_Some {A} (p : A -> bool) l i :
  position p l = Some i ->
  exists x, l !! i = Some x /\ p x = true /\ Forall (fun y => p y = false) (take i l).
Proof.
  revert i. induction l as [|x l IH]; intros i; simpl; [done|].
  destruct (p x) eqn:Hx; [intros [= <-]; simpl; eauto|].
  intros (j & Hj & ->)%fmap_Some. destruct (IH j Hj) as (y & ? & ? & ?).
  exists y. simpl. eauto.
Qed.

(** Number of elements satisfying [p], as an integer. *)
Fixpoint count {A} (p : A -> bool) (l : list A) : Z :=
  match l with
  | [] => 0
  | x :: l' => Z.b2z (p x) + count p l'
  end.

Lemma count_nonneg {A} (p : A -> bool) l : 0 <= count p l.
Proof. induction l as [|x l IH]; simpl; [lia|]. destruct (p x); simpl; lia. Qed.

Lemma count_app {A} (p : A -> bool) l k : count p (l ++ k) = count p l + count p k.
Proof. induction l; simpl; lia. Qed.

Lemma count_insert {A} (p : A -> bool) (l : list A) i x y :
  l !! i = Some x ->
  count p (<[i := y]> l) = count p l - Z.b2z (p x) + Z.b2z (p y).
Proof.
  revert i. induction l as [|z l IH]; intros [|i]; simpl; try done.
  - intros [= ->]. lia.
  - intros Hi. rewrite (IH _ Hi). lia.
Qed.

Lemma count_pos {A} (p : A -> bool) (l : list A) :
  0 < count p l -> exists i x, l !! i = Some x /\ p x = true.
Proof.
  induction l as [|x l IH]; simpl; [lia|].
  destruct (p x) eqn:Hx; intros H; [by exists 0%nat, x|].
  destruct IH as (i & y & ? & ?); [simpl in H; lia|]. by exists (S i), y.
Qed.

Lemma count_zero {A} (p : A -> bool) (l : list A) :
  Forall (fun x => p x = false) l -> count p l = 0.
Proof. induction 1 as [|x l Hx _ IH]; simpl; [done|]. rewrite Hx, IH. done. Qed.

Lemma count_ext {A} (f g : A -> bool) l : (forall x, x ∈ l -> f x = g x) -> count f l = count g l.
Proof.
  induction l as [|x l IH]; intros Hfg; simpl; [done|]. rewrite (Hfg x) by apply list_elem_of_here.
  rewrite IH; [done|]. intros y Hy. apply Hfg. by apply list_elem_of_further.
Qed.

#[export] Hint Resolve count_nonneg : brain.

(** ** Strings *)

Lemma string_app_cons c s t : String c s +:+ t = String c (s +:+ t).
Proof. done. Qed.

Lemma string_app_nil t : EmptyString +:+ t = t.
Proof. done. Qed.

Lemma string_app_nil_r s : s +:+ EmptyString = s.
Proof. induction s as [|c s IH]; [done|]. by rewrite string_app_cons, IH. Qed.

Lemma string_app_assoc (a b c : string) : (a +:+ b) +:+ c = a +:+ (b +:+ c).
Proof. induction a as [|x a IH]; [done|]. by rewrite !string_app_cons, IH. Qed.

(** ** Executions

    Reflexive-transitive executions of a step relation, and the one way
    invariants are proved of them. *)
Inductive steps {S : Type} (R : S -> S -> Prop) : S -> S -> Prop :=
| steps_refl s : steps R s s
| steps_snoc s t u : steps R s t -> R t u -> steps R s u.

Lemma steps_invariant {S} (R : S -> S -> Prop) (I : S -> Prop) :
  (forall s t, I s -> R s t -> I t) ->
  forall s t, steps R s t -> I s -> I t.
Proof. intros HR s t H. induction H; eauto. Qed.

Lemma steps_trans {S} (R : S -> S -> Prop) s t u :
  steps R s t -> steps R t u -> steps R s u.
Proof. intros H1 H2. induction H2; eauto using steps. Qed.

Lemma steps_one {S} (R : S -> S -> Prop) s t : R s t -> steps R s t.
Proof. eauto using steps. Qed.

(** ** Tactics *)

(** Turns boolean tests among the hypotheses and the goal into propositions. *)
Ltac bool_to_prop :=
  repeat match goal with
  | H : (_ && _) = true |- _ => apply andb_true_iff in H; destruct H
  | H : (_ && _) = false |- _ => apply andb_false_iff in H
  | H : (_ || _) = false |- _ => apply orb_false_iff in H; destruct H
  | H : (_ || _) = true |- _ => apply orb_true_iff in H
  | H : negb _ = true |- _ => apply negb_true_iff in H
  | H : negb _ = false |- _ => apply negb_false_iff in H
  | H : (_ <? _) = true |- _ => apply Z.ltb_lt in H
  | H : (_ <? _) = false |- _ => apply Z.ltb_ge in H
  | H : (_ <=? _) = true |- _ => apply Z.leb_le in H
  | H : (_ <=? _) = false |- _ => apply Z.leb_gt in H
  | H : (_ =? _) = true |- _ => apply Z.eqb_eq in H
  | H : (_ =? _) = false |- _ => apply Z.eqb_neq in H
  | H : bool_decide _ = true |- _ => apply bool_decide_eq_true in H
  | H : bool_decide _ = false |- _ => apply bool_decide_eq_false in H
  end.

(** Case analysis on the first [match] or [if] scrutinee of the goal, keeping
    its equation, then simplification. *)
Ltac case_goal :=
  match goal with
  | |- context [match ?x with _ => _ end] => destruct x eqn:?; simpl in *
  end.

(** Evaluates a validation chain in the [result] monad that returned [Ok]. *)
Ltac split_ok :=
  repeat match goal with
  | H : _ ≫= _ = Ok _ |- _ => apply result_bind_ok in H; destruct H as (? & ? & ?)
  | H : require _ _ = Ok _ |- _ => apply require_ok in H
  | H : Ok _ = Ok _ |- _ => injection H as H
  | x : unit |- _ => destruct x
  end.
