(* ===== verification/Floats.v ===== *)
(** * IEEE 754 values

    [f32] and [f64] as the Standard Library's specification floats
    ([spec_float]: zero, infinity, NaN or sign, mantissa and exponent), with
    round-to-nearest-even at the precision of each format.  Every operation the
    crate performs on floats is here: [is_finite], comparisons, [abs], [max],
    division, [as f64] of an integer and [as f32] of an [f64]. *)

From S2P Require Import Prelude.
From Stdlib Require Import SpecFloat.
Local Open Scope Z_scope.

Abbreviation f32 := spec_float (only parsing).
Abbreviation f64 := spec_float (only parsing).

#[export] Instance spec_float_eq_dec : EqDecision spec_float.
Proof. solve_decision. Defined.

Definition prec32 : Z := 24.
Definition emax32 : Z := 128.
Definition prec64 : Z := 53.
Definition emax64 : Z := 1024.

(** [is_finite]: neither an infinity nor NaN. *)
Definition is_finite (x : spec_float) : bool :=
  match x with
  | S754_zero _ | S754_finite _ _ _ => true
  | S754_infinity _ | S754_nan => false
  end.

Definition is_nan (x : spec_float) : bool :=
  match x with S754_nan => true | _ => false end.

(** [n as f64] for an unsigned [n], and [n as f32]. *)
Definition f64_of_int (n : Z) : f64 := binary_normalize prec64 emax64 n 0 false.
Definition f32_of_int (n : Z) : f32 := binary_normalize prec32 emax32 n 0 false.

(** [x as f32] for [x : f64]: rounding to nearest even, overflow to infinity. *)
Definition f32_of_f64 (x : f64) : f32 :=
  match x with
  | S754_finite s m e => binary_round prec32 emax32 s m e
  | _ => x
  end.

Definition f64_div (x y : f64) : f64 := SFdiv prec64 emax64 x y.
Definition f32_div (x y : f32) : f32 := SFdiv prec32 emax32 x y.
Definition f32_sub (x y : f32) : f32 := SFsub prec32 emax32 x y.
Definition f64_add (x y : f64) : f64 := SFadd prec64 emax64 x y.
Definition f64_sub (x y : f64) : f64 := SFsub prec64 emax64 x y.
Definition f64_mul (x y : f64) : f64 := SFmul prec64 emax64 x y.

(** [Duration::as_secs_f64], of nanoseconds. *)
Definition as_secs_f64 (ns : Z) : f64 :=
  f64_add (f64_of_int (ns / 1000000000)) (f64_div (f64_of_int (ns mod 1000000000)) (f64_of_int 1000000000)).

(** [round] - halves away from zero - and then [as u64], which saturates and
    takes NaN and what is negative to zero. *)
Definition f64_round_u64 (x : f64) : Z :=
  match x with
  | S754_infinity false => u64_max
  | S754_finite false m e =>
    Z.min u64_max (if 0 <=? e then Z.shiftl (Z.pos m) e else Z.shiftr (Z.pos m + 2 ^ (- e - 1)) (- e))
  | _ => 0
  end.

(** [<], [<=], [>] and [>=]; all false on NaN. *)
Definition f_lt (x y : spec_float) : bool := SFltb x y.
Definition f_le (x y : spec_float) : bool := SFleb x y.
Definition f_gt (x y : spec_float) : bool := SFltb y x.
Definition f_ge (x y : spec_float) : bool := SFleb y x.

(** [abs] and [max]; [max] ignores a NaN operand. *)
Definition f_abs (x : spec_float) : spec_float := SFabs x.
Definition f_max (x y : spec_float) : spec_float :=
  if is_nan x then y else if is_nan y then x else if f_lt x y then y else x.

(** Literals.  Each is the double (or single) nearest to the decimal written in
    the source. *)
Definition f_zero : spec_float := S754_zero false.
Definition f_one32 : f32 := f32_of_int 1.
Definition f_one64 : f64 := f64_of_int 1.
Definition f_090 : f64 := f64_div (f64_of_int 90) (f64_of_int 100).
Definition f_050 : f64 := f64_div (f64_of_int 50) (f64_of_int 100).
Definition f_099 : f64 := f64_div (f64_of_int 99) (f64_of_int 100).
Definition f_070 : f64 := f64_div (f64_of_int 70) (f64_of_int 100).
Definition f_half32 : f32 := f32_div (f32_of_int 1) (f32_of_int 2).
Definition f_1em6 : f32 := f32_div (f32_of_int 1) (f32_of_int 1000000).

(** All elements of a vector are finite. *)
Definition all_finite (l : list spec_float) : bool := forallb is_finite l.

Lemma all_finite_Forall l : all_finite l = true <-> Forall (fun x => is_finite x = true) l.
Proof. unfold all_finite. rewrite forallb_forall, Forall_forall. by setoid_rewrite list_elem_of_In. Qed.

Lemma all_finite_app l k : all_finite (l ++ k) = all_finite l && all_finite k.
Proof. apply forallb_app. Qed.

Lemma is_finite_neg_position l :
  position (fun v => negb (is_finite v)) l = None <-> all_finite l = true.
Proof.
  rewrite position_None, all_finite_Forall.
  split; intros H; eapply Forall_impl; try exact H; intros x; simpl; by destruct (is_finite x).
Qed.

(** A positive threshold that is not reached: comparisons against a value that
    is itself below a finite bound are decided by [SFcompare]. *)
Lemma f_lt_irrefl x : f_lt x x = false.
Proof.
  unfold f_lt, SFltb. destruct (SFcompare x x) as [[]|] eqn:H; try done.
  destruct x as [[]|[]| |[] m e]; simpl in H; try done.
  - by rewrite Z.compare_refl, Pos.compare_cont_refl in H.
  - by rewrite Z.compare_refl, Pos.compare_cont_refl in H.
Qed.

(** Comparison only succeeds on ordered operands. *)
Lemma f_lt_not_nan x y : f_lt x y = true -> is_nan x = false /\ is_nan y = false.
Proof. unfold f_lt, SFltb. by destruct x as [[]|[]| |[] ? ?], y as [[]|[]| |[] ? ?]. Qed.

(** A magnitude strictly between two finite values is finite. *)
Lemma f_between_finite lo x hi :
  is_finite lo = true -> is_finite hi = true ->
  f_lt lo x = true -> f_lt x hi = true -> is_finite x = true.
Proof.
  unfold f_lt, SFltb.
  by destruct lo as [[]|[]| |[] ? ?], x as [[]|[]| |[] ? ?], hi as [[]|[]| |[] ? ?].
Qed.

#[export] Hint Resolve f_lt_irrefl : brain.
