(* ===== verification/Packet.v ===== *)
(** * Ingress packets and the fail-closed finite check

    [IngressPacket] and [SpikeEvent] of src/backend.rs, and
    [first_non_finite] of src/ingress/mod.rs. *)

From S2P Require Import Prelude Floats.
Local Open Scope Z_scope.

(** Length of the neuromodulator tail. *)
Definition NEUROMODULATOR_COUNT : Z := 4.

Record IngressPacket := MkPacket {
  stimuli : list f32;
  modulators : option (list f32);
  valid_mask : option (list bool);
  batch_id : option Z;
  timestamp_ns : option Z;
  session_id : option string;
  rejected : bool;
}.

#[export] Instance IngressPacket_eq_dec : EqDecision IngressPacket.
Proof. solve_decision. Defined.

(** [IngressPacket::default()] (derived). *)
Definition IngressPacket_default : IngressPacket := {|
  stimuli := [];
  modulators := None;
  valid_mask := None;
  batch_id := None;
  timestamp_ns := None;
  session_id := None;
  rejected := false;
|}.

Record SpikeEvent := MkSpikeEvent {
  channel : Z;
  time : Z;
  strength : f32;
}.

(** First non-finite value of a packet, by vector and index. *)
Inductive NonFiniteInput :=
| Stimulus (index : nat)
| Modulator (index : nat).

#[export] Instance NonFiniteInput_eq_dec : EqDecision NonFiniteInput.
Proof. solve_decision. Defined.

(** Stimuli are scanned first, then the modulators when present; the mask is
    not consulted. *)
Definition first_non_finite (packet : IngressPacket) : option NonFiniteInput :=
  match position (fun v => negb (is_finite v)) (stimuli packet) with
  | Some index => Some (Stimulus index)
  | None =>
    match modulators packet with
    | Some mods =>
      match position (fun v => negb (is_finite v)) mods with
      | Some index => Some (Modulator index)
      | None => None
      end
    | None => None
    end
  end.

(** Every value a packet carries is finite. *)
Definition packet_finite (packet : IngressPacket) : bool :=
  all_finite (stimuli packet) &&
  match modulators packet with Some mods => all_finite mods | None => true end.

(** The scan decides finiteness of the whole packet. *)
Lemma first_non_finite_None packet :
  first_non_finite packet = None <-> packet_finite packet = true.
Proof.
  unfold first_non_finite, packet_finite. rewrite andb_true_iff, <- is_finite_neg_position.
  destruct (position _ (stimuli packet)); [split; [done | by intros [[=] _]]|].
  destruct (modulators packet) as [mods|]; [|tauto].
  rewrite <- is_finite_neg_position. destruct (position _ mods).
  - by split; [|intros [_ [=]]].
  - by split.
Qed.

Lemma packet_finite_stimuli packet :
  packet_finite packet = true -> all_finite (stimuli packet) = true.
Proof. unfold packet_finite. by intros [? _]%andb_true_iff. Qed.

Lemma packet_finite_modulators packet mods :
  packet_finite packet = true -> modulators packet = Some mods -> all_finite mods = true.
Proof. unfold packet_finite. intros [_ H]%andb_true_iff Hm. by rewrite Hm in H. Qed.

#[export] Hint Resolve packet_finite_stimuli packet_finite_modulators : brain.
