(* ===== verification/Queue.v ===== *)
(** * The per-class bounded queue (src/ingress/queue.rs)

    One queue is a mutex-protected [QueueState] and an immutable
    configuration.  Every method is one or more critical sections; each
    critical section is a function from the state found under the lock to the
    state left there, the condition-variable and logging effects it performs,
    in order, and what it returns ([crit]).  A blocked producer is what
    [PushNext]'s [Wait] describes: [push] up to the [wait_timeout] call is one
    critical section ([push_locked]) and everything from the wake-up to the
    next wait or return is another ([push_resume]).  QueueConc.v interleaves
    them. *)

From S2P Require Import Prelude Floats Packet.
Local Open Scope Z_scope.

(** ** Shared enumerations (src/ingress/mod.rs) *)

Inductive MessageClass := Sensory | Reward | Control | Telemetry.

#[export] Instance MessageClass_eq_dec : EqDecision MessageClass.
Proof. solve_decision. Defined.

(** Drain-priority order. *)
Definition MessageClass_ALL : list MessageClass := [Control; Reward; Sensory; Telemetry].

Definition class_as_str (c : MessageClass) : string :=
  match c with
  | Sensory => "sensory"
  | Reward => "reward"
  | Control => "control"
  | Telemetry => "telemetry"
  end.

Definition class_index (c : MessageClass) : nat :=
  match c with Sensory => 0 | Reward => 1 | Control => 2 | Telemetry => 3 end.

Inductive OverflowPolicy := BlockTimeout | Reject | DropOldest | Coalesce.

#[export] Instance OverflowPolicy_eq_dec : EqDecision OverflowPolicy.
Proof. solve_decision. Defined.

Definition policy_as_str (p : OverflowPolicy) : string :=
  match p with
  | BlockTimeout => "block_timeout"
  | Reject => "reject"
  | DropOldest => "drop_oldest"
  | Coalesce => "coalesce"
  end.

Inductive EnqueueOutcome :=
| Accepted (depth : Z)
| DroppedOldest (depth : Z)
| Coalesced (depth : Z)
| Rejected
| Shutdown.

#[export] Instance EnqueueOutcome_eq_dec : EqDecision EnqueueOutcome.
Proof. solve_decision. Defined.

(** The caller's event is in the queue. *)
Definition outcome_accepted (o : EnqueueOutcome) : bool :=
  match o with
  | Accepted _ | DroppedOldest _ | Coalesced _ => true
  | Rejected | Shutdown => false
  end.

Record ClassMetrics := MkClassMetrics {
  cm_accepted : Z;
  cm_rejected : Z;
  cm_dropped : Z;
  cm_coalesced : Z;
  cm_shutdown_refused : Z;
  cm_depth : Z;
  cm_high_water_mark : Z;
  cm_producer_waits : Z;
  cm_producer_wait_ns : Z;
}.

(** Overflow losses, shutdown excluded. *)
Definition lost_or_coalesced (m : ClassMetrics) : Z :=
  wadd64 (wadd64 (cm_rejected m) (cm_dropped m)) (cm_coalesced m).

(** ** State *)

Inductive WaitMode := HonorPolicy | Never.

Record QueueState := MkQueueState {
  qs_items : list IngressPacket;
  qs_closed : bool;
  qs_accepted : Z;
  qs_rejected : Z;
  qs_dropped : Z;
  qs_coalesced : Z;
  qs_shutdown_refused : Z;
  qs_high_water_mark : Z;
  qs_producer_waits : Z;
  qs_producer_wait_ns : Z;
}.

(** The immutable part; durations and instants are in nanoseconds. *)
Record BoundedQueue := MkBoundedQueue {
  bq_capacity : Z;
  bq_max_payload_len : Z;
  bq_policy : OverflowPolicy;
  bq_block_timeout : Z;
  bq_class : MessageClass;
}.

Definition QueueState_new : QueueState := {|
  qs_items := [];
  qs_closed := false;
  qs_accepted := 0;
  qs_rejected := 0;
  qs_dropped := 0;
  qs_coalesced := 0;
  qs_shutdown_refused := 0;
  qs_high_water_mark := 0;
  qs_producer_waits := 0;
  qs_producer_wait_ns := 0;
|}.

(** [BoundedQueue::new]: a coalescing queue has capacity one whatever is asked. *)
Definition BoundedQueue_new (class : MessageClass) (capacity : Z)
    (policy : OverflowPolicy) (block_timeout max_payload_len : Z) :
    BoundedQueue * QueueState :=
  let capacity := match policy with Coalesce => 1 | _ => capacity end in
  ({| bq_capacity := capacity;
      bq_max_payload_len := max_payload_len;
      bq_policy := policy;
      bq_block_timeout := block_timeout;
      bq_class := class |},
   QueueState_new).

(** Field updates. *)
Definition with_items (l : list IngressPacket) (g : QueueState) : QueueState :=
  {| qs_items := l; qs_closed := qs_closed g; qs_accepted := qs_accepted g;
     qs_rejected := qs_rejected g; qs_dropped := qs_dropped g;
     qs_coalesced := qs_coalesced g; qs_shutdown_refused := qs_shutdown_refused g;
     qs_high_water_mark := qs_high_water_mark g;
     qs_producer_waits := qs_producer_waits g;
     qs_producer_wait_ns := qs_producer_wait_ns g |}.

Definition with_counts (acc rej drp coa shut : Z) (g : QueueState) : QueueState :=
  {| qs_items := qs_items g; qs_closed := qs_closed g; qs_accepted := acc;
     qs_rejected := rej; qs_dropped := drp; qs_coalesced := coa;
     qs_shutdown_refused := shut; qs_high_water_mark := qs_high_water_mark g;
     qs_producer_waits := qs_producer_waits g;
     qs_producer_wait_ns := qs_producer_wait_ns g |}.

Definition with_waits (hwm waits ns : Z) (g : QueueState) : QueueState :=
  {| qs_items := qs_items g; qs_closed := qs_closed g; qs_accepted := qs_accepted g;
     qs_rejected := qs_rejected g; qs_dropped := qs_dropped g;
     qs_coalesced := qs_coalesced g; qs_shutdown_refused := qs_shutdown_refused g;
     qs_high_water_mark := hwm; qs_producer_waits := waits;
     qs_producer_wait_ns := ns |}.

Definition with_closed (g : QueueState) : QueueState :=
  {| qs_items := qs_items g; qs_closed := true; qs_accepted := qs_accepted g;
     qs_rejected := qs_rejected g; qs_dropped := qs_dropped g;
     qs_coalesced := qs_coalesced g; qs_shutdown_refused := qs_shutdown_refused g;
     qs_high_water_mark := qs_high_water_mark g;
     qs_producer_waits := qs_producer_waits g;
     qs_producer_wait_ns := qs_producer_wait_ns g |}.

Definition bump_accepted (g : QueueState) : QueueState :=
  with_counts (wadd64 (qs_accepted g) 1) (qs_rejected g) (qs_dropped g)
    (qs_coalesced g) (qs_shutdown_refused g) g.
Definition bump_rejected (g : QueueState) : QueueState :=
  with_counts (qs_accepted g) (wadd64 (qs_rejected g) 1) (qs_dropped g)
    (qs_coalesced g) (qs_shutdown_refused g) g.
Definition bump_dropped (g : QueueState) : QueueState :=
  with_counts (qs_accepted g) (qs_rejected g) (wadd64 (qs_dropped g) 1)
    (qs_coalesced g) (qs_shutdown_refused g) g.
Definition bump_coalesced (g : QueueState) : QueueState :=
  with_counts (qs_accepted g) (qs_rejected g) (qs_dropped g)
    (wadd64 (qs_coalesced g) 1) (qs_shutdown_refused g) g.
Definition bump_shutdown_refused (g : QueueState) : QueueState :=
  with_counts (qs_accepted g) (qs_rejected g) (qs_dropped g)
    (qs_coalesced g) (wadd64 (qs_shutdown_refused g) 1) g.

(** [if depth > guard.high_water_mark { guard.high_water_mark = depth }]. *)
Definition raise_high_water (depth : Z) (g : QueueState) : QueueState :=
  with_waits (if qs_high_water_mark g <? depth then depth else qs_high_water_mark g)
    (qs_producer_waits g) (qs_producer_wait_ns g) g.

Definition bump_waits (g : QueueState) : QueueState :=
  with_waits (qs_high_water_mark g) (wadd64 (qs_producer_waits g) 1)
    (qs_producer_wait_ns g) g.
Definition add_wait_ns (ns : Z) (g : QueueState) : QueueState :=
  with_waits (qs_high_water_mark g) (qs_producer_waits g)
    (wadd64 (qs_producer_wait_ns g) (wrap64 ns)) g.

(** ** Effects of a critical section *)

Inductive QEffect :=
| NotEmptyNotifyOne
| NotEmptyNotifyAll
| NotFullNotifyOne
| NotFullNotifyAll
| LogOverflow (class : MessageClass) (outcome : string).

Definition crit (A : Type) : Type := QueueState * list QEffect * A.

Definition crit_state {A} (c : crit A) : QueueState := c.1.1.
Definition crit_effects {A} (c : crit A) : list QEffect := c.1.2.
Definition crit_ret {A} (c : crit A) : A := c.2.

(** What a producer does after a critical section of [push]: return, or sleep
    on [not_full] from [started] for at most [remaining]. *)
Inductive PushNext :=
| Return (outcome : EnqueueOutcome)
| Wait (started remaining : Z).

(** ** Operations *)

Definition payload_too_large (q : BoundedQueue) (packet : IngressPacket) : bool :=
  let mods := match modulators packet with Some m => len m | None => 0 end in
  (bq_max_payload_len q <? len (stimuli packet)) || (bq_max_payload_len q <? mods).

Definition refuse (q : BoundedQueue) (g : QueueState) (outcome : string) :
    crit EnqueueOutcome :=
  (bump_rejected g, [LogOverflow (bq_class q) outcome], Rejected).

Definition refuse_shutdown (g : QueueState) : crit EnqueueOutcome :=
  (bump_shutdown_refused g, [], Shutdown).

Definition refuse_closed (g : QueueState) : crit EnqueueOutcome := refuse_shutdown g.

Definition push_free (g : QueueState) (packet : IngressPacket) : crit EnqueueOutcome :=
  let g := bump_accepted (with_items (qs_items g ++ [packet]) g) in
  let depth := len (qs_items g) in
  (raise_high_water depth g, [NotEmptyNotifyOne], Accepted depth).

Definition push_coalesce (q : BoundedQueue) (g : QueueState) (packet : IngressPacket) :
    crit EnqueueOutcome :=
  match qs_items g with
  | [] => push_free g packet
  | _ =>
    let g := bump_coalesced (bump_accepted (with_items ([] ++ [packet]) g)) in
    let depth := len (qs_items g) in
    (raise_high_water depth g,
     [LogOverflow (bq_class q) "coalesced"; NotEmptyNotifyOne], Coalesced depth)
  end.

Definition drop_oldest_and_push (q : BoundedQueue) (g : QueueState)
    (packet : IngressPacket) : crit EnqueueOutcome :=
  let g := bump_dropped (with_items (tail (qs_items g)) g) in
  let '(g, effects, outcome) := push_free g packet in
  (g, LogOverflow (bq_class q) "dropped" :: effects,
   match outcome with
   | Accepted depth => DroppedOldest depth
   | other => other
   end).

(** [wait_for_slot] before the wait: [now] is read for the remaining time and
    [started] just before sleeping. *)
Definition wait_for_slot_enter (q : BoundedQueue) (g : QueueState)
    (deadline : option Z) (now started : Z) : crit PushNext :=
  let remaining := match deadline with
                   | Some deadline => sat_sub deadline now
                   | None => 0
                   end in
  if remaining =? 0
  then let '(g, effects, outcome) := refuse q g "rejected" in (g, effects, Return outcome)
  else (bump_waits g, [], Wait started remaining).

(** [wait_for_slot] after the wait: [woke] is the time at wake-up. *)
Definition wait_for_slot_exit (q : BoundedQueue) (g : QueueState)
    (started woke : Z) (timed_out : bool) : crit (result EnqueueOutcome unit) :=
  let g := add_wait_ns (sat_sub woke started) g in
  if qs_closed g then
    let '(g, effects, outcome) := refuse_shutdown g in (g, effects, Err outcome)
  else if timed_out && (bq_capacity q <=? len (qs_items g)) then
    let '(g, effects, outcome) := refuse q g "rejected" in (g, effects, Err outcome)
  else (g, [], Ok tt).

(** One trip through the loop of [push], up to its return or its wait. *)
Definition push_loop (q : BoundedQueue) (g : QueueState) (packet : IngressPacket)
    (deadline : option Z) (now started : Z) : crit PushNext :=
  let ret c := let '(g, effects, outcome) := (c : crit EnqueueOutcome) in
               (g, effects, Return outcome) in
  if qs_closed g then ret (refuse_shutdown g)
  else match bq_policy q with
  | Coalesce => ret (push_coalesce q g packet)
  | policy =>
    if len (qs_items g) <? bq_capacity q then ret (push_free g packet)
    else match policy with
    | Reject => ret (refuse q g "rejected")
    | DropOldest => ret (drop_oldest_and_push q g packet)
    | Coalesce | BlockTimeout => wait_for_slot_enter q g deadline now started
    end
  end.

(** [Instant + Duration] on the platforms the crate builds for: the seconds
    are an [i64]. *)
Definition instant_max : Z := 9223372036854775807 * 1000000000 + 999999999.
Definition instant_checked_add (t d : Z) : option Z :=
  if t + d <=? instant_max then Some (t + d) else None.

(** The deadline [push] computes before taking the lock. *)
Definition push_deadline (q : BoundedQueue) (wait : WaitMode) (now : Z) : option Z :=
  match wait with
  | Never => None
  | HonorPolicy =>
    if bq_block_timeout q =? 0 then None
    else instant_checked_add now (bq_block_timeout q)
  end.

(** [push], first critical section. *)
Definition push_locked (q : BoundedQueue) (g : QueueState) (packet : IngressPacket)
    (deadline : option Z) (now started : Z) : crit PushNext :=
  if payload_too_large q packet then
    let '(g, effects, outcome) :=
      if qs_closed g then refuse_shutdown g else refuse q g "rejected" in
    (g, effects, Return outcome)
  else push_loop q g packet deadline now started.

(** [push], from a wake-up to the next return or wait. *)
Definition push_resume (q : BoundedQueue) (g : QueueState) (packet : IngressPacket)
    (deadline : option Z) (started woke : Z) (timed_out : bool) (now started' : Z) :
    crit PushNext :=
  let '(g, effects, r) := wait_for_slot_exit q g started woke timed_out in
  match r with
  | Err outcome => (g, effects, Return outcome)
  | Ok _ =>
    let '(g, effects', next) := push_loop q g packet deadline now started' in
    (g, effects ++ effects', next)
  end.

(** [push] with [WaitMode::Never] is a single critical section; the [Wait]
    branch is unreachable ([push_never_returns] below). *)
Definition push_never (q : BoundedQueue) (g : QueueState) (packet : IngressPacket) :
    crit EnqueueOutcome :=
  match push_locked q g packet (push_deadline q Never 0) 0 0 with
  | (g, effects, Return outcome) => (g, effects, outcome)
  | (g, effects, Wait _ _) => (g, effects, Rejected)
  end.

Definition pop (g : QueueState) : crit (option IngressPacket) :=
  match qs_items g with
  | [] => (g, [], None)
  | packet :: rest => (with_items rest g, [NotFullNotifyOne], Some packet)
  end.

(** [while let Some(p) = guard.items.pop_front() { out.push(p) }]. *)
Fixpoint drain_loop (items out : list IngressPacket) : list IngressPacket :=
  match items with
  | [] => out
  | p :: rest => drain_loop rest (out ++ [p])
  end.

Definition drain_all (g : QueueState) : crit (list IngressPacket) :=
  match qs_items g with
  | [] => (g, [], [])
  | items => (with_items [] g, [NotFullNotifyAll], drain_loop items [])
  end.

Definition shutdown (g : QueueState) : crit unit :=
  (with_closed g, [NotFullNotifyAll; NotEmptyNotifyAll], tt).

Definition metrics (g : QueueState) : ClassMetrics := {|
  cm_accepted := qs_accepted g;
  cm_rejected := qs_rejected g;
  cm_dropped := qs_dropped g;
  cm_coalesced := qs_coalesced g;
  cm_shutdown_refused := qs_shutdown_refused g;
  cm_depth := len (qs_items g);
  cm_high_water_mark := qs_high_water_mark g;
  cm_producer_waits := qs_producer_waits g;
  cm_producer_wait_ns := qs_producer_wait_ns g;
|}.

(** ** The overflow log's rate limiter

    [log_overflow] loads the class's slot, returns unless a second has passed,
    and logs only if its compare-exchange wins. *)
Definition INTERVAL_NS : Z := 1000000000.

Definition log_due (last now : Z) : bool := negb (sat_sub now last <? INTERVAL_NS).

Definition log_cas (slot last now : Z) : Z * bool :=
  if slot =? last then (now, true) else (slot, false).

(** The uncontended call: the new slot and whether a line was logged. *)
Definition log_overflow (slot now : Z) : Z * bool :=
  if log_due slot now then log_cas slot slot now else (slot, false).

(** ** Facts about one critical section *)

(** What [BoundedQueue::new] and configuration validation establish. *)
Definition queue_ok (q : BoundedQueue) : Prop :=
  1 <= bq_capacity q /\ (bq_policy q = Coalesce -> bq_capacity q = 1).

(** The state invariant: the depth never exceeds the capacity nor the
    high-water mark, which itself never exceeds the capacity. *)
Definition queue_inv (q : BoundedQueue) (g : QueueState) : Prop :=
  len (qs_items g) <= qs_high_water_mark g <= bq_capacity q.

(** What a finished [push] did, by outcome. *)
Definition push_post (q : BoundedQueue) (g : QueueState) (packet : IngressPacket)
    (g' : QueueState) (outcome : EnqueueOutcome) : Prop :=
  qs_closed g' = qs_closed g /\
  qs_closed g = bool_decide (outcome = Shutdown) /\
  match outcome with
  | Accepted depth =>
    payload_too_large q packet = false /\ len (qs_items g) < bq_capacity q /\
    qs_items g' = qs_items g ++ [packet] /\ depth = len (qs_items g') /\
    metrics g' = metrics (raise_high_water depth (bump_accepted (with_items (qs_items g') g)))
  | DroppedOldest depth =>
    payload_too_large q packet = false /\ bq_policy q = DropOldest /\
    bq_capacity q <= len (qs_items g) /\
    qs_items g' = tail (qs_items g) ++ [packet] /\ depth = len (qs_items g') /\
    metrics g' = metrics (raise_high_water depth
      (bump_accepted (bump_dropped (with_items (qs_items g') g))))
  | Coalesced depth =>
    payload_too_large q packet = false /\ bq_policy q = Coalesce /\ qs_items g <> [] /\ qs_items g' = [packet] /\ depth = 1 /\
    metrics g' = metrics (raise_high_water 1
      (bump_coalesced (bump_accepted (with_items [packet] g))))
  | Rejected =>
    (payload_too_large q packet = true \/
     bq_capacity q <= len (qs_items g) /\ (bq_policy q = Reject \/ bq_policy q = BlockTimeout)) /\
    g' = bump_rejected g
  | Shutdown => g' = bump_shutdown_refused g
  end.

(** What a [push] that starts waiting did: it waits only on an open, full
    [BlockTimeout] queue and only until its deadline. *)
Definition waits_post (q : BoundedQueue) (g : QueueState) (deadline : option Z)
    (now started : Z) (g' : QueueState) (started' remaining : Z) : Prop :=
  bq_policy q = BlockTimeout /\ qs_closed g = false /\
  bq_capacity q <= len (qs_items g) /\ g' = bump_waits g /\ started' = started /\
  exists d, deadline = Some d /\ remaining = d - now /\ now < d.

Lemma drain_loop_app items out : drain_loop items out = out ++ items.
Proof.
  revert out. induction items as [|p items IH]; intros out; simpl.
  - by rewrite app_nil_r.
  - rewrite IH. by rewrite <- app_assoc.
Qed.

Lemma tail_len {A} (l : list A) : 1 <= len l -> len (tail l) = len l - 1.
Proof. intros. unfold len in *. destruct l; simpl length in *; simpl tail in *; lia. Qed.

(** The loop body either finishes as [push_post] says or starts a wait, and it
    waits only when a [BlockTimeout] queue is open, full and before its deadline. *)
Lemma push_loop_spec q g packet deadline now started :
  queue_ok q -> payload_too_large q packet = false ->
  let c := push_loop q g packet deadline now started in
  match crit_ret c with
  | Return outcome => push_post q g packet (crit_state c) outcome
  | Wait started' remaining => waits_post q g deadline now started (crit_state c) started' remaining
  end.
Proof.
  intros [Hcap Hcoal] Hsize.
  unfold push_loop, push_post, waits_post, wait_for_slot_enter, push_coalesce.
  destruct (qs_closed g) eqn:Hc; simpl; [done|].
  destruct (bq_policy q) eqn:Hp.
  all: try (destruct (len (qs_items g) <? bq_capacity q) eqn:Hlen; simpl; bool_to_prop; [done|]).
  - destruct deadline as [d|]; simpl; [|by intuition].
    destruct (sat_sub d now =? 0) eqn:Hr; simpl; bool_to_prop; [by intuition|].
    unfold sat_sub in *. repeat split; try done. exists d. repeat split; lia.
  - by intuition.
  - done.
  - destruct (qs_items g) as [|x l] eqn:Hi; simpl; [|done].
    rewrite Hi, len_nil. repeat split; try done. rewrite (Hcoal eq_refl). lia.
Qed.

Lemma push_locked_spec q g packet deadline now started :
  queue_ok q ->
  let c := push_locked q g packet deadline now started in
  match crit_ret c with
  | Return outcome => push_post q g packet (crit_state c) outcome
  | Wait started' remaining =>
    payload_too_large q packet = false /\
    waits_post q g deadline now started (crit_state c) started' remaining
  end.
Proof.
  intros Hq. unfold push_locked. destruct (payload_too_large q packet) eqn:Hsize.
  - unfold push_post. destruct (qs_closed g) eqn:Hc; simpl; rewrite Hc; by repeat split; auto.
  - pose proof (push_loop_spec q g packet deadline now started Hq Hsize) as H.
    simpl in *. by destruct (crit_ret _).
Qed.

(** A wake-up either finishes the call or loops into [push_loop].  Only a call
    whose payload fits ever waits. *)
Lemma push_resume_spec q g packet deadline started woke timed_out now started' :
  queue_ok q -> bq_policy q = BlockTimeout -> payload_too_large q packet = false ->
  let c := push_resume q g packet deadline started woke timed_out now started' in
  let g1 := add_wait_ns (sat_sub woke started) g in
  match crit_ret c with
  | Return outcome => push_post q g1 packet (crit_state c) outcome
  | Wait started'' remaining =>
    waits_post q g1 deadline now started' (crit_state c) started'' remaining
  end.
Proof.
  intros Hq Hp Hsize. unfold push_resume, wait_for_slot_exit.
  set (g1 := add_wait_ns (sat_sub woke started) g). cbv zeta.
  destruct (qs_closed g1) eqn:Hc; [unfold push_post; by rewrite Hc|].
  destruct (timed_out && _) eqn:Hto; 
    [bool_to_prop; unfold push_post; simpl in *; rewrite Hc; by repeat split; auto|].
  pose proof (push_loop_spec q g1 packet deadline now started' Hq Hsize) as H.
  by destruct (push_loop _ _ _ _ _ _) as [[g' effects] [o|st rem]].
Qed.

(** [WaitMode::Never] never blocks: [push_never] is the whole call. *)
Lemma push_never_returns q g packet now started :
  queue_ok q ->
  exists outcome,
    crit_ret (push_locked q g packet (push_deadline q Never now) now started) = Return outcome.
Proof.
  intros Hq. pose proof (push_locked_spec q g packet (push_deadline q Never now) now started Hq) as H.
  simpl in H. destruct (crit_ret _) as [o|st rem]; [eauto|].
  by destruct H as (_ & _ & _ & _ & _ & _ & d & [=] & _).
Qed.

Lemma push_never_post q g packet :
  queue_ok q ->
  push_post q g packet (crit_state (push_never q g packet)) (crit_ret (push_never q g packet)).
Proof.
  intros Hq. unfold push_never.
  destruct (push_never_returns q g packet 0 0 Hq) as [o Ho].
  pose proof (push_locked_spec q g packet (push_deadline q Never 0) 0 0 Hq) as H.
  simpl in H. destruct (push_locked _ _ _ _ _ _) as [[g' effects] next].
  simpl in *. by subst next.
Qed.

(** The metrics determine the counters and the depth. *)
Lemma metrics_hwm g g' : metrics g = metrics g' -> qs_high_water_mark g = qs_high_water_mark g'.
Proof. by intros [=]. Qed.

Lemma metrics_counts g g' :
  metrics g = metrics g' ->
  qs_accepted g = qs_accepted g' /\ qs_rejected g = qs_rejected g' /\
  qs_dropped g = qs_dropped g' /\ qs_coalesced g = qs_coalesced g' /\
  qs_shutdown_refused g = qs_shutdown_refused g'.
Proof. by intros [=]. Qed.

Lemma raise_high_water_max depth g :
  qs_high_water_mark (raise_high_water depth g) = Z.max (qs_high_water_mark g) depth.
Proof. simpl. destruct (Z.ltb_spec (qs_high_water_mark g) depth); lia. Qed.

(** Every way [push] can finish preserves the invariant. *)
Lemma push_post_inv q g packet g' outcome :
  queue_ok q -> queue_inv q g -> push_post q g packet g' outcome -> queue_inv q g'.
Proof.
  unfold queue_ok, queue_inv. intros [Hcap Hcoal] Hinv (_ & _ & H).
  destruct outcome as [d|d|d| |].
  - destruct H as (_ & Hroom & Hi & -> & Hm%metrics_hwm).
    rewrite raise_high_water_max in Hm. simpl in Hm. rewrite Hm, Hi.
    autorewrite with len_simpl in *. lia.
  - destruct H as (_ & _ & Hfull & Hi & -> & Hm%metrics_hwm).
    rewrite raise_high_water_max in Hm. simpl in Hm. rewrite Hm, Hi.
    autorewrite with len_simpl in *. rewrite tail_len by lia. lia.
  - destruct H as (_ & Hp & _ & Hi & -> & Hm%metrics_hwm).
    rewrite raise_high_water_max in Hm. simpl in Hm. rewrite Hm, Hi.
    autorewrite with len_simpl. lia.
  - destruct H as [_ ->]. done.
  - by subst g'.
Qed.
