(* ===== verification/QueueConc.v ===== *)
(** * Producers and consumers of one queue, interleaved

    A [Sys] is one [BoundedQueue] shared by any number of producers inside
    [push] and by consumers calling [pop], [drain_all] and [shutdown].  The
    mutex makes each critical section of Queue.v one step.  A producer that
    blocks sleeps on the [not_full] condition variable: it may run again after
    a notification, after its timeout, or spuriously, and the [notify_*] calls
    a consumer makes mark sleeping producers ([Blocked]'s [notified] flag).

    [sys_in] and [sys_out] are ghost histories: the packets that entered the
    queue, in order, and those that left it (popped, drained, dropped as
    oldest, or replaced by coalescing), in order. *)

From S2P Require Import Prelude Floats Packet Queue.
Local Open Scope Z_scope.

Inductive Producer :=
| Called (packet : IngressPacket) (deadline : option Z)
| Blocked (packet : IngressPacket) (deadline : option Z) (started remaining : Z)
    (notified : bool)
| Finished (packet : IngressPacket) (outcome : EnqueueOutcome).

Record Sys := MkSys {
  sys_q : QueueState;
  sys_prods : list Producer;
  sys_now : Z;
  sys_in : list IngressPacket;
  sys_out : list IngressPacket;
}.

Definition sys_init (now : Z) : Sys := MkSys QueueState_new [] now [] [].

(** Asleep on the condition variable, with no notification received. *)
Definition asleep (p : Producer) : bool :=
  match p with Blocked _ _ _ _ false => true | _ => false end.

(** Notified and about to re-acquire the lock. *)
Definition in_flight (p : Producer) : bool :=
  match p with Blocked _ _ _ _ true => true | _ => false end.

Definition notify (p : Producer) : Producer :=
  match p with
  | Blocked packet deadline started remaining _ =>
    Blocked packet deadline started remaining true
  | _ => p
  end.

(** The condition variable: [notify_one] wakes some sleeper if there is one. *)
Inductive deliver : QEffect -> list Producer -> list Producer -> Prop :=
| deliver_one_none ps :
    Forall (fun p => asleep p = false) ps -> deliver NotFullNotifyOne ps ps
| deliver_one_some ps i p :
    ps !! i = Some p -> asleep p = true ->
    deliver NotFullNotifyOne ps (<[i := notify p]> ps)
| deliver_all ps : deliver NotFullNotifyAll ps (notify <$> ps)
| deliver_other e ps :
    e <> NotFullNotifyOne -> e <> NotFullNotifyAll -> deliver e ps ps.

Inductive delivers : list QEffect -> list Producer -> list Producer -> Prop :=
| delivers_nil ps : delivers [] ps ps
| delivers_cons e es ps ps' ps'' :
    deliver e ps ps' -> delivers es ps' ps'' -> delivers (e :: es) ps ps''.

(** Where a critical section of [push] leaves its producer. *)
Definition after_push (packet : IngressPacket) (deadline : option Z) (next : PushNext) :
    Producer :=
  match next with
  | Return outcome => Finished packet outcome
  | Wait started remaining => Blocked packet deadline started remaining false
  end.

(** Ghost updates of one critical section of [push] on a queue holding [items]. *)
Definition entered (packet : IngressPacket) (next : PushNext) : list IngressPacket :=
  match next with
  | Return outcome => if outcome_accepted outcome then [packet] else []
  | Wait _ _ => []
  end.

Definition displaced (items : list IngressPacket) (next : PushNext) : list IngressPacket :=
  match next with
  | Return (DroppedOldest _) => take 1 items
  | Return (Coalesced _) => items
  | _ => []
  end.

(** The system after producer [i] ran a critical section of [push]. *)
Definition push_sys (s : Sys) (i : nat) (packet : IngressPacket) (deadline : option Z)
    (c : crit PushNext) (now : Z) : Sys := {|
  sys_q := crit_state c;
  sys_prods := <[i := after_push packet deadline (crit_ret c)]> (sys_prods s);
  sys_now := now;
  sys_in := sys_in s ++ entered packet (crit_ret c);
  sys_out := sys_out s ++ displaced (qs_items (sys_q s)) (crit_ret c);
|}.

Inductive step (q : BoundedQueue) : Sys -> Sys -> Prop :=
| step_tick s t :
    sys_now s <= t ->
    step q s (MkSys (sys_q s) (sys_prods s) t (sys_in s) (sys_out s))
| step_call s packet wait :
    step q s (MkSys (sys_q s)
                (sys_prods s ++ [Called packet (push_deadline q wait (sys_now s))])
                (sys_now s) (sys_in s) (sys_out s))
| step_refuse_closed s packet :
    step q s (MkSys (crit_state (refuse_closed (sys_q s)))
                (sys_prods s ++ [Finished packet (crit_ret (refuse_closed (sys_q s)))])
                (sys_now s) (sys_in s) (sys_out s))
| step_lock s i packet deadline now started :
    sys_prods s !! i = Some (Called packet deadline) ->
    sys_now s <= now -> now <= started ->
    step q s (push_sys s i packet deadline
                (push_locked q (sys_q s) packet deadline now started) started)
| step_wake s i packet deadline started remaining notified woke timed_out now started' :
    sys_prods s !! i = Some (Blocked packet deadline started remaining notified) ->
    sys_now s <= woke -> woke <= now -> now <= started' ->
    (timed_out = true -> started + remaining <= woke) ->
    step q s (push_sys s i packet deadline
                (push_resume q (sys_q s) packet deadline started woke timed_out now started')
                started')
| step_pop s ps :
    delivers (crit_effects (pop (sys_q s))) (sys_prods s) ps ->
    step q s (MkSys (crit_state (pop (sys_q s))) ps (sys_now s) (sys_in s)
                (sys_out s ++ option_list (crit_ret (pop (sys_q s)))))
| step_drain s ps :
    delivers (crit_effects (drain_all (sys_q s))) (sys_prods s) ps ->
    step q s (MkSys (crit_state (drain_all (sys_q s))) ps (sys_now s) (sys_in s)
                (sys_out s ++ crit_ret (drain_all (sys_q s))))
| step_shutdown s ps :
    delivers (crit_effects (shutdown (sys_q s))) (sys_prods s) ps ->
    step q s (MkSys (crit_state (shutdown (sys_q s))) ps (sys_now s) (sys_in s) (sys_out s)).

Definition reachable (q : BoundedQueue) (s : Sys) : Prop :=
  exists now, steps (step q) (sys_init now) s.

(** Calls that finished with an outcome satisfying [f]. *)
Definition finished (f : EnqueueOutcome -> bool) (p : Producer) : bool :=
  match p with Finished _ outcome => f outcome | _ => false end.

Definition is_dropped (o : EnqueueOutcome) : bool :=
  match o with DroppedOldest _ => true | _ => false end.
Definition is_coalesced (o : EnqueueOutcome) : bool :=
  match o with Coalesced _ => true | _ => false end.
Definition is_rejected (o : EnqueueOutcome) : bool :=
  match o with Rejected => true | _ => false end.
Definition is_shutdown (o : EnqueueOutcome) : bool :=
  match o with Shutdown => true | _ => false end.

(** Slots free in the queue. *)
Definition free_slots (q : BoundedQueue) (g : QueueState) : Z :=
  bq_capacity q - len (qs_items g).

(** ** Invariants *)

(** A blocked producer belongs to a [BlockTimeout] queue, its payload fits, and
    its remaining time was measured against its own deadline. *)
Definition producer_ok (q : BoundedQueue) (now : Z) (p : Producer) : Prop :=
  match p with
  | Called packet deadline => True
  | Blocked packet deadline started remaining _ =>
    bq_policy q = BlockTimeout /\ payload_too_large q packet = false /\
    exists d, deadline = Some d /\ d <= started + remaining /\ 0 < remaining /\ started <= now
  | Finished _ _ => True
  end.

Record sys_ok (q : BoundedQueue) (s : Sys) : Prop := {
  ok_queue : queue_inv q (sys_q s);
  ok_prods : Forall (producer_ok q (sys_now s)) (sys_prods s);
  ok_history : sys_in s = sys_out s ++ qs_items (sys_q s);
  ok_wakeups : 0 < count asleep (sys_prods s) ->
    qs_closed (sys_q s) = false /\
    free_slots q (sys_q s) <= count in_flight (sys_prods s);
}.

(** The counters are the numbers of finished calls by outcome. *)
Record counters_ok (s : Sys) : Prop := {
  co_accepted : qs_accepted (sys_q s) = wrap64 (count (finished outcome_accepted) (sys_prods s));
  co_rejected : qs_rejected (sys_q s) = wrap64 (count (finished is_rejected) (sys_prods s));
  co_dropped : qs_dropped (sys_q s) = wrap64 (count (finished is_dropped) (sys_prods s));
  co_coalesced : qs_coalesced (sys_q s) = wrap64 (count (finished is_coalesced) (sys_prods s));
  co_shutdown : qs_shutdown_refused (sys_q s) = wrap64 (count (finished is_shutdown) (sys_prods s));
  co_in : len (sys_in s) = count (finished outcome_accepted) (sys_prods s);
}.

(** ** Condition-variable facts *)

Lemma notify_asleep p : asleep (notify p) = false.
Proof. by destruct p. Qed.

Lemma notify_finished f p : finished f (notify p) = finished f p.
Proof. by destruct p. Qed.

Lemma notify_ok q now p : producer_ok q now p -> producer_ok q now (notify p).
Proof. by destruct p. Qed.

Lemma count_fmap {A B} (f : A -> B) (p : B -> bool) l :
  count p (f <$> l) = count (fun x => p (f x)) l.
Proof. induction l as [|x l IH]; csimpl; [done|]. by rewrite IH. Qed.

Lemma count_asleep_fmap_notify ps : count asleep (notify <$> ps) = 0.
Proof.
  rewrite count_fmap. induction ps as [|p ps IH]; simpl; [done|].
  by rewrite notify_asleep, IH.
Qed.

(** Delivering effects never changes finished producers nor breaks [producer_ok]. *)
Lemma deliver_finished e ps ps' f :
  deliver e ps ps' -> count (finished f) ps' = count (finished f) ps.
Proof.
  intros [| ? ? p Hi _ | ? |]; try done.
  - rewrite (count_insert _ _ _ _ _ Hi), notify_finished. lia.
  - rewrite count_fmap. apply count_ext. intros. apply notify_finished.
Qed.

Lemma delivers_finished es ps ps' f :
  delivers es ps ps' -> count (finished f) ps' = count (finished f) ps.
Proof. induction 1 as [|e es ps ps' ps'' H _ IH]; [done|]. by rewrite IH, (deliver_finished _ _ _ f H). Qed.

Lemma deliver_ok q now e ps ps' :
  deliver e ps ps' -> Forall (producer_ok q now) ps -> Forall (producer_ok q now) ps'.
Proof.
  intros [| ? ? p Hi _ | ? |] Hps; try done.
  - apply Forall_insert; [done|]. apply notify_ok. by eapply Forall_lookup_1.
  - apply Forall_fmap. eapply Forall_impl; [exact Hps|]. intros. by apply notify_ok.
Qed.

Lemma delivers_ok q now es ps ps' :
  delivers es ps ps' -> Forall (producer_ok q now) ps -> Forall (producer_ok q now) ps'.
Proof. induction 1; eauto using deliver_ok. Qed.

(** [notify_one] leaves nobody asleep or moves one sleeper into flight. *)
Lemma deliver_one_counts ps ps' :
  deliver NotFullNotifyOne ps ps' ->
  count asleep ps' = 0 \/
  count asleep ps' = count asleep ps - 1 /\ count in_flight ps' = count in_flight ps + 1.
Proof.
  intros Hd. inversion Hd as [? Hn | ? i p Hi Hp | | ? ? Hne]; subst; try done.
  - left. by apply count_zero.
  - right. rewrite !(count_insert _ _ _ _ _ Hi). destruct p as [| ? ? ? ? []|]; simpl in *; try done. lia.
Qed.

Lemma delivers_one ps ps' : delivers [NotFullNotifyOne] ps ps' -> deliver NotFullNotifyOne ps ps'.
Proof. intros Hd. inversion Hd as [|? ? ? ? ? H1 H2]; subst. by inversion H2; subst. Qed.

Lemma delivers_all_asleep es ps ps' :
  In NotFullNotifyAll es -> (forall e, In e es -> e <> NotFullNotifyOne) ->
  delivers es ps ps' -> count asleep ps' = 0.
Proof.
  intros Hin Hno H. revert Hin Hno.
  induction H as [|e es ps ps' ps'' He Hes IH]; [done|]. intros [->|Hin] Hno.
  - assert (count asleep ps' = 0) as H0.
    { inversion He; subst; try done. apply count_asleep_fmap_notify. }
    clear IH He. assert (Hno' : forall e, In e es -> e <> NotFullNotifyOne) by (simpl in Hno; auto).
    clear Hno. induction Hes as [|e es ps1 ps2 ps3 He Hes IH]; [done|]. apply IH; [|simpl in *; auto].
    destruct He; try done; [by exfalso; eapply Hno'; [left|] | apply count_asleep_fmap_notify].
  - apply IH; [done|]. simpl in Hno. auto.
Qed.

(** ** Preservation *)

Lemma producer_ok_mono q now now' p :
  now <= now' -> producer_ok q now p -> producer_ok q now' p.
Proof.
  destruct p as [| packet deadline started remaining notified |]; simpl; try done.
  intros Hle (? & ? & d & ? & ? & ? & ?). repeat split; try done. exists d. repeat split; try done. lia.
Qed.

Lemma asleep_block_timeout q now ps :
  Forall (producer_ok q now) ps -> 0 < count asleep ps -> bq_policy q = BlockTimeout.
Proof.
  intros Hps (i & p & Hi & Hp)%count_pos.
  pose proof (Forall_lookup_1 _ _ _ _ Hps Hi) as Hok.
  destruct p as [| ? ? ? ? [] |]; try done. by destruct Hok.
Qed.

(** The part of [push_locked] and [push_resume] the invariants rely on: a
    critical section run from a state [g1] with the queue's items and closed flag. *)
Definition push_section (q : BoundedQueue) (g : QueueState) (packet : IngressPacket)
    (deadline : option Z) (c : crit PushNext) (now started : Z) : Prop :=
  exists g1, qs_items g1 = qs_items g /\ qs_closed g1 = qs_closed g /\
    qs_high_water_mark g1 = qs_high_water_mark g /\
    qs_accepted g1 = qs_accepted g /\ qs_rejected g1 = qs_rejected g /\
    qs_dropped g1 = qs_dropped g /\ qs_coalesced g1 = qs_coalesced g /\
    qs_shutdown_refused g1 = qs_shutdown_refused g /\
    match crit_ret c with
    | Return outcome => push_post q g1 packet (crit_state c) outcome
    | Wait started' remaining =>
      payload_too_large q packet = false /\
      waits_post q g1 deadline now started (crit_state c) started' remaining
    end.

Lemma push_locked_section q g packet deadline now started :
  queue_ok q ->
  push_section q g packet deadline (push_locked q g packet deadline now started) now started.
Proof. intros Hq. exists g. repeat split; try done. by apply push_locked_spec. Qed.

Lemma push_resume_section q g packet deadline started woke timed_out now started' :
  queue_ok q -> bq_policy q = BlockTimeout -> payload_too_large q packet = false ->
  push_section q g packet deadline
    (push_resume q g packet deadline started woke timed_out now started') now started'.
Proof.
  intros Hq Hp Hsize. exists (add_wait_ns (sat_sub woke started) g). repeat split; try done.
  pose proof (push_resume_spec q g packet deadline started woke timed_out now started' Hq Hp Hsize) as H.
  cbv zeta in H. by destruct (crit_ret _).
Qed.

Lemma section_inv q g packet deadline c now started :
  queue_ok q -> queue_inv q g -> push_section q g packet deadline c now started ->
  queue_inv q (crit_state c).
Proof.
  intros Hq Hinv (g1 & Hi & _ & Hh & _ & _ & _ & _ & _ & H).
  assert (queue_inv q g1) as Hinv1 by (unfold queue_inv in *; by rewrite Hi, Hh).
  destruct (crit_ret c) as [o|st rem]; [by eapply push_post_inv|].
  by destruct H as (_ & _ & _ & _ & -> & _).
Qed.

Lemma section_history q g packet deadline c now started :
  push_section q g packet deadline c now started ->
  qs_items g ++ entered packet (crit_ret c) =
  displaced (qs_items g) (crit_ret c) ++ qs_items (crit_state c).
Proof.
  intros (g1 & Hi & _ & _ & _ & _ & _ & _ & _ & H).
  destruct (crit_ret c) as [o|st rem]; simpl.
  - destruct H as (_ & _ & H). rewrite Hi in H. destruct o as [d|d|d| |]; simpl.
    + by destruct H as (_ & _ & -> & _).
    + destruct H as (_ & _ & _ & -> & _). by destruct (qs_items g).
    + by destruct H as (_ & _ & _ & -> & _).
    + destruct H as [_ ->]. by rewrite app_nil_r, <- Hi.
    + rewrite H. by rewrite app_nil_r, <- Hi.
  - destruct H as (_ & _ & _ & _ & -> & _). by rewrite app_nil_r, <- Hi.
Qed.

(** A critical section of [push] keeps "no free slot goes unannounced". *)
Lemma section_wakeups q s i p packet deadline c now started :
  queue_ok q -> sys_ok q s -> sys_prods s !! i = Some p ->
  (forall f, finished f p = false) ->
  (in_flight p = true -> payload_too_large q packet = false) ->
  push_section q (sys_q s) packet deadline c now started ->
  let s' := push_sys s i packet deadline c started in
  0 < count asleep (sys_prods s') ->
  qs_closed (sys_q s') = false /\ free_slots q (sys_q s') <= count in_flight (sys_prods s').
Proof.
  intros Hq [Hinv Hps _ Hwk] Hi Hnf Hsize (g1 & Hg1 & Hc1 & _ & _ & _ & _ & _ & _ & H).
  simpl. rewrite !(count_insert _ _ _ _ _ Hi). unfold free_slots in *.
  assert (0 <= Z.b2z (asleep p) <= 1 /\ 0 <= Z.b2z (in_flight p) <= 1) as [Ha Hf]
    by (destruct (asleep p), (in_flight p); simpl; lia).
  pose proof (count_nonneg in_flight (<[i := after_push packet deadline (crit_ret c)]> (sys_prods s))) as Hpos.
  rewrite (count_insert _ _ _ _ _ Hi) in Hpos.
  destruct (crit_ret c) as [o|st rem]; simpl in *.
  - intros Hs. assert (0 < count asleep (sys_prods s)) as Hs0 by lia.
    destruct (Hwk Hs0) as [Hopen Hfree]. destruct H as (Hc & Hcl & H).
    rewrite Hc, Hc1. split; [exact Hopen|]. rewrite Hc1, Hopen in Hcl.
    pose proof (asleep_block_timeout _ _ _ Hps Hs0) as Hp.
    destruct o as [d|d|d| |]; simpl in *.
    + destruct H as (_ & _ & -> & _). rewrite Hg1. autorewrite with len_simpl. lia.
    + destruct H as (_ & H & _). by rewrite Hp in H.
    + destruct H as (_ & H & _). by rewrite Hp in H.
    + destruct H as [[H|[H _]] ->]; simpl; rewrite Hg1 in *; [|lia].
      destruct (in_flight p); [by rewrite Hsize in H|]. simpl in *. lia.
    + done.
  - intros _. destruct H as (_ & _ & Hopen & Hfull & -> & _). simpl.
    rewrite Hc1 in Hopen. rewrite Hc1, Hg1 in *. split; [done|]. lia.
Qed.

(** Each finished call is counted once, in the counters of its outcome. *)
Lemma section_counters q s i p packet deadline c now started :
  counters_ok s -> sys_prods s !! i = Some p -> (forall f, finished f p = false) ->
  push_section q (sys_q s) packet deadline c now started ->
  counters_ok (push_sys s i packet deadline c started).
Proof.
  intros [Ha Hr Hd Hc Hs Hin] Hi Hnf
    (g1 & _ & _ & _ & E1 & E2 & E3 & E4 & E5 & H).
  rewrite <- E1 in Ha. rewrite <- E2 in Hr. rewrite <- E3 in Hd. rewrite <- E4 in Hc.
  rewrite <- E5 in Hs. clear E1 E2 E3 E4 E5.
  split; simpl; rewrite ?len_app, ?(count_insert _ _ _ _ _ Hi), !Hnf; simpl.
  all: destruct (crit_ret c) as [o|st rem]; simpl in *;
    [destruct H as (_ & _ & H); destruct o; simpl in *
    |destruct H as (_ & _ & _ & _ & H & _); simpl].
  all: repeat match goal with
    | H : _ /\ _ |- _ => destruct H
    | H : metrics _ = metrics _ |- _ => apply metrics_counts in H; simpl in H
    | H : crit_state ?x = _ |- context [crit_state ?x] => rewrite H; simpl
    end.
  all: repeat match goal with
    | H : ?f (crit_state ?x) = _ |- context [?f (crit_state ?x)] => rewrite H; simpl
    end.
  all: rewrite ?Ha, ?Hr, ?Hd, ?Hc, ?Hs, ?wadd64_wrap_l; try f_equal; rewrite ?len_nil; try lia.
  all: unfold len; simpl; lia.
Qed.

Lemma pop_facts g :
  let g' := crit_state (pop g) in
  qs_items g = option_list (crit_ret (pop g)) ++ qs_items g' /\
  qs_closed g' = qs_closed g /\ len (qs_items g') <= len (qs_items g) /\
  (crit_effects (pop g) = [] /\ len (qs_items g') = len (qs_items g) \/
   crit_effects (pop g) = [NotFullNotifyOne] /\ len (qs_items g') = len (qs_items g) - 1).
Proof.
  unfold pop. destruct (qs_items g) as [|x l] eqn:Hi; unfold crit_state; simpl; rewrite ?Hi.
  - repeat split; try done. by left.
  - autorewrite with len_simpl. repeat split; try done; [lia|]. right. split; [done|lia].
Qed.

Lemma drain_all_ret g : crit_ret (drain_all g) = qs_items g.
Proof.
  unfold drain_all. destruct (qs_items g) as [|x l] eqn:Hi; [done|].
  unfold crit_ret. simpl. by rewrite drain_loop_app.
Qed.

Lemma drain_all_items g : qs_items (crit_state (drain_all g)) = [].
Proof. unfold drain_all. by destruct (qs_items g) eqn:Hi. Qed.

Lemma drain_all_hwm g :
  qs_high_water_mark (crit_state (drain_all g)) = qs_high_water_mark g.
Proof. unfold drain_all. by destruct (qs_items g). Qed.

Lemma shutdown_closes g : qs_closed (crit_state (shutdown g)) = true.
Proof. done. Qed.

Lemma unfinished_called packet deadline f : finished f (Called packet deadline) = false.
Proof. done. Qed.

Lemma sections_ok q s i p packet deadline c now started :
  queue_ok q -> sys_ok q s -> sys_prods s !! i = Some p ->
  (forall f, finished f p = false) ->
  (in_flight p = true -> payload_too_large q packet = false) ->
  sys_now s <= started -> now <= started ->
  push_section q (sys_q s) packet deadline c now started ->
  sys_ok q (push_sys s i packet deadline c started).
Proof.
  intros Hq Hok Hi Hnf Hsize Hnow Hns Hsec. split.
  - by eapply section_inv, Hsec; [|apply Hok].
  - simpl. apply Forall_insert.
    + eapply Forall_impl; [apply Hok|]. intros x. by apply producer_ok_mono.
    + destruct Hsec as (g1 & _ & _ & _ & _ & _ & _ & _ & _ & H).
      destruct (crit_ret c) as [o|st rem]; simpl; [done|].
      destruct H as (Hs & Hp & _ & _ & _ & -> & d & -> & -> & Hd).
      repeat split; try done. exists d. repeat split; lia.
  - simpl. rewrite (ok_history _ _ Hok), <- !app_assoc. f_equal.
    by eapply section_history.
  - by eapply section_wakeups.
Qed.

(** A consumer's notifications, given how many slots it freed. *)
Lemma step_sys_ok q s s' : queue_ok q -> sys_ok q s -> step q s s' -> sys_ok q s'.
Proof.
  intros Hq Hok Hst. destruct Hst as [s t Hle|s packet wait|s packet|s i packet deadline now started Hi H1 H2
    |s i packet deadline started rem nt woke tmo now started' Hi H1 H2 H3 _|s ps Hd|s ps Hd|s ps Hd].
  - destruct Hok as [? Hps ? ?]. split; try done. eapply Forall_impl; [exact Hps|].
    intros x. by apply producer_ok_mono.
  - destruct Hok as [? ? ? Hwk]. split; simpl; try done.
    + apply Forall_app. repeat constructor. done.
    + rewrite !count_app. simpl. intros. destruct Hwk; [lia|]. split; [done|lia].
  - destruct Hok as [? ? ? Hwk]. split; simpl; try done.
    + apply Forall_app. repeat constructor. done.
    + rewrite !count_app. simpl. intros. destruct Hwk; [lia|]. split; [done|].
      unfold free_slots in *. simpl. lia.
  - eapply sections_ok; try done; [lia|]. by apply push_locked_section.
  - pose proof (Forall_lookup_1 _ _ _ _ (ok_prods _ _ Hok) Hi) as (Hp & Hs & _).
    eapply sections_ok; try done; [lia|]. by apply push_resume_section.
  - destruct (pop_facts (sys_q s)) as (Hi & Hc & Hl & Heff). destruct Hok as [Hinv Hps Hh Hwk].
    assert (qs_high_water_mark (crit_state (pop (sys_q s))) = qs_high_water_mark (sys_q s)) as Hm.
    { unfold pop. by destruct (qs_items (sys_q s)). }
    split; simpl.
    + unfold queue_inv in *. rewrite Hm. lia.
    + by eapply delivers_ok.
    + rewrite Hh, Hi, <- app_assoc. done.
    + rewrite Hc. unfold free_slots in *. destruct Heff as [[He Hl']|[He Hl']]; rewrite He in Hd.
      * inversion Hd; subst. by rewrite Hl'.
      * apply delivers_one, deliver_one_counts in Hd as [Hd|[Hd1 Hd2]]; [lia|].
        intros Hs. destruct Hwk; [lia|]. split; [done|lia].
  - destruct Hok as [Hinv Hps Hh Hwk]. split; simpl.
    + unfold queue_inv in *. rewrite drain_all_items, drain_all_hwm, len_nil.
      pose proof (len_nonneg (qs_items (sys_q s))). lia.
    + by eapply delivers_ok.
    + by rewrite drain_all_ret, drain_all_items, app_nil_r.
    + unfold drain_all in *. destruct (qs_items (sys_q s)) eqn:Hi; simpl in *.
      * by inversion Hd; subst.
      * rewrite (delivers_all_asleep [NotFullNotifyAll] (sys_prods s) ps); [lia|by left| |done].
        by intros e [<-|[]].
  - destruct Hok as [Hinv Hps Hh Hwk]. split; simpl; try done; [by eapply delivers_ok|].
    rewrite (delivers_all_asleep [NotFullNotifyAll; NotEmptyNotifyAll] (sys_prods s) ps); [intros; lia|by left| |done].
    by intros e [<-|[<-|[]]].
Qed.

Lemma step_counters_ok q s s' :
  queue_ok q -> sys_ok q s -> counters_ok s -> step q s s' -> counters_ok s'.
Proof.
  intros Hq Hok Hco Hst. destruct Hst as [s t Hle|s packet wait|s packet|s i packet deadline now started Hi H1 H2
    |s i packet deadline started rem nt woke tmo now started' Hi H1 H2 H3 _|s ps Hd|s ps Hd|s ps Hd].
  - by destruct Hco; split.
  - destruct Hco; split; simpl; rewrite count_app; simpl; by rewrite Z.add_0_r.
  - destruct Hco as [? ? ? ? Hs ?]; split; simpl; rewrite count_app; simpl; rewrite ?Z.add_0_r; try done.
    by rewrite Hs, wadd64_wrap_l.
  - eapply section_counters; try done. by apply push_locked_section.
  - pose proof (Forall_lookup_1 _ _ _ _ (ok_prods _ _ Hok) Hi) as (Hp & Hs & _).
    eapply section_counters; try done. by apply push_resume_section.
  - destruct Hco; split; simpl; rewrite (delivers_finished _ _ _ _ Hd); try done.
    all: unfold pop; by destruct (qs_items (sys_q s)).
  - destruct Hco; split; simpl; rewrite (delivers_finished _ _ _ _ Hd); try done.
    all: unfold drain_all; by destruct (qs_items (sys_q s)).
  - destruct Hco; split; simpl; by rewrite (delivers_finished _ _ _ _ Hd).
Qed.

Lemma step_invariants q : queue_ok q -> forall s s',
  sys_ok q s /\ counters_ok s -> step q s s' -> sys_ok q s' /\ counters_ok s'.
Proof. intros Hq s s' [Hok Hco] Hst. eauto using step_sys_ok, step_counters_ok. Qed.

Lemma reachable_invariants q s :
  queue_ok q -> reachable q s -> sys_ok q s /\ counters_ok s.
Proof.
  intros Hq [now H]. revert H.
  assert (sys_ok q (sys_init now) /\ counters_ok (sys_init now)) as Hinit.
  { destruct Hq as [Hcap _]. split; split; simpl; try done.
    unfold queue_inv. simpl. unfold len. simpl. lia. }
  intros H. apply (steps_invariant (step q) (fun s => sys_ok q s /\ counters_ok s)
    (step_invariants q Hq) _ _ H Hinit).
Qed.

(** On a closed queue a critical section of [push] can only refuse. *)
Lemma section_closed q g packet deadline c now started :
  qs_closed g = true -> push_section q g packet deadline c now started ->
  crit_ret c = Return Shutdown /\ qs_closed (crit_state c) = true.
Proof.
  intros Hc (g1 & _ & Hc1 & _ & _ & _ & _ & _ & _ & H). rewrite Hc in Hc1.
  destruct (crit_ret c) as [o|st rem].
  - destruct H as (-> & H & _). rewrite Hc1 in *. symmetry in H. bool_to_prop. by subst o.
  - destruct H as (_ & _ & H & _). by rewrite H in Hc1.
Qed.

Lemma push_sys_closed q s i p packet deadline c now started f :
  sys_prods s !! i = Some p -> (forall f, finished f p = false) ->
  qs_closed (sys_q s) = true -> f Shutdown = false ->
  push_section q (sys_q s) packet deadline c now started ->
  let s' := push_sys s i packet deadline c started in
  qs_closed (sys_q s') = true /\ sys_in s' = sys_in s /\
  count (finished f) (sys_prods s') = count (finished f) (sys_prods s).
Proof.
  intros Hi Hnf Hc Hf Hsec. destruct (section_closed _ _ _ _ _ _ _ Hc Hsec) as [Hr Hc'].
  simpl. rewrite Hr, (count_insert _ _ _ _ _ Hi), Hnf. simpl. rewrite Hf.
  repeat split; [done|by rewrite app_nil_r|simpl; lia].
Qed.

(** When a [push] that was blocked runs at or after its deadline, it finishes. *)
Lemma push_resume_late q g packet d started woke timed_out now started' :
  queue_ok q -> bq_policy q = BlockTimeout -> payload_too_large q packet = false ->
  d <= now ->
  crit_ret (push_resume q g packet (Some d) started woke timed_out now started') =
  Return (if qs_closed g then Shutdown
          else if bq_capacity q <=? len (qs_items g) then Rejected
          else Accepted (len (qs_items g) + 1)).
Proof.
  intros Hq Hp Hs Hd. unfold push_resume, wait_for_slot_exit, push_loop, wait_for_slot_enter.
  simpl. destruct (qs_closed g) eqn:Hc; simpl; [done|].
  destruct (bq_capacity q <=? len (qs_items g)) eqn:Hl; simpl.
  - rewrite andb_true_r. destruct timed_out; simpl; rewrite ?Hc; simpl; [done|].
    rewrite Hp, Z.ltb_antisym, Hl. simpl.
    replace (sat_sub d now) with 0 by (unfold sat_sub; lia). done.
  - rewrite andb_false_r. simpl. rewrite Hc, Hp, Z.ltb_antisym, Hl. simpl.
    by rewrite len_app.
Qed.

(** ** The guarantees of one queue *)

(** C8: in every reachable state of a queue shared by any number of producers
    and consumers, the depth never exceeds the high-water mark nor the
    high-water mark the capacity, and the queue is first-in first-out with
    nothing lost or duplicated silently: the packets that entered are exactly
    those that left (popped, drained, dropped as oldest or coalesced away)
    followed by those still queued, in order. *)
Theorem queue_bounded_fifo q s :
  queue_ok q -> reachable q s ->
  len (qs_items (sys_q s)) <= qs_high_water_mark (sys_q s) <= bq_capacity q /\
  sys_in s = sys_out s ++ qs_items (sys_q s).
Proof.
  intros Hq Hr. destruct (reachable_invariants q s Hq Hr) as [[Hinv _ Hh _] _]. done.
Qed.

(** C9: no lost wake-up: while some producer sleeps un-notified on [not_full],
    the queue is open and every free slot is matched by a producer that has
    been notified and is on its way to take it. *)
Theorem queue_no_lost_wakeup q s :
  queue_ok q -> reachable q s ->
  0 < count asleep (sys_prods s) ->
  qs_closed (sys_q s) = false /\
  bq_capacity q - len (qs_items (sys_q s)) <= count in_flight (sys_prods s).
Proof. intros Hq Hr. apply (reachable_invariants q s Hq Hr). Qed.

(** C33: the counters are exactly the numbers of finished [push] calls by
    outcome (modulo 2^64): every call is accepted, rejected or refused by
    shutdown, each in one counter, and every accepted packet is a queue entry. *)
Theorem queue_counters_exact q s :
  queue_ok q -> reachable q s ->
  let calls f := count (finished f) (sys_prods s) in
  metrics (sys_q s) = {|
    cm_accepted := wrap64 (calls outcome_accepted);
    cm_rejected := wrap64 (calls is_rejected);
    cm_dropped := wrap64 (calls is_dropped);
    cm_coalesced := wrap64 (calls is_coalesced);
    cm_shutdown_refused := wrap64 (calls is_shutdown);
    cm_depth := calls outcome_accepted - len (sys_out s);
    cm_high_water_mark := qs_high_water_mark (sys_q s);
    cm_producer_waits := qs_producer_waits (sys_q s);
    cm_producer_wait_ns := qs_producer_wait_ns (sys_q s) |} /\
  calls (fun _ => true) = calls outcome_accepted + calls is_rejected + calls is_shutdown.
Proof.
  intros Hq Hr. destruct (reachable_invariants q s Hq Hr) as [[_ _ Hh _] [Ha Hre Hd Hc Hs Hin]].
  cbv zeta. split.
  - unfold metrics. rewrite Ha, Hre, Hd, Hc, Hs, <- Hin, Hh, len_app. f_equal. lia.
  - clear. induction (sys_prods s) as [|p ps IH]; simpl; [done|]. rewrite IH.
    destruct p as [| |? []]; simpl; lia.
Qed.

(** C34: a blocked producer is bounded by the deadline it computed on entry: its
    sleep runs to that deadline, a wake-up before it only goes back to sleep for
    the time left, and a wake-up at or after it finishes the call - accepted if
    a slot is free, refused otherwise. *)
Theorem blocked_push_bounded q s i packet deadline started remaining notified
    woke timed_out now started' :
  queue_ok q -> reachable q s ->
  sys_prods s !! i = Some (Blocked packet deadline started remaining notified) ->
  let next := crit_ret (push_resume q (sys_q s) packet deadline started woke timed_out now started') in
  exists d, deadline = Some d /\ d <= started + remaining /\
    (forall started'' remaining', next = Wait started'' remaining' ->
       now < d /\ now + remaining' = d) /\
    (d <= now -> next = Return (
       if qs_closed (sys_q s) then Shutdown
       else if bq_capacity q <=? len (qs_items (sys_q s)) then Rejected
       else Accepted (len (qs_items (sys_q s)) + 1))).
Proof.
  intros Hq Hr Hi. destruct (reachable_invariants q s Hq Hr) as [[_ Hps _ _] _].
  destruct (Forall_lookup_1 _ _ _ _ Hps Hi) as (Hp & Hs & d & -> & Hd & Hrem & Hst).
  exists d. split; [done|]. split; [done|].
  split; [intros st' rem' Hn | intros; by apply push_resume_late].
  pose proof (push_resume_spec q (sys_q s) packet (Some d) started woke timed_out now started'
    Hq Hp Hs) as H. cbv zeta in H. rewrite Hn in H.
  destruct H as (_ & _ & _ & _ & _ & d' & [= <-] & -> & ?). lia.
Qed.

(** Shutdown is final: once the queue is closed it stays closed, nobody
    sleeps on it, no packet enters any more, and no [push] finishes with
    anything but [Shutdown] - while consumers still drain what is queued. *)
Theorem shutdown_final q s s' f :
  queue_ok q -> reachable q s -> qs_closed (sys_q s) = true -> step q s s' ->
  f Shutdown = false ->
  qs_closed (sys_q s') = true /\ count asleep (sys_prods s') = 0 /\
  sys_in s' = sys_in s /\
  count (finished f) (sys_prods s') = count (finished f) (sys_prods s) /\
  sys_out s' ++ qs_items (sys_q s') = sys_out s ++ qs_items (sys_q s).
Proof.
  intros Hq Hr Hc Hst Hf. destruct (reachable_invariants q s Hq Hr) as [Hok _].
  pose proof (step_sys_ok q s s' Hq Hok Hst) as Hok'.
  assert (qs_closed (sys_q s') = true /\ sys_in s' = sys_in s /\
    count (finished f) (sys_prods s') = count (finished f) (sys_prods s)) as (Hc' & Hin & Hcnt).
  { destruct Hst as [| | |s i packet deadline now started Hi|s i packet deadline started rem nt
      woke tmo now started' Hi|s ps Hd|s ps Hd|s ps Hd]; simpl; try done.
    - rewrite count_app. simpl. by rewrite Z.add_0_r.
    - rewrite count_app. simpl. rewrite Hf. by rewrite Z.add_0_r.
    - eapply push_sys_closed; try done. by apply push_locked_section.
    - pose proof (Forall_lookup_1 _ _ _ _ (ok_prods _ _ Hok) Hi) as (Hp & Hs & _).
      eapply push_sys_closed; try done. by apply push_resume_section.
    - rewrite (delivers_finished _ _ _ _ Hd). destruct (pop_facts (sys_q s)) as (_ & -> & _). done.
    - rewrite (delivers_finished _ _ _ _ Hd). unfold drain_all. by destruct (qs_items _).
    - by rewrite (delivers_finished _ _ _ _ Hd). }
  repeat split; try done.
  - pose proof (count_nonneg asleep (sys_prods s')) as Hn.
    destruct (Z.eq_dec (count asleep (sys_prods s')) 0) as [|Hne]; [done|].
    destruct (ok_wakeups _ _ Hok') as [Hopen _]; [lia|]. by rewrite Hc' in Hopen.
  - by rewrite <- (ok_history _ _ Hok), <- (ok_history _ _ Hok').
Qed.

(** ** Concurrent callers of [log_overflow]

    Every caller reads the wall clock (which may step backwards), loads the
    class's slot, and only then tries its compare-exchange; other callers may
    run in between. *)
Record LogSys := MkLogSys {
  lg_slot : Z;
  lg_callers : list (Z * Z);   (** loaded slot, own clock reading *)
  lg_logged : list Z;          (** instants of the lines written, newest first *)
}.

Inductive log_step : LogSys -> LogSys -> Prop :=
| log_load l now :
    is_u64 now ->
    log_step l (MkLogSys (lg_slot l) (lg_callers l ++ [(lg_slot l, now)]) (lg_logged l))
| log_exchange l i last now :
    lg_callers l !! i = Some (last, now) ->
    log_step l
      (if log_due last now then
         let '(slot, won) := log_cas (lg_slot l) last now in
         MkLogSys slot (delete i (lg_callers l)) (if won then now :: lg_logged l else lg_logged l)
       else MkLogSys (lg_slot l) (delete i (lg_callers l)) (lg_logged l)).

Definition log_init : LogSys := MkLogSys 0 [] [].

(** Consecutive lines are at least [INTERVAL_NS] apart. *)
Fixpoint spaced (l : list Z) : Prop :=
  match l with
  | a :: l' => match l' with b :: _ => b + INTERVAL_NS <= a | [] => True end /\ spaced l'
  | [] => True
  end.

Definition log_inv (l : LogSys) : Prop :=
  lg_slot l = default 0 (head (lg_logged l)) /\ spaced (lg_logged l).

Lemma log_step_inv l l' : log_inv l -> log_step l l' -> log_inv l'.
Proof.
  intros [Hslot Hsp] Hst. destruct Hst as [l now _|l i last now Hi]; [done|].
  unfold log_due, log_cas, sat_sub. destruct (_ <? INTERVAL_NS) eqn:Hdue; simpl; [done|].
  destruct (lg_slot l =? last) eqn:Hcas; [|done]. bool_to_prop. split; [done|].
  simpl. split; [|done]. destruct (lg_logged l) as [|b r]; [done|].
  simpl in Hslot. unfold INTERVAL_NS in *. lia.
Qed.

(** However the producers of a class race in [log_overflow], at most one
    overflow line per second is written: any two consecutive lines carry
    instants at least [INTERVAL_NS] apart. *)
Theorem log_rate_limited l : steps log_step log_init l -> spaced (lg_logged l).
Proof.
  intros H. apply (steps_invariant log_step log_inv log_step_inv _ _ H). done.
Qed.

(** ** Witnesses *)

(** One slot, a producer in it and a second one blocked until time 100. *)
Definition demo_queue : BoundedQueue := MkBoundedQueue 1 4 BlockTimeout 100 Sensory.
Definition demo_packet : IngressPacket := IngressPacket_default.

Definition demo_full : Sys :=
  push_sys (MkSys QueueState_new
      [Called demo_packet (Some 100); Called demo_packet (Some 100)] 0 [] [])
    0 demo_packet (Some 100)
    (push_locked demo_queue QueueState_new demo_packet (Some 100) 0 0) 0.

Definition demo_blocked : Sys :=
  push_sys demo_full 1 demo_packet (Some 100)
    (push_locked demo_queue (sys_q demo_full) demo_packet (Some 100) 0 0) 0.

Definition demo_closed : Sys :=
  MkSys (crit_state (shutdown (sys_q demo_blocked))) (notify <$> sys_prods demo_blocked)
    0 (sys_in demo_blocked) (sys_out demo_blocked).

Lemma demo_queue_ok : queue_ok demo_queue.
Proof. split; [simpl; lia | done]. Qed.

Lemma demo_blocked_reachable : reachable demo_queue demo_blocked.
Proof.
  exists 0. eapply steps_snoc; [|apply (step_lock _ demo_full 1); [done|simpl; lia..]].
  eapply steps_snoc; [|apply (step_lock _ (MkSys QueueState_new [_; _] 0 [] []) 0); [done|simpl; lia..]].
  eapply steps_snoc; [|apply (step_call demo_queue
    (MkSys QueueState_new [Called demo_packet (Some 100)] 0 [] []) demo_packet HonorPolicy)].
  apply steps_one, (step_call demo_queue (sys_init 0) demo_packet HonorPolicy).
Qed.

Lemma demo_closed_step : step demo_queue demo_blocked demo_closed.
Proof.
  apply (step_shutdown _ demo_blocked). eapply delivers_cons; [apply deliver_all|].
  eapply delivers_cons; [by apply deliver_other|]. apply delivers_nil.
Qed.

Lemma demo_closed_reachable : reachable demo_queue demo_closed.
Proof.
  destruct demo_blocked_reachable as [now H]. exists now.
  eapply steps_snoc; [exact H | apply demo_closed_step].
Qed.

Lemma queue_bounded_fifo_witness :
  sys_in demo_blocked = sys_out demo_blocked ++ qs_items (sys_q demo_blocked).
Proof. apply (queue_bounded_fifo demo_queue demo_blocked demo_queue_ok demo_blocked_reachable). Defined.

Lemma queue_no_lost_wakeup_witness :
  0 < count asleep (sys_prods demo_blocked) /\ qs_closed (sys_q demo_blocked) = false.
Proof.
  split; [done|].
  apply (queue_no_lost_wakeup demo_queue demo_blocked demo_queue_ok demo_blocked_reachable). done.
Defined.

Lemma queue_counters_exact_witness :
  cm_accepted (metrics (sys_q demo_closed)) = 1.
Proof.
  destruct (queue_counters_exact demo_queue demo_closed demo_queue_ok demo_closed_reachable) as [-> _].
  done.
Defined.

Lemma blocked_push_bounded_witness :
  crit_ret (push_resume demo_queue (sys_q demo_blocked) demo_packet (Some 100) 0 100 true 101 101)
  = Return Rejected.
Proof.
  destruct (blocked_push_bounded demo_queue demo_blocked 1 demo_packet (Some 100) 0 100 false
    100 true 101 101 demo_queue_ok demo_blocked_reachable eq_refl) as (d & [= <-] & _ & _ & H).
  apply H. lia.
Defined.

Lemma shutdown_final_witness :
  exists s', step demo_queue demo_closed s' /\ qs_closed (sys_q s') = true.
Proof.
  eexists. split; [apply (step_tick _ demo_closed 5); simpl; lia|].
  eapply (shutdown_final demo_queue demo_closed _ outcome_accepted demo_queue_ok
    demo_closed_reachable eq_refl); [apply (step_tick _ demo_closed 5); simpl; lia|done].
Defined.

Lemma log_rate_limited_witness :
  spaced (lg_logged (MkLogSys INTERVAL_NS [] [INTERVAL_NS])).
Proof.
  apply log_rate_limited.
  eapply steps_snoc; [|apply (log_exchange (MkLogSys 0 [(0, INTERVAL_NS)] []) 0 0 INTERVAL_NS); done].
  apply steps_one, (log_load log_init INTERVAL_NS). unfold is_u64, INTERVAL_NS, u64_max. lia.
Defined.
