(* ===== verification/QueueAtomic.v ===== *)
(** * The shared queue is an atomic bounded queue

    What producers and consumers may assume of a [BoundedQueue]: an object whose
    calls take effect one at a time, each at an instant between its call and its
    return.  The specification knows nothing of locks, condition variables,
    notifications, time-outs or counters - a call is pending or done - and the
    interleaved queue of QueueConc.v refines it step by step. *)

From S2P Require Import Prelude Floats Packet Queue QueueConc.
Local Open Scope Z_scope.

(** ** The specification *)

Inductive AtomicCall :=
| Pending (packet : IngressPacket) (deadline : option Z)
| Done (packet : IngressPacket) (outcome : EnqueueOutcome).

(** [at_out] is what has left the queue, in order. *)
Record AtomicQueue := MkAtomicQueue {
  at_items : list IngressPacket;
  at_closed : bool;
  at_calls : list AtomicCall;
  at_now : Z;
  at_out : list IngressPacket;
}.

Definition atomic_init (now : Z) : AtomicQueue := MkAtomicQueue [] false [] now [].

Definition expired (deadline : option Z) (now : Z) : Prop := forall d, deadline = Some d -> d <= now.

(** What a push may do to a queue holding [items]: its outcome, the items after
    it, and those it displaces. *)
Inductive atomic_push (q : BoundedQueue) (items : list IngressPacket) (packet : IngressPacket)
    (deadline : option Z) (now : Z) : EnqueueOutcome -> list IngressPacket -> list IngressPacket -> Prop :=
| push_room :
    payload_too_large q packet = false -> len items < bq_capacity q ->
    atomic_push q items packet deadline now (Accepted (len items + 1)) (items ++ [packet]) []
| push_oldest oldest rest :
    payload_too_large q packet = false -> bq_policy q = DropOldest ->
    items = oldest :: rest -> len items = bq_capacity q ->
    atomic_push q items packet deadline now (DroppedOldest (len items)) (rest ++ [packet]) [oldest]
| push_replace pending :
    payload_too_large q packet = false -> bq_policy q = Coalesce -> items = [pending] ->
    atomic_push q items packet deadline now (Coalesced 1) [packet] [pending]
| push_oversize :
    payload_too_large q packet = true ->
    atomic_push q items packet deadline now Rejected items []
| push_full :
    payload_too_large q packet = false -> len items = bq_capacity q ->
    bq_policy q = Reject \/ bq_policy q = BlockTimeout /\ expired deadline now ->
    atomic_push q items packet deadline now Rejected items [].

Inductive atomic_step (q : BoundedQueue) : AtomicQueue -> AtomicQueue -> Prop :=
| at_tick a t :
    at_now a <= t ->
    atomic_step q a (MkAtomicQueue (at_items a) (at_closed a) (at_calls a) t (at_out a))
| at_call a packet wait :
    atomic_step q a (MkAtomicQueue (at_items a) (at_closed a)
      (at_calls a ++ [Pending packet (push_deadline q wait (at_now a))]) (at_now a) (at_out a))
| at_refused a packet :
    atomic_step q a (MkAtomicQueue (at_items a) (at_closed a) (at_calls a ++ [Done packet Shutdown])
      (at_now a) (at_out a))
| at_push a i packet deadline now now' outcome items left :
    at_calls a !! i = Some (Pending packet deadline) -> at_now a <= now -> now <= now' ->
    at_closed a = false -> atomic_push q (at_items a) packet deadline now outcome items left ->
    atomic_step q a (MkAtomicQueue items false (<[i := Done packet outcome]> (at_calls a)) now' (at_out a ++ left))
| at_shut_out a i packet deadline now' :
    at_calls a !! i = Some (Pending packet deadline) -> at_now a <= now' -> at_closed a = true ->
    atomic_step q a (MkAtomicQueue (at_items a) true (<[i := Done packet Shutdown]> (at_calls a)) now' (at_out a))
| at_stall a i packet d now now' :
    at_calls a !! i = Some (Pending packet (Some d)) -> at_now a <= now -> now <= now' ->
    at_closed a = false -> bq_policy q = BlockTimeout -> payload_too_large q packet = false ->
    len (at_items a) = bq_capacity q -> now < d ->
    atomic_step q a (MkAtomicQueue (at_items a) false (at_calls a) now' (at_out a))
| at_pop a :
    atomic_step q a (MkAtomicQueue (tail (at_items a)) (at_closed a) (at_calls a) (at_now a)
      (at_out a ++ take 1 (at_items a)))
| at_drain a :
    atomic_step q a (MkAtomicQueue [] (at_closed a) (at_calls a) (at_now a) (at_out a ++ at_items a))
| at_close a :
    atomic_step q a (MkAtomicQueue (at_items a) true (at_calls a) (at_now a) (at_out a)).

(** ** The abstraction *)

Definition abs_call (p : Producer) : AtomicCall :=
  match p with
  | Called packet deadline => Pending packet deadline
  | Blocked packet deadline _ _ _ => Pending packet deadline
  | Finished packet outcome => Done packet outcome
  end.

Definition abs (s : Sys) : AtomicQueue :=
  MkAtomicQueue (qs_items (sys_q s)) (qs_closed (sys_q s)) (abs_call <$> sys_prods s) (sys_now s) (sys_out s).

Lemma abs_notify p : abs_call (notify p) = abs_call p.
Proof. by destruct p. Qed.

(** Notifications are invisible. *)
Lemma deliver_abs e ps ps' : deliver e ps ps' -> abs_call <$> ps' = abs_call <$> ps.
Proof.
  intros [|? i p Hi _| |]; try done.
  - rewrite list_fmap_insert, abs_notify. apply list_insert_id. by rewrite list_lookup_fmap, Hi.
  - rewrite <- list_fmap_compose. apply list_fmap_ext. intros. apply abs_notify.
Qed.

Lemma delivers_abs es ps ps' : delivers es ps ps' -> abs_call <$> ps' = abs_call <$> ps.
Proof. induction 1 as [|e es ps ps' ps'' H _ IH]; [done|]. by rewrite IH, (deliver_abs _ _ _ H). Qed.

Lemma pop_abs g :
  qs_items (crit_state (pop g)) = tail (qs_items g) /\ qs_closed (crit_state (pop g)) = qs_closed g /\
  option_list (crit_ret (pop g)) = take 1 (qs_items g).
Proof. unfold pop. destruct (qs_items g) as [|x [|y l]] eqn:Hi; unfold crit_state; simpl; by rewrite ?Hi. Qed.

Lemma drain_all_closed g : qs_closed (crit_state (drain_all g)) = qs_closed g.
Proof. unfold drain_all. by destruct (qs_items g). Qed.

(** A full [BlockTimeout] queue refuses only past the deadline. *)
Lemma push_loop_expired q g packet deadline now started :
  bq_policy q = BlockTimeout -> crit_ret (push_loop q g packet deadline now started) = Return Rejected ->
  expired deadline now.
Proof.
  intros Hp. unfold push_loop. rewrite Hp. destruct (qs_closed g); [done|].
  destruct (_ <? _); [done|]. unfold wait_for_slot_enter. destruct deadline as [d|]; [|by intros _ d].
  destruct (sat_sub d now =? 0) eqn:Hz; [|done]. bool_to_prop. intros _ d' [= <-]. unfold sat_sub in Hz. lia.
Qed.

Lemma push_locked_expired q g packet deadline now started :
  bq_policy q = BlockTimeout -> payload_too_large q packet = false ->
  crit_ret (push_locked q g packet deadline now started) = Return Rejected -> expired deadline now.
Proof. intros Hp Hs. unfold push_locked. rewrite Hs. by apply push_loop_expired. Qed.

Lemma push_resume_expired q g packet deadline started remaining woke timed_out now started' :
  bq_policy q = BlockTimeout -> (forall d, deadline = Some d -> d <= started + remaining) ->
  (timed_out = true -> started + remaining <= woke) -> woke <= now ->
  crit_ret (push_resume q g packet deadline started woke timed_out now started') = Return Rejected ->
  expired deadline now.
Proof.
  intros Hp Hd Ht Hw. unfold push_resume, wait_for_slot_exit. set (g1 := add_wait_ns _ _).
  destruct (qs_closed g1); [done|]. destruct (timed_out && _) eqn:Ho.
  - apply andb_true_iff in Ho as [Ho _]. intros _ d Hd'. specialize (Hd d Hd'). specialize (Ht Ho). lia.
  - pose proof (push_loop_expired q g1 packet deadline now started' Hp) as H.
    destruct (push_loop _ _ _ _ _ _) as [[g' effects] next]. exact H.
Qed.

(** A critical section of [push] is a step of the specification. *)
Lemma section_refines q s i p packet deadline c now started :
  queue_ok q -> sys_ok q s -> sys_prods s !! i = Some p -> abs_call p = Pending packet deadline ->
  sys_now s <= now -> now <= started ->
  (crit_ret c = Return Rejected -> bq_policy q = BlockTimeout -> payload_too_large q packet = false -> expired deadline now) ->
  push_section q (sys_q s) packet deadline c now started ->
  atomic_step q (abs s) (abs (push_sys s i packet deadline c started)).
Proof.
  intros Hq Hok Hi Hp Hn1 Hn2 Hexp (g1 & Hg & Hc & _ & _ & _ & _ & _ & _ & H).
  assert (at_calls (abs s) !! i = Some (Pending packet deadline)) as Hcall
    by (simpl; rewrite list_lookup_fmap, Hi; csimpl; by rewrite Hp).
  pose proof (ok_queue _ _ Hok) as [Hl1 Hl2]. unfold abs, push_sys in *. cbn [sys_q sys_prods sys_now sys_out].
  rewrite list_fmap_insert. destruct (crit_ret c) as [o|st rem]; cbn [after_push abs_call].
  - destruct H as (Hcl & Hsh & H). rewrite Hc in Hcl. rewrite Hc in Hsh. rewrite Hg in H. rewrite Hcl.
    destruct o as [d|d|d| |]; cbn [displaced]; rewrite Hsh in *.
    + destruct H as (Hs & Hroom & Hit & -> & _). rewrite Hit, len_app, len_cons, len_nil. eapply at_push; try done. by apply push_room.
    + destruct H as (Hs & Hpol & Hfull & Hit & -> & _). rewrite Hit.
      destruct (qs_items (sys_q s)) as [|x l] eqn:Hi'; [unfold queue_ok, len in *; simpl in *; lia|].
      replace (len (tail (x :: l) ++ [packet])) with (len (x :: l)) by (simpl; autorewrite with len_simpl; lia).
      eapply at_push; try done. simpl in *. eapply push_oldest; try done. lia.
    + destruct H as (Hs & Hpol & Hne & Hit & -> & _). rewrite Hit.
      destruct (qs_items (sys_q s)) as [|x [|y l]] eqn:Hi'; [done| |].
      * eapply at_push; try done. by eapply push_replace.
      * destruct Hq as [_ Hq]. specialize (Hq Hpol). autorewrite with len_simpl in *. pose proof (len_nonneg l). lia.
    + destruct H as [Hwhy Hst]. rewrite Hst. simpl. rewrite Hg. eapply at_push; try done.
      destruct (payload_too_large q packet) eqn:Hs; [by apply push_oversize|].
      destruct Hwhy as [|[Hfull Hpol]]; [done|]. apply push_full; [done|simpl; lia|].
      destruct Hpol as [Hpol|Hpol]; [by left|right]. split; [done|]. by apply Hexp.
    + rewrite H. simpl. rewrite Hg, app_nil_r. eapply at_shut_out; try done. simpl. lia.
  - destruct H as (Hs & Hpol & Hop & Hfull & -> & _ & d & -> & _ & Hd). simpl. rewrite Hg, Hc in *. rewrite Hop, app_nil_r.
    rewrite list_insert_id by (rewrite list_lookup_fmap, Hi; csimpl; by rewrite Hp).
    eapply (at_stall q (MkAtomicQueue _ _ _ _ _) i packet d now started); try done. simpl. lia.
Qed.

(** C7: the shared queue is linearizable: it refines an atomic bounded queue in
    which every call takes effect at one instant between its call and its
    return.  A push that does not find the queue closed is accepted when there is
    room, displaces the oldest or replaces the pending packet as its policy says,
    and is refused only when oversized or when the queue is full - by a blocking
    queue not before its deadline; it stays pending only while the queue is full
    and its deadline ahead, whatever notifications, time-outs and spurious
    wake-ups it sees.  A pop takes the oldest packet, a drain all of them. *)
Theorem queue_refines_atomic q s s' :
  queue_ok q -> reachable q s -> step q s s' -> atomic_step q (abs s) (abs s').
Proof.
  intros Hq Hr Hst. pose proof (proj1 (reachable_invariants q s Hq Hr)) as Hok.
  destruct Hst as [s t Hle|s packet wait|s packet|s i packet deadline now started Hi H1 H2
    |s i packet deadline started rem nt woke tmo now started' Hi H1 H2 H3 Ht|s ps Hd|s ps Hd|s ps Hd].
  - by apply at_tick.
  - unfold abs. simpl. rewrite fmap_app. exact (at_call q (abs s) packet wait).
  - unfold abs. simpl. rewrite fmap_app. exact (at_refused q (abs s) packet).
  - eapply section_refines; try done; [|by apply push_locked_section].
    intros Hret Hp Hs. by eapply push_locked_expired.
  - pose proof (Forall_lookup_1 _ _ _ _ (ok_prods _ _ Hok) Hi) as (Hp & Hs & d & -> & Hd & _).
    eapply (section_refines q s i _ packet (Some d) _ now started'); try done; [lia| |by apply push_resume_section].
    intros Hret _ _. eapply (push_resume_expired q (sys_q s) packet (Some d) started rem); try done. by intros d' [= <-].
  - unfold abs. simpl. rewrite (delivers_abs _ _ _ Hd). destruct (pop_abs (sys_q s)) as (-> & -> & ->).
    exact (at_pop q (abs s)).
  - unfold abs. simpl. rewrite (delivers_abs _ _ _ Hd), drain_all_ret, drain_all_items, drain_all_closed.
    exact (at_drain q (abs s)).
  - unfold abs. simpl. rewrite (delivers_abs _ _ _ Hd). exact (at_close q (abs s)).
Qed.

Lemma queue_refines_atomic_witness :
  exists s', step demo_queue demo_blocked s' /\ atomic_step demo_queue (abs demo_blocked) (abs s') /\
    at_calls (abs s') = [Done demo_packet (Accepted 1); Done demo_packet Rejected].
Proof.
  assert (step demo_queue demo_blocked (push_sys demo_blocked 1 demo_packet (Some 100)
    (push_resume demo_queue (sys_q demo_blocked) demo_packet (Some 100) 0 100 true 101 101) 101)) as H
    by (apply (step_wake demo_queue demo_blocked 1 demo_packet (Some 100) 0 100 false 100 true 101 101);
        [done|simpl; lia..]).
  eexists. split; [exact H|]. split; [|by vm_compute].
  exact (queue_refines_atomic demo_queue demo_blocked _ demo_queue_ok demo_blocked_reachable H).
Defined.
