(* ===== verification/Ingress.v ===== *)
(** * The four-class bounded ingress (src/ingress/mod.rs)

    [BoundedIngress] is the shared handle: its configuration, the four class
    queues of Queue.v in the code's array order, and the shutdown flag.  The
    condition-variable notifications of the queues' critical sections are the
    subject of QueueConc.v and are dropped here; everything else each method
    does is kept.  [enqueue] may block: its first critical section is
    [enqueue], and [enqueue_wake] is the one a blocked producer runs when it
    wakes up. *)

From stdpp Require Import pretty.
From S2P Require Import Prelude Floats Packet Queue.
Local Open Scope Z_scope.

(** ** Configuration *)

Definition MAX_QUEUE_CAPACITY : Z := 16384.
Definition MAX_BLOCK_TIMEOUT_MS : Z := 86400000.
Definition MAX_PAYLOAD_LEN : Z := 1048576.

Record IngressConfig := MkIngressConfig {
  sensory_capacity : Z;
  sensory_policy : OverflowPolicy;
  reward_capacity : Z;
  reward_policy : OverflowPolicy;
  control_capacity : Z;
  control_policy : OverflowPolicy;
  telemetry_capacity : Z;
  telemetry_policy : OverflowPolicy;
  block_timeout_ms : Z;
  max_payload_len : Z;
}.

Definition IngressConfig_default : IngressConfig := {|
  sensory_capacity := 64;
  sensory_policy := DropOldest;
  reward_capacity := 8;
  reward_policy := Coalesce;
  control_capacity := 16;
  control_policy := BlockTimeout;
  telemetry_capacity := 128;
  telemetry_policy := DropOldest;
  block_timeout_ms := 5;
  max_payload_len := 4096;
|}.

Definition tiny_fixture : IngressConfig := {|
  sensory_capacity := 2;
  sensory_policy := DropOldest;
  reward_capacity := 1;
  reward_policy := Coalesce;
  control_capacity := 4;
  control_policy := Reject;
  telemetry_capacity := 2;
  telemetry_policy := DropOldest;
  block_timeout_ms := 0;
  max_payload_len := 4096;
|}.

Definition capacity (cfg : IngressConfig) (class : MessageClass) : Z :=
  match class with
  | Sensory => sensory_capacity cfg
  | Reward => reward_capacity cfg
  | Control => control_capacity cfg
  | Telemetry => telemetry_capacity cfg
  end.

Definition policy (cfg : IngressConfig) (class : MessageClass) : OverflowPolicy :=
  match class with
  | Sensory => sensory_policy cfg
  | Reward => reward_policy cfg
  | Control => control_policy cfg
  | Telemetry => telemetry_policy cfg
  end.

(** [Duration::from_millis], in nanoseconds. *)
Definition block_timeout (cfg : IngressConfig) : Z := block_timeout_ms cfg * 1000000.

Inductive IngressConfigError :=
| MaxPayloadLenZero
| MaxPayloadLenExceeds (n : Z)
| BlockTimeoutExceeds (n : Z)
| CapacityZero (class : MessageClass)
| CapacityExceeds (class : MessageClass) (n : Z).

(** The messages of [validate]. *)
Definition ingress_config_error_to_string (e : IngressConfigError) : string :=
  match e with
  | MaxPayloadLenZero => "ingress max_payload_len must be >= 1"
  | MaxPayloadLenExceeds n =>
    "ingress max_payload_len " +:+ pretty n +:+ " exceeds MAX_PAYLOAD_LEN (" +:+ pretty MAX_PAYLOAD_LEN +:+ ")"
  | BlockTimeoutExceeds n =>
    "ingress block_timeout_ms " +:+ pretty n +:+ " exceeds MAX_BLOCK_TIMEOUT_MS (" +:+
    pretty MAX_BLOCK_TIMEOUT_MS +:+ ")"
  | CapacityZero class => "ingress " +:+ class_as_str class +:+ " capacity must be >= 1"
  | CapacityExceeds class n =>
    "ingress " +:+ class_as_str class +:+ " capacity " +:+ pretty n +:+ " exceeds MAX_QUEUE_CAPACITY (" +:+
    pretty MAX_QUEUE_CAPACITY +:+ ")"
  end.

Definition validate_class (cfg : IngressConfig) (class : MessageClass) :
    result IngressConfigError unit :=
  let cap := capacity cfg class in
  require (negb (cap =? 0)) (CapacityZero class) ≫= fun _ =>
  require (negb (MAX_QUEUE_CAPACITY <? cap)) (CapacityExceeds class cap).

(** The first error wins, in the order the checks are written. *)
Fixpoint validate_classes (cfg : IngressConfig) (classes : list MessageClass) :
    result IngressConfigError unit :=
  match classes with
  | [] => Ok tt
  | class :: rest => validate_class cfg class ≫= fun _ => validate_classes cfg rest
  end.

Definition ingress_validate (cfg : IngressConfig) : result IngressConfigError unit :=
  require (negb (max_payload_len cfg =? 0)) MaxPayloadLenZero ≫= fun _ =>
  require (negb (MAX_PAYLOAD_LEN <? max_payload_len cfg))
    (MaxPayloadLenExceeds (max_payload_len cfg)) ≫= fun _ =>
  require (negb (MAX_BLOCK_TIMEOUT_MS <? block_timeout_ms cfg))
    (BlockTimeoutExceeds (block_timeout_ms cfg)) ≫= fun _ =>
  validate_classes cfg [Sensory; Reward; Control; Telemetry].

(** ** Metrics and drained packets *)

Record IngressMetrics := MkIngressMetrics {
  im_sensory : ClassMetrics;
  im_reward : ClassMetrics;
  im_control : ClassMetrics;
  im_telemetry : ClassMetrics;
}.

Definition metrics_class (m : IngressMetrics) (class : MessageClass) : ClassMetrics :=
  match class with
  | Sensory => im_sensory m
  | Reward => im_reward m
  | Control => im_control m
  | Telemetry => im_telemetry m
  end.

Record DrainedTick := MkDrainedTick {
  dt_control : list IngressPacket;
  dt_reward : option IngressPacket;
  dt_sensory : option IngressPacket;
  dt_telemetry_drained : Z;
}.

Definition into_packet (d : DrainedTick) : IngressPacket :=
  let sensory := default IngressPacket_default (dt_sensory d) in {|
    stimuli := stimuli sensory;
    modulators := dt_reward d ≫= modulators;
    valid_mask := valid_mask sensory;
    batch_id := batch_id sensory;
    timestamp_ns := timestamp_ns sensory;
    session_id := session_id sensory;
    rejected := rejected sensory;
  |}.

(** ** The shared handle *)

Record BoundedIngress := MkBoundedIngress {
  bi_config : IngressConfig;
  bi_queues : list (BoundedQueue * QueueState);
  bi_shutting_down : bool;
}.

Definition make_queue (cfg : IngressConfig) (class : MessageClass) :
    BoundedQueue * QueueState :=
  BoundedQueue_new class (capacity cfg class) (policy cfg class) (block_timeout cfg)
    (max_payload_len cfg).

Definition BoundedIngress_new (cfg : IngressConfig) :
    result IngressConfigError BoundedIngress :=
  ingress_validate cfg ≫= fun _ => Ok {|
    bi_config := cfg;
    bi_queues := [make_queue cfg Sensory; make_queue cfg Reward;
                  make_queue cfg Control; make_queue cfg Telemetry];
    bi_shutting_down := false |}.

#[export] Instance BoundedQueue_inhabited : Inhabited BoundedQueue :=
  populate (MkBoundedQueue 0 0 Reject 0 Sensory).
#[export] Instance QueueState_inhabited : Inhabited QueueState := populate QueueState_new.

(** [self.queue(class)]: indexing the array of four. *)
Definition queue (i : BoundedIngress) (class : MessageClass) : BoundedQueue * QueueState :=
  bi_queues i !!! class_index class.

(** Runs one critical section on a class's queue. *)
Definition on_queue {A} (i : BoundedIngress) (class : MessageClass)
    (f : BoundedQueue -> QueueState -> crit A) : BoundedIngress * A :=
  let '(q, g) := queue i class in
  let '(g', _, r) := f q g in
  ({| bi_config := bi_config i;
      bi_queues := <[class_index class := (q, g')]> (bi_queues i);
      bi_shutting_down := bi_shutting_down i |}, r).

Definition ingress_push (i : BoundedIngress) (class : MessageClass)
    (packet : IngressPacket) (wait : WaitMode) (now started : Z) :
    BoundedIngress * PushNext :=
  on_queue i class (fun q g =>
    if bi_shutting_down i then
      let '(g', effects, outcome) := refuse_closed g in (g', effects, Return outcome)
    else push_locked q g packet (push_deadline q wait now) now started).

Definition enqueue (i : BoundedIngress) (class : MessageClass) (packet : IngressPacket)
    (now started : Z) : BoundedIngress * PushNext :=
  ingress_push i class packet HonorPolicy now started.

Definition enqueue_wake (i : BoundedIngress) (class : MessageClass)
    (packet : IngressPacket) (deadline : option Z) (started woke : Z)
    (timed_out : bool) (now started' : Z) : BoundedIngress * PushNext :=
  on_queue i class (fun q g =>
    push_resume q g packet deadline started woke timed_out now started').

(** [WaitMode::Never] returns from its first critical section
    ([push_never_returns]). *)
Definition try_enqueue (i : BoundedIngress) (class : MessageClass)
    (packet : IngressPacket) : BoundedIngress * EnqueueOutcome :=
  on_queue i class (fun q g =>
    if bi_shutting_down i then refuse_closed g else push_never q g packet).

(** [modulators.filter(|m| !m.is_empty())]. *)
Definition nonempty_modulators (packet : IngressPacket) : option (list f32) :=
  match modulators packet with
  | Some [] => None
  | m => m
  end.

Definition admit_backend_packet (i : BoundedIngress) (packet : IngressPacket) :
    BoundedIngress :=
  let i := match stimuli packet with
           | [] => i
           | _ => (try_enqueue i Sensory {|
                     stimuli := stimuli packet;
                     modulators := None;
                     valid_mask := valid_mask packet;
                     batch_id := batch_id packet;
                     timestamp_ns := timestamp_ns packet;
                     session_id := session_id packet;
                     rejected := rejected packet |}).1
           end in
  match nonempty_modulators packet with
  | None => i
  | Some m =>
    (try_enqueue i Reward {|
       stimuli := [];
       modulators := Some m;
       valid_mask := valid_mask IngressPacket_default;
       batch_id := batch_id IngressPacket_default;
       timestamp_ns := timestamp_ns IngressPacket_default;
       session_id := session_id IngressPacket_default;
       rejected := rejected IngressPacket_default |}).1
  end.

Definition ingress_pop (i : BoundedIngress) (class : MessageClass) :
    BoundedIngress * option IngressPacket :=
  on_queue i class (fun _ g => pop g).

Definition ingress_drain_all (i : BoundedIngress) (class : MessageClass) :
    BoundedIngress * list IngressPacket :=
  on_queue i class (fun _ g => drain_all g).

(** The struct expression's fields, evaluated in the order written. *)
Definition drain_for_tick (i : BoundedIngress) : BoundedIngress * DrainedTick :=
  let '(i, control) := ingress_drain_all i Control in
  let '(i, reward) := ingress_pop i Reward in
  let '(i, sensory) := ingress_pop i Sensory in
  let '(i, telemetry) := ingress_drain_all i Telemetry in
  (i, {| dt_control := control;
         dt_reward := reward;
         dt_sensory := sensory;
         dt_telemetry_drained := len telemetry |}).

Definition ingress_shutdown (i : BoundedIngress) : BoundedIngress := {|
  bi_config := bi_config i;
  bi_queues := (fun '(q, g) => (q, crit_state (shutdown g))) <$> bi_queues i;
  bi_shutting_down := true;
|}.

Definition is_shutdown (i : BoundedIngress) : bool := bi_shutting_down i.

Definition ingress_metrics (i : BoundedIngress) : IngressMetrics := {|
  im_sensory := metrics (queue i Sensory).2;
  im_reward := metrics (queue i Reward).2;
  im_control := metrics (queue i Control).2;
  im_telemetry := metrics (queue i Telemetry).2;
|}.

(** ** The Markdown snapshot *)

Definition newline : string := String (Ascii.ascii_of_nat 10) EmptyString.

Definition snapshot_header : string :=
  "| class | policy | cap | depth | hwm | accepted | rejected | dropped | coalesced | shutdown | waits | wait_ns |"
  +:+ newline +:+ "|---|---|---:|---:|---:|---:|---:|---:|---:|---:|---:|---:|" +:+ newline.

Definition snapshot_row (i : BoundedIngress) (class : MessageClass) : string :=
  let c := metrics_class (ingress_metrics i) class in
  let cap := match policy (bi_config i) class with
             | Coalesce => 1
             | _ => capacity (bi_config i) class
             end in
  "| " +:+ class_as_str class +:+ " | " +:+ policy_as_str (policy (bi_config i) class)
  +:+ " | " +:+ pretty cap +:+ " | " +:+ pretty (cm_depth c)
  +:+ " | " +:+ pretty (cm_high_water_mark c) +:+ " | " +:+ pretty (cm_accepted c)
  +:+ " | " +:+ pretty (cm_rejected c) +:+ " | " +:+ pretty (cm_dropped c)
  +:+ " | " +:+ pretty (cm_coalesced c) +:+ " | " +:+ pretty (cm_shutdown_refused c)
  +:+ " | " +:+ pretty (cm_producer_waits c) +:+ " | " +:+ pretty (cm_producer_wait_ns c)
  +:+ " |" +:+ newline.

Definition render_snapshot (i : BoundedIngress) : string :=
  fold_left (fun out class => out +:+ snapshot_row i class) MessageClass_ALL snapshot_header.

(** ** Validation *)

(** The documented bounds, as a proposition. *)
Definition config_bounds (cfg : IngressConfig) : Prop :=
  1 <= max_payload_len cfg <= MAX_PAYLOAD_LEN /\
  block_timeout_ms cfg <= MAX_BLOCK_TIMEOUT_MS /\
  forall class, 1 <= capacity cfg class <= MAX_QUEUE_CAPACITY.

(** Fields are unsigned ([usize] and [u64]). *)
Definition config_unsigned (cfg : IngressConfig) : Prop :=
  0 <= max_payload_len cfg /\ 0 <= block_timeout_ms cfg /\
  forall class, 0 <= capacity cfg class.

Lemma validate_classes_ok cfg classes :
  validate_classes cfg classes = Ok tt <->
  Forall (fun class => capacity cfg class <> 0 /\ capacity cfg class <= MAX_QUEUE_CAPACITY) classes.
Proof.
  induction classes as [|class rest IH]; simpl; [by split; [constructor|]|].
  rewrite Forall_cons, <- IH. unfold validate_class. rewrite result_bind_ok. split.
  - intros ([] & H & Hrest). split_ok. bool_to_prop. done.
  - intros [[H1 H2] Hrest]. exists tt. split; [|done].
    by rewrite require_bind_ok, require_ok, !negb_true_iff, Z.eqb_neq, Z.ltb_ge.
Qed.

Lemma validate_ok_bounds cfg :
  config_unsigned cfg -> ingress_validate cfg = Ok tt <-> config_bounds cfg.
Proof.
  intros (Hp & _ & Hc). unfold ingress_validate, config_bounds.
  rewrite !require_bind_ok, !negb_true_iff, Z.eqb_neq, !Z.ltb_ge, validate_classes_ok.
  rewrite !Forall_cons. split.
  - intros (H1 & H2 & H3 & H4). split; [lia|]. split; [done|].
    intros class. specialize (Hc class). destruct class; lia.
  - intros ([H1 H2] & H3 & H4). split; [lia|]. split; [done|]. split; [done|].
    pose proof (H4 Sensory). pose proof (H4 Reward). pose proof (H4 Control).
    pose proof (H4 Telemetry). repeat split; try done; lia.
Qed.

(** ** One class at a time *)

Lemma class_index_lt class : (class_index class < 4)%nat.
Proof. destruct class; simpl; lia. Qed.

Lemma class_index_inj c d : class_index c = class_index d -> c = d.
Proof. by destruct c, d. Qed.

Lemma on_queue_queue {A} i c (f : BoundedQueue -> QueueState -> crit A) d :
  length (bi_queues i) = 4%nat ->
  queue (on_queue i c f).1 d =
  if decide (d = c) then let '(q, g) := queue i c in (q, crit_state (f q g)) else queue i d.
Proof.
  intros Hlen. unfold on_queue. destruct (queue i c) as [q g]. unfold crit_state.
  destruct (f q g) as [[g' effects] r]. unfold queue. simpl.
  destruct (decide (d = c)) as [->|Hne].
  - apply list_lookup_total_insert_eq. rewrite Hlen. apply class_index_lt.
  - apply list_lookup_total_insert_ne. intros ?%class_index_inj. done.
Qed.

Lemma on_queue_ret {A} i c (f : BoundedQueue -> QueueState -> crit A) :
  (on_queue i c f).2 = let '(q, g) := queue i c in crit_ret (f q g).
Proof. unfold on_queue. destruct (queue i c) as [q g]. by destruct (f q g) as [[g' ?] r]. Qed.

Lemma on_queue_frame {A} i c (f : BoundedQueue -> QueueState -> crit A) :
  bi_config (on_queue i c f).1 = bi_config i /\
  bi_shutting_down (on_queue i c f).1 = bi_shutting_down i /\
  length (bi_queues (on_queue i c f).1) = length (bi_queues i).
Proof.
  unfold on_queue. destruct (queue i c) as [q g]. destruct (f q g) as [[g' ?] r].
  simpl. by rewrite length_insert.
Qed.

Lemma on_queue_config {A} i c (f : BoundedQueue -> QueueState -> crit A) :
  bi_config (on_queue i c f).1 = bi_config i.
Proof. apply on_queue_frame. Qed.

Lemma on_queue_down {A} i c (f : BoundedQueue -> QueueState -> crit A) :
  bi_shutting_down (on_queue i c f).1 = bi_shutting_down i.
Proof. apply on_queue_frame. Qed.

Lemma on_queue_length {A} i c (f : BoundedQueue -> QueueState -> crit A) :
  length (bi_queues (on_queue i c f).1) = length (bi_queues i).
Proof. apply on_queue_frame. Qed.

(** ** The invariant *)

Definition fits (q : BoundedQueue) (g : QueueState) : Prop :=
  Forall (fun p => payload_too_large q p = false) (qs_items g).

Definition slot_ok (cfg : IngressConfig) (down : bool) (class : MessageClass)
    (slot : BoundedQueue * QueueState) : Prop :=
  slot.1 = (make_queue cfg class).1 /\ queue_inv slot.1 slot.2 /\ fits slot.1 slot.2 /\
  qs_closed slot.2 = down.

Definition ingress_ok (i : BoundedIngress) : Prop :=
  config_bounds (bi_config i) /\ length (bi_queues i) = 4%nat /\
  forall class, slot_ok (bi_config i) (bi_shutting_down i) class (queue i class).

(** A critical section that keeps a queue's invariant. *)
Definition crit_ok {A} (q : BoundedQueue) (g : QueueState) (c : crit A) : Prop :=
  queue_inv q g -> fits q g ->
  queue_inv q (crit_state c) /\ fits q (crit_state c) /\
  qs_closed (crit_state c) = qs_closed g.

Lemma make_queue_ok cfg class : config_bounds cfg -> queue_ok (make_queue cfg class).1.
Proof.
  intros (_ & _ & Hc). specialize (Hc class). unfold make_queue, BoundedQueue_new, queue_ok.
  simpl. by destruct (policy cfg class); split; try lia.
Qed.

Lemma on_queue_ok {A} i c (f : BoundedQueue -> QueueState -> crit A) :
  ingress_ok i ->
  (queue_ok (queue i c).1 -> crit_ok (queue i c).1 (queue i c).2 (f (queue i c).1 (queue i c).2)) ->
  ingress_ok (on_queue i c f).1.
Proof.
  intros (Hb & Hlen & Hs) Hf. destruct (on_queue_frame i c f) as (Hcfg & Hdown & Hlen').
  unfold ingress_ok. rewrite Hcfg, Hdown, Hlen'. split; [done|]. split; [done|].
  intros class. rewrite on_queue_queue by done. destruct (decide (class = c)) as [->|]; [|apply Hs].
  destruct (Hs c) as (Hq & Hinv & Hfit & Hcl). rewrite Hq in Hf.
  specialize (Hf (make_queue_ok _ c Hb)). rewrite <- Hq in Hf.
  destruct (queue i c) as [q g]. simpl in *. destruct (Hf Hinv Hfit) as (? & ? & Hcl').
  unfold slot_ok. simpl. by rewrite Hcl'.
Qed.

(** What [push_post] implies for the admitted packets. *)
Lemma push_post_fits q g packet g' outcome :
  push_post q g packet g' outcome -> fits q g -> fits q g'.
Proof.
  unfold fits. intros (_ & _ & H) Hg. destruct outcome as [d|d|d| |].
  - destruct H as (Hs & _ & -> & _). apply Forall_app. by repeat constructor.
  - destruct H as (Hs & _ & _ & -> & _). apply Forall_app. split; [|by repeat constructor].
    by destruct Hg.
  - destruct H as (Hs & _ & _ & -> & _). by repeat constructor.
  - by destruct H as (_ & ->).
  - by subst g'.
Qed.

Lemma push_post_ok q g packet g' outcome :
  queue_ok q -> push_post q g packet g' outcome ->
  queue_inv q g -> fits q g ->
  queue_inv q g' /\ fits q g' /\ qs_closed g' = qs_closed g.
Proof.
  intros Hq H Hinv Hfit. split; [by eapply push_post_inv|]. split; [by eapply push_post_fits|].
  by destruct H.
Qed.

Lemma push_next_ok q g packet deadline now started (c : crit PushNext) :
  queue_ok q ->
  match crit_ret c with
  | Return outcome => push_post q g packet (crit_state c) outcome
  | Wait started' remaining =>
    waits_post q g deadline now started (crit_state c) started' remaining
  end -> crit_ok q g c.
Proof.
  intros Hq H Hinv Hfit. destruct (crit_ret c) as [o|st rem]; [by eapply push_post_ok|].
  by destruct H as (_ & _ & _ & -> & _).
Qed.

Lemma push_locked_ok q g packet deadline now started :
  queue_ok q -> crit_ok q g (push_locked q g packet deadline now started).
Proof.
  intros Hq. apply (push_next_ok q g packet deadline now started); [done|].
  pose proof (push_locked_spec q g packet deadline now started Hq) as H. simpl in H.
  destruct (crit_ret (push_locked q g packet deadline now started)); [done|by destruct H].
Qed.

Lemma push_resume_ok q g packet deadline started woke timed_out now started' :
  queue_ok q -> bq_policy q = BlockTimeout -> payload_too_large q packet = false ->
  crit_ok q g (push_resume q g packet deadline started woke timed_out now started').
Proof.
  intros Hq Hp Hs Hinv Hfit.
  apply (push_next_ok q (add_wait_ns (sat_sub woke started) g) packet deadline now started');
    [done|by apply push_resume_spec|done..].
Qed.

Lemma push_never_ok q g packet : queue_ok q -> crit_ok q g (push_never q g packet).
Proof.
  intros Hq Hinv Hfit.
  exact (push_post_ok q g packet _ _ Hq (push_never_post q g packet Hq) Hinv Hfit).
Qed.

Lemma refuse_closed_ok q g : crit_ok q g (refuse_closed g).
Proof. done. Qed.

Lemma pop_ok q g : crit_ok q g (pop g).
Proof.
  unfold crit_ok, queue_inv, fits, pop. destruct (qs_items g) as [|x l] eqn:Hi; unfold crit_state;
    simpl; rewrite ?Hi; [done|].
  autorewrite with len_simpl. intros H Hf. split; [lia|]. by inversion Hf.
Qed.

Lemma drain_all_ok q g : crit_ok q g (drain_all g).
Proof.
  unfold crit_ok, queue_inv, fits, drain_all. pose proof (len_nonneg (qs_items g)).
  destruct (qs_items g) as [|x l] eqn:Hi; unfold crit_state; simpl; rewrite ?Hi; [done|].
  rewrite len_nil. intros. split; [lia|]. done.
Qed.

(** ** Operations on the handle *)

(** A producer that can be asleep on class [c] (QueueConc.v's [producer_ok]). *)
Definition can_be_blocked (i : BoundedIngress) (c : MessageClass) (packet : IngressPacket) : Prop :=
  bq_policy (queue i c).1 = BlockTimeout /\ payload_too_large (queue i c).1 packet = false.

Inductive ingress_step : BoundedIngress -> BoundedIngress -> Prop :=
| is_push i c packet wait now started :
    ingress_step i (ingress_push i c packet wait now started).1
| is_wake i c packet deadline started woke timed_out now started' :
    can_be_blocked i c packet ->
    ingress_step i (enqueue_wake i c packet deadline started woke timed_out now started').1
| is_try_enqueue i c packet : ingress_step i (try_enqueue i c packet).1
| is_admit i packet : ingress_step i (admit_backend_packet i packet)
| is_pop i c : ingress_step i (ingress_pop i c).1
| is_drain i : ingress_step i (drain_for_tick i).1
| is_shutdown_step i : ingress_step i (ingress_shutdown i).

Lemma try_enqueue_ok i c packet : ingress_ok i -> ingress_ok (try_enqueue i c packet).1.
Proof.
  intros Hi. apply on_queue_ok; [done|]. intros Hq.
  destruct (bi_shutting_down i); [apply refuse_closed_ok | by apply push_never_ok].
Qed.

Lemma ingress_push_ok i c packet wait now started :
  ingress_ok i -> ingress_ok (ingress_push i c packet wait now started).1.
Proof.
  intros Hi. apply on_queue_ok; [done|]. intros Hq.
  destruct (bi_shutting_down i); [apply refuse_closed_ok | by apply push_locked_ok].
Qed.

Lemma admit_ok i packet : ingress_ok i -> ingress_ok (admit_backend_packet i packet).
Proof.
  intros Hi. unfold admit_backend_packet.
  destruct (stimuli packet), (nonempty_modulators packet); auto using try_enqueue_ok.
Qed.

Lemma drain_unfold i :
  drain_for_tick i =
  let r1 := ingress_drain_all i Control in let r2 := ingress_pop r1.1 Reward in
  let r3 := ingress_pop r2.1 Sensory in let r4 := ingress_drain_all r3.1 Telemetry in
  (r4.1, MkDrainedTick r1.2 r2.2 r3.2 (len r4.2)).
Proof.
  unfold drain_for_tick. destruct (ingress_drain_all i Control) as [i1 c]. cbv zeta. simpl.
  destruct (ingress_pop i1 Reward) as [i2 r]. simpl. destruct (ingress_pop i2 Sensory) as [i3 s].
  simpl. by destruct (ingress_drain_all i3 Telemetry).
Qed.

Lemma ingress_drain_all_ok i c : ingress_ok i -> ingress_ok (ingress_drain_all i c).1.
Proof. intros Hi. apply on_queue_ok; [done|]. intros _. apply drain_all_ok. Qed.

Lemma ingress_pop_ok i c : ingress_ok i -> ingress_ok (ingress_pop i c).1.
Proof. intros Hi. apply on_queue_ok; [done|]. intros _. apply pop_ok. Qed.

Lemma ingress_shutdown_queue i c :
  length (bi_queues i) = 4%nat ->
  queue (ingress_shutdown i) c = ((queue i c).1, with_closed (queue i c).2).
Proof.
  intros Hlen. unfold queue, ingress_shutdown. simpl.
  assert (class_index c < length (bi_queues i))%nat as [x Hx]%lookup_lt_is_Some
    by (rewrite Hlen; apply class_index_lt).
  rewrite (list_lookup_total_correct _ _ _ Hx). apply list_lookup_total_correct.
  rewrite list_lookup_fmap, Hx. by destruct x.
Qed.

Lemma ingress_shutdown_ok i : ingress_ok i -> ingress_ok (ingress_shutdown i).
Proof.
  intros (Hb & Hlen & Hs). split; [done|]. split; [simpl; by rewrite length_fmap|].
  intros class. rewrite ingress_shutdown_queue by done. by destruct (Hs class) as (? & ? & ? & ?).
Qed.

Lemma ingress_step_ok i i' : ingress_ok i -> ingress_step i i' -> ingress_ok i'.
Proof.
  intros Hi Hst. destruct Hst as [| i c packet deadline started woke to now started' [Hp Hs]|i c packet| | | |].
  - by apply ingress_push_ok.
  - apply on_queue_ok; [done|]. intros Hq. by apply push_resume_ok.
  - by apply try_enqueue_ok.
  - by apply admit_ok.
  - by apply ingress_pop_ok.
  - rewrite drain_unfold. simpl. auto using ingress_drain_all_ok, ingress_pop_ok.
  - by apply ingress_shutdown_ok.
Qed.

Lemma make_queue_slot_ok cfg class :
  config_bounds cfg -> slot_ok cfg false class (make_queue cfg class).
Proof.
  intros Hb. pose proof (make_queue_ok cfg class Hb) as [Hc _].
  split; [done|]. split; [|by split; [apply Forall_nil_2|]].
  unfold queue_inv. simpl in *. rewrite len_nil. lia.
Qed.

Lemma BoundedIngress_new_ok cfg i :
  config_unsigned cfg -> BoundedIngress_new cfg = Ok i ->
  ingress_ok i /\ bi_config i = cfg /\ bi_shutting_down i = false.
Proof.
  intros Hu. unfold BoundedIngress_new. intros ([] & Hv & [= <-])%result_bind_ok.
  apply validate_ok_bounds in Hv; [|done]. split; [|done]. split; [done|]. split; [done|].
  intros class. destruct class; by apply make_queue_slot_ok.
Qed.

(** ** The guarantees of the ingress *)

(** A configuration is accepted exactly when every field is within the
    documented bounds. *)
Theorem ingress_validate_iff cfg :
  config_unsigned cfg ->
  is_ok (ingress_validate cfg) = true <->
  1 <= max_payload_len cfg <= MAX_PAYLOAD_LEN /\
  block_timeout_ms cfg <= MAX_BLOCK_TIMEOUT_MS /\
  forall class, 1 <= capacity cfg class <= MAX_QUEUE_CAPACITY.
Proof.
  intros Hu. fold (config_bounds cfg). rewrite <- validate_ok_bounds by done.
  by destruct (ingress_validate cfg) as [[]|e].
Qed.

(** Every state of an ingress built from an accepted configuration. *)
Lemma ingress_steps_ok cfg i0 i :
  config_unsigned cfg -> BoundedIngress_new cfg = Ok i0 -> steps ingress_step i0 i ->
  ingress_ok i /\ bi_config i = cfg.
Proof.
  intros Hu Hnew Hst. destruct (BoundedIngress_new_ok cfg i0 Hu Hnew) as (H0 & Hcfg & _).
  apply (steps_invariant ingress_step (fun i => ingress_ok i /\ bi_config i = cfg)) with i0; try done.
  intros j j' [Hj Hc] Hjj. split; [by eapply ingress_step_ok|]. rewrite <- Hc.
  destruct Hjj; try apply on_queue_frame; try done.
  - unfold admit_backend_packet, try_enqueue.
    destruct (stimuli packet), (nonempty_modulators packet); by rewrite ?on_queue_config.
  - rewrite drain_unfold. simpl. unfold ingress_drain_all, ingress_pop.
    by rewrite !on_queue_config.
Qed.

(** The slots of a class: one where a newer packet replaces the older. *)
Definition class_slots (cfg : IngressConfig) (class : MessageClass) : Z :=
  match policy cfg class with Coalesce => 1 | _ => capacity cfg class end.

Lemma class_depth_bounded cfg i0 i class :
  config_unsigned cfg -> BoundedIngress_new cfg = Ok i0 -> steps ingress_step i0 i ->
  cm_depth (metrics_class (ingress_metrics i) class) = len (qs_items (queue i class).2) /\
  len (qs_items (queue i class).2) <= class_slots cfg class.
Proof.
  intros Hu Hnew Hst. destruct (ingress_steps_ok cfg i0 i Hu Hnew Hst) as [(_ & _ & Hs) Hcfg].
  destruct (Hs class) as (Hq & Hinv & _ & _). rewrite Hcfg in *. split; [by destruct class|].
  unfold queue_inv in Hinv. rewrite Hq in Hinv. destruct Hinv as [H1 H2].
  unfold class_slots. simpl in *. lia.
Qed.

(** C35: whatever is done to an ingress built from an accepted configuration -
    blocking and non-blocking enqueues, wake-ups, admissions, pops, drains,
    shutdown - each class's depth and high-water mark stay within its own
    configured capacity (one for a coalescing class), every buffered packet
    respects the payload bound, and the class is closed exactly when the ingress
    is shut down. *)
Theorem ingress_bounded cfg i0 i class :
  config_unsigned cfg -> BoundedIngress_new cfg = Ok i0 -> steps ingress_step i0 i ->
  let m := metrics_class (ingress_metrics i) class in
  let cap := match policy cfg class with Coalesce => 1 | _ => capacity cfg class end in
  cm_depth m <= cm_high_water_mark m <= cap /\ cap <= MAX_QUEUE_CAPACITY /\
  Forall (fun p => len (stimuli p) <= max_payload_len cfg /\
                   len (default [] (modulators p)) <= max_payload_len cfg)
    (qs_items (queue i class).2) /\
  qs_closed (queue i class).2 = is_shutdown i.
Proof.
  intros Hu Hnew Hst. destruct (ingress_steps_ok cfg i0 i Hu Hnew Hst) as [(Hb & _ & Hs) Hcfg'].
  destruct (Hs class) as (Hq & Hinv & Hfit & Hcl). rewrite Hcfg' in *.
  split; [|split; [|split; [|done]]].
  - unfold queue_inv in Hinv. rewrite Hq in Hinv. by destruct class.
  - destruct Hb as (_ & _ & Hb). specialize (Hb class). destruct (policy cfg class); unfold MAX_QUEUE_CAPACITY in *; lia.
  - eapply Forall_impl; [exact Hfit|]. intros p. rewrite Hq. unfold payload_too_large. simpl.
    intros Hp. bool_to_prop.
    split; [lia|]. destruct (modulators p); simpl; rewrite ?len_nil; lia.
Qed.

Lemma ingress_push_queue i c packet wait now started :
  length (bi_queues i) = 4%nat ->
  let r := ingress_push i c packet wait now started in
  r.2 = (let '(q, g) := queue i c in
         if bi_shutting_down i then Return Shutdown
         else crit_ret (push_locked q g packet (push_deadline q wait now) now started)) /\
  queue r.1 c = (let '(q, g) := queue i c in
                 (q, if bi_shutting_down i then bump_shutdown_refused g
                     else crit_state (push_locked q g packet (push_deadline q wait now) now started))).
Proof.
  intros Hlen. cbv zeta. unfold ingress_push. rewrite on_queue_ret, on_queue_queue by done.
  rewrite decide_True by done. destruct (queue i c) as [q g]. by destruct (bi_shutting_down i).
Qed.

(** Class isolation: what an enqueue returns and does to its class depends
    on that class's queue (and the shutdown flag) alone, and no other class's
    queue is touched - bulk traffic can neither fill, delay nor evict control
    traffic. *)
Theorem ingress_class_isolation i j c packet wait now started :
  length (bi_queues i) = 4%nat -> length (bi_queues j) = 4%nat ->
  queue i c = queue j c -> is_shutdown i = is_shutdown j ->
  let ri := ingress_push i c packet wait now started in
  let rj := ingress_push j c packet wait now started in
  ri.2 = rj.2 /\ queue ri.1 c = queue rj.1 c /\
  forall d, d <> c -> queue ri.1 d = queue i d /\ queue rj.1 d = queue j d.
Proof.
  unfold is_shutdown. intros Hi Hj Hq Hd.
  destruct (ingress_push_queue i c packet wait now started Hi) as [-> ->].
  destruct (ingress_push_queue j c packet wait now started Hj) as [-> ->].
  rewrite Hq, Hd. split; [done|]. split; [done|]. intros d Hne.
  unfold ingress_push. by rewrite !on_queue_queue, !decide_False.
Qed.

(** After shutdown every enqueue - blocking, non-blocking or woken from a
    wait - reports [Shutdown] and leaves the queued packets alone, and shutdown
    itself discards nothing, so they can still be drained. *)
Theorem ingress_shutdown_refuses i c packet wait now started deadline timed_out :
  length (bi_queues i) = 4%nat ->
  let down := ingress_shutdown i in
  let push := ingress_push down c packet wait now started in
  let try := try_enqueue down c packet in
  let wake := enqueue_wake down c packet deadline now started timed_out started started in
  (push.2 = Return Shutdown /\ try.2 = Shutdown /\ wake.2 = Return Shutdown) /\
  (forall d, qs_items (queue down d).2 = qs_items (queue i d).2) /\
  (forall d, qs_items (queue push.1 d).2 = qs_items (queue i d).2 /\
             qs_items (queue try.1 d).2 = qs_items (queue i d).2 /\
             qs_items (queue wake.1 d).2 = qs_items (queue i d).2).
Proof.
  intros Hlen down push try wake.
  assert (length (bi_queues down) = 4%nat) as Hlen' by (simpl; by rewrite length_fmap).
  assert (forall d, queue down d = ((queue i d).1, with_closed (queue i d).2)) as Hq
    by (intros d; by apply ingress_shutdown_queue).
  split; [|split; [intros d; by rewrite Hq|]].
  - unfold push, try, wake, ingress_push, try_enqueue, enqueue_wake.
    by rewrite !on_queue_ret, !Hq.
  - intros d. unfold push, try, wake, ingress_push, try_enqueue, enqueue_wake.
    rewrite !on_queue_queue by done. destruct (decide (d = c)) as [->|]; by rewrite !Hq.
Qed.

(** On an open, empty queue any policy stores the packet. *)
Lemma push_never_empty q g packet :
  queue_ok q -> qs_closed g = false -> qs_items g = [] -> payload_too_large q packet = false ->
  push_never q g packet = push_free g packet.
Proof.
  intros [Hcap _] Hc Hi Hs. unfold push_never, push_locked, push_loop, push_coalesce.
  rewrite Hs, Hc, Hi, len_nil. simpl.
  replace (0 <? bq_capacity q) with true by (symmetry; apply Z.ltb_lt; lia).
  by destruct (bq_policy q).
Qed.

Lemma try_enqueue_empty i c packet :
  ingress_ok i -> is_shutdown i = false -> qs_items (queue i c).2 = [] ->
  payload_too_large (queue i c).1 packet = false ->
  let i' := (try_enqueue i c packet).1 in
  (queue i' c).1 = (queue i c).1 /\ qs_items (queue i' c).2 = [packet] /\
  (forall d, d <> c -> queue i' d = queue i d) /\ is_shutdown i' = false /\ ingress_ok i'.
Proof.
  intros Hi Hd He Hs. cbv zeta. pose proof (try_enqueue_ok i c packet Hi) as Hok'.
  destruct Hi as (Hb & Hlen & Hsl). destruct (Hsl c) as (Hq & _ & _ & Hcl).
  unfold try_enqueue, is_shutdown in *. rewrite on_queue_down. rewrite !on_queue_queue, decide_True by done.
  assert (queue_ok (queue i c).1) as Hqok by (rewrite Hq; by apply make_queue_ok).
  destruct (queue i c) as [q g]. simpl in *. rewrite Hd.
  rewrite push_never_empty by (try done; by rewrite Hcl). simpl. rewrite He. split; [done|].
  split; [done|]. split; [|by rewrite Hd in Hok'].
  intros d Hne. by rewrite on_queue_queue, decide_False.
Qed.

Lemma pop_queue i c d :
  length (bi_queues i) = 4%nat ->
  queue (ingress_pop i c).1 d =
  if decide (d = c) then ((queue i c).1, crit_state (pop (queue i c).2)) else queue i d.
Proof.
  intros Hlen. unfold ingress_pop. rewrite on_queue_queue by done.
  destruct (decide (d = c)); [|done]. by destruct (queue i c).
Qed.

Lemma drain_queue i c d :
  length (bi_queues i) = 4%nat ->
  queue (ingress_drain_all i c).1 d =
  if decide (d = c) then ((queue i c).1, crit_state (drain_all (queue i c).2)) else queue i d.
Proof.
  intros Hlen. unfold ingress_drain_all. rewrite on_queue_queue by done.
  destruct (decide (d = c)); [|done]. by destruct (queue i c).
Qed.

Lemma pop_items g :
  crit_ret (pop g) = head (qs_items g) /\ qs_items (crit_state (pop g)) = tail (qs_items g).
Proof. unfold pop. by destruct (qs_items g) eqn:Hi. Qed.

Lemma drain_items g :
  crit_ret (drain_all g) = qs_items g /\ qs_items (crit_state (drain_all g)) = [].
Proof.
  unfold drain_all. destruct (qs_items g) eqn:Hi; [done|].
  split; [|done]. unfold crit_ret. simpl. by rewrite drain_loop_app.
Qed.

(** What one tick takes, and what it leaves. *)
Lemma drain_for_tick_items i :
  length (bi_queues i) = 4%nat ->
  let items c := qs_items (queue i c).2 in
  let left c := qs_items (queue (drain_for_tick i).1 c).2 in
  (drain_for_tick i).2 = MkDrainedTick (items Control) (head (items Reward))
    (head (items Sensory)) (len (items Telemetry)) /\
  left Control = [] /\ left Reward = tail (items Reward) /\
  left Sensory = tail (items Sensory) /\ left Telemetry = [].
Proof.
  intros Hlen. cbv zeta. rewrite drain_unfold. cbv zeta. simpl.
  assert (forall j c, length (bi_queues j) = 4%nat ->
    length (bi_queues (ingress_pop j c).1) = 4%nat /\
    length (bi_queues (ingress_drain_all j c).1) = 4%nat) as Hl.
  { intros j c Hj. unfold ingress_pop, ingress_drain_all. by rewrite !on_queue_length. }
  set (i1 := (ingress_drain_all i Control).1). assert (length (bi_queues i1) = 4%nat) by by apply Hl.
  set (i2 := (ingress_pop i1 Reward).1). assert (length (bi_queues i2) = 4%nat) by by apply Hl.
  set (i3 := (ingress_pop i2 Sensory).1). assert (length (bi_queues i3) = 4%nat) by by apply Hl.
  unfold ingress_pop, ingress_drain_all at 1 2. rewrite !on_queue_ret.
  fold (ingress_drain_all i3 Telemetry).
  rewrite !drain_queue by done. simpl. unfold i3, i2, i1.
  rewrite !pop_queue by done. simpl. rewrite !drain_queue by done. simpl.
  repeat match goal with |- context [queue i ?c] => destruct (queue i c) as [? ?]; simpl end.
  rewrite !(proj1 (pop_items _)), !(proj2 (pop_items _)), !(proj1 (drain_items _)), !(proj2 (drain_items _)).
  done.
Qed.

(** ** Between admission and drain *)

(** An open, sound ingress holding these sensory and reward packets. *)
Definition holding (cfg : IngressConfig) (i : BoundedIngress) (s r : list IngressPacket) : Prop :=
  ingress_ok i /\ is_shutdown i = false /\ bi_config i = cfg /\
  qs_items (queue i Sensory).2 = s /\ qs_items (queue i Reward).2 = r.

(** The configured payload limit, the same for every class. *)
Definition payload_fits (cfg : IngressConfig) (packet : IngressPacket) : Prop :=
  len (stimuli packet) <= max_payload_len cfg /\
  match modulators packet with Some m => len m <= max_payload_len cfg | None => True end.

Lemma payload_fits_queue i c packet :
  ingress_ok i ->
  payload_too_large (queue i c).1 packet = false <-> payload_fits (bi_config i) packet.
Proof.
  intros (_ & _ & Hs). destruct (Hs c) as [-> _]. unfold payload_too_large, payload_fits. simpl.
  rewrite orb_false_iff, !Z.ltb_ge. destruct (modulators packet); [done|].
  change (len []) with 0.
  pose proof (len_nonneg (stimuli packet)). split; [by intros [? _]|intros [? _]; lia].
Qed.

Lemma holding_sensory cfg i r packet :
  holding cfg i [] r -> payload_fits cfg packet ->
  holding cfg (try_enqueue i Sensory packet).1 [packet] r.
Proof.
  intros (Hi & Hd & Hc & HS & HR) Hf. rewrite <- Hc, <- (payload_fits_queue i Sensory) in Hf by done.
  destruct (try_enqueue_empty i Sensory packet Hi Hd HS Hf) as (_ & Hi1 & Hf1 & Hd1 & Hok1).
  split; [done|]. split; [done|]. split; [unfold try_enqueue; by rewrite on_queue_config|].
  split; [done|]. by rewrite Hf1.
Qed.

Lemma holding_reward cfg i s packet :
  holding cfg i s [] -> payload_fits cfg packet ->
  holding cfg (try_enqueue i Reward packet).1 s [packet].
Proof.
  intros (Hi & Hd & Hc & HS & HR) Hf. rewrite <- Hc, <- (payload_fits_queue i Reward) in Hf by done.
  destruct (try_enqueue_empty i Reward packet Hi Hd HR Hf) as (_ & Hi1 & Hf1 & Hd1 & Hok1).
  split; [done|]. split; [done|]. split; [unfold try_enqueue; by rewrite on_queue_config|].
  split; [by rewrite Hf1|done].
Qed.

(** What [admit_backend_packet] files under each class. *)
Definition sensory_part (packet : IngressPacket) : list IngressPacket :=
  match stimuli packet with
  | [] => []
  | _ => [MkPacket (stimuli packet) None (valid_mask packet) (batch_id packet) (timestamp_ns packet)
            (session_id packet) (rejected packet)]
  end.

Definition reward_part (packet : IngressPacket) : list IngressPacket :=
  match nonempty_modulators packet with
  | None => []
  | Some m => [MkPacket [] (Some m) None None None None false]
  end.

Lemma admit_holding cfg i packet :
  holding cfg i [] [] -> payload_fits cfg packet ->
  holding cfg (admit_backend_packet i packet) (sensory_part packet) (reward_part packet).
Proof.
  intros Hh [Hfs Hfm]. unfold admit_backend_packet.
  set (i1 := match stimuli packet with [] => i | _ => _ end).
  assert (holding cfg i1 (sensory_part packet) []) as H1.
  { unfold i1, sensory_part. destruct (stimuli packet) as [|x xs]; [done|]. by apply holding_sensory. }
  unfold reward_part, nonempty_modulators. destruct (modulators packet) as [[|m ms]|]; try done.
  apply holding_reward; [done|]. split; [|done]. simpl. rewrite len_nil.
  pose proof (len_nonneg (stimuli packet)). lia.
Qed.

Lemma drain_holding cfg i s r :
  holding cfg i s r ->
  holding cfg (drain_for_tick i).1 (tail s) (tail r) /\
  dt_sensory (drain_for_tick i).2 = head s /\ dt_reward (drain_for_tick i).2 = head r.
Proof.
  intros (Hi & Hd & Hc & HS & HR). pose proof Hi as (_ & Hlen & _).
  destruct (drain_for_tick_items i Hlen) as (Hdt & _ & HR' & HS' & _).
  rewrite HS in *. rewrite HR in *. rewrite Hdt. split; [|done]. split; [|split; [|split; [|done]]].
  - rewrite drain_unfold. simpl. auto using ingress_drain_all_ok, ingress_pop_ok.
  - rewrite drain_unfold. simpl. unfold is_shutdown, ingress_drain_all, ingress_pop. by rewrite !on_queue_down.
  - rewrite drain_unfold. simpl. unfold ingress_drain_all, ingress_pop. by rewrite !on_queue_config.
Qed.

(** The packet a tick without backlog consumes: modulators alone when there are no
    stimuli, and an empty modulator vector as none. *)
Definition admitted (packet : IngressPacket) : IngressPacket :=
  into_packet (MkDrainedTick [] (head (reward_part packet)) (head (sensory_part packet)) 0).

Lemma admit_drain cfg i packet :
  holding cfg i [] [] -> payload_fits cfg packet ->
  holding cfg (drain_for_tick (admit_backend_packet i packet)).1 [] [] /\
  into_packet (drain_for_tick (admit_backend_packet i packet)).2 = admitted packet.
Proof.
  intros Hh Hf. destruct (drain_holding _ _ _ _ (admit_holding _ _ _ Hh Hf)) as (Hh' & Hs & Hr).
  assert (tail (sensory_part packet) = [] /\ tail (reward_part packet) = []) as [Es Er].
  { unfold sensory_part, reward_part. by destruct (stimuli packet), (nonempty_modulators packet). }
  rewrite Es, Er in Hh'. split; [done|]. unfold admitted, into_packet. by rewrite Hs, Hr.
Qed.

Lemma admitted_self packet :
  stimuli packet <> [] -> modulators packet <> Some [] -> admitted packet = packet.
Proof.
  intros Hs Hm. unfold admitted, into_packet, sensory_part, reward_part, nonempty_modulators.
  destruct packet as [[|x xs] [[|m ms]|] ? ? ? ? ?]; done.
Qed.

(** C26: admission to consumption is lossless: a backend packet that carries
    stimuli and fits, admitted to an open ingress with no sensory or reward
    backlog, is exactly what the next drained tick hands to the network, under
    every overflow policy. *)
Theorem admit_drain_roundtrip i packet :
  ingress_ok i -> is_shutdown i = false ->
  qs_items (queue i Sensory).2 = [] -> qs_items (queue i Reward).2 = [] ->
  payload_too_large (queue i Sensory).1 packet = false ->
  stimuli packet <> [] -> modulators packet <> Some [] ->
  into_packet (drain_for_tick (admit_backend_packet i packet)).2 = packet.
Proof.
  intros Hi Hd HS HR Hfit%payload_fits_queue Hst Hm; [|done].
  destruct (admit_drain (bi_config i) i packet) as [_ ->]; [done..|]. by apply admitted_self.
Qed.

(** ** Witnesses *)

Definition demo_ingress : BoundedIngress := {|
  bi_config := IngressConfig_default;
  bi_queues := [make_queue IngressConfig_default Sensory; make_queue IngressConfig_default Reward;
                make_queue IngressConfig_default Control; make_queue IngressConfig_default Telemetry];
  bi_shutting_down := false;
|}.

Definition demo_stimulus : IngressPacket :=
  MkPacket [f_one32] (Some [f_half32]) None (Some 7) None None false.

Lemma default_unsigned : config_unsigned IngressConfig_default.
Proof. repeat split; simpl; try lia. intros []; simpl; lia. Qed.

Lemma demo_ingress_new : BoundedIngress_new IngressConfig_default = Ok demo_ingress.
Proof. done. Qed.

Lemma demo_ingress_ok : ingress_ok demo_ingress.
Proof. by apply (BoundedIngress_new_ok _ _ default_unsigned demo_ingress_new). Qed.

Lemma ingress_validate_iff_witness :
  config_bounds IngressConfig_default.
Proof. apply (ingress_validate_iff IngressConfig_default default_unsigned). reflexivity. Defined.

Lemma ingress_bounded_witness :
  cm_depth (metrics_class (ingress_metrics (try_enqueue demo_ingress Reward demo_stimulus).1) Reward) <= 1.
Proof.
  destruct (ingress_bounded IngressConfig_default demo_ingress
    (try_enqueue demo_ingress Reward demo_stimulus).1 Reward default_unsigned demo_ingress_new)
    as [[H1 H2] _]; [apply steps_one, is_try_enqueue|]. simpl in *. lia.
Defined.

Lemma ingress_class_isolation_witness :
  (enqueue demo_ingress Control demo_stimulus 0 0).2 =
  (enqueue (admit_backend_packet demo_ingress demo_stimulus) Control demo_stimulus 0 0).2.
Proof.
  apply (ingress_class_isolation demo_ingress (admit_backend_packet demo_ingress demo_stimulus)
    Control demo_stimulus HonorPolicy 0 0); vm_compute; reflexivity.
Defined.

Lemma ingress_shutdown_refuses_witness :
  (try_enqueue (ingress_shutdown demo_ingress) Control demo_stimulus).2 = Shutdown.
Proof.
  apply (ingress_shutdown_refuses demo_ingress Control demo_stimulus HonorPolicy 0 0 None false).
  reflexivity.
Defined.

Lemma admit_drain_roundtrip_witness :
  into_packet (drain_for_tick (admit_backend_packet demo_ingress demo_stimulus)).2 = demo_stimulus.
Proof. apply (admit_drain_roundtrip demo_ingress demo_stimulus demo_ingress_ok); done. Defined.
