(* ===== verification/Health.v ===== *)
(** * The health state machine (src/health/machine.rs, snapshot.rs, handle.rs, clock.rs)

    [HealthMachine] is the machine's fields but for its clock: the instant a
    method reads from the clock is its [now] argument, in nanoseconds.  The
    handle is the machine under a reader-writer lock, so its [apply] and
    [snapshot] are the machine's, serialised. *)

From Stdlib Require Import SpecFloat.
From S2P Require Import Prelude Floats.
Local Open Scope Z_scope.

(** ** Snapshot data (snapshot.rs) *)

Inductive HealthPhase := PhStarting | PhLoadingCheckpoint | PhRunning | PhDegraded | PhDraining | PhFatal.

#[export] Instance HealthPhase_eq_dec : EqDecision HealthPhase.
Proof. solve_decision. Defined.

Definition HealthPhase_ALL : list HealthPhase :=
  [PhStarting; PhLoadingCheckpoint; PhRunning; PhDegraded; PhDraining; PhFatal].

Definition phase_as_str (p : HealthPhase) : string :=
  match p with
  | PhStarting => "starting"
  | PhLoadingCheckpoint => "loading_checkpoint"
  | PhRunning => "running"
  | PhDegraded => "degraded"
  | PhDraining => "draining"
  | PhFatal => "fatal"
  end.

Inductive ReasonCode := RStarting | RCheckpointPending | RStaleInput | ROverload | RDraining | RFatal.

#[export] Instance ReasonCode_eq_dec : EqDecision ReasonCode.
Proof. solve_decision. Defined.

Definition RECOVERABLE : list ReasonCode := [RStaleInput; ROverload].

Definition reason_as_str (r : ReasonCode) : string :=
  match r with
  | RStarting => "starting"
  | RCheckpointPending => "checkpoint_pending"
  | RStaleInput => "stale_input"
  | ROverload => "overload"
  | RDraining => "draining"
  | RFatal => "fatal"
  end.

Inductive FatalCode := InitializationFailedCode | CheckpointInvalidCode | UnspecifiedCode.

#[export] Instance FatalCode_eq_dec : EqDecision FatalCode.
Proof. solve_decision. Defined.

Definition fatal_as_str (c : FatalCode) : string :=
  match c with
  | InitializationFailedCode => "initialization_failed"
  | CheckpointInvalidCode => "checkpoint_invalid"
  | UnspecifiedCode => "unspecified"
  end.

Record CheckpointIdentity := MkCheckpointIdentity {
  ci_id : string;
  ci_digest : option string;
}.

#[export] Instance CheckpointIdentity_eq_dec : EqDecision CheckpointIdentity.
Proof. solve_decision. Defined.

Record FatalState := MkFatalState {
  fs_code : FatalCode;
  fs_detail : string;
}.

#[export] Instance FatalState_eq_dec : EqDecision FatalState.
Proof. solve_decision. Defined.

Record InputFreshness := MkInputFreshness {
  if_age_ms : option Z;
  if_stale : bool;
}.

Record QueuePressure := MkQueuePressure {
  qp_depth : Z;
  qp_capacity : Z;
  qp_ratio : option f64;
  qp_overloaded : bool;
}.

Record RuntimeCounters := MkRuntimeCounters {
  rc_ticks : Z;
  rc_accepted_batches : Z;
  rc_rejected_batches : Z;
  rc_receive_errors : Z;
  rc_emit_errors : Z;
  rc_dropped_spikes : Z;
  rc_diagnostic_emissions : Z;
  rc_suppressed_diagnostics : Z;
}.

#[export] Instance RuntimeCounters_eq_dec : EqDecision RuntimeCounters.
Proof. solve_decision. Defined.

Definition RuntimeCounters_default : RuntimeCounters := MkRuntimeCounters 0 0 0 0 0 0 0 0.

Definition merged_monotonic (self next : RuntimeCounters) : RuntimeCounters := {|
  rc_ticks := Z.max (rc_ticks self) (rc_ticks next);
  rc_accepted_batches := Z.max (rc_accepted_batches self) (rc_accepted_batches next);
  rc_rejected_batches := Z.max (rc_rejected_batches self) (rc_rejected_batches next);
  rc_receive_errors := Z.max (rc_receive_errors self) (rc_receive_errors next);
  rc_emit_errors := Z.max (rc_emit_errors self) (rc_emit_errors next);
  rc_dropped_spikes := Z.max (rc_dropped_spikes self) (rc_dropped_spikes next);
  rc_diagnostic_emissions := Z.max (rc_diagnostic_emissions self) (rc_diagnostic_emissions next);
  rc_suppressed_diagnostics := Z.max (rc_suppressed_diagnostics self) (rc_suppressed_diagnostics next);
|}.

Record HealthSnapshot := MkHealthSnapshot {
  hs_live : bool;
  hs_ready : bool;
  hs_phase : HealthPhase;
  hs_reasons : list ReasonCode;
  hs_last_successful_tick_ms : option Z;
  hs_tick_age_ms : option Z;
  hs_checkpoint : option CheckpointIdentity;
  hs_input_freshness : InputFreshness;
  hs_queue_pressure : QueuePressure;
  hs_fatal : option FatalState;
  hs_counters : RuntimeCounters;
  hs_observed_at_ms : Z;
}.

(** ** The test clock (clock.rs) *)

(** [FakeClock::advance]: the shared offset saturates; [duration] is in
    nanoseconds. *)
Definition fake_clock_advance (offset duration : Z) : Z :=
  sat_add64 offset (if duration <=? u64_max then duration else u64_max).

Definition fake_clock_now (origin offset : Z) : Z := origin + offset.

(** ** Limits *)

Record HealthLimits := MkHealthLimits {
  hl_stale_after : Z;
  hl_overload_high : f64;
  hl_overload_low : f64;
}.

Definition HealthLimits_default : HealthLimits := {|
  hl_stale_after := 500000000;
  hl_overload_high := f_090;
  hl_overload_low := f_070;
|}.

Definition finite_or (value fallback : f64) : f64 :=
  if is_finite value then value else fallback.

(** [(0.0..=1.0).contains(&x)]. *)
Definition in_unit (x : f64) : bool := f_le f_zero x && f_le x f_one64.

Definition sanitized (l : HealthLimits) : HealthLimits :=
  let high := finite_or (hl_overload_high l) f_090 in
  let low := finite_or (hl_overload_low l) f_070 in
  if in_unit high && in_unit low && f_gt high low
  then {| hl_stale_after := hl_stale_after l; hl_overload_high := high; hl_overload_low := low |}
  else {| hl_stale_after := hl_stale_after l; hl_overload_high := f_090; hl_overload_low := f_070 |}.

(** ** Events *)

Inductive HealthEvent :=
| ProcessStarted
| InitializationCompleted
| InitializationFailed (detail : string)
| CheckpointValidated (identity : CheckpointIdentity)
| CheckpointRejected (detail : string)
| TickSucceeded
| IngressObserved
| QueuePressureEvent (depth capacity : Z)
| CountersPublished (counters : RuntimeCounters)
| BeginDrain
| FatalEvent (code : FatalCode) (detail : string).

#[export] Instance HealthEvent_eq_dec : EqDecision HealthEvent.
Proof. solve_decision. Defined.

(** ** The machine *)

Record HealthMachine := MkHealthMachine {
  hm_limits : HealthLimits;
  hm_started : bool;
  hm_initialized : bool;
  hm_checkpoint_ok : bool;
  hm_draining : bool;
  hm_started_at : option Z;
  hm_checkpoint_at : option Z;
  hm_last_tick : option Z;
  hm_last_ingress : option Z;
  hm_checkpoint : option CheckpointIdentity;
  hm_queue_depth : Z;
  hm_queue_capacity : Z;
  hm_overloaded : bool;
  hm_counters : RuntimeCounters;
  hm_fatal : option FatalState;
}.

Definition HealthMachine_new (limits : HealthLimits) : HealthMachine := {|
  hm_limits := sanitized limits;
  hm_started := false;
  hm_initialized := false;
  hm_checkpoint_ok := false;
  hm_draining := false;
  hm_started_at := None;
  hm_checkpoint_at := None;
  hm_last_tick := None;
  hm_last_ingress := None;
  hm_checkpoint := None;
  hm_queue_depth := 0;
  hm_queue_capacity := 0;
  hm_overloaded := false;
  hm_counters := RuntimeCounters_default;
  hm_fatal := None;
|}.

(** Updates of the fields each handler assigns. *)
Definition set_started (now : Z) (m : HealthMachine) : HealthMachine :=
  {| hm_limits := hm_limits m; hm_started := true; hm_initialized := hm_initialized m;
     hm_checkpoint_ok := hm_checkpoint_ok m; hm_draining := hm_draining m;
     hm_started_at := Some now; hm_checkpoint_at := hm_checkpoint_at m;
     hm_last_tick := hm_last_tick m; hm_last_ingress := hm_last_ingress m;
     hm_checkpoint := hm_checkpoint m; hm_queue_depth := hm_queue_depth m;
     hm_queue_capacity := hm_queue_capacity m; hm_overloaded := hm_overloaded m;
     hm_counters := hm_counters m; hm_fatal := hm_fatal m |}.

(** [initialized], [checkpoint_ok], [draining] and [fatal]. *)
Definition set_flags (init ck drain : bool) (fatal : option FatalState) (m : HealthMachine) :
    HealthMachine :=
  {| hm_limits := hm_limits m; hm_started := hm_started m; hm_initialized := init;
     hm_checkpoint_ok := ck; hm_draining := drain;
     hm_started_at := hm_started_at m; hm_checkpoint_at := hm_checkpoint_at m;
     hm_last_tick := hm_last_tick m; hm_last_ingress := hm_last_ingress m;
     hm_checkpoint := hm_checkpoint m; hm_queue_depth := hm_queue_depth m;
     hm_queue_capacity := hm_queue_capacity m; hm_overloaded := hm_overloaded m;
     hm_counters := hm_counters m; hm_fatal := fatal |}.

Definition set_checkpoint (identity : CheckpointIdentity) (now : Z) (m : HealthMachine) :
    HealthMachine :=
  {| hm_limits := hm_limits m; hm_started := hm_started m; hm_initialized := hm_initialized m;
     hm_checkpoint_ok := true; hm_draining := hm_draining m;
     hm_started_at := hm_started_at m; hm_checkpoint_at := Some now;
     hm_last_tick := hm_last_tick m; hm_last_ingress := hm_last_ingress m;
     hm_checkpoint := Some identity; hm_queue_depth := hm_queue_depth m;
     hm_queue_capacity := hm_queue_capacity m; hm_overloaded := hm_overloaded m;
     hm_counters := hm_counters m; hm_fatal := hm_fatal m |}.

(** [last_tick], [last_ingress], the queue fields and the counters. *)
Definition set_runtime (tick ingress : option Z) (depth cap : Z) (over : bool)
    (c : RuntimeCounters) (m : HealthMachine) : HealthMachine :=
  {| hm_limits := hm_limits m; hm_started := hm_started m; hm_initialized := hm_initialized m;
     hm_checkpoint_ok := hm_checkpoint_ok m; hm_draining := hm_draining m;
     hm_started_at := hm_started_at m; hm_checkpoint_at := hm_checkpoint_at m;
     hm_last_tick := tick; hm_last_ingress := ingress;
     hm_checkpoint := hm_checkpoint m; hm_queue_depth := depth;
     hm_queue_capacity := cap; hm_overloaded := over;
     hm_counters := c; hm_fatal := hm_fatal m |}.

Definition next_overload (currently : bool) (depth cap : Z) (high low : f64) : bool :=
  if cap =? 0 then false
  else
    let ratio := f64_div (f64_of_int depth) (f64_of_int cap) in
    if currently then f_gt ratio low else f_ge ratio high.

Definition enter_fatal (code : FatalCode) (detail : string) (m : HealthMachine) : HealthMachine :=
  if is_some (hm_fatal m) then m
  else set_flags (hm_initialized m) false (hm_draining m) (Some (MkFatalState code detail)) m.

Definition fatal_if_started (code : FatalCode) (detail : string) (m : HealthMachine) :
    HealthMachine :=
  if hm_started m then enter_fatal code detail m else m.

Definition mark_started (now : Z) (m : HealthMachine) : HealthMachine :=
  if negb (hm_started m) then set_started now m else m.

Definition mark_initialized (m : HealthMachine) : HealthMachine :=
  if hm_started m && negb (is_some (hm_fatal m)) && negb (hm_draining m)
  then set_flags true (hm_checkpoint_ok m) (hm_draining m) (hm_fatal m) m
  else m.

Definition can_accept_checkpoint (m : HealthMachine) : bool :=
  hm_started m && negb (is_some (hm_fatal m)) && negb (hm_draining m) && hm_initialized m.

Definition apply_boot (event : HealthEvent) (now : Z) (m : HealthMachine) : HealthMachine :=
  match event with
  | ProcessStarted => mark_started now m
  | InitializationCompleted => mark_initialized m
  | InitializationFailed detail => fatal_if_started InitializationFailedCode detail m
  | _ => m
  end.

Definition apply_checkpoint (event : HealthEvent) (now : Z) (m : HealthMachine) : HealthMachine :=
  match event with
  | CheckpointValidated identity =>
    if can_accept_checkpoint m then set_checkpoint identity now m else m
  | CheckpointRejected detail => fatal_if_started CheckpointInvalidCode detail m
  | _ => m
  end.

Definition apply_terminal (event : HealthEvent) (m : HealthMachine) : HealthMachine :=
  match event with
  | BeginDrain =>
    if negb (is_some (hm_fatal m))
    then set_flags (hm_initialized m) (hm_checkpoint_ok m) true (hm_fatal m) m
    else m
  | FatalEvent code detail => enter_fatal code detail m
  | _ => m
  end.

Definition apply_runtime (event : HealthEvent) (now : Z) (m : HealthMachine) : HealthMachine :=
  match event with
  | TickSucceeded =>
    set_runtime (Some now) (hm_last_ingress m) (hm_queue_depth m) (hm_queue_capacity m)
      (hm_overloaded m) (hm_counters m) m
  | IngressObserved =>
    set_runtime (hm_last_tick m) (Some now) (hm_queue_depth m) (hm_queue_capacity m)
      (hm_overloaded m) (hm_counters m) m
  | CountersPublished next =>
    set_runtime (hm_last_tick m) (hm_last_ingress m) (hm_queue_depth m) (hm_queue_capacity m)
      (hm_overloaded m) (merged_monotonic (hm_counters m) next) m
  | QueuePressureEvent depth cap =>
    set_runtime (hm_last_tick m) (hm_last_ingress m) depth cap
      (next_overload (hm_overloaded m) depth cap (hl_overload_high (hm_limits m))
         (hl_overload_low (hm_limits m)))
      (hm_counters m) m
  | _ => m
  end.

Definition apply_lifecycle (event : HealthEvent) (now : Z) (m : HealthMachine) : HealthMachine :=
  match event with
  | ProcessStarted | InitializationCompleted | InitializationFailed _ => apply_boot event now m
  | CheckpointValidated _ | CheckpointRejected _ => apply_checkpoint event now m
  | BeginDrain | FatalEvent _ _ => apply_terminal event m
  | _ => m
  end.

Definition health_apply (event : HealthEvent) (now : Z) (m : HealthMachine) : HealthMachine :=
  match event with
  | TickSucceeded | IngressObserved | QueuePressureEvent _ _ | CountersPublished _ =>
    apply_runtime event now m
  | other => apply_lifecycle other now m
  end.

(** ** Snapshots *)

(** [saturating_duration_since] is [sat_sub]; [as_millis] truncates. *)
Definition duration_ms (d : Z) : Z :=
  let ms := d / 1000000 in if ms <=? u64_max then ms else u64_max.

Definition is_initialized (m : HealthMachine) : bool :=
  hm_started m && hm_initialized m && hm_checkpoint_ok m.

Definition is_serving (m : HealthMachine) : bool :=
  negb (hm_draining m) && negb (is_some (hm_fatal m)).

Definition is_ready (m : HealthMachine) : bool := is_initialized m && is_serving m.

Definition input_age_ms (m : HealthMachine) (now : Z) : option Z :=
  (fun t => duration_ms (sat_sub now t)) <$> option_or (hm_last_ingress m) (hm_checkpoint_at m).

Definition queue_ratio (m : HealthMachine) : option f64 :=
  if hm_queue_capacity m =? 0 then None
  else Some (f64_div (f64_of_int (hm_queue_depth m)) (f64_of_int (hm_queue_capacity m))).

Definition queue_pressure (m : HealthMachine) : QueuePressure := {|
  qp_depth := hm_queue_depth m;
  qp_capacity := hm_queue_capacity m;
  qp_ratio := queue_ratio m;
  qp_overloaded := hm_overloaded m;
|}.

Definition compute_stale (m : HealthMachine) (now : Z) : bool :=
  if negb (hm_initialized m) || negb (hm_checkpoint_ok m) then false
  else match option_or (hm_last_ingress m) (hm_checkpoint_at m) with
       | Some t => hl_stale_after (hm_limits m) <=? sat_sub now t
       | None => false
       end.

Definition boot_reasons (m : HealthMachine) : list ReasonCode :=
  if negb (hm_initialized m) then [RStarting]
  else if negb (hm_checkpoint_ok m) then [RCheckpointPending]
  else [].

Definition push_runtime_reasons (m : HealthMachine) (rs : list ReasonCode) (stale : bool) :
    list ReasonCode :=
  let rs := if hm_draining m then rs ++ [RDraining] else rs in
  let rs := if stale then rs ++ [RStaleInput] else rs in
  if hm_overloaded m then rs ++ [ROverload] else rs.

Definition reasons (m : HealthMachine) (stale : bool) : list ReasonCode :=
  if is_some (hm_fatal m) then [RFatal]
  else push_runtime_reasons m (boot_reasons m) stale.

Definition terminal_phase (m : HealthMachine) : option HealthPhase :=
  if is_some (hm_fatal m) then Some PhFatal
  else if hm_draining m then Some PhDraining
  else None.

Definition checkpoint_phase (m : HealthMachine) (stale : bool) : HealthPhase :=
  if negb (hm_checkpoint_ok m) then PhLoadingCheckpoint
  else if stale || hm_overloaded m then PhDegraded
  else PhRunning.

Definition operational_phase (m : HealthMachine) (stale : bool) : HealthPhase :=
  if negb (hm_initialized m) then PhStarting else checkpoint_phase m stale.

Definition health_phase (m : HealthMachine) (stale : bool) : HealthPhase :=
  default (operational_phase m stale) (terminal_phase m).

Definition snapshot (m : HealthMachine) (now : Z) : HealthSnapshot :=
  let origin := default now (hm_started_at m) in
  let ms t := duration_ms (sat_sub t origin) in
  let stale := compute_stale m now in {|
    hs_live := hm_started m;
    hs_ready := is_ready m;
    hs_phase := health_phase m stale;
    hs_reasons := reasons m stale;
    hs_last_successful_tick_ms := ms <$> hm_last_tick m;
    hs_tick_age_ms := (fun t => duration_ms (sat_sub now t)) <$> hm_last_tick m;
    hs_checkpoint := hm_checkpoint m;
    hs_input_freshness := {| if_age_ms := input_age_ms m now; if_stale := stale |};
    hs_queue_pressure := queue_pressure m;
    hs_fatal := hm_fatal m;
    hs_counters := hm_counters m;
    hs_observed_at_ms := ms now;
  |}.

(** ** The handle (handle.rs): the machine behind a lock *)

Definition handle_started (limits : HealthLimits) (now : Z) : HealthMachine :=
  health_apply ProcessStarted now (HealthMachine_new limits).

(** [try_snapshot] gives up while a writer holds the lock. *)
Definition try_snapshot (write_locked : bool) (m : HealthMachine) (now : Z) :
    option HealthSnapshot :=
  if write_locked then None else Some (snapshot m now).

(** ** Runs of the machine *)

(** Events applied in order, each with the instant its [apply] reads. *)
Definition health_run (es : list (HealthEvent * Z)) (m : HealthMachine) : HealthMachine :=
  fold_left (fun m '(event, now) => health_apply event now m) es m.

Definition run_from (limits : HealthLimits) (es : list (HealthEvent * Z)) : HealthMachine :=
  health_run es (HealthMachine_new limits).

(** ** The lifecycle specification

    What the machine promises of readiness, as a five-state automaton over event
    names alone: [None] is terminal (draining or fatal); [Some n] counts the boot
    steps seen in order - started, initialised, checkpoint validated.

    A [Fatal] event is terminal in every state, also before [ProcessStarted]:
    [apply_terminal] enters it unguarded, where the other failures go through
    [fatal_if_started].  docs/health.md says otherwise (its fatal row starts from
    "any started non-fatal" state, "only after [ProcessStarted]");
    [documented_next] below is that reading, and [unstarted_fatal_terminal] and
    [documented_started] say exactly where the two differ. *)
Definition lifecycle_next (s : option nat) (event : HealthEvent) : option nat :=
  match s, event with
  | None, _ => None
  | _, BeginDrain | _, FatalEvent _ _ => None
  | Some 0%nat, ProcessStarted => Some 1%nat
  | Some 0%nat, _ => Some 0%nat
  | Some _, InitializationFailed _ | Some _, CheckpointRejected _ => None
  | Some 1%nat, InitializationCompleted => Some 2%nat
  | Some 2%nat, CheckpointValidated _ => Some 3%nat
  | Some n, _ => Some n
  end.

Definition lifecycle (es : list (HealthEvent * Z)) : option nat :=
  fold_left (fun s '(event, _) => lifecycle_next s event) es (Some 0%nat).

(** The automaton docs/health.md describes: an unstarted process ignores [Fatal]. *)
Definition documented_next (s : option nat) (event : HealthEvent) : option nat :=
  match s, event with
  | Some 0%nat, FatalEvent _ _ => Some 0%nat
  | _, _ => lifecycle_next s event
  end.

Definition documented (es : list (HealthEvent * Z)) : option nat :=
  fold_left (fun s '(event, _) => documented_next s event) es (Some 0%nat).

(** The state of the automaton a machine is in. *)
Definition lifecycle_of (m : HealthMachine) : option nat :=
  if is_some (hm_fatal m) || hm_draining m then None
  else if negb (hm_started m) then Some 0%nat
  else if negb (hm_initialized m) then Some 1%nat
  else if negb (hm_checkpoint_ok m) then Some 2%nat
  else Some 3%nat.

(** ** The machine's invariant *)

Record health_ok (m : HealthMachine) : Prop := {
  ho_init : hm_initialized m = true -> hm_started m = true;
  ho_ck : hm_checkpoint_ok m = true ->
    hm_initialized m = true /\ is_Some (hm_checkpoint m) /\ is_Some (hm_checkpoint_at m);
  ho_fatal : is_Some (hm_fatal m) -> hm_checkpoint_ok m = false;
  ho_started : hm_started m = is_some (hm_started_at m);
}.

(** Case analysis on the handlers' guards. *)
Ltac health_cases :=
  unfold health_apply, apply_runtime, apply_lifecycle, apply_boot, apply_checkpoint,
    apply_terminal, mark_started, mark_initialized, fatal_if_started, enter_fatal,
    can_accept_checkpoint;
  repeat match goal with
  | |- context [if ?b then _ else _] => destruct b eqn:?; simpl in *
  end.

Lemma health_new_ok limits : health_ok (HealthMachine_new limits).
Proof. by split; simpl; try (intros [? [=]]). Qed.

Lemma health_apply_ok event now m : health_ok m -> health_ok (health_apply event now m).
Proof.
  intros [H1 H2 H3 H4]. destruct event; health_cases; split; simpl; try done.
  all: bool_to_prop; try (intros; eauto; fail).
  - intros Hc. by destruct (H2 Hc) as (_ & ? & ?).
  - intros [f Hf]. by rewrite Hf in *.
Qed.

Lemma health_run_ok es m : health_ok m -> health_ok (health_run es m).
Proof.
  revert m. induction es as [|[event now] es IH]; simpl; [done|].
  intros m Hm. by apply IH, health_apply_ok.
Qed.

Lemma run_from_ok limits es : health_ok (run_from limits es).
Proof. apply health_run_ok, health_new_ok. Qed.

(** One event moves the machine as it moves the automaton. *)
Lemma lifecycle_step event now m :
  health_ok m -> lifecycle_of (health_apply event now m) = lifecycle_next (lifecycle_of m) event.
Proof.
  intros [H1 H2 _ _].
  destruct m as [lim [] [] [] [] sa ca lt li cp qd qc ov co [f|]]; simpl in *;
    try (by destruct H2); try (by discriminate H1); by destruct event.
Qed.

Lemma lifecycle_run es m :
  health_ok m ->
  lifecycle_of (health_run es m) =
  fold_left (fun s '(event, _) => lifecycle_next s event) es (lifecycle_of m).
Proof.
  revert m. induction es as [|[event now] es IH]; simpl; [done|].
  intros m Hm. rewrite IH by by apply health_apply_ok. by rewrite lifecycle_step.
Qed.

(** Draining and fatal machines stay so; the first fatal state is kept. *)
Lemma health_apply_sticky event now m :
  health_ok m ->
  (hm_draining m = true -> hm_draining (health_apply event now m) = true) /\
  (forall f, hm_fatal m = Some f -> hm_fatal (health_apply event now m) = Some f) /\
  (hm_started m = true -> hm_started (health_apply event now m) = true /\
                          hm_started_at (health_apply event now m) = hm_started_at m).
Proof.
  intros _. destruct m as [lim st ini ck dr sa ca lt li cp qd qc ov co fa]. simpl.
  destruct event; simpl; unfold mark_started, mark_initialized, fatal_if_started, enter_fatal; simpl.
  all: repeat match goal with
    | |- context [if ?b then _ else _] => destruct b eqn:?; simpl in *
    end.
  all: try done.
  all: bool_to_prop; repeat split; intros; subst; simpl in *; done.
Qed.

Lemma health_run_sticky es m :
  health_ok m ->
  (hm_draining m = true -> hm_draining (health_run es m) = true) /\
  (forall f, hm_fatal m = Some f -> hm_fatal (health_run es m) = Some f) /\
  (hm_started m = true -> hm_started (health_run es m) = true /\
                          hm_started_at (health_run es m) = hm_started_at m).
Proof.
  revert m. induction es as [|[event now] es IH]; simpl; [done|]. intros m Hm.
  destruct (health_apply_sticky event now m Hm) as (H1 & H2 & H3).
  destruct (IH _ (health_apply_ok event now m Hm)) as (I1 & I2 & I3).
  repeat split; auto; intros; by apply I3, H3 || (destruct (H3 H) as [Ha <-]; by apply I3).
Qed.

(** ** Counters *)

Definition counter_fields : list (RuntimeCounters -> Z) :=
  [rc_ticks; rc_accepted_batches; rc_rejected_batches; rc_receive_errors;
   rc_emit_errors; rc_dropped_spikes; rc_diagnostic_emissions; rc_suppressed_diagnostics].

Lemma merged_field f a b : In f counter_fields -> f (merged_monotonic a b) = Z.max (f a) (f b).
Proof. simpl. intuition; by subst. Qed.

Lemma apply_counters event now m :
  hm_counters (health_apply event now m) =
  match event with
  | CountersPublished c => merged_monotonic (hm_counters m) c
  | _ => hm_counters m
  end.
Proof. destruct event; health_cases; done. Qed.

(** ** Overload *)

(** The hysteresis of the default limits, in integers. *)
Definition overload_spec (currently : bool) (depth cap : Z) : bool :=
  if currently then 7 * cap <? 10 * depth else 9 * cap <=? 10 * depth.

(** All depths of a queue of capacity [n], each with its one division. *)
Definition overload_table (n : nat) (high low : f64) : bool :=
  let cap := Z.of_nat n in
  let fcap := f64_of_int cap in
  forallb (fun d =>
    let depth := Z.of_nat d in
    let ratio := f64_div (f64_of_int depth) fcap in
    eqb (f_gt ratio low) (overload_spec true depth cap) &&
    eqb (f_ge ratio high) (overload_spec false depth cap)) (seq 0 (S n)).

Lemma overload_table_209 : overload_table 209 f_090 f_070 = true.
Proof. by vm_compute. Qed.

Lemma overload_table_spec n high low currently depth :
  overload_table n high low = true -> 0 < Z.of_nat n -> 0 <= depth <= Z.of_nat n ->
  next_overload currently depth (Z.of_nat n) high low = overload_spec currently depth (Z.of_nat n).
Proof.
  intros H Hn Hd. unfold overload_table in H.
  rewrite forallb_forall in H. specialize (H (Z.to_nat depth)).
  rewrite in_seq in H. specialize (H ltac:(lia)).
  cbv zeta in H. rewrite !Z2Nat.id in H by lia.
  apply andb_true_iff in H as [H1%eqb_prop H2%eqb_prop].
  unfold next_overload. replace (Z.of_nat n =? 0) with false by (symmetry; apply Z.eqb_neq; lia).
  by destruct currently.
Qed.

Lemma next_overload_default currently depth :
  0 <= depth <= 209 ->
  next_overload currently depth 209 f_090 f_070 = overload_spec currently depth 209.
Proof. intros Hd. by apply (overload_table_spec 209 _ _ _ _ overload_table_209). Qed.

(** Sanitised limits are usable thresholds whatever was configured. *)
Lemma sanitized_sound l :
  let l' := sanitized l in
  in_unit (hl_overload_low l') = true /\ in_unit (hl_overload_high l') = true /\
  f_lt (hl_overload_low l') (hl_overload_high l') = true /\
  hl_stale_after l' = hl_stale_after l /\ sanitized l' = l'.
Proof.
  assert (forall x, in_unit x = true -> is_finite x = true) as Hfin.
  { intros x. unfold in_unit, f_le, SFleb. by destruct x as [[]|[]| |[] ? ?]. }
  assert (exists h o, sanitized l = MkHealthLimits (hl_stale_after l) h o /\
    in_unit o = true /\ in_unit h = true /\ f_lt o h = true) as (h & o & E & Ho & Hh & Hgt).
  { unfold sanitized. cbv zeta.
    set (h := finite_or (hl_overload_high l) f_090).
    set (o := finite_or (hl_overload_low l) f_070).
    destruct (in_unit h && in_unit o && f_gt h o) eqn:Hb.
    - apply andb_true_iff in Hb as [[Hh Ho]%andb_true_iff Hgt]. by exists h, o.
    - by exists f_090, f_070. }
  cbv zeta. rewrite E. split; [done|]. split; [done|]. split; [done|]. split; [done|].
  unfold sanitized. cbn [hl_stale_after hl_overload_high hl_overload_low].
  unfold finite_or, f_gt. unfold f_lt in Hgt. by rewrite !Hfin, Hh, Ho, Hgt.
Qed.

(** The limits are fixed at construction. *)
Lemma health_run_limits es m : hm_limits (health_run es m) = hm_limits m.
Proof.
  revert m. induction es as [|[e t] es IH]; intros m; simpl; [done|]. rewrite IH.
  destruct e; health_cases; done.
Qed.

(** Staleness is a comparison against the last observation. *)
Lemma compute_stale_true m now :
  health_ok m ->
  compute_stale m now = true <->
  hm_checkpoint_ok m = true /\
  exists t, option_or (hm_last_ingress m) (hm_checkpoint_at m) = Some t /\
            hl_stale_after (hm_limits m) <= sat_sub now t.
Proof.
  intros [_ H2 _ _]. unfold compute_stale.
  destruct (hm_checkpoint_ok m) eqn:Hc; [|rewrite orb_true_r; by split; [|intros [[=] _]]].
  destruct H2 as (-> & _ & [t0 Ht]); [done|]. simpl.
  destruct (option_or _ _) as [t|] eqn:Ho.
  - rewrite Z.leb_le. split; [eauto|]. by intros (_ & ? & [= <-] & ?).
  - by split; [|intros (_ & ? & [=] & _)].
Qed.

(** ** The guarantees of the health machine *)

(** Once started, the documented automaton and the machine's move together. *)
Lemma documented_from (es : list (HealthEvent * Z)) s :
  s <> Some 0%nat ->
  fold_left (fun s '(event, _) => documented_next s event) es s =
  fold_left (fun s '(event, _) => lifecycle_next s event) es s.
Proof.
  revert s. induction es as [|[event at_] es IH]; intros s Hs; [done|].
  assert (documented_next s event = lifecycle_next s event) as E by (by destruct s as [[|n]|]).
  cbn [fold_left]. rewrite E. apply IH. by destruct s as [[|[|[|n]]]|], event.
Qed.

(** A process that is started first - as [HealthHandle::started] starts every
    daemon's - keeps to the documented automaton. *)
Lemma documented_started es at_ :
  lifecycle ((ProcessStarted, at_) :: es) = documented ((ProcessStarted, at_) :: es).
Proof. symmetry. by apply (documented_from es (Some 1%nat)). Qed.

(** Where they differ: a [Fatal] event that comes before [ProcessStarted] is kept,
    and the boot that follows it never becomes ready; the documented automaton
    forgets it. *)
Lemma unstarted_fatal_terminal limits code detail at_ es now :
  let snap := snapshot (run_from limits ((FatalEvent code detail, at_) :: es)) now in
  hs_ready snap = false /\ hs_phase snap = PhFatal /\
  documented ((FatalEvent code detail, at_) :: es) = documented es.
Proof.
  cbv zeta. set (m := run_from _ _).
  assert (hm_fatal m = Some (MkFatalState code detail)) as Hf.
  { apply (health_run_sticky es (health_apply (FatalEvent code detail) at_ (HealthMachine_new limits)));
      [apply health_apply_ok, health_new_ok|done]. }
  simpl. unfold is_ready, is_serving, health_phase, terminal_phase. rewrite Hf. simpl.
  by rewrite !andb_false_r.
Qed.

(** C18: the machine refines the lifecycle automaton: after any sequence of
    events at any instants, a snapshot is ready exactly when the process was
    started, then initialised, then given a validated checkpoint, in that order,
    and has been neither drained nor fatally failed; and the phase shown names
    the automaton's state, with [Degraded] for a ready machine under stale input
    or overload.  A [Fatal] event is terminal for the automaton also before
    [ProcessStarted], as it is in the code and unlike what docs/health.md says
    ([unstarted_fatal_terminal]); for every process that is started first the
    automaton is the documented one. *)
Theorem health_refines_lifecycle limits es now :
  let snap := snapshot (run_from limits es) now in
  hs_ready snap = bool_decide (lifecycle es = Some 3%nat) /\
  match lifecycle es with
  | None => hs_phase snap = PhFatal \/ hs_phase snap = PhDraining
  | Some 3%nat =>
    hs_phase snap = if if_stale (hs_input_freshness snap) || qp_overloaded (hs_queue_pressure snap)
                    then PhDegraded else PhRunning
  | Some 2%nat => hs_phase snap = PhLoadingCheckpoint
  | _ => hs_phase snap = PhStarting
  end /\
  match es with (ProcessStarted, _) :: _ => lifecycle es = documented es | _ => True end.
Proof.
  cbv zeta. apply Logic.and_assoc. split; [|destruct es as [|[[] at_] es]; try done; apply documented_started].
  pose proof (run_from_ok limits es) as Hok.
  assert (lifecycle es = lifecycle_of (run_from limits es)) as ->
    by (symmetry; apply (lifecycle_run es), health_new_ok).
  set (m := run_from limits es) in *. destruct Hok as [H1 H2 _ _].
  simpl. generalize (compute_stale m now). intros stale.
  unfold is_ready, is_initialized, is_serving, health_phase, terminal_phase, operational_phase,
    checkpoint_phase, lifecycle_of.
  destruct (hm_fatal m), (hm_draining m), (hm_started m), (hm_initialized m), (hm_checkpoint_ok m);
    simpl; try (by destruct H2); try (by discriminate H1); auto.
Qed.

(** Fatal and draining are sticky: whatever happens afterwards, the first
    fatal code and detail stay on the snapshot, a draining process stays out of
    service, and neither is ever ready again - while liveness, once set, and the
    time origin of the ages never change. *)
Theorem health_terminal_sticky limits es es' now now' :
  let before := snapshot (run_from limits es) now in
  let after := snapshot (run_from limits (es ++ es')) now' in
  (forall f, hs_fatal before = Some f ->
     hs_fatal after = Some f /\ hs_phase after = PhFatal /\ hs_reasons after = [RFatal] /\
     hs_ready after = false) /\
  (hs_phase before = PhDraining ->
     hs_ready after = false /\ (hs_phase after = PhDraining \/ hs_phase after = PhFatal)) /\
  (hs_live before = true -> hs_live after = true).
Proof.
  cbv zeta. unfold run_from, health_run. rewrite fold_left_app.
  fold (health_run es (HealthMachine_new limits)). set (m := health_run es _).
  fold (health_run es' m).
  assert (health_ok m) as Hm by apply run_from_ok.
  destruct (health_run_sticky es' m Hm) as (Hd & Hf & Hs). set (m' := health_run es' m) in *.
  simpl. unfold is_ready, is_serving, health_phase, terminal_phase, reasons.
  split; [|split].
  - intros f Hff. rewrite (Hf f Hff). simpl. by rewrite !andb_false_r.
  - destruct (hm_fatal m) eqn:Hfm; simpl; [done|]. destruct (hm_draining m) eqn:Hdm; simpl.
    + rewrite Hd by done. simpl. rewrite !andb_false_r. destruct (hm_fatal m'); simpl; auto.
    + unfold operational_phase, checkpoint_phase.
      by repeat case_goal.
  - intros Hst. by apply Hs.
Qed.

(** Closed propositional goals about concrete lists of reasons. *)
Ltac logic_cases :=
  repeat match goal with
  | |- _ /\ _ => split
  | |- _ <-> _ => split
  | |- _ -> _ => intro
  | H : _ /\ _ |- _ => destruct H
  | H : _ \/ _ |- _ => destruct H
  | H : False |- _ => destruct H
  | H : Forall _ (_ :: _) |- _ => inversion H; clear H; subst
  | |- Forall _ (_ :: _) => apply Forall_cons
  | |- Forall _ [] => constructor
  | H : In _ (_ :: _) |- _ => simpl in H
  | |- In _ (_ :: _) => simpl
  end; try discriminate; try done; auto.

(** C36: a snapshot never contradicts itself: a ready one is live, carries the
    identity of its checkpoint, and shows no fatal state; [Running] means ready
    with no reason at all, [Degraded] ready with only recoverable reasons; and
    the fatal reason, phase and payload appear together. *)
Theorem health_snapshot_consistent limits es now :
  let snap := snapshot (run_from limits es) now in
  (hs_ready snap = true ->
     hs_live snap = true /\ is_Some (hs_checkpoint snap) /\ hs_fatal snap = None /\
     (hs_phase snap = PhRunning \/ hs_phase snap = PhDegraded)) /\
  (hs_phase snap = PhRunning <-> hs_ready snap = true /\ hs_reasons snap = []) /\
  (hs_phase snap = PhDegraded <->
     hs_ready snap = true /\ hs_reasons snap <> [] /\
     Forall (fun r => In r RECOVERABLE) (hs_reasons snap)) /\
  (hs_phase snap = PhFatal <-> is_Some (hs_fatal snap)) /\
  (In RFatal (hs_reasons snap) <-> is_Some (hs_fatal snap)) /\
  (hs_phase snap = PhDraining <-> In RDraining (hs_reasons snap)).
Proof.
  cbv zeta. pose proof (run_from_ok limits es) as [H1 H2 _ _].
  set (m := run_from limits es) in *. simpl. generalize (compute_stale m now). intros stale.
  unfold is_ready, is_initialized, is_serving, health_phase, terminal_phase, operational_phase,
    checkpoint_phase, reasons, boot_reasons, push_runtime_reasons.
  assert (forall f : FatalState, is_Some (Some f)) by eauto.
  assert (~ is_Some (@None FatalState)) by by intros [? [=]].
  destruct (hm_fatal m) as [f|], (hm_draining m), (hm_started m), (hm_initialized m), (hm_checkpoint_ok m);
    simpl; try (by destruct H2); try (by discriminate H1).
  all: destruct stale, (hm_overloaded m); simpl; logic_cases.
  all: by apply H2.
Qed.

(** Published counters never move backwards: after any events each counter
    is the largest of its earlier value and the values published since - so a
    stale or reordered publish is ignored field by field. *)
Theorem health_counters_monotone m es f :
  In f counter_fields ->
  let before := f (hm_counters m) in
  let after := f (hs_counters (snapshot (health_run es m) 0)) in
  before <= after /\
  (forall c now, In (CountersPublished c, now) es -> f c <= after) /\
  (after = before \/ exists c now, In (CountersPublished c, now) es /\ after = f c).
Proof.
  intros Hf. cbv zeta. simpl. revert m. induction es as [|[event now] es IH]; intros m; simpl.
  - split; [lia|]. split; [done|]. by left.
  - destruct (IH (health_apply event now m)) as (I1 & I2 & I3).
    assert (f (hm_counters m) <= f (hm_counters (health_apply event now m))) as Hle.
    { rewrite apply_counters. destruct event; try lia. rewrite merged_field by done. lia. }
    split; [lia|]. split.
    + intros c t [[= -> ->]|Hin]; [|by eapply I2].
      rewrite apply_counters, merged_field in I1 by done. lia.
    + destruct I3 as [->|(c & t & Hin & ->)]; [|right; exists c, t; auto].
      rewrite apply_counters. destruct event; auto. rewrite merged_field by done.
      destruct (Z.max_spec (f (hm_counters m)) (f counters)) as [[_ ->]|[_ ->]]; [|auto].
      right. exists counters, now. auto.
Qed.

(** Stale input is shown exactly when a checkpoint is in service and nothing
    has been observed - no ingress, nor since the checkpoint when there was never
    any - for [stale_after]; observing input always clears it. *)
Theorem health_stale_iff limits es now :
  let m := run_from limits es in
  let stale m now := if_stale (hs_input_freshness (snapshot m now)) in
  (stale m now = true <->
     hm_checkpoint_ok m = true /\
     exists t, option_or (hm_last_ingress m) (hm_checkpoint_at m) = Some t /\
               hl_stale_after limits <= sat_sub now t) /\
  (forall seen, now - seen < hl_stale_after limits -> 0 < hl_stale_after limits ->
     stale (health_apply IngressObserved seen m) now = false).
Proof.
  cbv zeta. simpl. assert (hl_stale_after (hm_limits (run_from limits es)) = hl_stale_after limits) as Hl.
  { unfold run_from. rewrite health_run_limits. apply sanitized_sound. }
  split.
  - rewrite compute_stale_true by apply run_from_ok. by rewrite Hl.
  - intros seen Hlt Hpos. unfold compute_stale. simpl. rewrite Hl.
    destruct (negb _ || negb _); [done|]. apply Z.leb_gt. unfold sat_sub. lia.
Qed.

(** Whether the snapshot taken after a queue observation shows overload. *)
Definition shown_overload (m : HealthMachine) (depth cap now : Z) : bool :=
  qp_overloaded (hs_queue_pressure (snapshot (health_apply (QueuePressureEvent depth cap) now m) now)).

(** The double precision test on 209 slots, with the default watermarks; a zero
    capacity never overloads. *)
Lemma shown_overload_default es depth now :
  0 <= depth <= 209 ->
  shown_overload (run_from HealthLimits_default es) depth 209 now =
    (if hm_overloaded (run_from HealthLimits_default es) then 147 <=? depth else 189 <=? depth) /\
  shown_overload (run_from HealthLimits_default es) depth 0 now = false.
Proof.
  intros Hd. unfold shown_overload. set (m := run_from HealthLimits_default es).
  assert (hl_overload_high (hm_limits m) = f_090 /\ hl_overload_low (hm_limits m) = f_070) as [Eh El].
  { unfold m, run_from. rewrite health_run_limits. by vm_compute. }
  simpl. unfold next_overload at 2. simpl.
  rewrite Eh, El, next_overload_default by done. split; [|done].
  unfold overload_spec. destruct (hm_overloaded m); apply eq_true_iff_eq; rewrite !Z.leb_le, ?Z.ltb_lt; lia.
Qed.

(** ** Witnesses *)

Definition demo_boot : list (HealthEvent * Z) :=
  [(ProcessStarted, 0); (InitializationCompleted, 1);
   (CheckpointValidated (MkCheckpointIdentity "ckpt" None), 2)].

Lemma health_refines_lifecycle_witness :
  hs_ready (snapshot (run_from HealthLimits_default demo_boot) 5) = true.
Proof. exact (proj1 (health_refines_lifecycle HealthLimits_default demo_boot 5)). Defined.

Lemma health_terminal_sticky_witness :
  hs_ready (snapshot (run_from HealthLimits_default
    ((demo_boot ++ [(FatalEvent UnspecifiedCode "x", 3)]) ++ demo_boot)) 9) = false.
Proof.
  apply (health_terminal_sticky HealthLimits_default
    (demo_boot ++ [(FatalEvent UnspecifiedCode "x", 3)]) demo_boot 4 9) with (f := MkFatalState UnspecifiedCode "x").
  reflexivity.
Defined.

Lemma health_snapshot_consistent_witness :
  hs_live (snapshot (run_from HealthLimits_default demo_boot) 5) = true.
Proof.
  exact (proj1 (proj1 (health_snapshot_consistent HealthLimits_default demo_boot 5) eq_refl)).
Defined.

Lemma health_counters_monotone_witness :
  3 <= rc_ticks (hs_counters (snapshot (health_run
    [(CountersPublished (MkRuntimeCounters 3 0 0 0 0 0 0 0), 0);
     (CountersPublished (MkRuntimeCounters 1 0 0 0 0 0 0 0), 1)] (HealthMachine_new HealthLimits_default)) 0)).
Proof.
  destruct (health_counters_monotone (HealthMachine_new HealthLimits_default)
    [(CountersPublished (MkRuntimeCounters 3 0 0 0 0 0 0 0), 0);
     (CountersPublished (MkRuntimeCounters 1 0 0 0 0 0 0 0), 1)] rc_ticks) as (_ & H & _);
    [by left|].
  apply (H (MkRuntimeCounters 3 0 0 0 0 0 0 0) 0). by left.
Defined.

Lemma health_stale_iff_witness :
  if_stale (hs_input_freshness (snapshot
    (health_apply IngressObserved 10 (run_from HealthLimits_default demo_boot)) 20)) = false.
Proof. apply (health_stale_iff HealthLimits_default demo_boot 20); simpl; lia. Defined.
