(* ===== verification/HealthView.v ===== *)
(** * The Prometheus text view of a health snapshot (src/health/snapshot.rs)

    Each [write_*]/[push_*] function of the source appends to its [out] string;
    here it returns the string it appends.  [String::push_str] is [+:+] and
    integers print in decimal ([pretty]). *)

From stdpp Require Import pretty.
From S2P Require Import Prelude Floats Health.
Local Open Scope Z_scope.
Local Open Scope string_scope.

Definition nl : string := String (Ascii.ascii_of_nat 10) EmptyString.
Definition quote : string := String (Ascii.ascii_of_nat 34) EmptyString.

(** [u8::from(b)] printed. *)
Definition show_bool (b : bool) : string := if b then "1" else "0".

Definition push_metric_header (name help kind : string) : string :=
  "# HELP " +:+ name +:+ " " +:+ help +:+ nl +:+ "# TYPE " +:+ name +:+ " " +:+ kind +:+ nl.

Definition push_sample (name value : string) : string := name +:+ " " +:+ value +:+ nl.

Definition push_gauge (name help value : string) : string :=
  push_metric_header name help "gauge" +:+ push_sample name value.

Definition push_optional_gauge (name help : string) (value : option Z) : string :=
  match value with
  | Some v => push_gauge name help (pretty v)
  | None => push_gauge name help "NaN"
  end.

Definition write_phase_gauges (current : HealthPhase) : string :=
  fold_left (fun out phase => out +:+ ("brainstem_phase{phase=" +:+ quote +:+ phase_as_str phase
    +:+ quote +:+ "} " +:+ show_bool (bool_decide (current = phase)) +:+ nl)) HealthPhase_ALL "".

Definition write_degraded_gauges (rs : list ReasonCode) : string :=
  fold_left (fun out reason => out +:+ ("brainstem_degraded{reason=" +:+ quote +:+ reason_as_str reason
    +:+ quote +:+ "} " +:+ show_bool (bool_decide (reason ∈ rs)) +:+ nl)) RECOVERABLE "".

Definition write_probe_gauges (snap : HealthSnapshot) : string :=
  push_gauge "brainstem_live" "1 if the process health reporter is running."
    (show_bool (hs_live snap)) +:+
  push_gauge "brainstem_ready" "1 if initialized, checkpoint-valid, not draining, not fatal."
    (show_bool (hs_ready snap)).

Definition write_labeled_gauges (snap : HealthSnapshot) : string :=
  "# HELP brainstem_phase 1 for the current health phase." +:+ nl +:+
  "# TYPE brainstem_phase gauge" +:+ nl +:+
  write_phase_gauges (hs_phase snap) +:+
  "# HELP brainstem_degraded Recoverable degradation by stable reason code." +:+ nl +:+
  "# TYPE brainstem_degraded gauge" +:+ nl +:+
  write_degraded_gauges (hs_reasons snap).

Definition write_runtime_gauges (snap : HealthSnapshot) : string :=
  push_gauge "brainstem_fatal" "1 if this process has entered a sticky fatal state."
    (show_bool (is_some (hs_fatal snap))) +:+
  push_optional_gauge "brainstem_last_successful_tick_ms"
    "Milliseconds from process start until the last successful tick (not tick age); NaN if none yet."
    (hs_last_successful_tick_ms snap) +:+
  push_optional_gauge "brainstem_tick_age_ms"
    "Milliseconds since the last successful tick; NaN if none yet." (hs_tick_age_ms snap) +:+
  push_optional_gauge "brainstem_input_age_ms"
    "Age of last ingress (or checkpoint, if none) in milliseconds; NaN if none yet."
    (if_age_ms (hs_input_freshness snap)) +:+
  push_gauge "brainstem_queue_depth" "Ingress queue depth."
    (pretty (qp_depth (hs_queue_pressure snap))) +:+
  push_gauge "brainstem_queue_capacity" "Ingress queue capacity."
    (pretty (qp_capacity (hs_queue_pressure snap))).

(** [RuntimeCounters::metrics]: name, help and value of each counter. *)
Definition counter_metrics (c : RuntimeCounters) : list (string * string * Z) :=
  [("brainstem_ticks_total", "Ticks that stepped the network.", rc_ticks c);
   ("brainstem_accepted_batches_total", "Backend batches accepted into ingress.",
    rc_accepted_batches c);
   ("brainstem_rejected_batches_total",
    "Batches rejected (backend-flagged, receive failure, or non-finite).",
    rc_rejected_batches c);
   ("brainstem_receive_errors_total",
    "Backend receive failures, including rate-limited repeats.", rc_receive_errors c);
   ("brainstem_emit_errors_total",
    "Spike emission failures, including rate-limited repeats.", rc_emit_errors c);
   ("brainstem_dropped_spikes_total",
    "Spikes discarded because their IDs did not fit the wire type.", rc_dropped_spikes c);
   ("brainstem_diagnostic_emissions_total",
    "Tick diagnostics emitted after rate limiting.", rc_diagnostic_emissions c);
   ("brainstem_suppressed_diagnostics_total",
    "Recurring diagnostic occurrences suppressed by rate limiting.",
    rc_suppressed_diagnostics c)].

Definition write_runtime_counters (c : RuntimeCounters) : string :=
  fold_left (fun out '(name, help, value) =>
    out +:+ (push_metric_header name help "counter" +:+ push_sample name (pretty value)))
    (counter_metrics c) "".

Definition prometheus_text (snap : HealthSnapshot) : string :=
  write_probe_gauges snap +:+ write_labeled_gauges snap +:+ write_runtime_gauges snap +:+
  write_runtime_counters (hs_counters snap).

(** ** Scraping the text back *)

Definition is_nl (c : Ascii.ascii) : bool := bool_decide (c = Ascii.ascii_of_nat 10).

(** Splits at newlines; a trailing newline ends the last line. *)
Fixpoint split_lines (s line : string) : list string :=
  match s with
  | EmptyString => match line with EmptyString => [] | _ => [line] end
  | String c s' =>
    if is_nl c then line :: split_lines s' "" else split_lines s' (line +:+ String c "")
  end.

Fixpoint no_nl (s : string) : bool :=
  match s with EmptyString => true | String c s' => negb (is_nl c) && no_nl s' end.

(** What follows [pre] in [s], if [s] starts with it. *)
Fixpoint strip_prefix (pre s : string) : option string :=
  match pre, s with
  | EmptyString, _ => Some s
  | String c pre', String d s' => if Ascii.eqb c d then strip_prefix pre' s' else None
  | _, _ => None
  end.

(** The values a scraper reads for a series: one per sample line. *)
Definition scrape (series text : string) : list string :=
  omap (strip_prefix (series +:+ " ")) (split_lines text "").

Lemma no_nl_app a b : no_nl (a +:+ b) = no_nl a && no_nl b.
Proof.
  induction a as [|c a IH]; [done|]. rewrite string_app_cons. simpl. by rewrite IH, andb_assoc.
Qed.

(** One newline-free line is split off whole. *)
Lemma split_lines_line a s line :
  no_nl a = true -> split_lines (a +:+ nl +:+ s) line = (line +:+ a) :: split_lines s "".
Proof.
  revert line. induction a as [|c a IH]; intros line; simpl.
  - intros _. by rewrite string_app_nil, string_app_nil_r.
  - intros [Hc Ha]%andb_true_iff. apply negb_true_iff in Hc. rewrite Hc.
    rewrite IH by done. by rewrite string_app_assoc, string_app_cons.
Qed.

(** Decimal numbers hold no newline. *)
Lemma no_nl_pretty (z : Z) : no_nl (pretty z) = true.
Proof.
  assert (forall x s, no_nl s = true -> no_nl (pretty_N_go x s) = true) as Hgo.
  { intros x. induction (N.lt_wf_0 x) as [x _ IH]. intros s Hs.
    destruct (decide (x = 0)%N) as [->|Hx]; [by rewrite pretty_N_go_0|].
    rewrite pretty_N_go_step by lia. apply IH; [apply N.div_lt; lia|].
    simpl. rewrite Hs, andb_true_r. unfold pretty_N_char. by repeat case_match. }
  assert (forall x : N, no_nl (pretty x) = true) as HN.
  { intros x. unfold pretty, pretty_N. destruct (decide (x = 0)%N); [done|]. by apply Hgo. }
  destruct z as [|p|p]; [done|apply (HN (Npos p))|].
  change (pretty (Zneg p)) with ("-" +:+ pretty (Npos p)). by rewrite no_nl_app, HN.
Qed.

(** ** Rendering line by line *)

(** Every line followed by a newline. *)
Fixpoint render (lines : list string) : string :=
  match lines with [] => "" | l :: rest => l +:+ nl +:+ render rest end.

Lemma split_render lines :
  Forall (fun l => no_nl l = true) lines -> split_lines (render lines) "" = lines.
Proof.
  induction 1 as [|l lines Hl _ IH]; [done|]. simpl.
  by rewrite split_lines_line, IH, string_app_nil.
Qed.

Lemma render_app l k : render (l ++ k) = render l +:+ render k.
Proof.
  induction l as [|x l IH]; [done|]. simpl. by rewrite IH, !string_app_assoc.
Qed.

(** The lines of one gauge or counter family. *)
Definition family (name help kind value : string) : list string :=
  ["# HELP " +:+ name +:+ " " +:+ help; "# TYPE " +:+ name +:+ " " +:+ kind;
   name +:+ " " +:+ value].

Definition show_opt (o : option Z) : string := match o with Some v => pretty v | None => "NaN" end.

Lemma push_family name help kind value :
  push_metric_header name help kind +:+ push_sample name value = render (family name help kind value).
Proof.
  unfold push_metric_header, push_sample, family. simpl.
  by rewrite !string_app_assoc, string_app_nil_r.
Qed.

Definition phase_series (p : HealthPhase) : string :=
  "brainstem_phase{phase=" +:+ quote +:+ phase_as_str p +:+ quote +:+ "}".
Definition degraded_series (r : ReasonCode) : string :=
  "brainstem_degraded{reason=" +:+ quote +:+ reason_as_str r +:+ quote +:+ "}".

(** Every series of the page with the value it shows. *)
Definition samples (snap : HealthSnapshot) : list (string * string) :=
  let c := hs_counters snap in
  [("brainstem_live", show_bool (hs_live snap)); ("brainstem_ready", show_bool (hs_ready snap))] ++
  map (fun p => (phase_series p, show_bool (bool_decide (hs_phase snap = p)))) HealthPhase_ALL ++
  map (fun r => (degraded_series r, show_bool (bool_decide (r ∈ hs_reasons snap)))) RECOVERABLE ++
  [("brainstem_fatal", show_bool (is_some (hs_fatal snap)));
   ("brainstem_last_successful_tick_ms", show_opt (hs_last_successful_tick_ms snap));
   ("brainstem_tick_age_ms", show_opt (hs_tick_age_ms snap));
   ("brainstem_input_age_ms", show_opt (if_age_ms (hs_input_freshness snap)));
   ("brainstem_queue_depth", pretty (qp_depth (hs_queue_pressure snap)));
   ("brainstem_queue_capacity", pretty (qp_capacity (hs_queue_pressure snap)));
   ("brainstem_ticks_total", pretty (rc_ticks c));
   ("brainstem_accepted_batches_total", pretty (rc_accepted_batches c));
   ("brainstem_rejected_batches_total", pretty (rc_rejected_batches c));
   ("brainstem_receive_errors_total", pretty (rc_receive_errors c));
   ("brainstem_emit_errors_total", pretty (rc_emit_errors c));
   ("brainstem_dropped_spikes_total", pretty (rc_dropped_spikes c));
   ("brainstem_diagnostic_emissions_total", pretty (rc_diagnostic_emissions c));
   ("brainstem_suppressed_diagnostics_total", pretty (rc_suppressed_diagnostics c))].

(** The page as lines. *)
Definition page_lines (snap : HealthSnapshot) : list string :=
  family "brainstem_live" "1 if the process health reporter is running." "gauge"
    (show_bool (hs_live snap)) ++
  family "brainstem_ready" "1 if initialized, checkpoint-valid, not draining, not fatal." "gauge"
    (show_bool (hs_ready snap)) ++
  ["# HELP brainstem_phase 1 for the current health phase."; "# TYPE brainstem_phase gauge"] ++
  map (fun p => phase_series p +:+ " " +:+ show_bool (bool_decide (hs_phase snap = p))) HealthPhase_ALL ++
  ["# HELP brainstem_degraded Recoverable degradation by stable reason code.";
   "# TYPE brainstem_degraded gauge"] ++
  map (fun r => degraded_series r +:+ " " +:+ show_bool (bool_decide (r ∈ hs_reasons snap))) RECOVERABLE ++
  family "brainstem_fatal" "1 if this process has entered a sticky fatal state." "gauge"
    (show_bool (is_some (hs_fatal snap))) ++
  family "brainstem_last_successful_tick_ms"
    "Milliseconds from process start until the last successful tick (not tick age); NaN if none yet." "gauge"
    (show_opt (hs_last_successful_tick_ms snap)) ++
  family "brainstem_tick_age_ms" "Milliseconds since the last successful tick; NaN if none yet." "gauge"
    (show_opt (hs_tick_age_ms snap)) ++
  family "brainstem_input_age_ms"
    "Age of last ingress (or checkpoint, if none) in milliseconds; NaN if none yet." "gauge"
    (show_opt (if_age_ms (hs_input_freshness snap))) ++
  family "brainstem_queue_depth" "Ingress queue depth." "gauge" (pretty (qp_depth (hs_queue_pressure snap))) ++
  family "brainstem_queue_capacity" "Ingress queue capacity." "gauge"
    (pretty (qp_capacity (hs_queue_pressure snap))) ++
  concat (map (fun '(name, help, value) => family name help "counter" (pretty value))
    (counter_metrics (hs_counters snap))).

Lemma phase_lines current :
  write_phase_gauges current =
  render (map (fun p => phase_series p +:+ " " +:+ show_bool (bool_decide (current = p))) HealthPhase_ALL).
Proof. by destruct current. Qed.

Lemma degraded_lines rs :
  write_degraded_gauges rs =
  render (map (fun r => degraded_series r +:+ " " +:+ show_bool (bool_decide (r ∈ rs))) RECOVERABLE).
Proof.
  unfold write_degraded_gauges. simpl.
  by destruct (bool_decide (RStaleInput ∈ rs)), (bool_decide (ROverload ∈ rs)).
Qed.

Lemma counter_lines_from ms out :
  fold_left (fun out '(name, help, value) =>
    out +:+ (push_metric_header name help "counter" +:+ push_sample name (pretty value))) ms out =
  out +:+ render (concat (map (fun '(name, help, value) =>
    family name help "counter" (pretty (value : Z))) ms)).
Proof.
  revert out. induction ms as [|[[name help] value] ms IH]; intros out; cbn [fold_left map concat].
  - by rewrite string_app_nil_r.
  - by rewrite IH, push_family, render_app, string_app_assoc.
Qed.

Lemma counter_lines c :
  write_runtime_counters c =
  render (concat (map (fun '(name, help, value) => family name help "counter" (pretty value)) (counter_metrics c))).
Proof. unfold write_runtime_counters. by rewrite counter_lines_from, string_app_nil. Qed.

Lemma optional_family name help value :
  push_optional_gauge name help value = render (family name help "gauge" (show_opt value)).
Proof. destruct value; apply push_family. Qed.

Lemma page_render snap : prometheus_text snap = render (page_lines snap).
Proof.
  unfold prometheus_text, write_probe_gauges, write_labeled_gauges, write_runtime_gauges, push_gauge, page_lines.
  rewrite !push_family, !optional_family, phase_lines, degraded_lines, counter_lines.
  rewrite !render_app. cbn [render]. by rewrite !string_app_assoc, string_app_nil.
Qed.

Lemma no_nl_show_bool b : no_nl (show_bool b) = true.
Proof. by destruct b. Qed.

Lemma no_nl_show_opt o : no_nl (show_opt o) = true.
Proof. destruct o; [apply no_nl_pretty|done]. Qed.

Lemma family_no_nl name help kind value :
  no_nl name = true -> no_nl help = true -> no_nl kind = true -> no_nl value = true ->
  Forall (fun l => no_nl l = true) (family name help kind value).
Proof. intros Hn Hh Hk Hv. repeat constructor; rewrite !no_nl_app; by rewrite ?Hn, ?Hh, ?Hk, ?Hv. Qed.

Lemma page_lines_no_nl snap : Forall (fun l => no_nl l = true) (page_lines snap).
Proof.
  unfold page_lines. repeat (apply Forall_app; split).
  all: try (apply family_no_nl; auto using no_nl_show_bool, no_nl_show_opt, no_nl_pretty).
  - by repeat constructor.
  - destruct (hs_phase snap); by repeat constructor.
  - by repeat constructor.
  - simpl. destruct (bool_decide _), (bool_decide _); by repeat constructor.
  - simpl. repeat (apply Forall_cons; split); try apply Forall_nil_2; try done.
    all: rewrite !no_nl_app, no_nl_pretty; done.
Qed.

(** C27: the metrics page is a faithful view: every series - the probes, one
    gauge per phase and per recoverable reason, the ages, the queue and the eight
    counters - is scraped back as exactly one sample carrying the snapshot's
    value, and precisely one phase gauge is 1, that of the current phase. *)
Theorem prometheus_roundtrip snap :
  (forall series value, In (series, value) (samples snap) ->
     scrape series (prometheus_text snap) = [value]) /\
  (forall p, scrape (phase_series p) (prometheus_text snap) = ["1"] <-> p = hs_phase snap).
Proof.
  assert (Forall (fun '(series, value) => scrape series (prometheus_text snap) = [value]) (samples snap)) as H.
  { unfold scrape. rewrite page_render, split_render by apply page_lines_no_nl.
    unfold samples, page_lines, counter_metrics.
    cbn [map app concat HealthPhase_ALL RECOVERABLE].
    generalize (hs_phase snap) (hs_reasons snap). intros phase rs.
    repeat match goal with
    | |- context [pretty ?z] => generalize (pretty z); intro
    | |- context [show_opt ?o] => generalize (show_opt o); intro
    | |- context [show_bool ?b] => generalize (show_bool b); intro
    end.
    repeat (apply Forall_cons; split; [vm_compute; reflexivity|]). apply Forall_nil_2. }
  rewrite Forall_forall in H.
  assert (forall series value, In (series, value) (samples snap) ->
     scrape series (prometheus_text snap) = [value]) as Hs.
  { intros series value Hin. apply (H (series, value)). by apply list_elem_of_In. }
  split; [exact Hs|]. intros p.
  rewrite (Hs _ (show_bool (bool_decide (hs_phase snap = p)))).
  - destruct (bool_decide _) eqn:Hp; bool_to_prop; simpl; split; try done; by intros ->.
  - apply in_or_app. right. apply in_or_app. left. apply in_map_iff. exists p. split; [done|].
    destruct p; simpl; tauto.
Qed.
