(* ===== verification/NetAddr.v ===== *)
(** * Numeric addresses, as the Rust standard library parses them

    Configuration validation calls [str::parse] at [IpAddr], [Ipv6Addr] and
    [SocketAddr] (src/config.rs) and the control surface binds the address
    parsed (src/control.rs).  This is the library's recursive-descent parser
    over bytes: a reader returns a value and the rest of the input, or fails
    without consuming ([read_atomically]). *)

From Stdlib Require Import Ascii.
From S2P Require Import Prelude.
Local Open Scope Z_scope.

Abbreviation bytes := (list Ascii.ascii).

(** UTF-8 bytes of a string. *)
Fixpoint as_bytes (s : string) : bytes :=
  match s with EmptyString => [] | String c s' => c :: as_bytes s' end.

Definition code (c : Ascii.ascii) : Z := Z.of_nat (Ascii.nat_of_ascii c).
Definition chr (n : Z) : Ascii.ascii := Ascii.ascii_of_nat (Z.to_nat n).

Definition is_digit (c : Ascii.ascii) : bool := (48 <=? code c) && (code c <=? 57).

(** [char::to_digit]. *)
Definition to_digit (radix : Z) (c : Ascii.ascii) : option Z :=
  let v := if is_digit c then code c - 48
           else if (97 <=? code c) && (code c <=? 122) then code c - 87
           else if (65 <=? code c) && (code c <=? 90) then code c - 55
           else radix in
  if v <? radix then Some v else None.

Definition reader (A : Type) : Type := bytes -> option (A * bytes).

#[export] Instance reader_ret : MRet reader := fun A a s => Some (a, s).
#[export] Instance reader_bind : MBind reader := fun A B f m s =>
  match m s with Some (a, s') => f a s' | None => None end.

Definition read_given_char (c : Ascii.ascii) : reader unit := fun s =>
  match s with d :: s' => if Ascii.eqb c d then Some (tt, s') else None | [] => None end.

Definition or_else {A} (m k : reader A) : reader A := fun s =>
  match m s with Some r => Some r | None => k s end.

Definition starts_with_zero (s : bytes) : bool :=
  match s with c :: _ => Ascii.eqb c "0"%char | [] => false end.

(** The loop with a digit limit: fails as soon as one digit too many is read. *)
Fixpoint digits_limited (radix max_digits : Z) (s : bytes) (acc n : Z) : option (Z * Z * bytes) :=
  match s with
  | c :: s' =>
    match to_digit radix c with
    | Some d =>
      if max_digits <? n + 1 then None
      else digits_limited radix max_digits s' (acc * radix + d) (n + 1)
    | None => Some (acc, n, s)
    end
  | [] => Some (acc, n, [])
  end.

(** The loop without one: fails when the value overflows its type. *)
Fixpoint digits_checked (radix max : Z) (s : bytes) (acc n : Z) : option (Z * Z * bytes) :=
  match s with
  | c :: s' =>
    match to_digit radix c with
    | Some d =>
      if (max <? acc * radix) || (max <? acc * radix + d) then None
      else digits_checked radix max s' (acc * radix + d) (n + 1)
    | None => Some (acc, n, s)
    end
  | [] => Some (acc, n, [])
  end.

(** [read_number] at a type whose largest value is [max]. *)
Definition read_number (radix : Z) (max_digits : option Z) (allow_zero_prefix : bool) (max : Z) :
    reader Z := fun s =>
  match match max_digits with
        | Some k => digits_limited radix k s 0 0
        | None => digits_checked radix max s 0 0
        end with
  | Some (v, n, rest) =>
    if n =? 0 then None
    else if negb allow_zero_prefix && starts_with_zero s && (1 <? n) then None
    else if v <=? max then Some (v, rest) else None
  | None => None
  end.

Definition read_separator {A} (sep : Ascii.ascii) (index : nat) (inner : reader A) : reader A :=
  match index with O => inner | S _ => read_given_char sep ≫= fun _ => inner end.

Definition read_octet : reader Z := read_number 10 (Some 3) false 255.

Definition read_ipv4_addr : reader (list Z) :=
  read_separator "."%char 0 read_octet ≫= fun a =>
  read_separator "."%char 1 read_octet ≫= fun b =>
  read_separator "."%char 2 read_octet ≫= fun c =>
  read_separator "."%char 3 read_octet ≫= fun d => mret [a; b; c; d].

(** [read_groups]: up to [left] groups from index [i] on; the groups read, the
    rest of the input, and whether an IPv4 tail was among them. *)
Fixpoint read_groups (left i : nat) (s : bytes) : list Z * bool * bytes :=
  match left with
  | O => ([], false, s)
  | S left' =>
    let group :=
      match read_separator ":"%char i (read_number 16 (Some 4) true u16_max) s with
      | Some (g, s') => let '(gs, v4, rest) := read_groups left' (S i) s' in (g :: gs, v4, rest)
      | None => ([], false, s)
      end in
    match left' with
    | O => group
    | S _ =>
      match read_separator ":"%char i read_ipv4_addr s with
      | Some ([a; b; c; d], s') => ([256 * a + b; 256 * c + d], true, s')
      | _ => group
      end
    end
  end.

(** After the head: [::] and at most the groups it leaves room for. *)
Definition read_ipv6_rest (head : list Z) : reader (list Z) := fun s =>
  let '(tail, _, rest) := read_groups (7 - length head) 0 s in
  Some (head ++ repeat 0 (8 - length head - length tail) ++ tail, rest).

Definition read_ipv6_tail (head : list Z) : reader (list Z) :=
  read_given_char ":"%char ≫= fun _ => read_given_char ":"%char ≫= fun _ => read_ipv6_rest head.

Definition read_ipv6_addr : reader (list Z) := fun s =>
  let '(head, head_ipv4, s') := read_groups 8 0 s in
  if bool_decide (length head = 8%nat) then Some (head, s')
  else if head_ipv4 then None
  else read_ipv6_tail head s'.

Inductive IpAddr := V4 (octets : list Z) | V6 (groups : list Z).

Definition read_ip_addr : reader IpAddr :=
  or_else (read_ipv4_addr ≫= fun a => mret (V4 a)) (read_ipv6_addr ≫= fun a => mret (V6 a)).

Definition read_port : reader Z :=
  read_given_char ":"%char ≫= fun _ => read_number 10 None true u16_max.

Definition read_scope_id : reader Z :=
  read_given_char "%"%char ≫= fun _ => read_number 10 None true u32_max.

Record SocketAddr := MkSocketAddr {
  sa_ip : IpAddr;
  sa_scope_id : Z;
  sa_port : Z;
}.

Definition read_socket_addr_v4 : reader SocketAddr :=
  read_ipv4_addr ≫= fun a => read_port ≫= fun p => mret (MkSocketAddr (V4 a) 0 p).

Definition read_socket_addr_v6 : reader SocketAddr :=
  read_given_char "["%char ≫= fun _ => read_ipv6_addr ≫= fun a =>
  or_else read_scope_id (mret 0) ≫= fun scope =>
  read_given_char "]"%char ≫= fun _ => read_port ≫= fun p =>
  mret (MkSocketAddr (V6 a) scope p).

(** [parse_with]: everything must be consumed. *)
Definition parse_with {A} (m : reader A) (s : string) : option A :=
  match m (as_bytes s) with Some (a, []) => Some a | _ => None end.

Definition parse_ip_addr (s : string) : option IpAddr := parse_with read_ip_addr s.
Definition parse_ipv6_addr (s : string) : option (list Z) := parse_with read_ipv6_addr s.
Definition parse_socket_addr (s : string) : option SocketAddr :=
  parse_with (or_else read_socket_addr_v4 read_socket_addr_v6) s.

(** ** Printing, and reading back *)

Definition digit_char (d : Z) : Ascii.ascii := chr (48 + d).

(** Decimal digits of [n < 10^fuel], most significant first. *)
Fixpoint dec_digits (fuel : nat) (n : Z) : bytes :=
  match fuel with
  | O => []
  | S fuel' => (if n <? 10 then [] else dec_digits fuel' (n / 10)) ++ [digit_char (n mod 10)]
  end.

Definition from_bytes (s : bytes) : string := fold_right String EmptyString s.

(** [Display] of an IPv4 socket address. *)
Definition show_socket_addr_v4 (a b c d port : Z) : string :=
  from_bytes (dec_digits 3 a ++ "."%char :: dec_digits 3 b ++ "."%char :: dec_digits 3 c ++
    "."%char :: dec_digits 3 d ++ ":"%char :: dec_digits 5 port).

Lemma as_bytes_from_bytes s : as_bytes (from_bytes s) = s.
Proof. induction s as [|c s IH]; simpl; [done|]. by rewrite IH. Qed.

Lemma to_digit_char d : 0 <= d < 10 -> to_digit 10 (digit_char d) = Some d.
Proof.
  intros Hd. assert (d = 0 \/ d = 1 \/ d = 2 \/ d = 3 \/ d = 4 \/ d = 5 \/ d = 6 \/ d = 7 \/ d = 8 \/ d = 9)
    as H by lia.
  by repeat destruct H as [->|H]; [..|subst].
Qed.

(** The input after a number: empty or a byte that is no decimal digit. *)
Definition ends_number (s : bytes) : Prop :=
  match s with c :: _ => to_digit 10 c = None | [] => True end.

Lemma digits_limited_end k s acc n :
  ends_number s -> digits_limited 10 k s acc n = Some (acc, n, s).
Proof. destruct s as [|c s]; simpl; [done|]. by intros ->. Qed.

Lemma digits_checked_end m s acc n :
  ends_number s -> digits_checked 10 m s acc n = Some (acc, n, s).
Proof. destruct s as [|c s]; simpl; [done|]. by intros ->. Qed.

Lemma dec_digits_S fuel n :
  dec_digits (S fuel) n =
  (if n <? 10 then [] else dec_digits fuel (n / 10)) ++ [digit_char (n mod 10)].
Proof. done. Qed.

Lemma dec_digits_limited fuel n k s :
  0 <= n < 10 ^ Z.of_nat fuel -> (0 < fuel)%nat -> Z.of_nat fuel <= k ->
  digits_limited 10 k (dec_digits fuel n ++ s) 0 0 = digits_limited 10 k s n (len (dec_digits fuel n)) /\
  1 <= len (dec_digits fuel n) <= Z.of_nat fuel.
Proof.
  revert n s. induction fuel as [|fuel IH]; intros n s Hn Hf Hk; [lia|].
  rewrite dec_digits_S. pose proof (Z.mod_pos_bound n 10 ltac:(lia)) as Hm.
  destruct (n <? 10) eqn:Hlt; bool_to_prop.
  - rewrite app_nil_l, Z.mod_small by lia. change (len [digit_char n]) with 1. split; [|lia].
    cbn [app digits_limited]. rewrite to_digit_char by lia.
    destruct (Z.ltb_spec k (0 + 1)); [lia|]. by rewrite Z.mul_0_l.
  - assert (0 <= n / 10 < 10 ^ Z.of_nat fuel) as Hq.
    { split; [apply Z.div_pos; lia|]. apply Z.div_lt_upper_bound; [lia|].
      rewrite Nat2Z.inj_succ, Z.pow_succ_r in Hn by lia. lia. }
    destruct fuel as [|fuel]; [simpl in Hq; assert (1 <= n / 10) by (apply Z.div_le_lower_bound; lia); lia|].
    destruct (IH (n / 10) ([digit_char (n mod 10)] ++ s) Hq ltac:(lia) ltac:(lia)) as [H1 H2].
    rewrite <- app_assoc, H1, len_app. change (len [digit_char (n mod 10)]) with 1. split; [|lia].
    cbn [app digits_limited]. rewrite to_digit_char by lia.
    destruct (Z.ltb_spec k (len (dec_digits (S fuel) (n / 10)) + 1)); [lia|].
    f_equal. pose proof (Z.div_mod n 10 ltac:(lia)). lia.
Qed.

Lemma dec_digits_checked fuel n m s :
  0 <= n < 10 ^ Z.of_nat fuel -> (0 < fuel)%nat -> n <= m ->
  digits_checked 10 m (dec_digits fuel n ++ s) 0 0 = digits_checked 10 m s n (len (dec_digits fuel n)) /\
  1 <= len (dec_digits fuel n).
Proof.
  revert n s. induction fuel as [|fuel IH]; intros n s Hn Hf Hk; [lia|].
  rewrite dec_digits_S. pose proof (Z.mod_pos_bound n 10 ltac:(lia)) as Hm.
  pose proof (Z.div_mod n 10 ltac:(lia)) as Hdm.
  destruct (n <? 10) eqn:Hlt; bool_to_prop.
  - rewrite app_nil_l, Z.mod_small by lia. change (len [digit_char n]) with 1. split; [|lia].
    cbn [app digits_checked]. rewrite to_digit_char by lia. rewrite Z.mul_0_l, !Z.add_0_l.
    destruct (Z.ltb_spec m 0), (Z.ltb_spec m n); [lia..|done].
  - assert (0 <= n / 10 < 10 ^ Z.of_nat fuel) as Hq.
    { split; [apply Z.div_pos; lia|]. apply Z.div_lt_upper_bound; [lia|].
      rewrite Nat2Z.inj_succ, Z.pow_succ_r in Hn by lia. lia. }
    destruct fuel as [|fuel]; [simpl in Hq; assert (1 <= n / 10) by (apply Z.div_le_lower_bound; lia); lia|].
    destruct (IH (n / 10) ([digit_char (n mod 10)] ++ s) Hq ltac:(lia) ltac:(lia)) as [H1 H2].
    rewrite <- app_assoc, H1, len_app. change (len [digit_char (n mod 10)]) with 1. split; [|lia].
    cbn [app digits_checked]. rewrite to_digit_char by lia.
    destruct (Z.ltb_spec m (n / 10 * 10)), (Z.ltb_spec m (n / 10 * 10 + n mod 10)); try lia.
    cbn [orb]. f_equal. lia.
Qed.

(** Only zero itself is printed with a leading zero. *)
Lemma dec_digits_leading fuel n s :
  0 < n < 10 ^ Z.of_nat fuel -> starts_with_zero (dec_digits fuel n ++ s) = false.
Proof.
  revert n s. induction fuel as [|fuel IH]; intros n s Hn; [simpl in Hn; lia|].
  rewrite dec_digits_S. destruct (n <? 10) eqn:Hlt; bool_to_prop.
  - rewrite Z.mod_small by lia.
    assert (n = 1 \/ n = 2 \/ n = 3 \/ n = 4 \/ n = 5 \/ n = 6 \/ n = 7 \/ n = 8 \/ n = 9) as H by lia.
    by repeat destruct H as [->|H]; [..|subst].
  - rewrite <- app_assoc. apply IH. split; [apply Z.div_str_pos; lia|].
    apply Z.div_lt_upper_bound; [lia|]. rewrite Nat2Z.inj_succ, Z.pow_succ_r in Hn by lia. lia.
Qed.

Lemma read_octet_digits n s :
  0 <= n <= 255 -> ends_number s -> read_octet (dec_digits 3 n ++ s) = Some (n, s).
Proof.
  intros Hn Hs. unfold read_octet, read_number.
  destruct (dec_digits_limited 3 n 3 s ltac:(lia) ltac:(lia) ltac:(lia)) as [-> Hl].
  rewrite digits_limited_end by done.
  destruct (Z.eqb_spec (len (dec_digits 3 n)) 0); [lia|]. cbn [negb].
  destruct (Z.leb_spec n 255); [|lia].
  destruct (decide (n = 0)) as [->|Hnz]; [done|].
  by rewrite dec_digits_leading by lia.
Qed.

Lemma read_port_digits n s :
  0 <= n <= u16_max -> ends_number s -> read_port (":"%char :: dec_digits 5 n ++ s) = Some (n, s).
Proof.
  unfold u16_max. intros Hn Hs. unfold read_port, mbind, reader_bind, read_given_char. simpl Ascii.eqb.
  cbv iota beta. unfold read_number.
  destruct (dec_digits_checked 5 n u16_max s ltac:(lia) ltac:(lia) ltac:(unfold u16_max; lia)) as [-> Hl].
  rewrite digits_checked_end by done.
  destruct (Z.eqb_spec (len (dec_digits 5 n)) 0); [lia|]. cbn [negb andb].
  destruct (Z.leb_spec n u16_max); [done|unfold u16_max in *; lia].
Qed.

(** The parser accepts what [Display] prints. *)
Lemma parse_show_socket_addr_v4 a b c d port :
  0 <= a <= 255 -> 0 <= b <= 255 -> 0 <= c <= 255 -> 0 <= d <= 255 -> 0 <= port <= u16_max ->
  parse_socket_addr (show_socket_addr_v4 a b c d port) = Some (MkSocketAddr (V4 [a; b; c; d]) 0 port).
Proof.
  intros Ha Hb Hc Hd Hp. unfold parse_socket_addr, parse_with, or_else, read_socket_addr_v4, show_socket_addr_v4.
  rewrite as_bytes_from_bytes. unfold read_ipv4_addr, read_separator, mbind, reader_bind, mret, reader_ret.
  unfold read_given_char.
  rewrite read_octet_digits by done. simpl Ascii.eqb. cbv iota beta.
  rewrite read_octet_digits by done. simpl Ascii.eqb. cbv iota beta.
  rewrite read_octet_digits by done. simpl Ascii.eqb. cbv iota beta.
  rewrite read_octet_digits by done.
  pose proof (read_port_digits port [] Hp I) as H. rewrite app_nil_r in H. by rewrite H.
Qed.

Example parse_ipv6_examples :
  parse_ip_addr "::1" = Some (V6 [0; 0; 0; 0; 0; 0; 0; 1]) /\
  parse_ip_addr "fe80::1:2" = Some (V6 [65152; 0; 0; 0; 0; 0; 1; 2]) /\
  parse_ip_addr "::ffff:1.2.3.4" = Some (V6 [0; 0; 0; 0; 0; 65535; 258; 772]) /\
  parse_ip_addr "1:2:3:4:5:6:7::8" = None /\ parse_ip_addr "01.2.3.4" = None /\
  parse_socket_addr "[::1%3]:80" = Some (MkSocketAddr (V6 [0; 0; 0; 0; 0; 0; 0; 1]) 3 80) /\
  parse_socket_addr "localhost:80" = None /\ parse_socket_addr "1.2.3.4:65536" = None.
Proof. repeat split; reflexivity. Qed.
