(* ===== verification/Text.v ===== *)
(** * Text as the Rust standard library reads it

    UTF-8 validation, lines, words and ASCII case, for the request line of the
    control surface (src/control.rs) and the sidecar and hub files
    (src/checkpoint/). *)

From Stdlib Require Import Ascii.
From S2P Require Import Prelude NetAddr.
Local Open Scope Z_scope.

(** ** UTF-8 *)

Definition is_cont (b : Z) : bool := (128 <=? b) && (b <=? 191).

(** The second byte of a three- and of a four-byte sequence: no overlong forms,
    no surrogates, nothing above U+10FFFF. *)
Definition second_of_3 (b0 b1 : Z) : bool :=
  if b0 =? 224 then (160 <=? b1) && (b1 <=? 191)
  else if b0 =? 237 then (128 <=? b1) && (b1 <=? 159)
  else is_cont b1.
Definition second_of_4 (b0 b1 : Z) : bool :=
  if b0 =? 240 then (144 <=? b1) && (b1 <=? 191)
  else if b0 =? 244 then (128 <=? b1) && (b1 <=? 143)
  else is_cont b1.

Fixpoint utf8_valid (s : list Z) : bool :=
  match s with
  | [] => true
  | b0 :: s1 =>
    if b0 <? 128 then utf8_valid s1 else
    match s1 with
    | [] => false
    | b1 :: s2 =>
      if (194 <=? b0) && (b0 <=? 223) then is_cont b1 && utf8_valid s2 else
      match s2 with
      | [] => false
      | b2 :: s3 =>
        if (224 <=? b0) && (b0 <=? 239) then second_of_3 b0 b1 && is_cont b2 && utf8_valid s3 else
        match s3 with
        | [] => false
        | b3 :: s4 =>
          (240 <=? b0) && (b0 <=? 244) && second_of_4 b0 b1 && is_cont b2 && is_cont b3 && utf8_valid s4
        end
      end
    end
  end.

(** [str::from_utf8] on raw bytes. *)
Definition from_utf8 (raw : list Z) : option string :=
  if utf8_valid raw then Some (from_bytes (chr <$> raw)) else None.

(** ** Lines and words *)

Definition lf : ascii := chr 10.
Definition cr : ascii := chr 13.

Definition strip_cr (line : bytes) : bytes :=
  match reverse line with
  | c :: rest => if Ascii.eqb c cr then reverse rest else line
  | [] => line
  end.

(** What precedes the first newline, and what follows it if there is one. *)
Fixpoint split_lf (s : bytes) : bytes * option bytes :=
  match s with
  | [] => ([], None)
  | c :: s' =>
    if Ascii.eqb c lf then ([], Some s')
    else let '(line, rest) := split_lf s' in (c :: line, rest)
  end.

(** [str::lines().next()]: a carriage return goes only with its newline. *)
Definition first_line (s : bytes) : option bytes :=
  match s with
  | [] => None
  | _ => match split_lf s with
         | (line, Some _) => Some (strip_cr line)
         | (line, None) => Some line
         end
  end.

(** Bytes of the [White_Space] character a string starts with; none if it does
    not. *)
Definition ws_len (s : bytes) : nat :=
  match code <$> s with
  | b0 :: rest =>
    if ((9 <=? b0) && (b0 <=? 13)) || (b0 =? 32) then 1%nat else
    match rest with
    | b1 :: rest =>
      if (b0 =? 194) && ((b1 =? 133) || (b1 =? 160)) then 2%nat else
      match rest with
      | b2 :: _ =>
        if ((b0 =? 225) && (b1 =? 154) && (b2 =? 128)) ||
           ((b0 =? 226) && (b1 =? 128) &&
              (((128 <=? b2) && (b2 <=? 138)) || (b2 =? 168) || (b2 =? 169) || (b2 =? 175))) ||
           ((b0 =? 226) && (b1 =? 129) && (b2 =? 159)) ||
           ((b0 =? 227) && (b1 =? 128) && (b2 =? 128))
        then 3%nat else 0%nat
      | [] => 0%nat
      end
    | [] => 0%nat
    end
  | [] => 0%nat
  end.

Definition flush_word (word : bytes) : list bytes := match word with [] => [] | _ => [word] end.

(** [word] is the word being read, [skip] the bytes left of a whitespace
    character. *)
Fixpoint split_words (s word : bytes) (skip : nat) : list bytes :=
  match s with
  | [] => flush_word word
  | c :: s' =>
    match skip with
    | S k => split_words s' word k
    | O => match ws_len s with
           | O => split_words s' (word ++ [c]) O
           | S k => flush_word word ++ split_words s' [] k
           end
    end
  end.

(** [str::split_whitespace]. *)
Definition split_whitespace (s : bytes) : list bytes := split_words s [] O.

(** [str::eq_ignore_ascii_case]. *)
Definition to_lower (c : ascii) : ascii :=
  if (65 <=? code c) && (code c <=? 90) then chr (code c + 32) else c.

Definition eq_ignore_ascii_case (a b : bytes) : bool :=
  bool_decide (to_lower <$> a = to_lower <$> b).

(** [<[u8]>::strip_prefix]. *)
Fixpoint strip_bytes (pre s : bytes) : option bytes :=
  match pre, s with
  | [], _ => Some s
  | c :: pre', d :: s' => if Ascii.eqb c d then strip_bytes pre' s' else None
  | _ :: _, [] => None
  end.

(** ** [Debug] of a string *)

(** [u8] in lower-case hexadecimal, without leading zeros. *)
Definition hex_nibble (n : Z) : ascii := if n <? 10 then chr (48 + n) else chr (87 + n).
Definition hex_byte (n : Z) : bytes :=
  if n <? 16 then [hex_nibble n] else [hex_nibble (Z.shiftr n 4); hex_nibble (Z.land n 15)].

(** [char::escape_debug_ext] of an ASCII character within a string; a byte of a
    longer UTF-8 sequence is kept, as that of a printable character is. *)
Definition escape_debug (c : ascii) : bytes :=
  let n := code c in
  if n =? 0 then as_bytes "\0"
  else if n =? 9 then as_bytes "\t"
  else if n =? 10 then as_bytes "\n"
  else if n =? 13 then as_bytes "\r"
  else if n =? 34 then [chr 92; c]
  else if n =? 92 then [c; c]
  else if (n <? 32) || (n =? 127) then as_bytes "\u{" ++ hex_byte n ++ as_bytes "}"
  else [c].

(** [format!("{s:?}")]. *)
Definition debug_str (s : string) : string :=
  from_bytes (chr 34 :: mjoin (escape_debug <$> as_bytes s) ++ [chr 34]).

(** ** ASCII text *)

(** A printable ASCII character other than the space. *)
Definition graphic (c : ascii) : bool := (33 <=? code c) && (code c <=? 126).

Lemma graphic_ws c s : graphic c = true -> ws_len (c :: s) = O.
Proof.
  unfold graphic. intros [H1 H2]%andb_true_iff. apply Z.leb_le in H1, H2. unfold ws_len. cbn [fmap list_fmap].
  replace ((9 <=? code c) && (code c <=? 13)) with false by (symmetry; apply andb_false_iff; right; apply Z.leb_gt; lia).
  replace (code c =? 32) with false by (symmetry; apply Z.eqb_neq; lia). cbn [orb].
  destruct (code <$> s) as [|b1 rest]; [done|].
  replace (code c =? 194) with false by (symmetry; apply Z.eqb_neq; lia). cbn [andb].
  destruct rest as [|b2 rest]; [done|].
  replace (code c =? 225) with false by (symmetry; apply Z.eqb_neq; lia).
  replace (code c =? 226) with false by (symmetry; apply Z.eqb_neq; lia).
  replace (code c =? 227) with false by (symmetry; apply Z.eqb_neq; lia). done.
Qed.

Lemma split_words_graphic w s word :
  forallb graphic w = true -> split_words (w ++ s) word O = split_words s (word ++ w) O.
Proof.
  revert word. induction w as [|c w IH]; intros word; cbn [forallb split_words app]; [by rewrite app_nil_r|].
  intros [Hc Hw]%andb_true_iff. rewrite (graphic_ws c (w ++ s) Hc), IH by exact Hw.
  by rewrite <- (assoc_L app).
Qed.

(** A graphic word followed by a space is split off whole. *)
Lemma split_whitespace_word w s :
  w <> [] -> forallb graphic w = true ->
  split_whitespace (w ++ " "%char :: s) = w :: split_whitespace s.
Proof.
  intros Hn Hw. unfold split_whitespace. rewrite split_words_graphic by done. simpl.
  destruct w; [done|]. reflexivity.
Qed.

Lemma split_lf_app a s :
  forallb (fun c => negb (Ascii.eqb c lf)) a = true -> split_lf (a ++ lf :: s) = (a, Some s).
Proof.
  induction a as [|c a IH]; simpl; [done|]. intros [Hc Ha]%andb_true_iff.
  apply negb_true_iff in Hc. by rewrite Hc, IH.
Qed.

Lemma strip_cr_app a : strip_cr (a ++ [cr]) = a.
Proof. unfold strip_cr. rewrite reverse_snoc. simpl. by rewrite reverse_involutive. Qed.

Lemma first_line_crlf a s :
  forallb (fun c => negb (Ascii.eqb c lf)) a = true -> first_line (a ++ cr :: lf :: s) = Some a.
Proof.
  intros Ha. unfold first_line. replace (a ++ cr :: lf :: s) with ((a ++ [cr]) ++ lf :: s) by by rewrite <- (assoc_L app).
  rewrite split_lf_app.
  - rewrite strip_cr_app. by destruct a.
  - rewrite forallb_app, Ha. done.
Qed.

Lemma strip_bytes_app pre s : strip_bytes pre (pre ++ s) = Some s.
Proof. induction pre as [|c pre IH]; simpl; [done|]. by rewrite Ascii.eqb_refl. Qed.
