(* ===== verification/Config.v ===== *)
(** * Daemon configuration (src/config.rs, src/registry.rs, src/logging.rs)

    The configuration record, its validation in the order the checks are
    written, loading, the ZeroMQ endpoint string, the service registry and the
    log filter.  Reading the file, TOML parsing and the tracing crate's filter
    parser are not code of the repository: they are arguments. *)

From Stdlib Require Import Ascii.
From stdpp Require Import pretty.
From S2P Require Import Prelude Floats Packet Queue Ingress NetAddr Text.
Local Open Scope Z_scope.

(** ** Services (registry.rs) *)

Record ServiceConfig := MkServiceConfig {
  sc_name : string;
  sc_enabled : bool;
}.

#[export] Instance ServiceConfig_eq_dec : EqDecision ServiceConfig.
Proof. solve_decision. Defined.

Definition named (name : string) : ServiceConfig := MkServiceConfig name true.

Definition ServiceRegistry : Type := gmap string ServiceConfig.

Definition from_configs (configs : list ServiceConfig) : ServiceRegistry :=
  fold_left (fun services cfg =>
    if sc_enabled cfg then <[sc_name cfg := cfg]> services else delete (sc_name cfg) services)
    configs ∅.

Definition registry_get (r : ServiceRegistry) (name : string) : option ServiceConfig := r !! name.
Definition registry_iter (r : ServiceRegistry) : list ServiceConfig := snd <$> map_to_list r.
Definition registry_len (r : ServiceRegistry) : Z := Z.of_nat (size r).
Definition registry_is_empty (r : ServiceRegistry) : bool := bool_decide (r = ∅).
Definition registry_contains (r : ServiceRegistry) (name : string) : bool := is_some (r !! name).

(** ** Log levels (logging.rs) *)

Definition log_levels : list string := ["error"; "warn"; "info"; "debug"; "trace"].

(** The error carries the rejected level. *)
Definition validate_log_level (level : string) : result string unit :=
  require (bool_decide (level ∈ log_levels)) level.

(** [EnvFilter] is the tracing crate's; [EnvFilter_new] builds one from a valid
    level and [EnvFilter_try_new] from the environment's directive string. *)
Section LogFilter.
Context {EnvFilter FilterError : Type}.
Variable EnvFilter_new : string -> EnvFilter.
Variable EnvFilter_try_new : string -> result FilterError EnvFilter.

Record ResolvedFilter := MkResolvedFilter {
  rf_filter : EnvFilter;
  rf_fallback_diagnostic : option (string * FilterError * string);
}.

Definition resolve_filter (toml_level : string) (rust_log : option string) :
    result string ResolvedFilter :=
  validate_log_level toml_level ≫= fun _ =>
  match rust_log with
  | Some value =>
    match EnvFilter_try_new value with
    | Ok filter => Ok (MkResolvedFilter filter None)
    | Err err => Ok (MkResolvedFilter (EnvFilter_new toml_level) (Some (value, err, toml_level)))
    end
  | None => Ok (MkResolvedFilter (EnvFilter_new toml_level) None)
  end.
End LogFilter.

(** ** The configuration *)

Definition MAX_NETWORK_INPUTS : Z := 1048576.

Inductive RuntimeMode := Live | Simulation.

#[export] Instance RuntimeMode_eq_dec : EqDecision RuntimeMode.
Proof. solve_decision. Defined.

Record DaemonConfig := MkDaemonConfig {
  tick_rate_hz : Z;
  log_level : string;
  spine_sub_port : Z;
  spine_pub_port : Z;
  spine_pub_bind_host : string;
  spine_pub_sndhwm : Z;
  spine_pub_linger_ms : Z;
  spine_pub_send_empty_batches : bool;
  model_path : string;
  lif_count : Z;
  izh_count : Z;
  channels : Z;
  runtime_mode : RuntimeMode;
  services : list ServiceConfig;
  ingress : IngressConfig;
  control_bind : option string;
}.

(** The serde defaults of the optional keys. *)
Definition default_spine_pub_bind_host : string := "127.0.0.1".
Definition default_spine_pub_sndhwm : Z := 1000.
Definition default_spine_pub_linger_ms : Z := 0.
Definition default_spine_pub_send_empty_batches : bool := true.

Inductive ConfigError :=
| TickRate (hz : Z)
| DimensionsOverflow
| DimensionsZero
| DimensionsExceed (total : Z)
| InputsOverflow
| InputsExceed (inputs : Z)
| IngressInvalid (e : IngressConfigError)
| ChannelsRange (channels : Z)
| LiveIzhCount (izh : Z)
| LogLevel (level : string)
| BindHost (host : string)
| SndHwm
| Linger
| ControlBind (bind : string).

Definition validate_dimensions (c : DaemonConfig) : result ConfigError unit :=
  ok_or (checked_add64 (lif_count c) (izh_count c)) DimensionsOverflow ≫= fun total =>
  require (negb (total =? 0)) DimensionsZero ≫= fun _ =>
  require (negb (u16_max <? total)) (DimensionsExceed total) ≫= fun _ =>
  ok_or (checked_mul64 total (channels c)) InputsOverflow ≫= fun inputs =>
  require (negb (MAX_NETWORK_INPUTS <? inputs)) (InputsExceed inputs).

(** ** Host syntax *)

Definition is_alpha (c : ascii) : bool :=
  (97 <=? code c) && (code c <=? 122) || (65 <=? code c) && (code c <=? 90).
Definition is_alphanumeric (c : ascii) : bool := is_digit c || is_alpha c.

(** [str::split] on a byte. *)
Fixpoint split_on (sep : ascii) (s cur : bytes) : list bytes :=
  match s with
  | [] => [cur]
  | c :: s' => if Ascii.eqb c sep then cur :: split_on sep s' [] else split_on sep s' (cur ++ [c])
  end.

Definition starts_with (c : ascii) (s : bytes) : bool :=
  match s with d :: _ => Ascii.eqb c d | [] => false end.
Definition ends_with (c : ascii) (s : bytes) : bool := starts_with c (rev s).

Definition strip_prefix_char (c : ascii) (s : bytes) : option bytes :=
  match s with d :: s' => if Ascii.eqb c d then Some s' else None | [] => None end.
Definition strip_suffix_char (c : ascii) (s : bytes) : option bytes :=
  @rev ascii <$> strip_prefix_char c (rev s).

Definition is_dns_label (label : bytes) : bool :=
  negb (len label =? 0) && (len label <=? 63) && negb (starts_with "-"%char label) &&
  negb (ends_with "-"%char label) &&
  forallb (fun b => is_alphanumeric b || Ascii.eqb b "-"%char) label.

Definition is_dns_hostname (host : bytes) : bool :=
  let name := default host (strip_suffix_char "."%char host) in
  let numeric_only := forallb (fun b => is_digit b || Ascii.eqb b "."%char) name in
  negb (len name =? 0) && negb numeric_only && (len name <=? 253) &&
  forallb is_dns_label (split_on "."%char name []).

Definition validate_pub_bind_host (host : string) : result ConfigError unit :=
  let ip := is_some (parse_ip_addr host) ||
    match strip_prefix_char "["%char (as_bytes host) ≫= strip_suffix_char "]"%char with
    | Some s => is_some (parse_ipv6_addr (from_bytes s))
    | None => false
    end in
  if ip || bool_decide (host = "*"%string) then Ok tt
  else if is_dns_hostname (as_bytes host) then Ok tt
  else Err (BindHost host).

Definition validate_pub_socket_opts (c : DaemonConfig) : result ConfigError unit :=
  require (negb (spine_pub_sndhwm c <=? 0)) SndHwm ≫= fun _ =>
  require (negb (spine_pub_linger_ms c <? 0)) Linger.

(** [host.contains(':')]. *)
Definition contains_char (c : ascii) (s : bytes) : bool := existsb (Ascii.eqb c) s.

Definition pub_endpoint (host : string) (port : Z) : string :=
  if contains_char ":"%char (as_bytes host) && negb (starts_with "["%char (as_bytes host))
  then ("tcp://[" +:+ host +:+ "]:" +:+ pretty port)%string
  else ("tcp://" +:+ host +:+ ":" +:+ pretty port)%string.

(** ** Validation *)

Definition daemon_validate (c : DaemonConfig) : result ConfigError unit :=
  require ((1 <=? tick_rate_hz c) && (tick_rate_hz c <=? 1000000)) (TickRate (tick_rate_hz c)) ≫= fun _ =>
  validate_dimensions c ≫= fun _ =>
  map_err IngressInvalid (ingress_validate (ingress c)) ≫= fun _ =>
  require (negb ((channels c =? 0) || (max_payload_len (ingress c) <? channels c)))
    (ChannelsRange (channels c)) ≫= fun _ =>
  require (negb (bool_decide (runtime_mode c = Live) && negb (izh_count c =? 0)))
    (LiveIzhCount (izh_count c)) ≫= fun _ =>
  map_err LogLevel (validate_log_level (log_level c)) ≫= fun _ =>
  validate_pub_bind_host (spine_pub_bind_host c) ≫= fun _ =>
  validate_pub_socket_opts c ≫= fun _ =>
  match control_bind c with
  | Some bind => require (is_some (parse_socket_addr bind)) (ControlBind bind)
  | None => Ok tt
  end.

(** ** Messages *)

(** What [validate_log_level] says of the level it rejects. *)
Definition log_level_message (level : string) : string :=
  "invalid log_level " +:+ debug_str level +:+ "; expected one of: error, warn, info, debug, trace".

(** [err.to_string()] of the error [validate] returns for [c]. *)
Definition config_error_to_string (c : DaemonConfig) (e : ConfigError) : string :=
  let cells := pretty (lif_count c) +:+ " + " +:+ pretty (izh_count c) in
  match e with
  | TickRate hz => "tick_rate_hz must be in range 1..=1_000_000, got " +:+ pretty hz
  | DimensionsOverflow => "lif_count + izh_count (" +:+ cells +:+ ") overflows usize"
  | DimensionsZero => "lif_count + izh_count must be in range 1..=u16::MAX (65535), got 0"
  | DimensionsExceed _ =>
    "lif_count + izh_count (" +:+ cells +:+ ") exceeds u16::MAX (" +:+ pretty u16_max +:+ ")"
  | InputsOverflow =>
    "dimensions (lif_count + izh_count) * channels (" +:+ pretty (lif_count c) +:+ " * "
    +:+ pretty (izh_count c) +:+ " * " +:+ pretty (channels c) +:+ ") overflows usize"
  | InputsExceed inputs =>
    "dimensions (lif_count + izh_count) * channels (" +:+ pretty inputs
    +:+ ") exceeds MAX_NETWORK_INPUTS (" +:+ pretty MAX_NETWORK_INPUTS +:+ ")"
  | IngressInvalid e => ingress_config_error_to_string e
  | ChannelsRange n =>
    "channels must be in range 1..=ingress.max_payload_len (" +:+ pretty (max_payload_len (ingress c))
    +:+ "), got " +:+ pretty n
  | LiveIzhCount n =>
    "live Spikenaut checkpoints are LIF-only; izh_count must be 0, got " +:+ pretty n
  | LogLevel level => log_level_message level
  | BindHost host =>
    "invalid spine_pub_bind_host " +:+ debug_str host
    +:+ "; expected an IPv4/IPv6 address, hostname, or * (no scheme or port)"
  | SndHwm =>
    "spine_pub_sndhwm must be > 0 (0 disables the send high-water mark, which defeats the bounded PUB lifecycle)"
  | Linger =>
    "spine_pub_linger_ms must be >= 0 (a negative value requests infinite LINGER, which can block shutdown indefinitely)"
  | ControlBind bind =>
    "invalid control_bind " +:+ debug_str bind +:+ "; expected numeric IP:port (IPv6 as [address]:port)"
  end%string.

(** The one line [resolve_filter] hands its caller to print; [show] is the
    [Display] of the filter parser's error. *)
Definition fallback_diagnostic {EnvFilter FilterError} (show : FilterError -> string)
    (r : @ResolvedFilter EnvFilter FilterError) : option string :=
  (fun '(value, err, toml_level) =>
    "Invalid RUST_LOG " +:+ debug_str value +:+ ": " +:+ show err
    +:+ "; falling back to TOML log_level=" +:+ debug_str toml_level)%string <$> rf_fallback_diagnostic r.

(** ** Loading *)

Definition path_is_absolute (path : string) : bool := starts_with "/"%char (as_bytes path).

(** Some path component is [..]. *)
Definition has_parent_dir (path : string) : bool :=
  existsb (fun c => bool_decide (c = as_bytes "..")) (split_on "/"%char (as_bytes path) []).

Inductive LoadError (IoError TomlError : Type) :=
| AbsoluteParentDir
| ReadFailed (e : IoError)
| ParseFailed (e : TomlError)
| Invalid (e : ConfigError).
Arguments AbsoluteParentDir {IoError TomlError}.
Arguments ReadFailed {IoError TomlError} e.
Arguments ParseFailed {IoError TomlError} e.
Arguments Invalid {IoError TomlError} e.

Section Load.
Context {IoError TomlError : Type}.
Variable read_to_string : string -> result IoError string.
Variable toml_from_str : string -> result TomlError DaemonConfig.

Definition load (path : string) : result (LoadError IoError TomlError) DaemonConfig :=
  require (negb (path_is_absolute path && has_parent_dir path)) AbsoluteParentDir ≫= fun _ =>
  map_err ReadFailed (read_to_string path) ≫= fun data =>
  map_err ParseFailed (toml_from_str data) ≫= fun cfg =>
  map_err Invalid (daemon_validate cfg) ≫= fun _ => Ok cfg.
End Load.

(** ** What validation establishes *)

(** Unsigned fields, as their types have it. *)
Definition daemon_unsigned (c : DaemonConfig) : Prop :=
  0 <= lif_count c /\ 0 <= izh_count c /\ 0 <= channels c /\ config_unsigned (ingress c).

Definition dimensions_ok (c : DaemonConfig) : Prop :=
  1 <= lif_count c + izh_count c <= u16_max /\
  (lif_count c + izh_count c) * channels c <= MAX_NETWORK_INPUTS.

Lemma validate_dimensions_iff c :
  daemon_unsigned c -> validate_dimensions c = Ok tt <-> dimensions_ok c.
Proof.
  intros (Hl & Hz & Hc & _). unfold validate_dimensions, dimensions_ok, checked_add64, checked_mul64.
  assert (u16_max < u64_max /\ MAX_NETWORK_INPUTS < u64_max) as [Hu Hm] by done.
  destruct (Z.leb_spec (lif_count c + izh_count c) u64_max); [|split; [done|lia]].
  cbn [ok_or mbind result_bind]. rewrite !require_bind_ok, !negb_true_iff, Z.eqb_neq, Z.ltb_ge.
  destruct (Z.leb_spec ((lif_count c + izh_count c) * channels c) u64_max);
    [|split; [by intros (_ & _ & [=])|lia]].
  cbn [ok_or mbind result_bind]. rewrite require_ok, negb_true_iff, Z.ltb_ge. lia.
Qed.

Lemma result_unit_bind_ok {E A} (m : result E unit) (k : result E A) x :
  m ≫= (fun _ => k) = Ok x <-> m = Ok tt /\ k = Ok x.
Proof.
  rewrite result_bind_ok. split; [by intros ([] & ? & ?)|]. intros [? ?]. by exists tt.
Qed.

(** The accepted configurations. *)
Record config_ok (c : DaemonConfig) : Prop := {
  co_rate : 1 <= tick_rate_hz c <= 1000000;
  co_dims : dimensions_ok c;
  co_ingress : config_bounds (ingress c);
  co_channels : 1 <= channels c <= max_payload_len (ingress c);
  co_live : runtime_mode c = Live -> izh_count c = 0;
  co_log : log_level c ∈ log_levels;
  co_host : validate_pub_bind_host (spine_pub_bind_host c) = Ok tt;
  co_sndhwm : 0 < spine_pub_sndhwm c;
  co_linger : 0 <= spine_pub_linger_ms c;
  co_bind : forall bind, control_bind c = Some bind -> is_Some (parse_socket_addr bind);
}.

Lemma daemon_validate_ok c : daemon_unsigned c -> daemon_validate c = Ok tt <-> config_ok c.
Proof.
  intros Hu. pose proof Hu as (Hl & Hz & Hc & Hi). unfold daemon_validate, validate_pub_socket_opts.
  rewrite !result_unit_bind_ok, !map_err_ok, !require_ok.
  rewrite validate_dimensions_iff, validate_ok_bounds by done.
  unfold validate_log_level. rewrite require_ok, bool_decide_eq_true.
  rewrite andb_true_iff, !negb_true_iff, orb_false_iff, andb_false_iff, negb_false_iff,
    bool_decide_eq_false, !Z.leb_le, !Z.eqb_eq, Z.eqb_neq, Z.ltb_ge, Z.leb_gt, Z.ltb_ge.
  split.
  - intros (? & ? & ? & ? & Hlive & ? & ? & (? & ?) & Hb). split; try done; [lia| |].
    + by destruct Hlive.
    + intros bind Hbind. rewrite Hbind, require_ok, is_some_true in Hb. done.
  - intros [? ? ? ? Hlive ? ? ? ? Hb].
    do 3 (split; [done|]). split; [lia|]. split; [|do 3 (split; [done|])].
    + destruct (decide (runtime_mode c = Live)); auto.
    + destruct (control_bind c) as [bind|]; [|done]. rewrite require_ok, is_some_true. by apply Hb.
Qed.

(** ** Hosts *)

Definition no_colon (s : bytes) : Prop := contains_char ":"%char s = false.

Lemma no_colon_app a b : no_colon (a ++ b) <-> no_colon a /\ no_colon b.
Proof. unfold no_colon, contains_char. rewrite existsb_app, orb_false_iff. done. Qed.

Lemma to_digit_no_colon c d : to_digit 10 c = Some d -> no_colon [c].
Proof. by destruct c as [[] [] [] [] [] [] [] []]. Qed.

Lemma digits_limited_no_colon k s acc n v m rest :
  digits_limited 10 k s acc n = Some (v, m, rest) -> exists pre, s = pre ++ rest /\ no_colon pre.
Proof.
  revert acc n. induction s as [|c s IH]; intros acc n; simpl.
  - intros [= <- <- <-]. by exists [].
  - destruct (to_digit 10 c) as [d|] eqn:Hd; [|intros [= <- <- <-]; by exists []].
    destruct (k <? n + 1); [done|]. intros (pre & -> & Hpre)%IH. exists (c :: pre). split; [done|].
    change (c :: pre) with ([c] ++ pre). apply no_colon_app. split; [by eapply to_digit_no_colon|done].
Qed.

Lemma read_octet_no_colon s v rest :
  read_octet s = Some (v, rest) -> exists pre, s = pre ++ rest /\ no_colon pre.
Proof.
  unfold read_octet, read_number. destruct (digits_limited _ _ _ _ _) as [[[w n] r]|] eqn:Hd; [|done].
  repeat case_match; try done. intros [= <- <-]. by eapply digits_limited_no_colon.
Qed.

Lemma dot_octet_no_colon s v rest i :
  read_separator "."%char (S i) read_octet s = Some (v, rest) ->
  exists pre, s = pre ++ rest /\ no_colon pre.
Proof.
  unfold read_separator, mbind, reader_bind, read_given_char. destruct s as [|c s]; [done|].
  destruct (Ascii.eqb_spec "."%char c) as [<-|]; [|done].
  intros (pre & -> & Hp)%read_octet_no_colon. exists ("."%char :: pre). split; [done|].
  by change ("."%char :: pre) with (["."%char] ++ pre); apply no_colon_app.
Qed.

Lemma read_ipv4_no_colon s v : read_ipv4_addr s = Some (v, []) -> no_colon s.
Proof.
  unfold read_ipv4_addr, mbind, reader_bind, mret, reader_ret.
  destruct (read_separator _ 0 _ s) as [[a s1]|] eqn:H1; [|done].
  destruct (read_separator _ 1 _ s1) as [[b s2]|] eqn:H2; [|done].
  destruct (read_separator _ 2 _ s2) as [[c s3]|] eqn:H3; [|done].
  destruct (read_separator _ 3 _ s3) as [[d s4]|] eqn:H4; [|done].
  intros [= <- ->]. apply read_octet_no_colon in H1 as (p1 & -> & ?).
  apply dot_octet_no_colon in H2 as (p2 & -> & ?), H3 as (p3 & -> & ?), H4 as (p4 & -> & ?).
  rewrite app_nil_r. by rewrite !no_colon_app.
Qed.

(** A DNS name has no colon: its labels have none and dots separate them. *)
Lemma split_labels_no_colon s cur :
  forallb is_dns_label (split_on "."%char s cur) = true -> no_colon s /\ no_colon cur.
Proof.
  assert (forall l, is_dns_label l = true -> no_colon l) as Hl.
  { intros l. unfold is_dns_label. intros [_ Hb]%andb_true_iff. rewrite forallb_forall in Hb.
    unfold no_colon, contains_char. apply not_true_is_false. rewrite existsb_exists.
    intros (c & Hin & Hc). apply Hb in Hin. apply Ascii.eqb_eq in Hc as <-. done. }
  revert cur. induction s as [|c s IH]; intros cur; simpl.
  - rewrite andb_true_r. intros. split; [done|auto].
  - destruct (Ascii.eqb_spec c "."%char) as [->|Hc]; simpl.
    + intros [H1 H2]%andb_true_iff. split; [|auto]. apply (no_colon_app ["."%char] s).
      split; [done|]. by apply (IH []).
    + intros [H1 [H2 H3]%no_colon_app]%IH. split; [|done]. by apply (no_colon_app [c] s).
Qed.

Lemma strip_suffix_some c s s' : strip_suffix_char c s = Some s' -> s = s' ++ [c].
Proof.
  unfold strip_suffix_char. destruct (rev s) as [|d r] eqn:Hr; simpl; [done|].
  destruct (Ascii.eqb_spec c d) as [<-|]; simpl; [|done]. intros [= <-].
  rewrite <- (rev_involutive s), Hr. done.
Qed.

Lemma dns_no_colon host : is_dns_hostname host = true -> no_colon host.
Proof.
  unfold is_dns_hostname. intros [_ H]%andb_true_iff. apply split_labels_no_colon in H as [H _].
  destruct (strip_suffix_char "."%char host) as [n|] eqn:Hs; simpl in H; [|done].
  apply strip_suffix_some in Hs as ->. by apply no_colon_app.
Qed.

(** ** The grammar of hosts

    What [validate_pub_bind_host] accepts, said without its string functions: an
    address literal, an IPv6 literal in brackets, a star, or a DNS name with or
    without its final dot. *)

Definition label_chars : bytes :=
  as_bytes "abcdefghijklmnopqrstuvwxyzABCDEFGHIJKLMNOPQRSTUVWXYZ0123456789-".

Definition dns_label (label : bytes) : Prop :=
  1 <= len label <= 63 /\ Forall (fun c => c ∈ label_chars) label /\
  head label <> Some "-"%char /\ last label <> Some "-"%char.

(** Labels with dots between them. *)
Fixpoint dotted (labels : list bytes) : bytes :=
  match labels with
  | [] => []
  | [label] => label
  | label :: labels => label ++ "."%char :: dotted labels
  end.

Definition dns_name (name : bytes) : Prop :=
  (exists labels, labels <> [] /\ Forall dns_label labels /\ name = dotted labels) /\
  len name <= 253 /\ ~ Forall (fun c => c ∈ as_bytes "0123456789.") name.

Inductive bind_host : string -> Prop :=
| host_address host : is_Some (parse_ip_addr host) -> bind_host host
| host_bracketed inner : is_Some (parse_ipv6_addr inner) -> bind_host ("[" +:+ inner +:+ "]")
| host_any : bind_host "*"
| host_name name : dns_name name -> bind_host (from_bytes name)
| host_absolute name : dns_name name -> bind_host (from_bytes (name ++ ["."%char])).

Lemma from_as_bytes s : from_bytes (as_bytes s) = s.
Proof. induction s as [|c s IH]; simpl; [done|by rewrite IH]. Qed.

Lemma from_bytes_app a b : from_bytes (a ++ b) = (from_bytes a +:+ from_bytes b)%string.
Proof. induction a as [|c a IH]; simpl; [done|by rewrite IH]. Qed.

Lemma as_bytes_app a b : as_bytes (a +:+ b) = as_bytes a ++ as_bytes b.
Proof. induction a as [|c a IH]; simpl; [done|by rewrite IH]. Qed.

Lemma existsb_elem c (l : bytes) : existsb (Ascii.eqb c) l = true <-> c ∈ l.
Proof.
  rewrite existsb_exists. split.
  - intros (d & Hd & ->%Ascii.eqb_eq). by apply list_elem_of_In.
  - intros Hc. exists c. by rewrite Ascii.eqb_refl, <- list_elem_of_In.
Qed.

Lemma label_char c : is_alphanumeric c || Ascii.eqb c "-"%char = true <-> c ∈ label_chars.
Proof. rewrite <- existsb_elem. by destruct c as [[] [] [] [] [] [] [] []]. Qed.

Lemma numeric_char c : is_digit c || Ascii.eqb c "."%char = true <-> c ∈ as_bytes "0123456789.".
Proof. rewrite <- existsb_elem. by destruct c as [[] [] [] [] [] [] [] []]. Qed.

Lemma forallb_reflect {A} (f : A -> bool) (P : A -> Prop) l :
  (forall x, f x = true <-> P x) -> forallb f l = true <-> Forall P l.
Proof.
  intros Hf. induction l as [|x l IH]; simpl; [done|]. by rewrite andb_true_iff, Forall_cons, Hf, IH.
Qed.

Lemma starts_with_head c s : starts_with c s = true <-> head s = Some c.
Proof.
  destruct s as [|d s]; simpl; [done|]. rewrite Ascii.eqb_eq. split; [by intros ->|by intros [= ->]].
Qed.

Lemma ends_with_last c s : ends_with c s = true <-> last s = Some c.
Proof.
  unfold ends_with. rewrite starts_with_head. destruct s as [|d s _] using rev_ind; [done|].
  by rewrite rev_app_distr, last_snoc.
Qed.

Lemma is_dns_label_iff label : is_dns_label label = true <-> dns_label label.
Proof.
  unfold is_dns_label, dns_label.
  rewrite !andb_true_iff, !negb_true_iff, (forallb_reflect _ _ _ label_char), Z.eqb_neq, Z.leb_le.
  rewrite <- starts_with_head, <- ends_with_last, !not_true_iff_false. pose proof (len_nonneg label).
  split; [intros ((((? & ?) & ?) & ?) & ?)|intros ([? ?] & ? & ? & ?)]; repeat split; first [done|lia].
Qed.

Lemma dns_label_no_dot label : dns_label label -> Forall (fun c => c <> "."%char) label.
Proof. intros (_ & H & _). eapply Forall_impl; [exact H|]. intros c Hc ->. by apply existsb_elem in Hc. Qed.

Lemma split_on_label label s cur :
  Forall (fun c => c <> "."%char) label -> split_on "."%char (label ++ s) cur = split_on "."%char s (cur ++ label).
Proof.
  intros H. revert cur. induction H as [|c label Hc _ IH]; intros cur; simpl; [by rewrite app_nil_r|].
  rewrite (proj2 (Ascii.eqb_neq _ _) Hc), IH. by rewrite <- app_assoc.
Qed.

Lemma split_on_dotted labels :
  labels <> [] -> Forall dns_label labels -> split_on "."%char (dotted labels) [] = labels.
Proof.
  intros Hne H. induction H as [|label labels Hl%dns_label_no_dot Hls IH]; [done|].
  destruct labels as [|label' labels].
  - simpl. rewrite <- (app_nil_r label) at 1. by rewrite split_on_label.
  - change (dotted _) with (label ++ "."%char :: dotted (label' :: labels)).
    rewrite split_on_label by done. cbn [split_on]. rewrite Ascii.eqb_refl. f_equal. by apply IH.
Qed.

Lemma split_on_nonempty s cur : split_on "."%char s cur <> [].
Proof. revert cur. induction s as [|c s IH]; intros cur; simpl; [done|]. by destruct (Ascii.eqb c _). Qed.

Lemma dotted_split s cur : dotted (split_on "."%char s cur) = cur ++ s.
Proof.
  revert cur. induction s as [|c s IH]; intros cur; simpl; [by rewrite app_nil_r|].
  destruct (Ascii.eqb_spec c "."%char) as [->|]; [|rewrite IH; by rewrite <- app_assoc].
  specialize (IH []). pose proof (split_on_nonempty s []).
  destruct (split_on "."%char s []) as [|label labels]; [done|]. simpl in *. by rewrite IH.
Qed.

(** The checks on a name, without its final dot. *)
Definition name_checks (name : bytes) : bool :=
  negb (len name =? 0) && negb (forallb (fun b => is_digit b || Ascii.eqb b "."%char) name) && (len name <=? 253) &&
  forallb is_dns_label (split_on "."%char name []).

Lemma name_checks_iff name : name_checks name = true <-> dns_name name.
Proof.
  unfold name_checks, dns_name.
  rewrite !andb_true_iff, !negb_true_iff, Z.eqb_neq, Z.leb_le, <- not_true_iff_false.
  rewrite (forallb_reflect _ _ _ numeric_char), (forallb_reflect _ _ _ is_dns_label_iff).
  split.
  - intros [[[_ Hn] Hl] Hs]. split; [|done]. exists (split_on "."%char name []).
    split; [apply split_on_nonempty|]. split; [done|]. by rewrite dotted_split.
  - intros ((labels & Hne & Hls & ->) & Hl & Hn). rewrite split_on_dotted by done. split; [|done].
    split; [|done]. split; [|done]. intros E. apply Hn. by rewrite (len_zero_inv _ E).
Qed.

(** The four ways a host is accepted. *)
Lemma bind_host_ways host :
  validate_pub_bind_host host = Ok tt ->
  is_Some (parse_ip_addr host) \/
  (exists inner, strip_prefix_char "["%char (as_bytes host) ≫= strip_suffix_char "]"%char = Some inner /\
                 is_Some (parse_ipv6_addr (from_bytes inner))) \/
  host = "*"%string \/ is_dns_hostname (as_bytes host) = true.
Proof.
  unfold validate_pub_bind_host. generalize (parse_ip_addr host) (is_dns_hostname (as_bytes host)).
  intros [ip|] dns; [eauto|].
  destruct (strip_prefix_char _ _ ≫= _) as [s|]; 
    [destruct (parse_ipv6_addr (from_bytes s)) as [g|] eqn:Hg|].
  - intros _. right. left. exists s. rewrite Hg. eauto.
  - cbn [is_some orb]. destruct (decide (host = "*"%string)) as [->|Hne]; [auto|].
    rewrite (bool_decide_false _ Hne). destruct dns; [auto|done].
  - cbn [is_some orb]. destruct (decide (host = "*"%string)) as [->|Hne]; [auto|].
    rewrite (bool_decide_false _ Hne). destruct dns; [auto|done].
Qed.

Lemma strip_brackets host inner :
  strip_prefix_char "["%char host ≫= strip_suffix_char "]"%char = Some inner ->
  host = "["%char :: inner ++ ["]"%char].
Proof.
  intros (t & Ht & Hs)%bind_Some. apply strip_suffix_some in Hs as ->.
  destruct host as [|c b]; cbn [strip_prefix_char] in Ht; [done|].
  destruct (Ascii.eqb_spec "["%char c) as [<-|]; [|done]. by injection Ht as ->.
Qed.

Lemma strip_suffix_snoc c s : strip_suffix_char c (s ++ [c]) = Some s.
Proof.
  unfold strip_suffix_char. rewrite rev_app_distr. simpl. rewrite Ascii.eqb_refl. simpl.
  by rewrite rev_involutive.
Qed.

Lemma is_dns_hostname_checks host :
  is_dns_hostname host = name_checks (default host (strip_suffix_char "."%char host)).
Proof. done. Qed.

Lemma dns_hostname_accepted host :
  is_dns_hostname (as_bytes host) = true -> validate_pub_bind_host host = Ok tt.
Proof. intros H. unfold validate_pub_bind_host. cbv zeta. rewrite H. by destruct (_ || _). Qed.

(** After a final dot comes an empty label. *)
Lemma split_on_final_dot s cur : [] ∈ split_on "."%char (s ++ ["."%char]) cur.
Proof.
  revert cur. induction s as [|c s IH]; intros cur; cbn [app split_on].
  - by apply list_elem_of_further, list_elem_of_here.
  - destruct (Ascii.eqb c "."%char); [by apply list_elem_of_further, IH|apply IH].
Qed.

Lemma dns_name_no_final_dot name : dns_name name -> strip_suffix_char "."%char name = None.
Proof.
  intros ((labels & Hne & Hls & Hn) & _).
  destruct (strip_suffix_char "."%char name) as [n|] eqn:Hs; [|done]. apply strip_suffix_some in Hs.
  pose proof (split_on_final_dot n []) as Hin. rewrite <- Hs, Hn, split_on_dotted in Hin by done.
  rewrite Forall_forall in Hls. destruct (Hls _ Hin) as ([Hl _] & _). by rewrite len_nil in Hl.
Qed.

(** The validator accepts the grammar. *)
Lemma bind_host_iff host : validate_pub_bind_host host = Ok tt <-> bind_host host.
Proof.
  split.
  - intros [H|[(inner & Hs & H)|[->|H]]]%bind_host_ways; [by apply host_address| |apply host_any|].
    + rewrite <- (from_as_bytes host), (strip_brackets _ _ Hs).
      change ("["%char :: inner ++ ["]"%char]) with (["["%char] ++ inner ++ ["]"%char]).
      rewrite !from_bytes_app. by apply host_bracketed.
    + rewrite is_dns_hostname_checks in H. rewrite <- (from_as_bytes host).
      destruct (strip_suffix_char "."%char (as_bytes host)) as [n|] eqn:Hs; simpl in H; apply name_checks_iff in H.
      * apply strip_suffix_some in Hs. rewrite Hs. by apply host_absolute.
      * by apply host_name.
  - intros [h Hip|inner Hg| |name H|name H]; [| |done|apply dns_hostname_accepted..].
    + unfold validate_pub_bind_host. destruct Hip as [ip ->]. done.
    + unfold validate_pub_bind_host. rewrite !as_bytes_app.
      change (as_bytes "[") with ["["%char]. change (as_bytes "]") with ["]"%char].
      cbn [app strip_prefix_char]. rewrite Ascii.eqb_refl. cbn [mbind option_bind].
      destruct Hg as [g Hg]. rewrite strip_suffix_snoc, from_as_bytes, Hg. cbn [is_some]. by rewrite orb_true_r.
    + rewrite is_dns_hostname_checks, as_bytes_from_bytes, dns_name_no_final_dot by done. by apply name_checks_iff.
    + rewrite is_dns_hostname_checks, as_bytes_from_bytes, strip_suffix_snoc. by apply name_checks_iff.
Qed.

(** ** The guarantees of configuration *)

(** C38: a configuration is accepted exactly when every documented condition
    holds, each stated here on its own: the tick rate; the network dimensions
    (counted without overflow); the ingress's payload length, block timeout and
    four capacities; the input width; no Izhikevich cells in live mode; the log
    level; the bind host, by the grammar [bind_host]; finite socket options; and a
    control address that parses.  And an accepted configuration always yields an
    ingress, every class of which admits packets of the configured width. *)
Theorem daemon_validate_iff c :
  daemon_unsigned c ->
  (is_ok (daemon_validate c) = true <->
     1 <= tick_rate_hz c <= 1000000 /\
     1 <= lif_count c + izh_count c <= 65535 /\
     (lif_count c + izh_count c) * channels c <= 1048576 /\
     1 <= max_payload_len (ingress c) <= 1048576 /\
     block_timeout_ms (ingress c) <= 86400000 /\
     1 <= sensory_capacity (ingress c) <= 16384 /\ 1 <= reward_capacity (ingress c) <= 16384 /\
     1 <= control_capacity (ingress c) <= 16384 /\ 1 <= telemetry_capacity (ingress c) <= 16384 /\
     1 <= channels c <= max_payload_len (ingress c) /\
     (runtime_mode c = Live -> izh_count c = 0) /\
     log_level c ∈ ["error"; "warn"; "info"; "debug"; "trace"]%string /\
     bind_host (spine_pub_bind_host c) /\
     0 < spine_pub_sndhwm c /\ 0 <= spine_pub_linger_ms c /\
     (forall bind, control_bind c = Some bind -> is_Some (parse_socket_addr bind))) /\
  (daemon_validate c = Ok tt ->
     exists i, BoundedIngress_new (ingress c) = Ok i /\
       forall class packet, len (stimuli packet) <= channels c -> modulators packet = None ->
         payload_too_large (queue i class).1 packet = false).
Proof.
  intros Hu. pose proof Hu as (_ & _ & _ & Hi).
  assert (is_ok (daemon_validate c) = true <-> daemon_validate c = Ok tt) as ->
    by (by destruct (daemon_validate c) as [[]|e]).
  rewrite daemon_validate_ok by done. split; [split|].
  - intros [? [? ?] (? & ? & Hcap) ? ? ? ?%bind_host_iff ? ? ?].
    pose proof (Hcap Sensory). pose proof (Hcap Reward). pose proof (Hcap Control). pose proof (Hcap Telemetry). done.
  - intros (? & ? & ? & ? & ? & ? & ? & ? & ? & ? & ? & ? & ?%bind_host_iff & ? & ? & ?).
    split; try done. split; [done|]. split; [done|]. by intros [].
  - intros Hc. assert (ingress_validate (ingress c) = Ok tt) as Hv by (by apply validate_ok_bounds; [|apply Hc]).
    eexists. split; [unfold BoundedIngress_new; by rewrite Hv|].
    intros class packet Hl Hm. destruct Hc as [_ _ _ Hch _ _ _ _ _ _]. unfold payload_too_large.
    rewrite Hm. destruct class; simpl; apply orb_false_iff; rewrite !Z.ltb_ge; lia.
Qed.

Lemma parse_ip_addr_cases host :
  is_Some (parse_ip_addr host) -> no_colon (as_bytes host) \/ is_Some (parse_ipv6_addr host).
Proof.
  unfold parse_ip_addr, parse_ipv6_addr, parse_with, read_ip_addr, or_else, mbind, reader_bind, mret, reader_ret.
  destruct (read_ipv4_addr (as_bytes host)) as [[v rest]|] eqn:H4.
  - destruct rest; [|by intros [? [=]]]. left. by eapply read_ipv4_no_colon.
  - generalize (read_ipv6_addr (as_bytes host)). intros [[v [|]]|]; eauto; by intros [? [=]].
Qed.

(** An accepted host has no colon, or is an IPv6 literal, bracketed or not. *)
Lemma bind_host_cases host :
  validate_pub_bind_host host = Ok tt ->
  no_colon (as_bytes host) \/ is_Some (parse_ipv6_addr host) \/
  exists inner, as_bytes host = "["%char :: inner ++ ["]"%char] /\
                is_Some (parse_ipv6_addr (from_bytes inner)).
Proof.
  intros [H|[(inner & Hs & H)|[->|H]]]%bind_host_ways.
  - destruct (parse_ip_addr_cases host H); auto.
  - right. right. exists inner. split; [by apply strip_brackets|done].
  - by left.
  - left. by apply dns_no_colon.
Qed.

Lemma ipv6_not_bracketed host :
  is_Some (parse_ipv6_addr host) -> starts_with "["%char (as_bytes host) = false.
Proof.
  unfold parse_ipv6_addr, parse_with, starts_with.
  destruct (as_bytes host) as [|c b]; [done|]. destruct (Ascii.eqb_spec "["%char c) as [<-|]; [|done].
  assert (read_ipv6_addr ("["%char :: b) = None) as -> by reflexivity. by intros [? [=]].
Qed.

(** The decimal digits of a number hold no colon. *)
Lemma pretty_no_colon (z : Z) : no_colon (as_bytes (pretty z)).
Proof.
  assert (forall x s, no_colon (as_bytes s) -> no_colon (as_bytes (pretty_N_go x s))) as Hgo.
  { intros x. induction (N.lt_wf_0 x) as [x _ IH]. intros s Hs.
    destruct (decide (x = 0)%N) as [->|Hx]; [by rewrite pretty_N_go_0|].
    rewrite pretty_N_go_step by lia. apply IH; [apply N.div_lt; lia|].
    change (no_colon ([pretty_N_char (x mod 10)] ++ as_bytes s)). apply no_colon_app. split; [|done].
    unfold pretty_N_char. by repeat case_match. }
  assert (forall x : N, no_colon (as_bytes (pretty x))) as HN.
  { intros x. unfold pretty, pretty_N. destruct (decide (x = 0)%N); [done|]. by apply Hgo. }
  destruct z; [done|apply (HN (Npos p))|]. change (pretty (Zneg p)) with ("-" +:+ pretty (Npos p))%string.
  rewrite as_bytes_app. by apply no_colon_app.
Qed.

(** A byte string splits at its last colon in one way. *)
Lemma last_colon a b a' b' :
  no_colon b -> no_colon b' -> a ++ ":"%char :: b = a' ++ ":"%char :: b' -> a = a' /\ b = b'.
Proof.
  intros Hb Hb'. revert a'. induction a as [|c a IH]; intros [|c' a'] E; simpl in E.
  - by injection E as ->.
  - injection E as <- ->. exfalso. change (a' ++ ":"%char :: b') with (a' ++ [":"%char] ++ b') in Hb.
    by rewrite !no_colon_app in Hb; destruct Hb as (_ & ? & _).
  - injection E as -> <-. exfalso. change (a ++ ":"%char :: b) with (a ++ [":"%char] ++ b) in Hb'.
    by rewrite !no_colon_app in Hb'; destruct Hb' as (_ & ? & _).
  - injection E as <- E. by destruct (IH a' E) as [-> ->].
Qed.

(** The host part of the endpoint of [host]. *)
Inductive endpoint_host (host : string) : string -> Prop :=
| plain_host : no_colon (as_bytes host) -> endpoint_host host host
| bare_ipv6 : is_Some (parse_ipv6_addr host) -> endpoint_host host ("[" +:+ host +:+ "]")
| bracketed_ipv6 inner : is_Some (parse_ipv6_addr inner) -> host = ("[" +:+ inner +:+ "]")%string ->
    endpoint_host host host.

(** C30: the endpoint of an accepted host is unambiguous.  It is
    tcp://HOST:PORT where HOST is the host itself if that holds no colon, the
    host in one pair of brackets if it is an IPv6 literal, and the host as it is
    if it is already a bracketed IPv6 literal; and PORT is what follows the last
    colon: however the endpoint is read as tcp://H:P with no colon in P, H is
    that HOST and P the port's digits. *)
Theorem pub_endpoint_unambiguous host port :
  validate_pub_bind_host host = Ok tt ->
  exists h, endpoint_host host h /\
    pub_endpoint host port = ("tcp://" +:+ h +:+ ":" +:+ pretty port)%string /\
    forall h' p', no_colon (as_bytes p') -> pub_endpoint host port = ("tcp://" +:+ h' +:+ ":" +:+ p')%string ->
      h' = h /\ p' = pretty port.
Proof.
  intros Hv. enough (exists h, endpoint_host host h /\
    pub_endpoint host port = ("tcp://" +:+ h +:+ ":" +:+ pretty port)%string) as (h & Hh & He).
  { exists h. split; [done|]. split; [done|]. intros h' p' Hp' E. rewrite He in E.
    apply (f_equal as_bytes) in E. rewrite !as_bytes_app in E. apply app_inv_head in E.
    apply last_colon in E as [E1 E2]; [|apply pretty_no_colon|done].
    apply (f_equal from_bytes) in E1, E2. by rewrite !from_as_bytes in E1, E2. }
  unfold pub_endpoint. destruct (bind_host_cases host Hv) as [Hn|[H6|(inner & Hi & H6)]].
  - exists host. split; [by constructor|]. unfold no_colon in Hn. by rewrite Hn.
  - destruct (contains_char _ _) eqn:Hc; cbn [andb negb].
    + exists ("[" +:+ host +:+ "]")%string. split; [by constructor|].
      rewrite (ipv6_not_bracketed _ H6). by rewrite !string_app_assoc.
    + exists host. by split; [constructor|].
  - exists host. rewrite Hi. change (negb _) with false. rewrite andb_false_r. split; [|done].
    apply (bracketed_ipv6 host (from_bytes inner)); [done|]. rewrite <- (from_as_bytes host), Hi.
    change ("["%char :: inner ++ ["]"%char]) with (["["%char] ++ inner ++ ["]"%char]). by rewrite !from_bytes_app.
Qed.

(** The registry's last word wins: a name is registered exactly when the
    last entry that names it is enabled, and then it maps to that entry. *)
Theorem from_configs_last_wins configs name :
  registry_get (from_configs configs) name =
  match last (filter (fun c => sc_name c = name) configs) with
  | Some c => if sc_enabled c then Some c else None
  | None => None
  end.
Proof.
  unfold registry_get, from_configs. induction configs as [|c configs IH] using rev_ind; [done|].
  rewrite fold_left_app, filter_app. cbn [fold_left].
  destruct (decide (sc_name c = name)) as [<-|Hne].
  - rewrite filter_cons_True, filter_nil, last_snoc by done.
    destruct (sc_enabled c); [apply lookup_insert_eq | apply lookup_delete_eq].
  - rewrite filter_cons_False, filter_nil, app_nil_r, <- IH by done.
    destruct (sc_enabled c); [by apply lookup_insert_ne | by apply lookup_delete_ne].
Qed.

(** ** Witnesses *)

Definition demo_config : DaemonConfig := {|
  tick_rate_hz := 1000;
  log_level := "info";
  spine_sub_port := 5555;
  spine_pub_port := 5556;
  spine_pub_bind_host := "::1";
  spine_pub_sndhwm := default_spine_pub_sndhwm;
  spine_pub_linger_ms := default_spine_pub_linger_ms;
  spine_pub_send_empty_batches := default_spine_pub_send_empty_batches;
  model_path := "snn_model.json";
  lif_count := 16;
  izh_count := 0;
  channels := 8;
  runtime_mode := Live;
  services := [named "spine"];
  ingress := IngressConfig_default;
  control_bind := Some "127.0.0.1:9100"%string;
|}.

Lemma demo_config_unsigned : daemon_unsigned demo_config.
Proof. repeat split; try (simpl; lia). intros []; simpl; lia. Qed.

Lemma daemon_validate_iff_witness :
  exists i, BoundedIngress_new (Config.ingress demo_config) = Ok i.
Proof.
  destruct (proj2 (daemon_validate_iff demo_config demo_config_unsigned) eq_refl) as (i & H & _).
  by exists i.
Defined.

Lemma pub_endpoint_unambiguous_witness :
  exists h, endpoint_host "::1" h /\ pub_endpoint "::1" 5556 = ("tcp://" +:+ h +:+ ":5556")%string.
Proof.
  destruct (pub_endpoint_unambiguous "::1" 5556 eq_refl) as (h & Hh & H & _). by exists h.
Defined.
