(* ===== verification/Corpus.v ===== *)
(** * Typed corpus-ipc ingress (src/ingress/corpus.rs)

    The wire types belong to the corpus-ipc crate: [IpcMessage] below has the
    variants the source matches on, with the payloads it reads, and the crate's
    [StimulusBatch::validate] and JSON decoder are arguments.  What is relied on
    of [validate] is the documented check that every value is finite. *)

From stdpp Require Import pretty.
From S2P Require Import Prelude Floats Packet.
Local Open Scope Z_scope.

Definition STIMULUS_SCHEMA : string := "corpus-ipc.stimulus.v1".

Record BatchMetadata := MkBatchMetadata {
  bm_processing_latency_ns : option Z;
  bm_source : option string;
  bm_custom : gmap string string;
}.

Record StimulusBatch := MkStimulusBatch {
  sb_session_id : option string;
  sb_batch_id : Z;
  sb_timestamp : Z;
  sb_values : list f32;
  sb_valid_mask : option (list bool);
  sb_metadata : option BatchMetadata;
}.

Record NeuromodulatorSnapshot := MkNeuromodulatorSnapshot {
  nm_tick : Z;
  nm_dopamine : f32;
  nm_cortisol : f32;
  nm_acetylcholine : f32;
  nm_tempo : f32;
}.

#[export] Instance BatchMetadata_eq_dec : EqDecision BatchMetadata.
Proof. solve_decision. Defined.
#[export] Instance StimulusBatch_eq_dec : EqDecision StimulusBatch.
Proof. solve_decision. Defined.
#[export] Instance NeuromodulatorSnapshot_eq_dec : EqDecision NeuromodulatorSnapshot.
Proof. solve_decision. Defined.

Inductive IpcMessage :=
| Stimuli (batch : StimulusBatch)
| Neuromodulators (snapshot : NeuromodulatorSnapshot)
| MsgSpikes | MsgEmbeddings | MsgLoss | MsgConfigUpdate | MsgGradientUpdate
| MsgEligibilityTraces | MsgTrainingComplete | MsgShutdown | MsgPing.

(** [max_age] in nanoseconds; [expected_channels = 0] checks no width. *)
Record IngressPolicy := MkIngressPolicy {
  expected_channels : Z;
  max_age : option Z;
}.

Inductive SchemaError := UnsupportedSchema (schema : string) | MissingSchema | MissingMetadata.

Inductive IngressError :=
| Deserialize (msg : string)
| UnexpectedVariant (name : string)
| Width (expected got : Z)
| Stale (age_ns max_age_ns : Z)
| Future (timestamp now : Z)
| Schema (e : SchemaError)
| StimulusInvalid (msg : string).

(** The strings [require_stimulus_schema] formats, and [Display]. *)
Definition schema_error_to_string (e : SchemaError) : string :=
  match e with
  | UnsupportedSchema schema =>
    "unsupported schema '" +:+ schema +:+ "', expected " +:+ STIMULUS_SCHEMA
  | MissingSchema => "missing metadata.custom.schema"
  | MissingMetadata => "missing batch metadata"
  end.

Definition ingress_error_to_string (e : IngressError) : string :=
  match e with
  | Deserialize msg => "IPC schema deserialize error: " +:+ msg
  | UnexpectedVariant name => "unexpected IpcMessage variant on stimulus ingress: " +:+ name
  | Width expected got =>
    "stimulus width " +:+ pretty got +:+ " does not match configured channels " +:+ pretty expected
  | Stale age_ns max_age_ns =>
    "stimulus is stale: age " +:+ pretty age_ns +:+ " ns exceeds " +:+ pretty max_age_ns +:+ " ns"
  | Future timestamp now =>
    "stimulus timestamp " +:+ pretty timestamp +:+ " is in the future (now " +:+ pretty now +:+ ")"
  | Schema e => "stimulus schema incompatibility: " +:+ schema_error_to_string e
  | StimulusInvalid msg => "stimulus batch invalid: " +:+ msg
  end.

Definition require_stimulus_schema (batch : StimulusBatch) : result IngressError unit :=
  match sb_metadata batch with
  | Some meta =>
    match bm_custom meta !! "schema" with
    | Some schema =>
      if bool_decide (schema = STIMULUS_SCHEMA) then Ok tt
      else Err (Schema (UnsupportedSchema schema))
    | None => Err (Schema MissingSchema)
    end
  | None => Err (Schema MissingMetadata)
  end.

Definition reject_stale_or_future (timestamp now_ns : Z) (max_age : option Z) :
    result IngressError unit :=
  match max_age with
  | None => Ok tt
  | Some max_age =>
    if now_ns <? timestamp then Err (Future timestamp now_ns)
    else
      let max_age_ns := wrap64 max_age in
      let age_ns := now_ns - timestamp in
      if max_age_ns <? age_ns then Err (Stale age_ns max_age_ns) else Ok tt
  end.

Section Accept.
Variable validate : StimulusBatch -> result string unit.
Variable from_slice : string -> result string IpcMessage.

Definition accept_stimulus_batch (batch : StimulusBatch) (policy : IngressPolicy) (now_ns : Z) :
    result IngressError IngressPacket :=
  map_err StimulusInvalid (validate batch) ≫= fun _ =>
  require_stimulus_schema batch ≫= fun _ =>
  require (negb (negb (expected_channels policy =? 0) &&
                 negb (len (sb_values batch) =? expected_channels policy)))
    (Width (expected_channels policy) (len (sb_values batch))) ≫= fun _ =>
  reject_stale_or_future (sb_timestamp batch) now_ns (max_age policy) ≫= fun _ =>
  Ok {| stimuli := sb_values batch;
        modulators := None;
        valid_mask := sb_valid_mask batch;
        batch_id := Some (sb_batch_id batch);
        timestamp_ns := Some (sb_timestamp batch);
        session_id := sb_session_id batch;
        rejected := false |}.

Definition accept_ipc_message (message : IpcMessage) (policy : IngressPolicy) (now_ns : Z) :
    result IngressError IngressPacket :=
  match message with
  | Stimuli batch => accept_stimulus_batch batch policy now_ns
  | Neuromodulators snapshot =>
    Ok {| stimuli := [];
          modulators := Some [nm_dopamine snapshot; nm_cortisol snapshot;
                              nm_acetylcholine snapshot; nm_tempo snapshot];
          valid_mask := valid_mask IngressPacket_default;
          batch_id := batch_id IngressPacket_default;
          timestamp_ns := timestamp_ns IngressPacket_default;
          session_id := session_id IngressPacket_default;
          rejected := rejected IngressPacket_default |}
  | MsgSpikes => Err (UnexpectedVariant "Spikes")
  | MsgEmbeddings => Err (UnexpectedVariant "Embeddings")
  | MsgLoss => Err (UnexpectedVariant "Loss")
  | MsgConfigUpdate => Err (UnexpectedVariant "ConfigUpdate")
  | MsgGradientUpdate => Err (UnexpectedVariant "GradientUpdate")
  | MsgEligibilityTraces => Err (UnexpectedVariant "EligibilityTraces")
  | MsgTrainingComplete => Err (UnexpectedVariant "TrainingComplete")
  | MsgShutdown => Err (UnexpectedVariant "Shutdown")
  | MsgPing => Err (UnexpectedVariant "Ping")
  end.

Definition accept_ipc_json (bytes : string) (policy : IngressPolicy) (now_ns : Z) :
    result IngressError IngressPacket :=
  map_err Deserialize (from_slice bytes) ≫= fun message =>
  accept_ipc_message message policy now_ns.

(** ** Facts *)

Lemma schema_ok batch :
  require_stimulus_schema batch = Ok tt <->
  exists meta, sb_metadata batch = Some meta /\ bm_custom meta !! "schema" = Some STIMULUS_SCHEMA.
Proof.
  unfold require_stimulus_schema. destruct (sb_metadata batch) as [meta|]; [|by split; [|intros (? & [=] & _)]].
  destruct (bm_custom meta !! "schema") as [s|] eqn:Hs; [|split; [done|intros (? & [= <-] & H); by rewrite Hs in H]].
  destruct (decide (s = STIMULUS_SCHEMA)) as [->|Hne].
  - rewrite bool_decide_true by done. split; [eauto|done].
  - rewrite bool_decide_false by done. split; [done|]. intros (? & [= <-] & H). congruence.
Qed.

Lemma fresh_ok timestamp now age :
  reject_stale_or_future timestamp now age = Ok tt <->
  forall a, age = Some a -> 0 <= now - timestamp <= wrap64 a.
Proof.
  unfold reject_stale_or_future. destruct age as [a|]; [|by split].
  destruct (Z.ltb_spec now timestamp); [split; [done|intros H'; specialize (H' a eq_refl); lia]|].
  destruct (Z.ltb_spec (wrap64 a) (now - timestamp)).
  - split; [done|]. intros H'. specialize (H' a eq_refl). lia.
  - split; [|done]. intros _ ? [= <-]. lia.
Qed.

(** The checks an accepted batch passed. *)
Lemma accepted_batch batch policy now packet :
  accept_stimulus_batch batch policy now = Ok packet ->
  validate batch = Ok tt /\ require_stimulus_schema batch = Ok tt /\
  (expected_channels policy = 0 \/ len (sb_values batch) = expected_channels policy) /\
  reject_stale_or_future (sb_timestamp batch) now (max_age policy) = Ok tt /\
  packet = MkPacket (sb_values batch) None (sb_valid_mask batch) (Some (sb_batch_id batch))
             (Some (sb_timestamp batch)) (sb_session_id batch) false.
Proof.
  intros ([] & Hv & H)%result_bind_ok. apply map_err_ok in Hv. apply result_bind_ok in H as ([] & Hs & H).
  apply require_bind_ok in H as [Hw H]. apply result_bind_ok in H as ([] & Hf & [= <-]).
  rewrite negb_true_iff, andb_false_iff, !negb_false_iff, !Z.eqb_eq in Hw. done.
Qed.

(** A stimulus batch is accepted exactly when corpus-ipc's own validation
    passes, its metadata carries the schema token, its width is the configured
    one (if any) and its timestamp is neither in the future nor older than the
    freshness window; the packet then carries the batch unchanged. *)
Theorem accept_stimulus_iff batch policy now packet :
  accept_ipc_message (Stimuli batch) policy now = Ok packet <->
  validate batch = Ok tt /\
  (exists meta, sb_metadata batch = Some meta /\ bm_custom meta !! "schema" = Some STIMULUS_SCHEMA) /\
  (expected_channels policy = 0 \/ len (sb_values batch) = expected_channels policy) /\
  (forall a, max_age policy = Some a -> 0 <= now - sb_timestamp batch <= wrap64 a) /\
  packet = MkPacket (sb_values batch) None (sb_valid_mask batch) (Some (sb_batch_id batch))
             (Some (sb_timestamp batch)) (sb_session_id batch) false.
Proof.
  rewrite <- schema_ok, <- fresh_ok. split; [apply accepted_batch|].
  intros (Hv & Hs & Hw & Hf & ->). simpl. unfold accept_stimulus_batch.
  rewrite Hv, Hs. simpl. rewrite require_bind_ok, Hf. split; [|done].
  by rewrite negb_true_iff, andb_false_iff, !negb_false_iff, !Z.eqb_eq.
Qed.

(** What the documented finiteness check of [validate] gives every packet with
    stimuli. *)
Lemma accepted_stimuli_finite bytes policy now packet :
  (forall batch, validate batch = Ok tt -> all_finite (sb_values batch) = true) ->
  accept_ipc_json bytes policy now = Ok packet -> all_finite (stimuli packet) = true.
Proof.
  intros Hval (message & _ & H)%result_bind_ok. destruct message as [batch| | | | | | | | | |]; try done.
  - apply accepted_batch in H as (Hv & _ & _ & _ & ->). by apply Hval.
  - by injection H as <-.
Qed.
End Accept.

(** ** Witness *)

Definition demo_batch : StimulusBatch := {|
  sb_session_id := Some "smoke";
  sb_batch_id := 7;
  sb_timestamp := 1000;
  sb_values := [f_one32; f_zero];
  sb_valid_mask := Some [true; false];
  sb_metadata := Some (MkBatchMetadata None (Some "smoke-driver") {["schema" := STIMULUS_SCHEMA]});
|}.

(** A validation that checks finiteness. *)
Definition demo_validate (batch : StimulusBatch) : result string unit :=
  require (all_finite (sb_values batch)) "non-finite".

Lemma accept_stimulus_iff_witness :
  accept_ipc_message demo_validate (Stimuli demo_batch) (MkIngressPolicy 2 (Some 1000000000)) 1500 =
  Ok (MkPacket [f_one32; f_zero] None (Some [true; false]) (Some 7) (Some 1000) (Some "smoke") false).
Proof.
  apply (accept_stimulus_iff demo_validate). split; [reflexivity|]. split; [eexists; split; reflexivity|].
  split; [right; reflexivity|]. split; [|reflexivity]. intros a [= <-]. vm_compute. split; discriminate.
Defined.
