(* ===== verification/Backend.v ===== *)
(** * Backends (src/backend.rs)

    The source and sink traits as classes of stateful operations, the stub,
    no-op and collecting implementations, and the ZeroMQ source and sink.  The
    zmq crate's socket is the model's environment: the source's state carries
    the outcomes its next non-blocking receives will have, the sink's those of
    its sends.  Errors are the [anyhow] messages' payloads. *)

From S2P Require Import Prelude Floats Packet Corpus.
Local Open Scope Z_scope.

(** ** The traits *)

Class StimulusSource (S : Type) := {
  next_ingress : stateful S string (option IngressPacket);
  initialize : option string -> stateful S string unit;
  source_shutdown : stateful S string unit;
}.

Class SpikeSink (K : Type) := {
  emit : list SpikeEvent -> Z -> stateful K string unit;
  flush : stateful K string unit;
}.

(** The traits' default methods. *)
Definition default_shutdown {S} : stateful S string unit := mret tt.
Definition default_flush {K} : stateful K string unit := mret tt.

(** ** Stub, no-op and collecting implementations *)

Inductive StubStimulusSource := StubSource.

#[export] Instance stub_source : StimulusSource StubStimulusSource := {
  next_ingress := mret (Some IngressPacket_default);
  initialize := fun _ => mret tt;
  source_shutdown := default_shutdown;
}.

Inductive NoopSpikeSink := NoopSink.

#[export] Instance noop_sink : SpikeSink NoopSpikeSink := {
  emit := fun _ _ => mret tt;
  flush := default_flush;
}.

Record CollectingSpikeSink := MkCollectingSpikeSink { emitted : list (list SpikeEvent) }.

Definition CollectingSpikeSink_new : CollectingSpikeSink := MkCollectingSpikeSink [].

#[export] Instance collecting_sink : SpikeSink CollectingSpikeSink := {
  emit := fun spikes _ => modify (fun k => MkCollectingSpikeSink (emitted k ++ [spikes]));
  flush := default_flush;
}.

(** A source and a sink, boxed. *)
Record BackendPair {S K : Type} := MkPair {
  pair_source : S;
  pair_sink : K;
}.
Arguments BackendPair : clear implicits.
Arguments MkPair {S K} pair_source pair_sink.

(** [BackendPair::stub]. *)
Definition stub : BackendPair StubStimulusSource NoopSpikeSink := MkPair StubSource NoopSink.

(** ** The ZeroMQ stimulus source *)

Definition MAX_DRAIN_PER_TICK : nat := 32.

(** One [recv_bytes(DONTWAIT)], with the wall clock read when a frame came. *)
Inductive Recv :=
| Frame (buf : string) (now_ns : Z)
| Eagain
| RecvError (e : string).

Record ZmqStimulusSource := MkZmqSource {
  zs_socket : option (list Recv);   (** the connected socket's next receives *)
  zs_channels : Z;
  zs_last_modulators : option (list f32);
  zs_max_age : Z;
}.

Definition with_channels (ch : Z) : ZmqStimulusSource := MkZmqSource None ch None 1000000000.
Definition ZmqStimulusSource_new : ZmqStimulusSource := with_channels 0.
Definition with_max_age (max_age : Z) (s : ZmqStimulusSource) : ZmqStimulusSource :=
  MkZmqSource (zs_socket s) (zs_channels s) (zs_last_modulators s) max_age.

Definition set_socket (k : option (list Recv)) (s : ZmqStimulusSource) : ZmqStimulusSource :=
  MkZmqSource k (zs_channels s) (zs_last_modulators s) (zs_max_age s).
Definition set_last_modulators (m : option (list f32)) (s : ZmqStimulusSource) : ZmqStimulusSource :=
  MkZmqSource (zs_socket s) (zs_channels s) m (zs_max_age s).

(** The two environment variables, in order, then the default. *)
Definition readout_endpoint (corpus_env legacy_env : option string) : string :=
  default "tcp://127.0.0.1:5555"%string (option_or corpus_env legacy_env).

(** The zmq calls [connect] makes. *)
Inductive ZmqCall := SocketSub | SetSubscribe (prefix : string) | SetRcvhwm (n : Z) | Connect (endpoint : string).

Definition connect_calls (endpoint : string) : list ZmqCall :=
  [SocketSub; SetSubscribe ""; SetRcvhwm 16; Connect endpoint].

(** Calls are made until one fails; [fresh] is what the new socket will receive. *)
Definition zmq_connect (call : ZmqCall -> result string unit) (fresh : list Recv)
    (endpoint : string) : stateful ZmqStimulusSource string unit := fun s =>
  match fold_left (fun r c => r ≫= fun _ => call c) (connect_calls endpoint) (Ok tt) with
  | Ok _ => (set_socket (Some fresh) s, Ok tt)
  | Err e => (s, Err e)
  end.

(** Caches the vector unless some value is not finite. *)
Definition hold_modulators (mods : list f32) (s : ZmqStimulusSource) : ZmqStimulusSource * bool :=
  if existsb (fun v => negb (is_finite v)) mods then (s, false)
  else (set_last_modulators (Some mods) s, true).

Definition with_modulators (m : option (list f32)) (p : IngressPacket) : IngressPacket :=
  MkPacket (stimuli p) m (valid_mask p) (batch_id p) (timestamp_ns p) (session_id p) (rejected p).

Definition skip_ingress (is_rejected : bool) (s : ZmqStimulusSource) : option IngressPacket :=
  if negb is_rejected && negb (is_some (zs_last_modulators s)) then None
  else Some (MkPacket [] (zs_last_modulators s) None None None None is_rejected).

Definition attach_held_modulators (s : ZmqStimulusSource) (packet : IngressPacket) : IngressPacket :=
  match modulators packet with
  | None => with_modulators (zs_last_modulators s) packet
  | Some _ => packet
  end.

(** [Some skip] tells the caller to return [skip]. *)
Definition hold_or_reject (mods : list f32) (s : ZmqStimulusSource) :
    ZmqStimulusSource * option (option IngressPacket) :=
  let '(s, held) := hold_modulators mods s in
  if held then (s, None) else (s, Some (skip_ingress true s)).

Section Zmq.
Variable validate : StimulusBatch -> result string unit.
Variable from_slice : string -> result string IpcMessage.

(** The receive loop, [fuel] more rounds. *)
Fixpoint drain_frames (fuel : nat) (policy : IngressPolicy) (s : ZmqStimulusSource) :
    ZmqStimulusSource * result string (option IngressPacket) :=
  match fuel with
  | O => (s, Ok (skip_ingress false s))
  | S fuel =>
    match zs_socket s with
    | None => (s, Err "ZMQ stimulus source not initialized"%string)
    | Some recvs =>
      match recvs with
      | [] | Eagain :: _ => (set_socket (Some (tail recvs)) s, Ok (skip_ingress false s))
      | RecvError e :: rest => (set_socket (Some rest) s, Err e)
      | Frame buf now_ns :: rest =>
        let s := set_socket (Some rest) s in
        match accept_ipc_json validate from_slice buf policy now_ns with
        | Ok packet =>
          match modulators packet with
          | Some mods =>
            let '(s, skip) := hold_or_reject mods s in
            match skip with
            | Some skip => (s, Ok skip)
            | None =>
              match stimuli packet with
              | [] => drain_frames fuel policy s
              | _ => (s, Ok (Some packet))
              end
            end
          | None => (s, Ok (Some (attach_held_modulators s packet)))
          end
        | Err _ => (s, Ok (skip_ingress true s))
        end
      end
    end
  end.

Definition zmq_next_ingress : stateful ZmqStimulusSource string (option IngressPacket) := fun s =>
  drain_frames MAX_DRAIN_PER_TICK (MkIngressPolicy (zs_channels s) (Some (zs_max_age s))) s.

Definition zmq_initialize (call : ZmqCall -> result string unit) (fresh : list Recv)
    (corpus_env legacy_env : option string) : stateful ZmqStimulusSource string unit := fun s =>
  if is_some (zs_socket s) then (s, Ok tt)
  else zmq_connect call fresh (readout_endpoint corpus_env legacy_env) s.
End Zmq.

(** ** The ZeroMQ spike sink *)

Record SinkSendStats := MkSinkSendStats {
  attempted : Z;
  suppressed : Z;
  failed : Z;
}.

(** A [SpikeBatch] with no session and no metadata. *)
Record SpikeBatch := MkSpikeBatch {
  pb_batch_id : Z;
  pb_timestamp : Z;
  pb_spikes : list SpikeEvent;
}.

(** The socket: whether its mutex is poisoned, the outcomes of the next sends,
    and the frames ZeroMQ took. *)
Record ZmqSpikeSink := MkZmqSink {
  zk_poisoned : bool;
  zk_sends : list (result string unit);
  zk_sent : list string;
  zk_send_empty_batches : bool;
  zk_stats : SinkSendStats;
}.

Definition sink_with_policy (sends : list (result string unit)) (send_empty : bool) : ZmqSpikeSink :=
  MkZmqSink false sends [] send_empty (MkSinkSendStats 0 0 0).
Definition sink_new (sends : list (result string unit)) : ZmqSpikeSink := sink_with_policy sends true.

Definition set_stats (st : SinkSendStats) (k : ZmqSpikeSink) : ZmqSpikeSink :=
  MkZmqSink (zk_poisoned k) (zk_sends k) (zk_sent k) (zk_send_empty_batches k) st.

(** [socket.send]: a socket with no scripted outcome left accepts. *)
Definition socket_send (payload : string) : ZmqSpikeSink -> ZmqSpikeSink * result string unit :=
  fun k => match zk_sends k with
  | Err e :: rest =>
    (MkZmqSink (zk_poisoned k) rest (zk_sent k) (zk_send_empty_batches k) (zk_stats k), Err e)
  | _ =>
    (MkZmqSink (zk_poisoned k) (tail (zk_sends k)) (zk_sent k ++ [payload])
       (zk_send_empty_batches k) (zk_stats k), Ok tt)
  end.

Section Sink.
Variable to_vec : SpikeBatch -> result string string.

(** [batch_time] in nanoseconds. *)
Definition zmq_emit (spikes : list SpikeEvent) (batch_time : Z) : stateful ZmqSpikeSink string unit :=
  fun k =>
  let st := zk_stats k in
  if bool_decide (spikes = []) && negb (zk_send_empty_batches k) then
    (set_stats (MkSinkSendStats (attempted st) (wadd64 (suppressed st) 1) (failed st)) k, Ok tt)
  else
    let batch := MkSpikeBatch (wrap64 (batch_time / 1000000)) (wrap64 batch_time) spikes in
    match to_vec batch with
    | Err e => (k, Err e)
    | Ok payload =>
      if zk_poisoned k then (k, Err "ZMQ socket mutex poisoned"%string)
      else
        let k := set_stats (MkSinkSendStats (wadd64 (attempted st) 1) (suppressed st) (failed st)) k in
        match socket_send payload k with
        | (k, Ok _) => (k, Ok tt)
        | (k, Err e) =>
          let st := zk_stats k in
          (set_stats (MkSinkSendStats (attempted st) (suppressed st) (wadd64 (failed st) 1)) k, Err e)
        end
    end.
End Sink.

(** ** Facts about the source *)

Definition held_finite (s : ZmqStimulusSource) : Prop :=
  forall mods, zs_last_modulators s = Some mods -> all_finite mods = true.

Lemma hold_modulators_spec mods s s' held :
  hold_modulators mods s = (s', held) ->
  held = all_finite mods /\
  s' = (if all_finite mods then set_last_modulators (Some mods) s else s).
Proof.
  unfold hold_modulators, all_finite.
  assert (existsb (fun v => negb (is_finite v)) mods = negb (forallb is_finite mods)) as ->.
  { induction mods as [|v mods IH]; simpl; [done|]. rewrite IH. by destruct (is_finite v). }
  destruct (forallb is_finite mods); simpl; by intros [= <- <-].
Qed.

Lemma skip_finite r s packet :
  held_finite s -> Ok (E:=string) (skip_ingress r s) = Ok (Some packet) -> packet_finite packet = true.
Proof.
  unfold skip_ingress. intros Hs. destruct (_ && _); [done|]. intros [= <-].
  unfold packet_finite. simpl. destruct (zs_last_modulators s) as [m|] eqn:Hm; [by apply Hs|done].
Qed.

Section ZmqFacts.
Variable validate : StimulusBatch -> result string unit.
Variable from_slice : string -> result string IpcMessage.

(** The documented finiteness check of corpus-ipc's [validate]. *)
Definition validates_finite : Prop :=
  forall batch, validate batch = Ok tt -> all_finite (sb_values batch) = true.

Lemma drain_frames_finite fuel policy s s' r :
  validates_finite -> held_finite s -> drain_frames validate from_slice fuel policy s = (s', r) ->
  held_finite s' /\ forall packet, r = Ok (Some packet) -> packet_finite packet = true.
Proof.
  intros Hv. revert s. induction fuel as [|fuel IH]; intros s Hs; simpl.
  - intros [= <- <-]. split; [done|]. intros p. by apply skip_finite.
  - destruct (zs_socket s) as [recvs|]; [|by intros [= <- <-]].
    assert (forall k, held_finite (set_socket k s)) as Hk by done.
    destruct recvs as [|[buf now| |e] rest].
    2: destruct (accept_ipc_json _ _ _ _ _) as [packet|e] eqn:Ha.
    1,3,4: intros [= <- <-]; split; [done|]; intros p; by apply skip_finite.
    2: by intros [= <- <-].
    pose proof (accepted_stimuli_finite validate from_slice _ _ _ _ Hv Ha) as Hst.
    destruct (modulators packet) as [mods|] eqn:Hm.
    + unfold hold_or_reject. destruct (hold_modulators mods _) as [s1 held] eqn:Hh.
      apply hold_modulators_spec in Hh as [-> ->]. destruct (all_finite mods) eqn:Hf.
      * assert (held_finite (set_last_modulators (Some mods) (set_socket (Some rest) s))) as H1
          by by intros m [= <-].
        destruct (stimuli packet) eqn:Hsp; [by apply IH|]. intros [= <- <-]. split; [done|].
        intros p [= <-]. unfold packet_finite. by rewrite Hm, Hf, Hsp, Hst.
      * intros [= <- <-]. split; [done|]. intros p. by apply skip_finite.
    + intros [= <- <-]. split; [done|]. intros p [= <-]. unfold attach_held_modulators. rewrite Hm.
      unfold packet_finite. simpl. rewrite Hst.
      destruct (zs_last_modulators s) eqn:Hl; [by apply Hs|done].
Qed.

(** A frame the drain loop holds and skips over: accepted, no stimuli, finite
    modulators. *)
Definition modulation_only (policy : IngressPolicy) (f : Recv) : Prop :=
  exists buf now packet mods, f = Frame buf now /\
    accept_ipc_json validate from_slice buf policy now = Ok packet /\
    stimuli packet = [] /\ modulators packet = Some mods /\ all_finite mods = true.

(** The packet of a frame that ends the loop with a delivery. *)
Definition delivered_from (policy : IngressPolicy) (f : option Recv) (p : IngressPacket) : Prop :=
  exists buf now packet, f = Some (Frame buf now) /\
    accept_ipc_json validate from_slice buf policy now = Ok packet /\
    stimuli p = stimuli packet /\ valid_mask p = valid_mask packet /\ batch_id p = batch_id packet.

(** What one call took off the socket: frames it held and skipped, then at most
    one more outcome, which decided the result [r]; [rest] is untouched. *)
Definition drained (policy : IngressPolicy) (fuel : nat) (recvs rest : list Recv)
    (r : result string (option IngressPacket)) : Prop :=
  exists skipped stop,
    recvs = skipped ++ option_list stop ++ rest /\
    (length skipped + length (option_list stop) <= fuel)%nat /\
    Forall (modulation_only policy) skipped /\
    forall p, r = Ok (Some p) -> stimuli p <> [] -> delivered_from policy stop p.

Lemma drained_stop policy fuel f rest r :
  (forall p, r = Ok (Some p) -> stimuli p <> [] -> delivered_from policy (Some f) p) ->
  drained policy (S fuel) (f :: rest) rest r.
Proof. intros Hp. exists [], (Some f). repeat split; try done. simpl. lia. Qed.

Lemma drained_none policy fuel recvs r :
  (forall p, r = Ok (Some p) -> stimuli p = []) -> drained policy fuel recvs recvs r.
Proof.
  intros Hp. exists [], None. repeat split; try done; [simpl; lia|]. intros p H Hne.
  by apply Hp in H.
Qed.

Lemma drained_skip policy fuel f recvs rest r :
  modulation_only policy f -> drained policy fuel recvs rest r ->
  drained policy (S fuel) (f :: recvs) rest r.
Proof.
  intros Hf (sk & stop & -> & Hl & Hall & Hp). exists (f :: sk), stop.
  repeat split; try done; [simpl; lia|]. by constructor.
Qed.

Lemma skip_no_stimuli sk s p : Ok (E:=string) (skip_ingress sk s) = Ok (Some p) -> stimuli p = [].
Proof. unfold skip_ingress. destruct (_ && _); [done|]. by intros [= <-]. Qed.

Lemma drain_frames_consumes fuel policy s s' r recvs :
  zs_socket s = Some recvs -> drain_frames validate from_slice fuel policy s = (s', r) ->
  exists rest, zs_socket s' = Some rest /\ drained policy fuel recvs rest r.
Proof.
  revert s recvs. induction fuel as [|fuel IH]; intros s recvs Hk; simpl.
  { intros [= <- <-]. exists recvs. split; [done|]. apply drained_none. intros p. apply skip_no_stimuli. }
  rewrite Hk. destruct recvs as [|[buf now| |e] rest]; simpl.
  - intros [= <- <-]. exists []. split; [done|]. apply drained_none. intros p. apply skip_no_stimuli.
  - set (s1 := set_socket (Some rest) s).
    assert (drained policy (S fuel) (Frame buf now :: rest) rest (Ok (skip_ingress true s1))) as Hrej.
    { apply drained_stop. intros p Hp%skip_no_stimuli. done. }
    destruct (accept_ipc_json _ _ _ _ _) as [packet|e] eqn:Ha; [|intros [= <- <-]; by exists rest].
    destruct (modulators packet) as [mods|] eqn:Hm.
    + unfold hold_or_reject. destruct (hold_modulators mods s1) as [s2 held] eqn:Hh.
      apply hold_modulators_spec in Hh as [-> ->].
      destruct (all_finite mods) eqn:Hf; [|intros [= <- <-]; by exists rest].
      destruct (stimuli packet) eqn:Hsp.
      * intros Hd. apply (IH _ rest) in Hd as (rest' & Hr & Hd); [|done]. exists rest'. split; [done|].
        apply drained_skip; [|done]. by exists buf, now, packet, mods.
      * intros [= <- <-]. exists rest. split; [done|]. apply drained_stop. intros p [= <-] _.
        by exists buf, now, packet.
    + intros [= <- <-]. exists rest. split; [done|]. apply drained_stop. intros p [= <-] _.
      exists buf, now, packet. unfold attach_held_modulators. by rewrite Hm.
  - intros [= <- <-]. exists rest. split; [done|]. apply drained_stop. intros p Hp%skip_no_stimuli. done.
  - intros [= <- <-]. exists rest. split; [done|]. by apply drained_stop.
Qed.

(** The ZeroMQ source never delivers a non-finite value: the held
    modulators stay finite and every packet it returns - delivered, held or
    rejected - carries only finite values. *)
Theorem zmq_source_finite s s' r :
  validates_finite -> held_finite s ->
  zmq_next_ingress validate from_slice s = (s', r) ->
  held_finite s' /\ forall packet, r = Ok (Some packet) -> packet_finite packet = true.
Proof. intros Hv Hs. by apply drain_frames_finite. Qed.

(** One call takes at most [MAX_DRAIN_PER_TICK] outcomes off the socket:
    modulation-only frames, whose modulators are held, and then one outcome that
    decides the result; stimuli are delivered only from that last frame, so no
    frame behind it is consumed or lost. *)
Theorem zmq_source_drain s s' r recvs :
  zs_socket s = Some recvs -> zmq_next_ingress validate from_slice s = (s', r) ->
  let policy := MkIngressPolicy (zs_channels s) (Some (zs_max_age s)) in
  exists rest, zs_socket s' = Some rest /\
  exists skipped stop,
    recvs = skipped ++ option_list stop ++ rest /\
    (length skipped + length (option_list stop) <= 32)%nat /\
    Forall (modulation_only policy) skipped /\
    forall p, r = Ok (Some p) -> stimuli p <> [] -> delivered_from policy stop p.
Proof. intros Hk Hn. by eapply drain_frames_consumes in Hn. Qed.
End ZmqFacts.

(** ** Facts about the sink *)

(** The number of [emit] calls each counter saw. *)
Fixpoint emit_all (to_vec : SpikeBatch -> result string string)
    (calls : list (list SpikeEvent * Z)) (k : ZmqSpikeSink) : ZmqSpikeSink * list (result string unit) :=
  match calls with
  | [] => (k, [])
  | (spikes, t) :: rest =>
    let '(k1, r) := zmq_emit to_vec spikes t k in
    let '(k2, rs) := emit_all to_vec rest k1 in (k2, r :: rs)
  end.

(** The sink's accounting is exact: over any calls, with an encoder that
    does not fail and an unpoisoned socket, every call is either suppressed (an
    empty batch under the suppressing policy) or attempted; [failed] counts the
    calls that returned an error, and the rest of the attempts put exactly one
    frame each on the wire - modulo 2^64. *)
Theorem zmq_emit_accounting to_vec calls k k' rs :
  (forall batch, is_ok (to_vec batch) = true) -> zk_poisoned k = false ->
  emit_all to_vec calls k = (k', rs) ->
  let st := zk_stats k in let st' := zk_stats k' in
  let empty := count (fun c => bool_decide (c.1 = []) && negb (zk_send_empty_batches k)) calls in
  let errors := count (fun r => negb (is_ok r)) rs in
  wrap64 (suppressed st') = wrap64 (suppressed st + empty) /\
  wrap64 (attempted st') = wrap64 (attempted st + (len calls - empty)) /\
  wrap64 (failed st') = wrap64 (failed st + errors) /\
  len (zk_sent k') = len (zk_sent k) + (len calls - empty) - errors.
Proof.
  intros Henc. revert k rs. induction calls as [|[spikes t] calls IH]; intros k rs Hp; simpl.
  { intros [= <- <-]. unfold len. simpl. rewrite !Z.add_0_r. repeat split. lia. }
  destruct (zmq_emit to_vec spikes t k) as [k1 r] eqn:He.
  destruct (emit_all to_vec calls k1) as [k2 rs'] eqn:Hr. intros [= <- <-].
  assert (zk_poisoned k1 = false /\ zk_send_empty_batches k1 = zk_send_empty_batches k /\
    let e := Z.b2z (bool_decide (spikes = []) && negb (zk_send_empty_batches k)) in
    let f := Z.b2z (negb (is_ok r)) in
    suppressed (zk_stats k1) = (if e =? 1 then wadd64 (suppressed (zk_stats k)) 1 else suppressed (zk_stats k)) /\
    attempted (zk_stats k1) = (if e =? 1 then attempted (zk_stats k) else wadd64 (attempted (zk_stats k)) 1) /\
    failed (zk_stats k1) = (if f =? 1 then wadd64 (failed (zk_stats k)) 1 else failed (zk_stats k)) /\
    len (zk_sent k1) = len (zk_sent k) + (1 - e) - f) as (Hp1 & Hs1 & H1 & H2 & H3 & H4).
  { revert He. unfold zmq_emit. destruct (_ && _); simpl.
    - intros [= <- <-]. simpl. repeat split; try done. lia.
    - specialize (Henc (MkSpikeBatch (wrap64 (t / 1000000)) (wrap64 t) spikes)).
      destruct (to_vec _) as [payload|]; [|done]. rewrite Hp. unfold socket_send. simpl.
      destruct (zk_sends k) as [|[[]|e] sends]; simpl; intros [= <- <-]; simpl;
        rewrite ?len_app, ?len_cons, ?len_nil; repeat split; lia || done. }
  destruct (IH k1 rs' Hp1 Hr) as (I1 & I2 & I3 & I4). rewrite Hs1 in *. rewrite len_cons.
  cbv zeta in *. cbn [count fst]. rewrite I1, I2, I3, I4, H1, H2, H3, H4.
  destruct (bool_decide (spikes = []) && _), (negb (is_ok r)); simpl;
    unfold wadd64, wrap64; rewrite ?Zplus_mod_idemp_l; repeat split; try (f_equal; lia); lia.
Qed.

(** ** Witnesses *)

(** One modulation-only frame, one stimulus frame, one frame left alone. *)
Definition demo_from_slice (buf : string) : result string IpcMessage :=
  if bool_decide (buf = "stim"%string) then Ok (Stimuli demo_batch)
  else Ok (Neuromodulators (MkNeuromodulatorSnapshot 0 f_one32 f_zero f_zero f_half32)).

Definition demo_zmq : ZmqStimulusSource :=
  set_socket (Some [Frame "mods" 1500; Frame "stim" 1500; Frame "stim" 1600]) (with_channels 2).

Definition demo_zmq_after : ZmqStimulusSource :=
  (zmq_next_ingress demo_validate demo_from_slice demo_zmq).1.

Lemma demo_validates_finite : validates_finite demo_validate.
Proof. intros batch. unfold demo_validate. by rewrite require_ok. Qed.

Lemma zmq_source_finite_witness : held_finite demo_zmq_after.
Proof.
  refine (proj1 (zmq_source_finite demo_validate demo_from_slice demo_zmq demo_zmq_after _
    demo_validates_finite _ _)).
  - intros mods [=].
  - apply surjective_pairing.
Defined.

Lemma zmq_source_drain_witness : exists rest, zs_socket demo_zmq_after = Some rest.
Proof.
  destruct (zmq_source_drain demo_validate demo_from_slice demo_zmq demo_zmq_after
    (zmq_next_ingress demo_validate demo_from_slice demo_zmq).2 _ eq_refl) as (rest & H & _).
  - apply surjective_pairing.
  - by exists rest.
Defined.

Lemma zmq_emit_accounting_witness :
  wrap64 (attempted (zk_stats (emit_all (fun _ => Ok "x"%string) [([], 5)] (sink_new [])).1)) = 1.
Proof.
  rewrite (proj1 (proj2 (zmq_emit_accounting (fun _ => Ok "x"%string) [([], 5)] (sink_new [])
    (emit_all (fun _ => Ok "x"%string) [([], 5)] (sink_new [])).1 _ (fun _ => eq_refl) eq_refl eq_refl))).
  reflexivity.
Defined.
