(* ===== verification/Checkpoint.v ===== *)
(** * The checkpoint loader (src/checkpoint/mod.rs)

    Path resolution, sidecar validation, restoration into the network and
    provenance.  The file system, JSON decoding, SHA-256 and the
    neuromod crate's [with_dimensions] and [set_rm_stdp_config] are arguments
    (section [Loader]); of a neuromod network the model has the fields the
    loader and the daemon read or assign, and an opaque rest. *)

From Stdlib Require Import Ascii SpecFloat.
From S2P Require Import Prelude Floats Packet Queue Ingress NetAddr Text Config.
Local Open Scope Z_scope.

Definition SCHEMA_ID : string := "spikenaut-sidecar-json/v1".
Definition SIMULATION_SCHEMA_ID : string := "simulation/blank".
Definition HUB_MODEL_TYPE : string := "spikenaut-snn".
Definition ALLOWED_SOURCES : list string := ["spikenaut_julia"].
Definition ALLOWED_Q88 : list string := ["signed"].
Definition BLANK_WEIGHT_ABS_MAX : f32 := f_1em6.

(** ** Paths: their components, [/] standing for the root *)

Abbreviation path := (list string).

Definition path_join (p q : path) : path := p ++ q.

Definition path_parent (p : path) : option path :=
  match p with
  | [] | ["/"%string] => None
  | _ => Some (take (length p - 1) p)
  end.

Definition path_file_name (p : path) : option string :=
  match last p with
  | Some name => if bool_decide (name = ".."%string) || bool_decide (name = "/"%string) then None else Some name
  | None => None
  end.

(** The name split at its last dot; no extension without a dot or when the only
    dot leads. *)
Definition name_extension (name : string) : option bytes :=
  let parts := split_on "."%char (as_bytes name) [] in
  match parts with
  | [_] => None
  | [[]; _] => None
  | _ => last parts
  end.

Definition path_extension (p : path) : option bytes :=
  path_file_name p ≫= name_extension.

(** ** Documents *)

Inductive OutputWeightsField := Absent | Present.

Record SidecarNeuron := MkSidecarNeuron {
  sd_decay_rate : f64;
  sd_membrane_potential : f64;
  sd_threshold : f64;
  sd_last_spike : bool;
  sd_weights : list f64;
  sd_output_weights : OutputWeightsField;
}.

Record SidecarDocument := MkSidecarDocument {
  sd_source : option string;
  sd_encoder : option string;
  sd_q88 : option string;
  sd_frozen_lineage : option string;
  sd_neurons : list SidecarNeuron;
}.

Record HubConfig := MkHubConfig {
  hub_model_type : option string;
  hub_n_neurons : option Z;
  hub_n_channels : option Z;
}.

Record ModelProvenance := MkModelProvenance {
  mp_schema_id : string;
  mp_source_path : path;
  mp_content_sha256 : string;
  mp_model_id : string;
  mp_encoder : option string;
  mp_source : option string;
  mp_frozen_lineage : option string;
}.

#[export] Instance ModelProvenance_eq_dec : EqDecision ModelProvenance.
Proof. solve_decision. Defined.

Inductive CheckpointError :=
| ConfigInvalid (e : ConfigError)
| NotFound (p : path)
| QueryFailed (p : path)
| DirectoryWithoutSidecar (p : path)
| MemDump
| HubWithoutSidecar (p : path)
| CheckpointUnreadable (p : path)
| NotUtf8 (p : path)
| SidecarJson (p : path)
| NoNeurons
| BadSource (source : option string)
| BadQ88 (q88 : string)
| EmptyEncoder
| OutputWeights (index : nat)
| HubUnreadable (p : path)
| HubJson (p : path)
| HubModelType (model_type : string)
| HubNeurons (n : Z)
| HubChannels (n : Z)
| EmptyWeightRow
| WeightRowWidth (index : nat)
| LifCountMismatch (n : Z)
| ChannelsMismatch (n : Z)
| NotFinite (index : nat)
| OverflowsF32 (index : nat)
| DecayRange (index : nat)
| Blank
| RestoreMismatch.

(** ** Validation of a document *)

Definition require_allowed_source (source : option string) : result CheckpointError unit :=
  match source with
  | Some s => require (bool_decide (s ∈ ALLOWED_SOURCES)) (BadSource source)
  | None => Err (BadSource None)
  end.

Definition validate_schema (d : SidecarDocument) : result CheckpointError unit :=
  require (negb (bool_decide (length (sd_neurons d) = 0%nat))) NoNeurons ≫= fun _ =>
  require_allowed_source (sd_source d) ≫= fun _ =>
  match sd_q88 d with
  | Some q => require (bool_decide (q ∈ ALLOWED_Q88)) (BadQ88 q)
  | None => Ok tt
  end ≫= fun _ =>
  match sd_encoder d with
  | Some e => require (negb (bool_decide (e = EmptyString))) EmptyEncoder
  | None => Ok tt
  end.

(** [for (index, x) in l.iter().enumerate() { f(index, x)? }]. *)
Fixpoint for_each {E A} (f : nat -> A -> result E unit) (i : nat) (l : list A) : result E unit :=
  match l with
  | [] => Ok tt
  | x :: l' => f i x ≫= fun _ => for_each f (S i) l'
  end.

Definition reject_output_weights (d : SidecarDocument) : result CheckpointError unit :=
  for_each (fun index n => match sd_output_weights n with
                           | Present => Err (OutputWeights index)
                           | Absent => Ok tt
                           end) 0 (sd_neurons d).

(** Called on documents with at least one neuron ([validate_schema]). *)
Definition weight_width (d : SidecarDocument) : result CheckpointError Z :=
  let expected := match sd_neurons d with n :: _ => len (sd_weights n) | [] => 0 end in
  require (negb (expected =? 0)) EmptyWeightRow ≫= fun _ =>
  for_each (fun index n => require (len (sd_weights n) =? expected) (WeightRowWidth index))
    0 (sd_neurons d) ≫= fun _ => Ok expected.

Definition validate_ingress_contract (c : DaemonConfig) (lif chans : Z) :
    result CheckpointError unit :=
  require (Config.lif_count c =? lif) (LifCountMismatch lif) ≫= fun _ =>
  require (Config.channels c =? chans) (ChannelsMismatch chans).

Definition require_finite (value : f64) (index : nat) : result CheckpointError unit :=
  require (is_finite value) (NotFinite index) ≫= fun _ =>
  require (is_finite (f32_of_f64 value)) (OverflowsF32 index).

Definition require_finite_unit_interval (value : f64) (index : nat) : result CheckpointError unit :=
  require_finite value index ≫= fun _ =>
  require (f_gt value f_zero && f_lt value f_one64) (DecayRange index).

Definition validate_neuron (index : nat) (n : SidecarNeuron) : result CheckpointError unit :=
  require_finite_unit_interval (sd_decay_rate n) index ≫= fun _ =>
  require_finite (sd_membrane_potential n) index ≫= fun _ =>
  require_finite (sd_threshold n) index ≫= fun _ =>
  for_each (fun _ w => require_finite w index) 0 (sd_weights n).

Definition validate_finite_parameters (d : SidecarDocument) : result CheckpointError unit :=
  for_each validate_neuron 0 (sd_neurons d).

(** [max_abs] after the two loops. *)
Definition max_abs_weight (d : SidecarDocument) : f32 :=
  fold_left (fun m n => fold_left (fun m w => f_max m (f32_of_f64 (f_abs w))) (sd_weights n) m)
    (sd_neurons d) f_zero.

Definition validate_nonblank_weights (d : SidecarDocument) : result CheckpointError unit :=
  require (negb (f_le (max_abs_weight d) BLANK_WEIGHT_ABS_MAX)) Blank.

(** ** The file system and the network *)

Record Fs := MkFs {
  fs_try_exists : path -> result unit bool;
  fs_is_dir : path -> bool;
  fs_is_file : path -> bool;
  fs_read : path -> result unit (list Z);
}.

Section Network.
Context {LifRest NetRest StdpRest : Type}.

Record LifNeuron := MkLifNeuron {
  ln_weights : list f32;
  ln_membrane_potential : f32;
  ln_threshold : f32;
  ln_base_threshold : f32;
  ln_decay_rate : f32;
  ln_last_spike : bool;
  ln_rest : LifRest;
}.

Record RmStdpConfig := MkRmStdpConfig {
  stdp_reward_lr : f32;
  stdp_rest : StdpRest;
}.

Record SpikingNetwork := MkSpikingNetwork {
  sn_neurons : list LifNeuron;
  sn_iz_neurons : Z;
  sn_num_channels : Z;
  sn_stdp_config : RmStdpConfig;
  sn_rest : NetRest;
}.

Definition apply_neuron (dst : LifNeuron) (src : SidecarNeuron) : LifNeuron := {|
  ln_weights := f32_of_f64 <$> sd_weights src;
  ln_membrane_potential := f32_of_f64 (sd_membrane_potential src);
  ln_threshold := f32_of_f64 (sd_threshold src);
  ln_base_threshold := f32_of_f64 (sd_threshold src);
  ln_decay_rate := f32_of_f64 (sd_decay_rate src);
  ln_last_spike := sd_last_spike src;
  ln_rest := ln_rest dst;
|}.

Definition with_neurons (ns : list LifNeuron) (net : SpikingNetwork) : SpikingNetwork :=
  MkSpikingNetwork ns (sn_iz_neurons net) (sn_num_channels net) (sn_stdp_config net) (sn_rest net).

Section Loader.
Variable fs : Fs.
Variable parse_document : string -> result unit SidecarDocument.
Variable parse_hub : string -> result unit HubConfig.
Variable sha256 : list Z -> list Z.
Variable with_dimensions : Z -> Z -> Z -> SpikingNetwork.
Variable set_rm_stdp_config : RmStdpConfig -> SpikingNetwork -> SpikingNetwork.
(** [PathBuf::from] and [Path::display]. *)
Variable components : string -> path.
Variable display : path -> string.

Definition direct_sidecar : path := ["snn_model.json"%string].
Definition nested_sidecar : path := ["dataset"%string; "merged_v2"%string; "snn_model.json"%string].

Definition sidecar_in_directory (dir : path) : option path :=
  let direct := path_join dir direct_sidecar in
  if fs_is_file fs direct then Some direct
  else
    let nested := path_join dir nested_sidecar in
    if fs_is_file fs nested then Some nested else None.

Definition is_mem_dump (p : path) : bool :=
  match path_extension p with Some ext => eq_ignore_ascii_case ext (as_bytes "mem") | None => false end.

Definition is_hub_config (p : path) : bool :=
  match path_file_name p with Some name => bool_decide (name = "config.json"%string) | None => false end.

Definition resolve_from_hub_config (config_path : path) : result CheckpointError path :=
  let root := default config_path (path_parent config_path) in
  let nested := path_join root nested_sidecar in
  if fs_is_file fs nested then Ok nested
  else
    let sibling := path_join root direct_sidecar in
    if fs_is_file fs sibling then Ok sibling else Err (HubWithoutSidecar config_path).

Definition resolve_sidecar_path (p : path) : result CheckpointError path :=
  match fs_try_exists fs p with
  | Ok true =>
    if fs_is_dir fs p then
      match sidecar_in_directory p with
      | Some q => Ok q
      | None => Err (DirectoryWithoutSidecar p)
      end
    else if is_mem_dump p then Err MemDump
    else if is_hub_config p then resolve_from_hub_config p
    else Ok p
  | Ok false => Err (NotFound p)
  | Err _ => Err (QueryFailed p)
  end.

Definition parse_sidecar_file (p : path) : result CheckpointError (list Z * SidecarDocument) :=
  map_err (fun _ => CheckpointUnreadable p) (fs_read fs p) ≫= fun bytes =>
  ok_or (from_utf8 bytes) (NotUtf8 p) ≫= fun text =>
  map_err (fun _ => SidecarJson p) (parse_document text) ≫= fun document =>
  Ok (bytes, document).

Definition find_hub_config (sidecar : path) : option path :=
  match path_parent sidecar with
  | None => None
  | Some dir =>
    let sibling := path_join dir ["config.json"%string] in
    if fs_is_file fs sibling then Some sibling
    else match path_file_name dir with
    | None => None
    | Some name =>
      if bool_decide (name = "merged_v2"%string) then
        match path_parent dir with
        | None => None
        | Some up =>
          match path_parent up with
          | None => None
          | Some root =>
            let hub := path_join root ["config.json"%string] in
            if fs_is_file fs hub then Some hub else None
          end
        end
      else None
    end
  end.

Definition validate_hub_config (p : path) (d : SidecarDocument) : result CheckpointError unit :=
  map_err (fun _ => HubUnreadable p) (fs_read fs p) ≫= fun bytes =>
  ok_or (from_utf8 bytes) (HubUnreadable p) ≫= fun text =>
  map_err (fun _ => HubJson p) (parse_hub text) ≫= fun hub =>
  match hub_model_type hub with
  | Some t => require (bool_decide (t = HUB_MODEL_TYPE)) (HubModelType t)
  | None => Ok tt
  end ≫= fun _ =>
  match hub_n_neurons hub with
  | Some n => require (n =? len (sd_neurons d)) (HubNeurons n)
  | None => Ok tt
  end ≫= fun _ =>
  match hub_n_channels hub with
  | Some n => weight_width d ≫= fun width => require (n =? width) (HubChannels n)
  | None => Ok tt
  end.

Definition validate_live_document (c : DaemonConfig) (d : SidecarDocument) (sidecar : path) :
    result CheckpointError unit :=
  validate_schema d ≫= fun _ =>
  reject_output_weights d ≫= fun _ =>
  match find_hub_config sidecar with
  | Some hub => validate_hub_config hub d
  | None => Ok tt
  end ≫= fun _ =>
  weight_width d ≫= fun chans =>
  validate_ingress_contract c (len (sd_neurons d)) chans ≫= fun _ =>
  validate_finite_parameters d ≫= fun _ =>
  validate_nonblank_weights d.

Definition apply_sidecar (net : SpikingNetwork) (d : SidecarDocument) :
    result CheckpointError SpikingNetwork :=
  require (bool_decide (length (sn_neurons net) = length (sd_neurons d))) RestoreMismatch ≫= fun _ =>
  let net := with_neurons (zip_with apply_neuron (sn_neurons net) (sd_neurons d)) net in
  Ok (set_rm_stdp_config (MkRmStdpConfig f_zero (stdp_rest (sn_stdp_config net))) net).

Definition restore_spiking_network (c : DaemonConfig) (d : SidecarDocument) :
    result CheckpointError SpikingNetwork :=
  apply_sidecar (with_dimensions (lif_count c) (izh_count c) (Config.channels c)) d.

Definition HEX : string := "0123456789abcdef".

(** [HEX[i] as char]. *)
Definition hex_digit (i : Z) : ascii := default "0"%char (String.get (Z.to_nat i) HEX).

Definition hex_lower (bytes : list Z) : string :=
  fold_left (fun out b => (out +:+ String (hex_digit (Z.shiftr b 4))
                             (String (hex_digit (Z.land b 15)) EmptyString))%string) bytes EmptyString.

Definition hex_sha256 (bytes : list Z) : string := hex_lower (sha256 bytes).

Definition model_id (d : SidecarDocument) (sidecar : path) : string :=
  match sd_frozen_lineage d with
  | Some (String _ _ as lineage) => ("spikenaut-snn:" +:+ lineage)%string
  | _ =>
    match sd_source d, sd_encoder d with
    | Some source, Some encoder => ("spikenaut-snn:" +:+ source +:+ ":" +:+ encoder)%string
    | _, _ => ("spikenaut-snn:" +:+ display sidecar)%string
    end
  end.

Definition provenance_of (d : SidecarDocument) (sidecar : path) (bytes : list Z) : ModelProvenance := {|
  mp_schema_id := SCHEMA_ID;
  mp_source_path := sidecar;
  mp_content_sha256 := hex_sha256 bytes;
  mp_model_id := model_id d sidecar;
  mp_encoder := sd_encoder d;
  mp_source := sd_source d;
  mp_frozen_lineage := sd_frozen_lineage d;
|}.

Definition load_live_checkpoint (c : DaemonConfig) :
    result CheckpointError (SpikingNetwork * ModelProvenance) :=
  resolve_sidecar_path (components (model_path c)) ≫= fun sidecar =>
  parse_sidecar_file sidecar ≫= fun '(bytes, document) =>
  validate_live_document c document sidecar ≫= fun _ =>
  restore_spiking_network c document ≫= fun network =>
  Ok (network, provenance_of document sidecar bytes).

Definition blank_simulation_network (c : DaemonConfig) : SpikingNetwork * ModelProvenance :=
  (with_dimensions (lif_count c) (izh_count c) (Config.channels c),
   {| mp_schema_id := SIMULATION_SCHEMA_ID;
      mp_source_path := ["<simulation>"%string];
      mp_content_sha256 := "none";
      mp_model_id := "simulation/blank";
      mp_encoder := None;
      mp_source := None;
      mp_frozen_lineage := None |}).

Definition restore_network (c : DaemonConfig) :
    result CheckpointError (SpikingNetwork * ModelProvenance) :=
  map_err ConfigInvalid (daemon_validate c) ≫= fun _ =>
  match runtime_mode c with
  | Simulation => Ok (blank_simulation_network c)
  | Live => load_live_checkpoint c
  end.
End Loader.
End Network.

(** ** Validation chains *)

Lemma for_each_ok {E A} (f : nat -> A -> result E unit) i l :
  for_each f i l = Ok tt -> forall k x, l !! k = Some x -> f (i + k)%nat x = Ok tt.
Proof.
  revert i. induction l as [|y l IH]; intros i; simpl; [done|].
  intros ([] & H1 & H2)%result_bind_ok [|k] x; simpl.
  - intros [= <-]. by rewrite Nat.add_0_r.
  - intros Hk. rewrite <- Nat.add_succ_comm. by eapply IH.
Qed.

Lemma for_each_Forall {E A} (f : nat -> A -> result E unit) (P : A -> Prop) i l :
  (forall k x, f k x = Ok tt -> P x) -> for_each f i l = Ok tt -> Forall P l.
Proof.
  intros HP H. apply Forall_lookup_2. intros k x Hk. by eapply HP, for_each_ok.
Qed.

Lemma require_finite_ok v i : require_finite v i = Ok tt -> is_finite (f32_of_f64 v) = true.
Proof. unfold require_finite. by rewrite require_bind_ok, require_ok; intros [_ ?]. Qed.

(** A sidecar neuron whose restored values are usable. *)
Definition sidecar_neuron_ok (n : SidecarNeuron) : Prop :=
  is_finite (f32_of_f64 (sd_decay_rate n)) = true /\
  f_lt f_zero (sd_decay_rate n) = true /\ f_lt (sd_decay_rate n) f_one64 = true /\
  is_finite (f32_of_f64 (sd_membrane_potential n)) = true /\
  is_finite (f32_of_f64 (sd_threshold n)) = true /\
  Forall (fun w => is_finite (f32_of_f64 w) = true) (sd_weights n).

Lemma validate_neuron_ok i n : validate_neuron i n = Ok tt -> sidecar_neuron_ok n.
Proof.
  unfold validate_neuron, require_finite_unit_interval.
  intros ([] & Hd & H)%result_bind_ok. apply result_bind_ok in Hd as ([] & Hd%require_finite_ok & Hr).
  apply require_ok, andb_true_iff in Hr as [Hr1 Hr2].
  apply result_bind_ok in H as ([] & Hp%require_finite_ok & H).
  apply result_bind_ok in H as ([] & Ht%require_finite_ok & H).
  repeat split; try done. eapply for_each_Forall, H. intros k w. apply require_finite_ok.
Qed.

(** ** Weights *)

Lemma f_max_cases x y : f_max x y = x \/ f_max x y = y.
Proof. unfold f_max. destruct (is_nan x), (is_nan y), (f_lt x y); auto. Qed.

Lemma fold_max_cases ws m :
  fold_left (fun m w => f_max m (f32_of_f64 (f_abs w))) ws m = m \/
  exists w, In w ws /\ fold_left (fun m w => f_max m (f32_of_f64 (f_abs w))) ws m = f32_of_f64 (f_abs w).
Proof.
  revert m. induction ws as [|w ws IH]; intros m; simpl; [by left|].
  destruct (IH (f_max m (f32_of_f64 (f_abs w)))) as [->|(v & Hv & ->)]; [|eauto].
  destruct (f_max_cases m (f32_of_f64 (f_abs w))) as [->| ->]; eauto.
Qed.

Lemma max_abs_cases d :
  max_abs_weight d = f_zero \/
  exists n w, In n (sd_neurons d) /\ In w (sd_weights n) /\ max_abs_weight d = f32_of_f64 (f_abs w).
Proof.
  unfold max_abs_weight. generalize f_zero. induction (sd_neurons d) as [|n ns IH]; intros m; simpl; [by left|].
  destruct (IH (fold_left (fun m w => f_max m (f32_of_f64 (f_abs w))) (sd_weights n) m))
    as [->|(n' & w & Hn & Hw & ->)]; [|right; by exists n', w; auto].
  destruct (fold_max_cases (sd_weights n) m) as [->|(w & Hw & ->)]; [by left|].
  right. exists n, w. auto.
Qed.

(** Rounding commutes with the absolute value. *)
Lemma f32_of_f64_abs x : f32_of_f64 (f_abs x) = f_abs (f32_of_f64 x).
Proof.
  destruct x as [s|s| |s m e]; try done. unfold f_abs, SFabs, f32_of_f64, binary_round.
  destruct (shl_align _ _ _) as [mz ez]. unfold binary_round_aux.
  destruct (shr_fexp _ _ _ _ _) as [mrs' e']. destruct (shr_fexp _ _ _ _ _) as [mrs'' e''].
  destruct (shr_m mrs''); try done. by destruct (_ <=? _).
Qed.

Lemma f_not_le_lt x y : is_finite x = true -> is_finite y = true -> f_le x y = false -> f_lt y x = true.
Proof.
  unfold f_le, f_lt, SFleb, SFltb.
  destruct x as [[]|[]| |[] mx ex], y as [[]|[]| |[] my ey]; simpl; try done; intros _ _.
  all: rewrite (Z.compare_antisym ey ex).
  all: replace (Pos.compare_cont Eq mx my) with (CompOpp (Pos.compare_cont Eq my mx))
    by apply Pos.compare_cont_antisym.
  all: destruct (ey ?= ex); simpl; try done; by destruct (Pos.compare_cont Eq my mx).
Qed.

(** A document that is not blank has a weight that stays above the threshold
    after rounding. *)
Lemma nonblank_weight d :
  Forall sidecar_neuron_ok (sd_neurons d) -> validate_nonblank_weights d = Ok tt ->
  exists n w, In n (sd_neurons d) /\ In w (sd_weights n) /\
    f_lt BLANK_WEIGHT_ABS_MAX (f_abs (f32_of_f64 w)) = true.
Proof.
  unfold validate_nonblank_weights. rewrite require_ok, negb_true_iff. intros Hok Hle.
  destruct (max_abs_cases d) as [E|(n & w & Hn & Hw & E)]; rewrite E in Hle; [by vm_compute in Hle|].
  exists n, w. split; [done|]. split; [done|]. rewrite f32_of_f64_abs in Hle.
  apply f_not_le_lt; [|by vm_compute|done].
  rewrite Forall_forall in Hok. destruct (Hok n) as (_ & _ & _ & _ & _ & Hws); [by apply list_elem_of_In|].
  rewrite Forall_forall in Hws. specialize (Hws w). rewrite list_elem_of_In in Hws. specialize (Hws Hw).
  by destruct (f32_of_f64 w).
Qed.

(** ** Hexadecimal digests *)

Definition hex_value (c : ascii) : Z :=
  match to_digit 16 c with Some v => v | None => 0 end.

(** Reads pairs of digits back. *)
Fixpoint hex_decode (s : string) : list Z :=
  match s with
  | String a (String b s') => (16 * hex_value a + hex_value b) :: hex_decode s'
  | _ => []
  end.

Lemma hex_lower_from bytes out :
  fold_left (fun out b => (out +:+ String (hex_digit (Z.shiftr b 4))
                             (String (hex_digit (Z.land b 15)) EmptyString))%string) bytes out =
  (out +:+ hex_lower bytes)%string.
Proof.
  unfold hex_lower. revert out. induction bytes as [|b bytes IH]; intros out; simpl.
  - by rewrite string_app_nil_r.
  - rewrite IH. rewrite (IH (EmptyString +:+ _)%string). by rewrite string_app_nil, string_app_assoc.
Qed.

Lemma hex_lower_cons b bytes :
  hex_lower (b :: bytes) =
  String (hex_digit (Z.shiftr b 4)) (String (hex_digit (Z.land b 15)) (hex_lower bytes)).
Proof. unfold hex_lower at 1. simpl. by rewrite hex_lower_from. Qed.

Lemma hex_digit_value v : 0 <= v < 16 -> hex_value (hex_digit v) = v.
Proof.
  intros Hv. assert (v = 0 \/ v = 1 \/ v = 2 \/ v = 3 \/ v = 4 \/ v = 5 \/ v = 6 \/ v = 7 \/ v = 8 \/
    v = 9 \/ v = 10 \/ v = 11 \/ v = 12 \/ v = 13 \/ v = 14 \/ v = 15) as H by lia.
  by repeat destruct H as [->|H]; [..|subst].
Qed.

(** ** The guarantees of the loader *)

(** The provenance digest is faithful: its hexadecimal form reads back to
    the bytes digested, so two sidecars share it only if their digests agree. *)
Theorem hex_lower_roundtrip bytes :
  Forall (fun b => 0 <= b < 256) bytes ->
  hex_decode (hex_lower bytes) = bytes /\
  String.length (hex_lower bytes) = (2 * length bytes)%nat.
Proof.
  induction 1 as [|b bytes Hb _ [IH1 IH2]]; [done|]. rewrite hex_lower_cons. simpl.
  rewrite IH1, IH2. split; [|lia]. f_equal.
  assert (Z.shiftr b 4 = b / 16 /\ Z.land b 15 = b mod 16) as [-> ->].
  { rewrite Z.shiftr_div_pow2 by lia. split; [done|]. change 15 with (Z.ones 4). by rewrite Z.land_ones by lia. }
  pose proof (Z.mod_pos_bound b 16 ltac:(lia)). pose proof (Z.div_mod b 16 ltac:(lia)).
  rewrite !hex_digit_value; [lia|lia|]. split; [apply Z.div_pos; lia|]. apply Z.div_lt_upper_bound; lia.
Qed.

Section Guarantees.
Context {LifRest NetRest StdpRest : Type}.
Abbreviation Network := (@SpikingNetwork LifRest NetRest StdpRest).
Variable fs : Fs.
Variable parse_document : string -> result unit SidecarDocument.
Variable parse_hub : string -> result unit HubConfig.
Variable sha256 : list Z -> list Z.
Variable with_dimensions : Z -> Z -> Z -> Network.
Variable set_rm_stdp_config : @RmStdpConfig StdpRest -> Network -> Network.
Variable components : string -> path.
Variable display : path -> string.

(** neuromod's constructor and setter, as documented. *)
Definition with_dimensions_sized : Prop := forall lif izh chans, 0 <= lif ->
  len (sn_neurons (with_dimensions lif izh chans)) = lif /\
  sn_iz_neurons (with_dimensions lif izh chans) = izh /\
  sn_num_channels (with_dimensions lif izh chans) = chans.
Definition set_config_sets : Prop := forall cfg net,
  sn_stdp_config (set_rm_stdp_config cfg net) = cfg /\
  sn_neurons (set_rm_stdp_config cfg net) = sn_neurons net /\
  sn_iz_neurons (set_rm_stdp_config cfg net) = sn_iz_neurons net /\
  sn_num_channels (set_rm_stdp_config cfg net) = sn_num_channels net.

(** What a live restore hands to the tick loop. *)
Record live_network_ok (c : DaemonConfig) (net : Network) : Prop := {
  ln_lif : len (sn_neurons net) = lif_count c;
  ln_izh : sn_iz_neurons net = izh_count c;
  ln_channels : sn_num_channels net = Config.channels c;
  ln_neurons_ok : Forall (fun n =>
    len (ln_weights n) = Config.channels c /\ all_finite (ln_weights n) = true /\
    is_finite (ln_membrane_potential n) = true /\ is_finite (ln_threshold n) = true /\
    ln_base_threshold n = ln_threshold n /\ is_finite (ln_decay_rate n) = true) (sn_neurons net);
  ln_nonblank : exists n w, In n (sn_neurons net) /\ In w (ln_weights n) /\
    f_lt BLANK_WEIGHT_ABS_MAX (f_abs w) = true;
  ln_frozen : stdp_reward_lr (sn_stdp_config net) = f_zero;
}.

Lemma weight_width_ok d width :
  weight_width d = Ok width -> Forall (fun n => len (sd_weights n) = width) (sd_neurons d).
Proof.
  unfold weight_width. set (expected := match sd_neurons d with n :: _ => _ | [] => _ end).
  rewrite require_bind_ok. intros [_ ([] & H & [= <-])%result_bind_ok].
  eapply for_each_Forall, H. intros k n. by rewrite require_ok, Z.eqb_eq.
Qed.

Lemma validate_live_document_ok c d sidecar :
  validate_live_document fs parse_hub c d sidecar = Ok tt ->
  lif_count c = len (sd_neurons d) /\
  Forall (fun n => len (sd_weights n) = Config.channels c /\ sidecar_neuron_ok n) (sd_neurons d) /\
  validate_nonblank_weights d = Ok tt.
Proof.
  intros ([] & _ & H)%result_bind_ok. apply result_bind_ok in H as ([] & _ & H).
  apply result_bind_ok in H as ([] & _ & H). apply result_bind_ok in H as (width & Hw & H).
  apply result_bind_ok in H as ([] & Hc & H). apply result_bind_ok in H as ([] & Hf & Hb).
  unfold validate_ingress_contract in Hc. rewrite require_bind_ok, require_ok, !Z.eqb_eq in Hc.
  destruct Hc as [Hl Hch]. split; [done|]. split; [|done]. apply Forall_and. split.
  - rewrite Hch. by apply weight_width_ok.
  - eapply for_each_Forall, Hf. intros k n. apply validate_neuron_ok.
Qed.

(** The neurons [apply_sidecar] writes are those of the document. *)
Lemma zip_apply_neurons dsts srcs :
  length dsts = length srcs ->
  Forall2 (fun (n : @LifNeuron LifRest) src => exists dst, n = apply_neuron dst src)
    (zip_with apply_neuron dsts srcs) srcs.
Proof.
  revert srcs. induction dsts as [|dst dsts IH]; intros [|src srcs] Hl; simpl in *; try done; constructor.
  - by exists dst.
  - apply IH. lia.
Qed.

Lemma apply_sidecar_ok c d net :
  with_dimensions_sized -> set_config_sets ->
  lif_count c = len (sd_neurons d) ->
  Forall (fun n => len (sd_weights n) = Config.channels c /\ sidecar_neuron_ok n) (sd_neurons d) ->
  validate_nonblank_weights d = Ok tt ->
  restore_spiking_network with_dimensions set_rm_stdp_config c d = Ok net -> live_network_ok c net.
Proof.
  intros Hdim Hset Hl Hok Hb. unfold restore_spiking_network, apply_sidecar.
  destruct (Hdim (lif_count c) (izh_count c) (Config.channels c)) as (D1 & D2 & D3);
    [rewrite Hl; apply len_nonneg|].
  set (net0 := with_dimensions _ _ _) in *.
  rewrite require_bind_ok, bool_decide_eq_true. intros [Hlen [= <-]].
  match goal with |- context [set_rm_stdp_config ?cfg ?n] => destruct (Hset cfg n) as (S1 & S2 & S3 & S4) end.
  pose proof (zip_apply_neurons (sn_neurons net0) (sd_neurons d) Hlen) as HF.
  split; rewrite ?S1, ?S2, ?S3, ?S4; simpl; try done.
  - rewrite Hl. unfold len. by rewrite (Forall2_length _ _ _ HF).
  - clear -HF Hok. revert HF Hok. generalize (zip_with apply_neuron (sn_neurons net0) (sd_neurons d)).
    generalize (sd_neurons d). intros srcs0 ns0 HF Hok. induction HF as [|n src ns srcs [dst ->] _ IH]; [constructor|].
    apply Forall_cons in Hok as [[Hw (Hd & _ & _ & Hp & Ht & Hws)] Hok]. constructor; [|by apply IH].
    simpl. split; [unfold len; by rewrite length_fmap|]. rewrite all_finite_Forall, Forall_fmap. done.
  - destruct (nonblank_weight d) as (src & w & Hin & Hw & Hgt);
      [eapply Forall_impl; [exact Hok|]; by intros x [_ ?]|done|].
    apply list_elem_of_In, list_elem_of_lookup in Hin as [i Hi].
    destruct (Forall2_lookup_r _ _ _ _ _ HF Hi) as (n & Hn & dst & ->).
    exists (apply_neuron dst src), (f32_of_f64 w).
    split; [apply list_elem_of_In; by eapply list_elem_of_lookup_2|]. split; [by apply in_map|done].
Qed.

(** The invariant of a restore. *)
Lemma restore_sound c net prov :
  with_dimensions_sized -> set_config_sets ->
  restore_network fs parse_document parse_hub sha256 with_dimensions
    set_rm_stdp_config components display c = Ok (net, prov) ->
  is_ok (daemon_validate c) = true /\
  match runtime_mode c with
  | Live => live_network_ok c net /\ mp_schema_id prov = SCHEMA_ID
  | Simulation => net = with_dimensions (lif_count c) (izh_count c) (Config.channels c) /\
                  mp_schema_id prov = SIMULATION_SCHEMA_ID
  end.
Proof.
  intros Hdim Hset. unfold restore_network. intros ([] & Hv & H)%result_bind_ok.
  split; [by destruct (daemon_validate c)|].
  destruct (runtime_mode c); [|by injection H as <- <-].
  apply result_bind_ok in H as (sidecar & _ & H). apply result_bind_ok in H as ([bytes d] & _ & H).
  apply result_bind_ok in H as ([] & Hdoc & H). apply result_bind_ok in H as (net' & Hn & [= <- <-]).
  apply validate_live_document_ok in Hdoc as (Hl & Hok & Hb). split; [|done].
  by eapply apply_sidecar_ok.
Qed.

(** C6: live mode never ticks an unsound network: whatever the file system,
    decoders and hub configuration, a successful live restore has the configured
    dimensions, only finite parameters (every rounded f32, not just the f64s
    read), at least one weight above the blank threshold, a frozen learning rate
    and the sidecar schema; simulation is the only way to a blank network. *)
Theorem restore_network_sound c net prov :
  with_dimensions_sized -> set_config_sets ->
  restore_network fs parse_document parse_hub sha256 with_dimensions
    set_rm_stdp_config components display c = Ok (net, prov) ->
  is_ok (daemon_validate c) = true /\
  match runtime_mode c with
  | Live => live_network_ok c net /\ mp_schema_id prov = SCHEMA_ID
  | Simulation => net = with_dimensions (lif_count c) (izh_count c) (Config.channels c) /\
                  mp_schema_id prov = SIMULATION_SCHEMA_ID
  end.
Proof. exact (restore_sound c net prov). Qed.

(** C39: path resolution fails closed: what it resolves exists as a path it was
    given or a file it checked, is never a .mem dump, and is the configured path
    itself unless that is a directory or a hub config.json. *)
Theorem resolve_sidecar_sound p q :
  resolve_sidecar_path fs p = Ok q ->
  fs_try_exists fs p = Ok true /\ is_mem_dump q = false /\
  (q = p /\ fs_is_dir fs p = false \/
   fs_is_file fs q = true /\ (fs_is_dir fs p = true \/ is_hub_config p = true)).
Proof.
  unfold resolve_sidecar_path. destruct (fs_try_exists fs p) as [[]|e]; try done.
  assert (forall r, is_mem_dump (path_join r direct_sidecar) = false /\
                    is_mem_dump (path_join r nested_sidecar) = false) as Hmem.
  { intros r. unfold is_mem_dump, path_extension, path_file_name, path_join, direct_sidecar, nested_sidecar.
    by rewrite (last_app_cons r), (last_app_cons r). }
  destruct (fs_is_dir fs p) eqn:Hdir.
  - unfold sidecar_in_directory. destruct (fs_is_file fs (path_join p direct_sidecar)) eqn:H1;
      [|destruct (fs_is_file fs (path_join p nested_sidecar)) eqn:H2]; intros [= <-].
    all: split; [done|]; split; [apply Hmem|]; auto.
  - destruct (is_mem_dump p) eqn:Hm; [done|]. destruct (is_hub_config p) eqn:Hh; [|intros [= <-]; auto].
    unfold resolve_from_hub_config. set (root := default p (path_parent p)).
    destruct (fs_is_file fs (path_join root nested_sidecar)) eqn:H1;
      [|destruct (fs_is_file fs (path_join root direct_sidecar)) eqn:H2]; intros [= <-].
    all: split; [done|]; split; [apply Hmem|]; auto.
Qed.
End Guarantees.

(** ** A limit of the decay check

    The interval (0, 1) is checked on the double read from the sidecar; the
    network gets the nearest single. *)
Definition near_one : f64 := f64_div (f64_of_int 99999999999) (f64_of_int 100000000000).

Definition near_one_neuron : SidecarNeuron :=
  MkSidecarNeuron near_one f_zero f_one64 false [f_one64] Absent.

(** A decay multiplier strictly between 0 and 1 passes validation and is
    nevertheless restored as exactly 1.0 when it is within half a single-precision
    step of it: the restored neuron does not decay at all. *)
Theorem decay_rounds_to_one :
  validate_neuron 0 near_one_neuron = Ok tt /\
  forall LifRest (dst : @LifNeuron LifRest), ln_decay_rate (apply_neuron dst near_one_neuron) = f_one32.
Proof. split; [by vm_compute|]. intros LifRest dst. by vm_compute. Qed.

(** ** Witnesses *)

Definition demo_document : SidecarDocument :=
  MkSidecarDocument (Some "spikenaut_julia") None (Some "signed") (Some "l1")
    (replicate 16 (MkSidecarNeuron f_090 f_zero f_one64 false (replicate 8 f_one64) Absent)).

Definition demo_fs : Fs := {|
  fs_try_exists := fun _ => Ok true;
  fs_is_dir := fun _ => false;
  fs_is_file := fun _ => false;
  fs_read := fun _ => Ok [123; 125];
|}.

Definition demo_with_dimensions (lif izh chans : Z) : @SpikingNetwork unit Z unit :=
  MkSpikingNetwork (replicate (Z.to_nat lif)
    (MkLifNeuron [] f_zero f_zero f_zero f_zero false tt)) izh chans (MkRmStdpConfig f_one32 tt) lif.

Definition demo_set_config (cfg : @RmStdpConfig unit) (net : @SpikingNetwork unit Z unit) :=
  MkSpikingNetwork (sn_neurons net) (sn_iz_neurons net) (sn_num_channels net) cfg (sn_rest net).

Definition demo_restore :=
  restore_network demo_fs (fun _ => Ok demo_document)
    (fun _ => Err tt) (fun b => b) demo_with_dimensions demo_set_config
    (fun s => [s]) (fun _ => "p"%string) demo_config.

Lemma hex_lower_roundtrip_witness : hex_decode (hex_lower [0; 171; 255]) = [0; 171; 255].
Proof. apply hex_lower_roundtrip. repeat constructor; lia. Defined.

Lemma resolve_sidecar_sound_witness :
  is_mem_dump ["models"%string; "snn_model.json"%string] = false.
Proof.
  exact (proj1 (proj2 (resolve_sidecar_sound demo_fs ["models"%string; "snn_model.json"%string] _ eq_refl))).
Defined.

Lemma demo_dimensions_sized : with_dimensions_sized demo_with_dimensions.
Proof.
  intros lif izh chans Hl. split; [|done]. unfold len. simpl. rewrite length_replicate. lia.
Qed.

Lemma demo_config_sets : set_config_sets demo_set_config.
Proof. done. Qed.

Definition demo_restored : @SpikingNetwork unit Z unit :=
  match demo_restore with Ok (net, _) => net | Err _ => demo_with_dimensions 0 0 0 end.

Definition demo_provenance : ModelProvenance :=
  MkModelProvenance SCHEMA_ID ["snn_model.json"%string] "7b7d" "spikenaut-snn:l1" None
    (Some "spikenaut_julia"%string) (Some "l1"%string).

Lemma demo_restore_ok : demo_restore = Ok (demo_restored, demo_provenance).
Proof. by vm_compute. Qed.

Lemma restore_network_sound_witness : live_network_ok demo_config demo_restored.
Proof.
  pose proof (restore_network_sound demo_fs (fun _ => Ok demo_document)
    (fun _ => Err tt) (fun b => b) demo_with_dimensions demo_set_config (fun s => [s])
    (fun _ => "p"%string) demo_config demo_restored demo_provenance demo_dimensions_sized
    demo_config_sets demo_restore_ok) as [_ [H _]].
  exact H.
Defined.
