(* ===== verification/Diagnostics.v ===== *)
(** * Rate-limited tick diagnostics (src/daemon.rs)

    [OccurrenceLimiter] decides which repeats of a recurring diagnostic are
    logged; [TickDiagnostics] holds one per kind of tick failure.  Instants and
    durations are nanoseconds; the instant a call reads is its [now]. *)

From S2P Require Import Prelude NetAddr.
Local Open Scope Z_scope.

(** ** The limiter *)

Definition DIAGNOSTIC_INTERVAL : Z := 1000.
Definition DIAGNOSTIC_MIN_GAP : Z := 1000000000.
Definition NON_FINITE_DIAGNOSTIC_CATEGORY : string := "rejected non-finite ingress".

Record OccurrenceLimiter := MkLimiter {
  ol_interval : Z;
  ol_min_gap : Z;
  ol_occurrences : Z;
  ol_emitted : Z;
  ol_last_key : option Z;
  ol_last_emitted_at : option Z;
}.

#[export] Instance OccurrenceLimiter_eq_dec : EqDecision OccurrenceLimiter.
Proof. solve_decision. Defined.

Definition limiter_new (interval min_gap : Z) : OccurrenceLimiter :=
  MkLimiter interval min_gap 0 0 None None.

(** [u64::is_multiple_of]: zero is the only multiple of zero. *)
Definition is_multiple_of (a b : Z) : bool := if b =? 0 then a =? 0 else a mod b =? 0.

(** The reset on a key change. *)
Definition limiter_switch (key : Z) (l : OccurrenceLimiter) : OccurrenceLimiter :=
  if bool_decide (ol_last_key l = Some key) then l
  else MkLimiter (ol_interval l) (ol_min_gap l) 0 0 (Some key) None.

Definition limiter_record (key now : Z) (l : OccurrenceLimiter) : OccurrenceLimiter * option Z :=
  let l := limiter_switch key l in
  let occurrences := sat_add64 (ol_occurrences l) 1 in
  let count_due := (occurrences =? 1) || is_multiple_of (occurrences - 1) (ol_interval l) in
  let time_due := match ol_last_emitted_at l with
                  | None => true
                  | Some prev => ol_min_gap l <=? sat_sub now prev
                  end in
  if (occurrences =? 1) || (count_due && time_due) then
    (MkLimiter (ol_interval l) (ol_min_gap l) occurrences occurrences (ol_last_key l) (Some now),
     Some (sat_sub occurrences (wadd64 (ol_emitted l) 1)))
  else
    (MkLimiter (ol_interval l) (ol_min_gap l) occurrences (ol_emitted l) (ol_last_key l)
       (ol_last_emitted_at l), None).

Definition limiter_suppressed (l : OccurrenceLimiter) : Z :=
  sat_sub (ol_occurrences l) (ol_emitted l).

(** [message.bytes().fold(...)] with wrapping arithmetic. *)
Definition diagnostic_key (message : string) : Z :=
  fold_left (fun hash byte => wadd64 (wmul64 hash 31) (code byte))
    (as_bytes message) 0.

(** ** The tick's four limiters *)

Record TickDiagnostics := MkDiagnostics {
  td_receive : OccurrenceLimiter;
  td_emit : OccurrenceLimiter;
  td_dropped : OccurrenceLimiter;
  td_non_finite : OccurrenceLimiter;
}.

Definition TickDiagnostics_new (interval : Z) : TickDiagnostics :=
  let l := limiter_new interval 0 in MkDiagnostics l l l l.

Definition TickDiagnostics_default : TickDiagnostics :=
  let l := limiter_new DIAGNOSTIC_INTERVAL DIAGNOSTIC_MIN_GAP in MkDiagnostics l l l l.

Definition suppressed_total (d : TickDiagnostics) : Z :=
  limiter_suppressed (td_receive d) + limiter_suppressed (td_emit d) +
  limiter_suppressed (td_dropped d) + limiter_suppressed (td_non_finite d).

(** ** Runs of a limiter *)

Fixpoint record_run (key : Z) (times : list Z) (l : OccurrenceLimiter) :
    OccurrenceLimiter * list (option Z) :=
  match times with
  | [] => (l, [])
  | now :: times' =>
    let '(l1, out) := limiter_record key now l in
    let '(l2, outs) := record_run key times' l1 in (l2, out :: outs)
  end.

(** What a log line stands for: itself and the repeats it reports as
    suppressed. *)
Definition accounted (outs : list (option Z)) : Z :=
  foldr (fun o n => match o with Some s => s + 1 + n | None => n end) 0 outs.

(** A limiter that has already logged [key], last at [prev]. *)
Definition logging (key prev : Z) (l : OccurrenceLimiter) : Prop :=
  ol_last_key l = Some key /\ ol_last_emitted_at l = Some prev /\
  1 <= ol_emitted l <= ol_occurrences l.

Lemma is_multiple_of_pos a b : 1 <= b -> is_multiple_of a b = (a mod b =? 0).
Proof. intros. unfold is_multiple_of. destruct (Z.eqb_spec b 0); [lia|done]. Qed.

(** One more occurrence of a key already logged. *)
Lemma record_logging key prev now l :
  logging key prev l -> 1 <= ol_interval l -> ol_occurrences l < u64_max ->
  let r := limiter_record key now l in
  ol_interval r.1 = ol_interval l /\ ol_min_gap r.1 = ol_min_gap l /\
  ol_occurrences r.1 = ol_occurrences l + 1 /\
  match r.2 with
  | None => ol_emitted r.1 = ol_emitted l /\ logging key prev r.1
  | Some s =>
    ol_emitted r.1 = ol_occurrences r.1 /\ ol_emitted l + 1 + s = ol_occurrences r.1 /\
    ol_occurrences l mod ol_interval l = 0 /\ ol_min_gap l <= sat_sub now prev /\
    logging key now r.1
  end.
Proof.
  intros (Hk & Hp & He) Hi Ho. cbv zeta. unfold limiter_record, limiter_switch.
  rewrite bool_decide_eq_true_2 by done. rewrite Hp, is_multiple_of_pos by done.
  replace (sat_add64 (ol_occurrences l) 1) with (ol_occurrences l + 1) by (unfold sat_add64; lia).
  replace (ol_occurrences l + 1 - 1) with (ol_occurrences l) by lia.
  destruct (Z.eqb_spec (ol_occurrences l + 1) 1); [lia|]. simpl.
  destruct (_ && _) eqn:Hdue; simpl; [|by repeat split; simpl; lia || done].
  bool_to_prop. rewrite wadd64_small by (unfold u64_max in *; lia).
  unfold sat_sub at 1. repeat split; simpl; lia || done.
Qed.

(** A fresh key is logged at once. *)
Lemma record_fresh key now l :
  ol_last_key l <> Some key ->
  limiter_record key now l =
  (MkLimiter (ol_interval l) (ol_min_gap l) 1 1 (Some key) (Some now), Some 0).
Proof. intros Hk. unfold limiter_record, limiter_switch. by rewrite bool_decide_eq_false_2. Qed.

(** A sequence of occurrences of a key already logged. *)
Lemma record_run_logging key times : forall prev l,
  logging key prev l -> 1 <= ol_interval l -> 0 < ol_min_gap l ->
  ol_occurrences l + len times <= u64_max ->
  let r := record_run key times l in
  ol_occurrences r.1 = ol_occurrences l + len times /\
  (ol_emitted l + accounted r.2 = ol_emitted r.1 /\ ol_emitted r.1 <= ol_occurrences r.1) /\
  length r.2 = length times /\
  (forall j s t, r.2 !! j = Some (Some s) -> times !! j = Some t ->
    (ol_occurrences l + Z.of_nat j) mod ol_interval l = 0 /\ prev + ol_min_gap l <= t) /\
  (forall i j s s' t t', (i < j)%nat -> r.2 !! i = Some (Some s) -> r.2 !! j = Some (Some s') ->
    times !! i = Some t -> times !! j = Some t' -> t + ol_min_gap l <= t').
Proof.
  induction times as [|now times IH]; intros prev l Hl Hi Hg Hb; cbv zeta; simpl.
  { unfold len. simpl. destruct Hl as (_ & _ & He). repeat split; try lia; done. }
  rewrite len_cons in *. pose proof (len_nonneg times).
  pose proof (record_logging key prev now l Hl Hi ltac:(lia)) as H1.
  destruct (limiter_record key now l) as [l1 o]. simpl in H1.
  destruct H1 as (Ei & Eg & Eo & Hout). set (prev1 := match o with Some _ => now | None => prev end).
  assert (logging key prev1 l1) as Hl1 by (unfold prev1; destruct o; tauto).
  specialize (IH prev1 l1 Hl1). rewrite Ei, Eg, Eo in IH. specialize (IH Hi Hg ltac:(lia)).
  destruct (record_run key times l1) as [l2 outs]. cbv zeta in IH. simpl in *.
  destruct IH as (I1 & (I2 & I3) & I4 & I5 & I6).
  assert (forall s, o = Some s -> ol_occurrences l mod ol_interval l = 0 /\ prev + ol_min_gap l <= now) as Ho.
  { intros s ->. destruct Hout as (_ & _ & Hm & Hs & _). unfold sat_sub in Hs. split; [done|lia]. }
  assert (prev <= prev1) as Hprev.
  { unfold prev1. destruct o as [s|]; [|done]. destruct (Ho s eq_refl). lia. }
  split; [lia|]. split; [destruct o; split; lia|]. split; [by f_equal|]. split.
  - intros [|j] s t; simpl; [intros [= ->] [= <-]; rewrite Z.add_0_r; by eapply Ho|].
    intros Hs Ht. destruct (I5 j s t Hs Ht) as [Hm Hle]. split; [|lia].
    rewrite <- Hm. f_equal. lia.
  - intros [|i] [|j] s s' t t' Hij; simpl; try lia.
    + intros [= ->] Hs' [= <-] Ht'. by destruct (I5 j s' t' Hs' Ht').
    + intros. eapply (I6 i j); eauto. lia.
Qed.

(** ** The guarantee of the limiter *)

(** C40: repeats of a diagnostic are rate limited without losing count.  From
    any limiter last used for something else, the first occurrence is logged at
    once; a later one is logged only at a multiple of the interval and at least
    the minimum gap after every earlier line; and the lines, with the repeats
    each reports as suppressed, plus those pending, are all the occurrences. *)
Theorem limiter_rate_and_accounting l key t0 times :
  ol_last_key l <> Some key -> 1 <= ol_interval l -> 0 < ol_min_gap l ->
  len (t0 :: times) <= u64_max ->
  let r := record_run key (t0 :: times) l in
  head r.2 = Some (Some 0) /\
  accounted r.2 + limiter_suppressed r.1 = len (t0 :: times) /\
  forall i j s s' t t', (i < j)%nat -> r.2 !! i = Some (Some s) -> r.2 !! j = Some (Some s') ->
    (t0 :: times) !! i = Some t -> (t0 :: times) !! j = Some t' ->
    Z.of_nat j mod ol_interval l = 0 /\ Z.of_nat i mod ol_interval l = 0 /\ t + ol_min_gap l <= t'.
Proof.
  intros Hk Hi Hg Hb. cbv zeta. simpl. rewrite record_fresh by done. rewrite len_cons in *.
  set (l1 := MkLimiter _ _ 1 1 _ _).
  assert (logging key t0 l1) as Hl1 by (repeat split; simpl; lia || done).
  pose proof (record_run_logging key times t0 l1 Hl1 Hi Hg ltac:(simpl; lia)) as H.
  destruct (record_run key times l1) as [l2 outs]. simpl in *.
  destruct H as (H1 & (H2 & H3) & H4 & H5 & H6).
  split; [done|]. split; [unfold limiter_suppressed, sat_sub; lia|].
  assert (forall j s t, outs !! j = Some (Some s) -> times !! j = Some t ->
    Z.of_nat (S j) mod ol_interval l = 0 /\ t0 + ol_min_gap l <= t) as H5'.
  { intros j s t Hs Ht. destruct (H5 j s t Hs Ht) as [Hm ?]. split; [|done]. rewrite <- Hm. f_equal. lia. }
  intros [|i] [|j] s s' t t' Hij; simpl; try lia.
  - intros _ Hs' [= <-] Ht'. destruct (H5' j s' t' Hs' Ht') as [Hm Hle].
    split; [done|]. split; [by apply Zmod_0_l|done].
  - intros Hs Hs' Ht Ht'. split; [by eapply H5'|]. split; [by eapply H5'|].
    apply (H6 i j s s'); done || lia.
Qed.

(** ** Witness *)

Lemma limiter_rate_and_accounting_witness :
  accounted (record_run 7 [0; 5; 12; 20] (limiter_new 2 10)).2 = 3 /\
  limiter_suppressed (record_run 7 [0; 5; 12; 20] (limiter_new 2 10)).1 = 1.
Proof.
  pose proof (limiter_rate_and_accounting (limiter_new 2 10) 7 0 [5; 12; 20]) as H.
  destruct (H ltac:(discriminate) ltac:(simpl; lia) ltac:(simpl; lia) ltac:(vm_compute; discriminate))
    as (_ & Ha & _).
  split; [vm_compute; reflexivity|]. change (accounted _) with 3 in Ha. change (len _) with 4 in Ha. lia.
Defined.
