(* ===== verification/Tick.v ===== *)
(** * The tick (src/daemon.rs)

    [TickState] is what a tick reads and writes: the backend pair, the network,
    the stimulus and spike buffers, the shared ingress, the health machine, the
    run's counters and its diagnostics.  The network's [step] (the neuromod
    crate, with the thread's generator as part of the network) is an argument.

    [TickEnv] is what the environment decides during a tick: the clock readings,
    and what other producers do to the shared ingress.  An enqueue commutes with
    the operations on other classes (Ingress.v's [ingress_class_isolation]), so
    one interference point, between the tick's admissions and its drain, stands
    for all of them. *)

From S2P Require Import Prelude Floats Packet Queue QueueConc Ingress Health Backend Checkpoint Diagnostics.
Local Open Scope Z_scope.

(** ** Counters of a run *)

Record RuntimeStats := MkStats {
  rs_ticks : Z;
  rs_accepted_batches : Z;
  rs_rejected_batches : Z;
  rs_receive_errors : Z;
  rs_emit_errors : Z;
  rs_dropped_spikes : Z;
  rs_diagnostic_emissions : Z;
  rs_suppressed_diagnostics : Z;
  rs_last_batch_id : option Z;
  rs_last_valid_mask : option (list bool);
  rs_loaded_checkpoint : option ModelProvenance;
}.

Definition RuntimeStats_default : RuntimeStats := MkStats 0 0 0 0 0 0 0 0 None None None.

(** [impl From<&RuntimeStats> for RuntimeCounters]. *)
Definition counters_of (s : RuntimeStats) : RuntimeCounters := {|
  rc_ticks := rs_ticks s;
  rc_accepted_batches := rs_accepted_batches s;
  rc_rejected_batches := rs_rejected_batches s;
  rc_receive_errors := rs_receive_errors s;
  rc_emit_errors := rs_emit_errors s;
  rc_dropped_spikes := rs_dropped_spikes s;
  rc_diagnostic_emissions := rs_diagnostic_emissions s;
  rc_suppressed_diagnostics := rs_suppressed_diagnostics s;
|}.

(** Each counter shown is the run's counter of the same name. *)
Definition same_counters (c : RuntimeCounters) (s : RuntimeStats) : Prop :=
  rc_ticks c = rs_ticks s /\
  rc_accepted_batches c = rs_accepted_batches s /\
  rc_rejected_batches c = rs_rejected_batches s /\
  rc_receive_errors c = rs_receive_errors s /\
  rc_emit_errors c = rs_emit_errors s /\
  rc_dropped_spikes c = rs_dropped_spikes s /\
  rc_diagnostic_emissions c = rs_diagnostic_emissions s /\
  rc_suppressed_diagnostics c = rs_suppressed_diagnostics s.

(** Assignments to the counters: [ticks], [rejected_batches] and
    [accepted_batches] by [+=], the others saturating. *)
Definition set_batches (ticks acc rej : Z) (s : RuntimeStats) : RuntimeStats :=
  MkStats ticks acc rej (rs_receive_errors s) (rs_emit_errors s) (rs_dropped_spikes s)
    (rs_diagnostic_emissions s) (rs_suppressed_diagnostics s) (rs_last_batch_id s)
    (rs_last_valid_mask s) (rs_loaded_checkpoint s).

Definition set_errors (recv em drop : Z) (s : RuntimeStats) : RuntimeStats :=
  MkStats (rs_ticks s) (rs_accepted_batches s) (rs_rejected_batches s) recv em drop
    (rs_diagnostic_emissions s) (rs_suppressed_diagnostics s) (rs_last_batch_id s)
    (rs_last_valid_mask s) (rs_loaded_checkpoint s).

Definition set_diagnosed (em sup : Z) (s : RuntimeStats) : RuntimeStats :=
  MkStats (rs_ticks s) (rs_accepted_batches s) (rs_rejected_batches s) (rs_receive_errors s)
    (rs_emit_errors s) (rs_dropped_spikes s) em sup (rs_last_batch_id s)
    (rs_last_valid_mask s) (rs_loaded_checkpoint s).

Definition set_last (id : option Z) (mask : option (list bool)) (s : RuntimeStats) : RuntimeStats :=
  MkStats (rs_ticks s) (rs_accepted_batches s) (rs_rejected_batches s) (rs_receive_errors s)
    (rs_emit_errors s) (rs_dropped_spikes s) (rs_diagnostic_emissions s)
    (rs_suppressed_diagnostics s) id mask (rs_loaded_checkpoint s).

Definition set_loaded (p : option ModelProvenance) (s : RuntimeStats) : RuntimeStats :=
  MkStats (rs_ticks s) (rs_accepted_batches s) (rs_rejected_batches s) (rs_receive_errors s)
    (rs_emit_errors s) (rs_dropped_spikes s) (rs_diagnostic_emissions s)
    (rs_suppressed_diagnostics s) (rs_last_batch_id s) (rs_last_valid_mask s) p.

Definition bump_ticks (s : RuntimeStats) : RuntimeStats :=
  set_batches (wadd64 (rs_ticks s) 1) (rs_accepted_batches s) (rs_rejected_batches s) s.
Definition bump_accepted (s : RuntimeStats) : RuntimeStats :=
  set_batches (rs_ticks s) (wadd64 (rs_accepted_batches s) 1) (rs_rejected_batches s) s.
Definition bump_rejected (s : RuntimeStats) : RuntimeStats :=
  set_batches (rs_ticks s) (rs_accepted_batches s) (wadd64 (rs_rejected_batches s) 1) s.
Definition bump_receive_errors (s : RuntimeStats) : RuntimeStats :=
  set_errors (sat_add64 (rs_receive_errors s) 1) (rs_emit_errors s) (rs_dropped_spikes s) s.
Definition bump_emit_errors (s : RuntimeStats) : RuntimeStats :=
  set_errors (rs_receive_errors s) (sat_add64 (rs_emit_errors s) 1) (rs_dropped_spikes s) s.
Definition add_dropped (n : Z) (s : RuntimeStats) : RuntimeStats :=
  set_errors (rs_receive_errors s) (rs_emit_errors s) (sat_add64 (rs_dropped_spikes s) n) s.

(** The [match] on what a limiter returned, the same for all four. *)
Definition note_diagnostic (out : option Z) (s : RuntimeStats) : RuntimeStats :=
  match out with
  | Some _ =>
    set_diagnosed (sat_add64 (rs_diagnostic_emissions s) 1) (rs_suppressed_diagnostics s) s
  | None =>
    set_diagnosed (rs_diagnostic_emissions s) (sat_add64 (rs_suppressed_diagnostics s) 1) s
  end.

(** ** The tick's state *)

Record NeuroModulators := MkModulators {
  dopamine : f32;
  serotonin : f32;
  acetylcholine : f32;
  norepinephrine : f32;
}.

Record TickState {S N K : Type} := MkTick {
  ts_source : S;
  ts_network : N;
  ts_sink : K;
  ts_stimuli : list f32;
  ts_spike_buf : list SpikeEvent;
  ts_ingress : BoundedIngress;
  ts_health : HealthMachine;
  ts_stats : RuntimeStats;
  ts_diagnostics : TickDiagnostics;
}.
Arguments TickState : clear implicits.

(** The instants a tick reads, by where it reads them. *)
Inductive ClockPoint :=
| AtReceiveError | AtBackendGate | AtObserved | AtPressure | AtDrainedGate | AtSkippedTick
| AtStepError | AtDropped | AtEmptyBatch | AtEmitError | AtEmitFatal | AtDone | AtPublish.

Record TickEnv := MkEnv {
  te_clock : ClockPoint -> Z;
  te_system_time : option Z;
  te_arrivals : BoundedIngress -> BoundedIngress;
}.

(** ** Packet predicates *)

Definition packet_carries_input (packet : IngressPacket) : bool :=
  negb (bool_decide (stimuli packet = [])) ||
  match modulators packet with Some mods => negb (bool_decide (mods = [])) | None => false end.

Definition observes_ingress (packet : IngressPacket) : bool :=
  packet_carries_input packet && negb (is_some (first_non_finite packet)).

Definition backend_non_finite (packet : IngressPacket) : option NonFiniteInput :=
  if rejected packet then None else first_non_finite packet.

(** ** Accounting *)

Definition record_non_finite_rejection (now : Z) (stats : RuntimeStats) (d : TickDiagnostics) :
    RuntimeStats * TickDiagnostics :=
  let stats := bump_rejected stats in
  let '(l, out) :=
    limiter_record (diagnostic_key NON_FINITE_DIAGNOSTIC_CATEGORY) now (td_non_finite d) in
  (note_diagnostic out stats, MkDiagnostics (td_receive d) (td_emit d) (td_dropped d) l).

Definition account_and_admit_backend_packet (packet : IngressPacket) (stats : RuntimeStats)
    (ingress : BoundedIngress) : RuntimeStats * BoundedIngress :=
  if rejected packet then
    (bump_rejected stats,
     if is_some (first_non_finite packet) then ingress else admit_backend_packet ingress packet)
  else
    let stats := if is_some (batch_id packet)
                 then set_last (batch_id packet) (valid_mask packet) (bump_accepted stats)
                 else stats in
    (stats, admit_backend_packet ingress packet).

(** One class's contribution to the pressure sums. *)
Definition pressure_add (i : BoundedIngress) (acc : Z * Z) (class : MessageClass) : Z * Z :=
  let cap := match policy (bi_config i) class with
             | Coalesce => 1
             | _ => capacity (bi_config i) class
             end in
  (wadd64 acc.1 (cm_depth (metrics_class (ingress_metrics i) class)), wadd64 acc.2 cap).

Definition apply_queue_pressure (i : BoundedIngress) (now : Z) (m : HealthMachine) : HealthMachine :=
  let '(depth, cap) := fold_left (pressure_add i) MessageClass_ALL (0, 0) in
  health_apply (QueuePressureEvent depth cap) now m.

(** ** Decoding *)

(** [stimuli[idx] = 0.0] where the mask says so, up to the shorter of the two. *)
Fixpoint apply_mask (mask : list bool) (stimuli : list f32) : list f32 :=
  match mask, stimuli with
  | valid :: mask', x :: stimuli' => (if valid : bool then x else f_zero) :: apply_mask mask' stimuli'
  | _, _ => stimuli
  end.

Definition decode_stimuli (packet : IngressPacket) (buf : list f32) : list f32 :=
  let readout := stimuli packet in
  let channels := length buf in
  let upto := Nat.min (length readout) channels in
  let rest := if (length readout <? channels)%nat
              then replicate (channels - upto) f_zero else drop upto buf in
  let filled := take upto readout ++ rest in
  match valid_mask packet with Some mask => apply_mask mask filled | None => filled end.

Definition decode_modulators (mods_default : NeuroModulators) (packet : IngressPacket) :
    NeuroModulators :=
  match modulators packet with
  | Some (d :: s :: a :: n :: _) => MkModulators d s a n
  | _ => mods_default
  end.

(** The buffer [decode_inputs] writes and the modulators it returns. *)
Definition decode_inputs (mods_default : NeuroModulators) (packet : IngressPacket) (buf : list f32) :
    list f32 * NeuroModulators :=
  (decode_stimuli packet buf, decode_modulators mods_default packet).

(** The loop over the step's spike ids: the wire events and the number of ids
    that do not fit a [u16].  (A [Vec] is shorter than [2^63], so counting them
    does not wrap.) *)
Fixpoint push_spikes (time : Z) (ids : list Z) (buf : list SpikeEvent) (dropped : Z) :
    list SpikeEvent * Z :=
  match ids with
  | [] => (buf, dropped)
  | idx :: ids' =>
    if idx <=? u16_max
    then push_spikes time ids' (buf ++ [MkSpikeEvent idx time f_one32]) dropped
    else push_spikes time ids' buf (dropped + 1)
  end.

(** ** One tick *)

Section Tick.
Context {S N K : Type} `{StimulusSource S} `{SpikeSink K}.
Variable net_step : N -> list f32 -> NeuroModulators -> N * result string (list Z).
Variable mods_default : NeuroModulators.

Abbreviation State := (TickState S N K).

Definition with_backend (src : S) (sink : K) (net : N) (st : State) : State :=
  MkTick S N K src net sink (ts_stimuli st) (ts_spike_buf st) (ts_ingress st) (ts_health st)
    (ts_stats st) (ts_diagnostics st).
Definition with_buffers (stim : list f32) (buf : list SpikeEvent) (st : State) : State :=
  MkTick S N K (ts_source st) (ts_network st) (ts_sink st) stim buf (ts_ingress st) (ts_health st)
    (ts_stats st) (ts_diagnostics st).
Definition with_ingress (i : BoundedIngress) (st : State) : State :=
  MkTick S N K (ts_source st) (ts_network st) (ts_sink st) (ts_stimuli st) (ts_spike_buf st) i
    (ts_health st) (ts_stats st) (ts_diagnostics st).
Definition with_report (m : HealthMachine) (stats : RuntimeStats) (d : TickDiagnostics) (st : State) : State :=
  MkTick S N K (ts_source st) (ts_network st) (ts_sink st) (ts_stimuli st) (ts_spike_buf st)
    (ts_ingress st) m stats d.

(** [health.apply(event)]. *)
Definition report (event : HealthEvent) (now : Z) (st : State) : State :=
  with_report (health_apply event now (ts_health st)) (ts_stats st) (ts_diagnostics st) st.
Definition with_stats (stats : RuntimeStats) (d : TickDiagnostics) (st : State) : State :=
  with_report (ts_health st) stats d st.

(** [source.next_ingress()] and its error branch. *)
Definition receive (env : TickEnv) (st : State) : State * option IngressPacket :=
  let '(src, r) := next_ingress (ts_source st) in
  let st := with_backend src (ts_sink st) (ts_network st) st in
  match r with
  | Ok packet => (st, packet)
  | Err e =>
    let d := ts_diagnostics st in
    let '(l, out) := limiter_record (diagnostic_key e) (te_clock env AtReceiveError) (td_receive d) in
    let stats := note_diagnostic out (bump_rejected (bump_receive_errors (ts_stats st))) in
    (with_stats stats (MkDiagnostics l (td_emit d) (td_dropped d) (td_non_finite d)) st, None)
  end.

(** The first finite gate. *)
Definition gate_backend (env : TickEnv) (packet : option IngressPacket) (st : State) :
    State * option IngressPacket :=
  match packet ≫= backend_non_finite with
  | Some _ =>
    let '(stats, d) :=
      record_non_finite_rejection (te_clock env AtBackendGate) (ts_stats st) (ts_diagnostics st) in
    (with_stats stats d st, None)
  | None => (st, packet)
  end.

Definition observe_and_admit (env : TickEnv) (packet : option IngressPacket) (st : State) : State :=
  match packet with
  | None => st
  | Some packet =>
    let st := if observes_ingress packet then report IngressObserved (te_clock env AtObserved) st else st in
    let '(stats, i) := account_and_admit_backend_packet packet (ts_stats st) (ts_ingress st) in
    with_ingress i (with_stats stats (ts_diagnostics st) st)
  end.

(** Everything up to the drain. *)
Definition take_in (env : TickEnv) (st : State) : State :=
  let '(st, packet) := receive env st in
  let '(st, packet) := gate_backend env packet st in
  observe_and_admit env packet st.

(** The drain and the pressure report. *)
Definition drain_tick (env : TickEnv) (st : State) : State * IngressPacket :=
  let '(i, drained) := drain_for_tick (te_arrivals env (ts_ingress st)) in
  let st := with_ingress i st in
  (with_report (apply_queue_pressure i (te_clock env AtPressure) (ts_health st)) (ts_stats st)
     (ts_diagnostics st) st,
   into_packet drained).

(** [tick & u32::MAX] of the wall clock in milliseconds. *)
Definition spike_time (env : TickEnv) : Z :=
  Z.land (wrap64 (default 0 (te_system_time env) / 1000000)) u32_max.

Definition note_dropped (env : TickEnv) (dropped : Z) (st : State) : State :=
  if 0 <? dropped then
    let d := ts_diagnostics st in
    let '(l, out) := limiter_record (diagnostic_key "dropped spikes with out-of-range IDs")
                       (te_clock env AtDropped) (td_dropped d) in
    with_stats (note_diagnostic out (add_dropped dropped (ts_stats st)))
      (MkDiagnostics (td_receive d) (td_emit d) l (td_non_finite d)) st
  else st.

Definition emit_batch (env : TickEnv) (st : State) : State :=
  let '(sink, r) := emit (ts_spike_buf st) (default 0 (te_system_time env)) (ts_sink st) in
  let st := with_backend (ts_source st) sink (ts_network st) st in
  match r with
  | Err e =>
    let d := ts_diagnostics st in
    let '(l, out) := limiter_record (diagnostic_key e) (te_clock env AtEmitError) (td_emit d) in
    let st := with_stats (note_diagnostic out (bump_emit_errors (ts_stats st)))
                (MkDiagnostics (td_receive d) l (td_dropped d) (td_non_finite d)) st in
    report (FatalEvent UnspecifiedCode e) (te_clock env AtEmitFatal) st
  | Ok _ => report TickSucceeded (te_clock env AtDone) st
  end.

(** The rest of the tick after a successful step. *)
Definition publish_spikes (env : TickEnv) (ids : list Z) (st : State) : State :=
  let st := with_stats (bump_ticks (ts_stats st)) (ts_diagnostics st) st in
  let '(buf, dropped) := push_spikes (spike_time env) ids [] 0 in
  let st := note_dropped env dropped (with_buffers (ts_stimuli st) buf st) in
  if bool_decide (buf = []) && negb (bool_decide (ids = []))
  then report TickSucceeded (te_clock env AtEmptyBatch) st
  else emit_batch env st.

(** The second finite gate, the step and what follows. *)
Definition consume (env : TickEnv) (packet : IngressPacket) (st : State) : State :=
  match first_non_finite packet with
  | Some _ =>
    let '(stats, d) :=
      record_non_finite_rejection (te_clock env AtDrainedGate) (ts_stats st) (ts_diagnostics st) in
    report TickSucceeded (te_clock env AtSkippedTick) (with_stats stats d st)
  | None =>
    let '(stim, mods) := decode_inputs mods_default packet (ts_stimuli st) in
    let st := with_buffers stim (ts_spike_buf st) st in
    let '(net, r) := net_step (ts_network st) stim mods in
    let st := with_backend (ts_source st) (ts_sink st) net st in
    match r with
    | Err e => report (FatalEvent UnspecifiedCode e) (te_clock env AtStepError) st
    | Ok ids => publish_spikes env ids st
    end
  end.

Definition run_tick (env : TickEnv) (st : State) : State :=
  let '(st, packet) := drain_tick env (take_in env st) in
  consume env packet st.

Definition run_tick_published (env : TickEnv) (st : State) : State :=
  let st := run_tick env st in
  report (CountersPublished (counters_of (ts_stats st))) (te_clock env AtPublish) st.

(** [drive_ticks]: one environment per tick. *)
Definition drive_ticks (envs : list TickEnv) (st : State) : State :=
  fold_left (fun st env => run_tick_published env st) envs st.
End Tick.

(** ** Decoding *)

Definition mods_finite (m : NeuroModulators) : bool :=
  is_finite (dopamine m) && is_finite (serotonin m) && is_finite (acetylcholine m) &&
  is_finite (norepinephrine m).

Lemma apply_mask_length mask xs : length (apply_mask mask xs) = length xs.
Proof. revert xs. induction mask as [|v mask IH]; intros [|x xs]; simpl; auto. Qed.

Lemma apply_mask_true n xs : apply_mask (replicate n true) xs = xs.
Proof. revert xs. induction n as [|n IH]; intros [|x xs]; simpl; try done. by rewrite IH. Qed.

Lemma apply_mask_finite mask xs : all_finite xs = true -> all_finite (apply_mask mask xs) = true.
Proof.
  revert xs. induction mask as [|v mask IH]; intros [|x xs]; simpl; auto.
  rewrite !andb_true_iff. intros [Hx Hxs]. split; [by destruct v|by apply IH].
Qed.

Lemma decode_stimuli_length p buf : length (decode_stimuli p buf) = length buf.
Proof.
  unfold decode_stimuli. assert (forall l, length (match valid_mask p with Some mask => apply_mask mask l | None => l end) = length l) as ->
    by (intros l; destruct (valid_mask p); [apply apply_mask_length|done]).
  rewrite length_app, length_take. destruct (Nat.ltb_spec (length (stimuli p)) (length buf)).
  - rewrite length_replicate. lia.
  - rewrite length_drop. lia.
Qed.

(** The buffer's previous contents do not survive: a finite packet leaves only
    finite values. *)
Lemma decode_stimuli_finite p buf :
  packet_finite p = true -> all_finite (decode_stimuli p buf) = true.
Proof.
  intros Hp%packet_finite_stimuli. unfold decode_stimuli.
  assert (all_finite (take (length (stimuli p) `min` length buf) (stimuli p)) = true) as Ht.
  { rewrite all_finite_Forall in *. by apply Forall_take. }
  destruct (Nat.ltb_spec (length (stimuli p)) (length buf)) as [Hlt|Hge].
  - assert (forall n, all_finite (replicate n f_zero) = true) as Hr by (intros n; induction n; auto).
    destruct (valid_mask p); [apply apply_mask_finite|]; by rewrite all_finite_app, Ht, Hr.
  - rewrite (drop_ge buf) by lia. rewrite app_nil_r.
    destruct (valid_mask p); [by apply apply_mask_finite|done].
Qed.

Lemma decode_modulators_finite d p :
  mods_finite d = true -> packet_finite p = true -> mods_finite (decode_modulators d p) = true.
Proof.
  intros Hd Hp. unfold decode_modulators. destruct (modulators p) as [ms|] eqn:Hm; [|done].
  pose proof (packet_finite_modulators p ms Hp Hm) as Hf. unfold all_finite in Hf.
  destruct ms as [|a [|b [|c [|e ms]]]]; try done. simpl in Hf. unfold mods_finite. simpl.
  destruct (is_finite a), (is_finite b), (is_finite c), (is_finite e); done.
Qed.

(** ** What each phase leaves alone *)

Section TickFacts.
Context {S N K : Type} `{StimulusSource S} `{SpikeSink K}.
Implicit Types (st : TickState S N K) (env : TickEnv).

(** The stimulus buffer, the network and the sink: what only the step and the
    emission touch. *)
Definition core st : list f32 * N * K := (ts_stimuli st, ts_network st, ts_sink st).

Lemma receive_core env st : core (receive env st).1 = core st.
Proof.
  unfold receive. destruct (next_ingress (ts_source st)) as [src [p|e]]; [done|].
  by destruct (limiter_record _ _ _).
Qed.

Lemma gate_core env p st : core (gate_backend env p st).1 = core st.
Proof.
  unfold gate_backend. destruct (p ≫= backend_non_finite); [|done].
  by destruct (record_non_finite_rejection _ _ _).
Qed.

Lemma admit_core env p st : core (observe_and_admit env p st) = core st.
Proof.
  unfold observe_and_admit. destruct p as [p|]; [|done].
  destruct (observes_ingress p); by destruct (account_and_admit_backend_packet _ _ _).
Qed.

Lemma take_in_core env st : core (take_in env st) = core st.
Proof.
  unfold take_in. pose proof (receive_core env st) as H1.
  destruct (receive env st) as [st1 p1]. pose proof (gate_core env p1 st1) as H2.
  destruct (gate_backend env p1 st1) as [st2 p2]. simpl in *.
  by rewrite admit_core, H2.
Qed.

Lemma drain_core env st : core (drain_tick env st).1 = core st.
Proof. unfold drain_tick. by destruct (drain_for_tick _). Qed.

Lemma publish_stimuli env ids st : ts_stimuli (publish_spikes env ids st) = ts_stimuli st.
Proof.
  unfold publish_spikes. destruct (push_spikes _ _ _ _) as [buf dropped].
  assert (forall st, ts_stimuli (note_dropped env dropped st) = ts_stimuli st) as Hd.
  { intros st'. unfold note_dropped. destruct (0 <? dropped); [|done]. by destruct (limiter_record _ _ _). }
  destruct (_ && _); simpl; [by rewrite Hd|]. unfold emit_batch.
  destruct (emit _ _ _) as [k [u|e]]; simpl; [by rewrite Hd|].
  destruct (limiter_record _ _ _). simpl. by rewrite Hd.
Qed.

Lemma consume_length net_step d env p st :
  length (ts_stimuli (consume net_step d env p st)) = length (ts_stimuli st).
Proof.
  unfold consume. destruct (first_non_finite p); [by destruct (record_non_finite_rejection _ _ _)|].
  simpl. destruct (net_step _ _ _) as [net [ids|e]]; simpl; rewrite ?publish_stimuli; simpl;
    apply decode_stimuli_length.
Qed.

Lemma run_tick_length net_step d env st :
  length (ts_stimuli (run_tick net_step d env st)) = length (ts_stimuli st).
Proof.
  unfold run_tick. pose proof (drain_core env (take_in env st)) as E. rewrite take_in_core in E.
  destruct (drain_tick env (take_in env st)) as [st1 p]. simpl in E. rewrite consume_length.
  unfold core in E. by injection E as -> _ _.
Qed.

(** Two step functions a tick cannot tell apart. *)
Definition agree_on_finite (channels : nat) (f g : N -> list f32 -> NeuroModulators -> N * result string (list Z)) : Prop :=
  forall net stim mods, length stim = channels -> all_finite stim = true -> mods_finite mods = true ->
    f net stim mods = g net stim mods.

Lemma run_tick_agree f g d env st :
  agree_on_finite (length (ts_stimuli st)) f g -> mods_finite d = true ->
  run_tick f d env st = run_tick g d env st.
Proof.
  intros Hfg Hd. unfold run_tick. pose proof (drain_core env (take_in env st)) as E.
  rewrite take_in_core in E. destruct (drain_tick env (take_in env st)) as [st1 p]. simpl in E.
  unfold core in E. injection E as Es _ _. unfold consume.
  destruct (first_non_finite p) eqn:Hp; [done|]. apply first_non_finite_None in Hp. simpl.
  rewrite (Hfg _ (decode_stimuli p (ts_stimuli st1))); [done|..].
  - by rewrite decode_stimuli_length, Es.
  - by apply decode_stimuli_finite.
  - by apply decode_modulators_finite.
Qed.
End TickFacts.

(** ** Growth of the counters *)

(** A relation between every counter of two runs. *)
Definition counterwise (R : Z -> Z -> Prop) (s t : RuntimeStats) : Prop :=
  R (rs_ticks s) (rs_ticks t) /\ R (rs_accepted_batches s) (rs_accepted_batches t) /\
  R (rs_rejected_batches s) (rs_rejected_batches t) /\ R (rs_receive_errors s) (rs_receive_errors t) /\
  R (rs_emit_errors s) (rs_emit_errors t) /\ R (rs_dropped_spikes s) (rs_dropped_spikes t) /\
  R (rs_diagnostic_emissions s) (rs_diagnostic_emissions t) /\
  R (rs_suppressed_diagnostics s) (rs_suppressed_diagnostics t).

Lemma counterwise_trans R `{!Transitive R} s t u :
  counterwise R s t -> counterwise R t u -> counterwise R s u.
Proof. unfold counterwise. intros H1 H2. repeat split; by etrans; [apply H1|apply H2]. Qed.

(** All eight counters are machine integers, and the three that wrap have room
    for [k] more increments. *)
Definition room (k : Z) (s : RuntimeStats) : Prop :=
  counterwise (fun a _ => is_u64 a) s s /\ rs_ticks s + k <= u64_max /\
  rs_accepted_batches s + k <= u64_max /\ rs_rejected_batches s + k <= u64_max.

(** [s'] is [s] after at most [j] increments of a wrapping counter. *)
Definition evolves (j : Z) (s s' : RuntimeStats) : Prop :=
  forall k, 0 <= k -> room (k + j) s -> room k s' /\ counterwise Z.le s s'.

Lemma evolves_trans i j s t u : 0 <= i -> 0 <= j -> evolves i s t -> evolves j t u -> evolves (i + j) s u.
Proof.
  intros Hi Hj H1 H2 k Hk Hs. destruct (H1 (k + j)) as [Ht Hle1]; [lia|by rewrite <- Z.add_assoc, (Z.add_comm j)|].
  destruct (H2 k Hk Ht) as [Hu Hle2]. split; [done|]. by eapply counterwise_trans; [apply _|..].
Qed.

Lemma evolves_weaken i j s t : i <= j -> evolves i s t -> evolves j s t.
Proof.
  intros Hij H k Hk (Hf & Hs). apply H; [done|]. split; [done|]. lia.
Qed.

Ltac evolve := intros k Hk ((? & ? & ? & ? & ? & ? & ? & ?) & ? & ? & ?);
  unfold room, counterwise, is_u64 in *; simpl in *;
  rewrite ?wadd64_small by lia; unfold sat_add64 in *; lia.

Lemma evolves_refl s : evolves 0 s s.
Proof. evolve. Qed.
Lemma evolves_note out s : evolves 0 s (note_diagnostic out s).
Proof. destruct out; evolve. Qed.
Lemma evolves_ticks s : evolves 1 s (bump_ticks s).
Proof. evolve. Qed.
Lemma evolves_accepted s : evolves 1 s (bump_accepted s).
Proof. evolve. Qed.
Lemma evolves_rejected s : evolves 1 s (bump_rejected s).
Proof. evolve. Qed.
Lemma evolves_receive s : evolves 0 s (bump_receive_errors s).
Proof. evolve. Qed.
Lemma evolves_emit s : evolves 0 s (bump_emit_errors s).
Proof. evolve. Qed.
Lemma evolves_dropped n s : 0 <= n -> evolves 0 s (add_dropped n s).
Proof. intros Hn. evolve. Qed.
Lemma evolves_last id mask s : evolves 0 s (set_last id mask s).
Proof. evolve. Qed.

#[export] Hint Resolve evolves_refl evolves_note evolves_ticks evolves_accepted evolves_rejected
  evolves_receive evolves_emit evolves_last : brain.

(** A diagnostic noted after another change to the counters. *)
Lemma evolves_noted j out s s' : 0 <= j -> evolves j s s' -> evolves j s (note_diagnostic out s').
Proof. intros Hj H. rewrite <- (Z.add_0_r j). eapply evolves_trans; eauto using evolves_note; lia. Qed.

Lemma rejection_evolves now s d : evolves 1 s (record_non_finite_rejection now s d).1.
Proof.
  unfold record_non_finite_rejection. destruct (limiter_record _ _ _). simpl.
  apply evolves_noted; auto with brain; lia.
Qed.

Lemma account_evolves p s i : evolves 1 s (account_and_admit_backend_packet p s i).1.
Proof.
  unfold account_and_admit_backend_packet. destruct (rejected p); simpl; [auto with brain|].
  destruct (is_some (batch_id p)); [|apply (evolves_weaken 0); auto with brain; lia].
  apply (evolves_trans 1 0 _ (bump_accepted s)); auto with brain; lia.
Qed.

(** ** The counters of a tick *)

Section TickCounters.
Context {S N K : Type} `{StimulusSource S} `{SpikeSink K}.
Implicit Types (st : TickState S N K) (env : TickEnv).

(** One phase: at most [j] wrapping increments, nothing published. *)
Definition phase (j : Z) st st' : Prop :=
  evolves j (ts_stats st) (ts_stats st') /\ hm_counters (ts_health st') = hm_counters (ts_health st).

Lemma phase_trans i j st1 st2 st3 :
  0 <= i -> 0 <= j -> phase i st1 st2 -> phase j st2 st3 -> phase (i + j) st1 st3.
Proof. intros ? ? [E1 C1] [E2 C2]. split; [by eapply evolves_trans|by rewrite C2]. Qed.

Lemma phase_report event now st :
  (forall c, event <> CountersPublished c) -> phase 0 st (report event now st).
Proof.
  intros Hc. split; [apply evolves_refl|]. simpl. rewrite apply_counters. destruct event; try done.
  by destruct (Hc counters).
Qed.

Lemma phase_stats j s d st : evolves j (ts_stats st) s -> phase j st (with_stats s d st).
Proof. by split. Qed.

Lemma take_in_phase env st : phase 1 st (take_in env st).
Proof.
  unfold take_in, receive. destruct (next_ingress (ts_source st)) as [src [p|e]].
  - set (st1 := with_backend _ _ _ st). assert (phase 0 st st1) as H1 by (split; [apply evolves_refl|done]).
    apply (phase_trans 0 1 st st1); [lia|lia|done|]. unfold gate_backend.
    destruct (p ≫= backend_non_finite).
    + pose proof (rejection_evolves (te_clock env AtBackendGate) (ts_stats st1) (ts_diagnostics st1)) as Hr.
      destruct (record_non_finite_rejection _ _ _) as [s d]. by apply phase_stats.
    + unfold observe_and_admit. destruct p as [p|]; [|split; [|done]; by apply (evolves_weaken 0 1), evolves_refl].
      set (st2 := if observes_ingress p then _ else st1).
      assert (phase 0 st1 st2) as H2.
      { unfold st2. destruct (observes_ingress p); [by apply phase_report|split; [apply evolves_refl|done]]. }
      apply (phase_trans 0 1 st1 st2); [lia|lia|done|].
      pose proof (account_evolves p (ts_stats st2) (ts_ingress st2)) as Ha.
      destruct (account_and_admit_backend_packet p _ _) as [s i]. by split.
  - destruct (limiter_record _ _ _) as [l out]. simpl. split; [|done]. simpl.
    apply evolves_noted; [lia|]. apply (evolves_trans 0 1 _ (bump_receive_errors (ts_stats st)));
      auto with brain; lia.
Qed.

Lemma drain_phase env st : phase 0 st (drain_tick env st).1.
Proof.
  unfold drain_tick. destruct (drain_for_tick _) as [i d]. simpl.
  split; [apply evolves_refl|]. simpl. unfold apply_queue_pressure.
  destruct (fold_left (pressure_add i) MessageClass_ALL (0, 0)). done.
Qed.

Lemma push_spikes_spec time ids : forall buf dropped,
  push_spikes time ids buf dropped =
  (buf ++ ((fun id => MkSpikeEvent id time f_one32) <$> base.filter (fun id => id <= u16_max) ids),
   dropped + count (fun id => u16_max <? id) ids).
Proof.
  induction ids as [|id ids IH]; intros buf dropped; simpl.
  - by rewrite app_nil_r, Z.add_0_r.
  - rewrite filter_cons. destruct (Z.leb_spec id u16_max).
    + rewrite decide_True by done. rewrite IH, <- app_assoc. simpl.
      replace (u16_max <? id) with false by (symmetry; apply Z.ltb_ge; lia). done.
    + rewrite decide_False by lia. rewrite IH.
      replace (u16_max <? id) with true by (symmetry; apply Z.ltb_lt; lia). simpl. f_equal. lia.
Qed.

Lemma note_dropped_phase env n st : 0 <= n -> phase 0 st (note_dropped env n st).
Proof.
  intros Hn. unfold note_dropped. destruct (0 <? n); [|split; [apply evolves_refl|done]].
  destruct (limiter_record _ _ _). apply phase_stats, evolves_noted; [lia|by apply evolves_dropped].
Qed.

Lemma emit_batch_phase env st : phase 0 st (emit_batch env st).
Proof.
  unfold emit_batch. destruct (emit _ _ _) as [k [u|e]].
  - by split; [apply evolves_refl|].
  - destruct (limiter_record _ _ _) as [l out]. simpl. split; simpl.
    + apply evolves_noted; [lia|]. apply evolves_emit.
    + exact (apply_counters (FatalEvent UnspecifiedCode e) 0 (ts_health st)).
Qed.

Lemma publish_phase env ids st : phase 1 st (publish_spikes env ids st).
Proof.
  unfold publish_spikes. rewrite push_spikes_spec.
  set (st1 := with_stats _ _ st). set (n := 0 + count _ ids).
  assert (phase 1 st st1) as H1 by (apply phase_stats; auto with brain).
  set (st2 := with_buffers _ _ st1). assert (phase 0 st1 st2) as H2 by (split; [apply evolves_refl|done]).
  assert (0 <= n) as Hn by (pose proof (count_nonneg (fun id => u16_max <? id) ids); unfold n; lia).
  pose proof (note_dropped_phase env n st2 Hn) as H3.
  apply (phase_trans 1 0 st st1); [lia|lia|done|].
  apply (phase_trans 0 0 st1 st2); [lia|lia|done|].
  eapply (phase_trans 0 0); [lia|lia|exact H3|].
  destruct (_ && _); [by apply phase_report|apply emit_batch_phase].
Qed.
Lemma consume_phase net_step d env p st : phase 1 st (consume net_step d env p st).
Proof.
  unfold consume. destruct (first_non_finite p).
  - pose proof (rejection_evolves (te_clock env AtDrainedGate) (ts_stats st) (ts_diagnostics st)) as Hr.
    destruct (record_non_finite_rejection _ _ _) as [s d']. by split.
  - simpl. destruct (net_step _ _ _) as [net [ids|e]].
    + exact (publish_phase env ids (with_backend (ts_source st) (ts_sink st) net
        (with_buffers (decode_stimuli p (ts_stimuli st)) (ts_spike_buf st) st))).
    + split; [by apply (evolves_weaken 0 1), evolves_refl|].
      exact (apply_counters (FatalEvent UnspecifiedCode e) 0 (ts_health st)).
Qed.

Lemma run_tick_phase net_step d env st : phase 2 st (run_tick net_step d env st).
Proof.
  unfold run_tick. pose proof (drain_phase env (take_in env st)) as Hd.
  destruct (drain_tick env (take_in env st)) as [st1 p]. simpl in Hd.
  apply (phase_trans 1 1 st (take_in env st)); [lia|lia|apply take_in_phase|].
  apply (phase_trans 0 1 _ st1); [lia|lia|done|apply consume_phase].
Qed.

(** What the health machine shows is the run's counters. *)
Definition published st : Prop := hm_counters (ts_health st) = counters_of (ts_stats st).

Lemma published_same st : published st <-> same_counters (hm_counters (ts_health st)) (ts_stats st).
Proof.
  unfold published, same_counters, counters_of. destruct (hm_counters (ts_health st)), (ts_stats st). simpl.
  split; [by intros [= -> -> -> -> -> -> -> ->]|intuition congruence].
Qed.

Lemma counters_max s t :
  counterwise Z.le s t -> merged_monotonic (counters_of s) (counters_of t) = counters_of t.
Proof.
  unfold counterwise, merged_monotonic, counters_of. simpl. intros H1.
  f_equal; apply Z.max_r; apply H1.
Qed.

Lemma published_step net_step d env st k :
  0 <= k -> room (k + 2) (ts_stats st) -> published st ->
  let st' := run_tick_published net_step d env st in
  published st' /\ room k (ts_stats st') /\ counterwise Z.le (ts_stats st) (ts_stats st').
Proof.
  intros Hk Hr Hp. cbv zeta. unfold run_tick_published.
  destruct (run_tick_phase net_step d env st) as [He Hc].
  set (st1 := run_tick net_step d env st) in *. destruct (He k Hk Hr) as [Hr' Hle].
  split; [|done]. unfold published in *. unfold report. simpl. rewrite Hc, Hp. by apply counters_max.
Qed.
End TickCounters.

(** ** The guarantees of the tick *)

Section TickGuarantees.
Context {S N K : Type} `{StimulusSource S} `{SpikeSink K}.
Variable net_step : N -> list f32 -> NeuroModulators -> N * result string (list Z).
Variable mods_default : NeuroModulators.
Implicit Types (st : TickState S N K) (env : TickEnv).

(** C5: fail-closed input gate.  Whatever the source delivers, whatever other
    producers put on the ingress and whatever the buffers held, the network is
    only ever stepped on finite stimuli of the configured width and finite
    modulators: two step functions that agree there drive any run of ticks to
    the same state. *)
Theorem ticks_step_only_finite other envs st :
  agree_on_finite (length (ts_stimuli st)) net_step other -> mods_finite mods_default = true ->
  drive_ticks net_step mods_default envs st = drive_ticks other mods_default envs st.
Proof.
  intros Hf Hd. revert st Hf. induction envs as [|env envs IH]; intros st Hf; [done|].
  unfold drive_ticks in *. simpl. unfold run_tick_published at 2 4.
  rewrite <- (run_tick_agree net_step other) by done. apply IH. simpl. by rewrite run_tick_length.
Qed.

(** What the source's answer amounts to. *)
Definition received st : result string (option IngressPacket) := (next_ingress (ts_source st)).2.

Definition poisoned (r : result string (option IngressPacket)) : bool :=
  match r with Ok (Some p) => negb (packet_finite p) | _ => false end.

Definition marked (r : result string (option IngressPacket)) : bool :=
  match r with Ok (Some p) => rejected p | _ => false end.

Definition batch_accepted (r : result string (option IngressPacket)) : bool :=
  match r with Ok (Some p) => packet_finite p && negb (rejected p) && is_some (batch_id p) | _ => false end.

Definition diagnoses s : Z := rs_diagnostic_emissions s + rs_suppressed_diagnostics s.

Definition diag_room s : Prop :=
  rs_diagnostic_emissions s < u64_max /\ rs_suppressed_diagnostics s < u64_max.

Lemma note_diagnostic_one out s : diag_room s -> diagnoses (note_diagnostic out s) = diagnoses s + 1.
Proof. intros [? ?]. destruct out; unfold diagnoses; simpl; unfold sat_add64; lia. Qed.

Lemma poison_gate p : is_some (first_non_finite p) = negb (packet_finite p).
Proof.
  destruct (first_non_finite p) eqn:E; destruct (packet_finite p) eqn:F; try done.
  - apply first_non_finite_None in F. by rewrite F in E.
  - apply first_non_finite_None in E. by rewrite E in F.
Qed.

(** C22: admission.  A receive error, a non-finite packet and a packet the
    source marked rejected each count exactly one rejected batch, however many
    of these it is; nothing non-finite is admitted or refreshes the input age;
    every finite packet is admitted; a batch id counts exactly one accepted
    batch; and a receive error or a live non-finite packet is exactly one
    diagnostic, logged or suppressed.  Network and sink are untouched. *)
Theorem tick_admission_exact env st :
  diag_room (ts_stats st) ->
  let r := received st in let st' := take_in env st in
  ts_ingress st' = match r with
                   | Ok (Some p) => if poisoned r then ts_ingress st
                                    else admit_backend_packet (ts_ingress st) p
                   | _ => ts_ingress st
                   end /\
  rs_rejected_batches (ts_stats st') =
    (let n := rs_rejected_batches (ts_stats st) in
     if negb (is_ok r) || poisoned r || marked r then wadd64 n 1 else n) /\
  rs_accepted_batches (ts_stats st') =
    (let n := rs_accepted_batches (ts_stats st) in if batch_accepted r then wadd64 n 1 else n) /\
  hm_last_ingress (ts_health st') =
    match r with
    | Ok (Some p) => if negb (poisoned r) && packet_carries_input p
                     then Some (te_clock env AtObserved) else hm_last_ingress (ts_health st)
    | _ => hm_last_ingress (ts_health st)
    end /\
  diagnoses (ts_stats st') =
    diagnoses (ts_stats st) + Z.b2z (negb (is_ok r) || (poisoned r && negb (marked r))) /\
  ts_network st' = ts_network st /\ ts_sink st' = ts_sink st.
Proof.
  intros Hroom r st'. assert (core st' = core st) as [= _ -> ->] by apply take_in_core.
  revert Hroom. unfold st', r, received, take_in, receive, marked, poisoned, batch_accepted.
  destruct (next_ingress (ts_source st)) as [src [[p|]|e]]; simpl; intros Hroom.
  - unfold gate_backend, backend_non_finite, observe_and_admit, observes_ingress,
      account_and_admit_backend_packet. simpl.
    pose proof (poison_gate p) as Hp. pose proof (note_diagnostic_one) as Hd.
    destruct (rejected p) eqn:Hr, (first_non_finite p) eqn:Hf, (packet_finite p); try done; simpl;
      rewrite ?Hr, ?Hf; simpl; rewrite ?andb_false_r, ?andb_true_r; simpl.
    + repeat split; unfold diagnoses; simpl; lia.
    + destruct (packet_carries_input p); simpl; repeat split; unfold diagnoses; simpl; lia.
    + unfold record_non_finite_rejection. destruct (limiter_record _ _ _) as [l out]. simpl.
      rewrite Hd by done. by destruct out.
    + destruct (packet_carries_input p), (is_some (batch_id p)); simpl; repeat split;
        unfold diagnoses; simpl; lia.
  - repeat split. unfold diagnoses. simpl. lia.
  - destruct (limiter_record _ _ _) as [l out]. simpl.
    rewrite note_diagnostic_one by done. by destruct out.
Qed.

(** The packet a tick consumes. *)
Definition consumed env st : IngressPacket := (drain_tick env (take_in env st)).2.

(** How a tick ends in the health machine. *)
Definition ends_well env st' : Prop :=
  hm_fatal (ts_health st') = None /\
  exists point, In point [AtSkippedTick; AtEmptyBatch; AtDone] /\
    hm_last_tick (ts_health st') = Some (te_clock env point).

Definition ends_fatal (e : string) st st' : Prop :=
  hm_fatal (ts_health st') = Some (MkFatalState UnspecifiedCode e) /\
  hm_last_tick (ts_health st') = hm_last_tick (ts_health st).

(** The wire events of a step's spikes: the representable ids, in order. *)
Definition wire_spikes (time : Z) (ids : list Z) : list SpikeEvent :=
  (fun id => MkSpikeEvent id time f_one32) <$> base.filter (fun id => id <= u16_max) ids.
(** Before the step a tick only moves ingress time and pressure. *)
Definition fate st : option FatalState * option Z := (hm_fatal (ts_health st), hm_last_tick (ts_health st)).

Lemma take_in_fate env st :
  fate (take_in env st) = fate st /\ rs_ticks (ts_stats (take_in env st)) = rs_ticks (ts_stats st) /\
  rs_dropped_spikes (ts_stats (take_in env st)) = rs_dropped_spikes (ts_stats st) /\
  rs_emit_errors (ts_stats (take_in env st)) = rs_emit_errors (ts_stats st).
Proof.
  unfold take_in, receive. destruct (next_ingress (ts_source st)) as [src [p|e]].
  - unfold gate_backend. destruct (p ≫= backend_non_finite).
    + unfold record_non_finite_rejection. destruct (limiter_record _ _ _) as [l []]; done.
    + unfold observe_and_admit, account_and_admit_backend_packet. destruct p as [p|]; [|done].
      destruct (observes_ingress p), (rejected p), (is_some (batch_id p)); done.
  - destruct (limiter_record _ _ _) as [l []]; done.
Qed.

Lemma drain_fate env st :
  let st' := (drain_tick env st).1 in fate st' = fate st /\ ts_stats st' = ts_stats st.
Proof.
  cbv zeta. unfold drain_tick. destruct (drain_for_tick _) as [i d]. unfold apply_queue_pressure, fate. simpl.
  by destruct (fold_left (pressure_add i) MessageClass_ALL (0, 0)).
Qed.

Lemma note_dropped_spec env n st :
  is_u64 (rs_dropped_spikes (ts_stats st)) -> 0 <= n ->
  let st' := note_dropped env n st in
  fate st' = fate st /\ core st' = core st /\ ts_spike_buf st' = ts_spike_buf st /\
  rs_ticks (ts_stats st') = rs_ticks (ts_stats st) /\
  rs_emit_errors (ts_stats st') = rs_emit_errors (ts_stats st) /\
  rs_dropped_spikes (ts_stats st') = sat_add64 (rs_dropped_spikes (ts_stats st)) n.
Proof.
  intros [_ Hd] Hn. cbv zeta. unfold note_dropped. destruct (Z.ltb_spec 0 n).
  - destruct (limiter_record _ _ _) as [l []]; done.
  - repeat split. unfold sat_add64. lia.
Qed.

(** A batch handed to the sink. *)
Lemma emit_batch_spec env st :
  hm_fatal (ts_health st) = None ->
  let r := emit (ts_spike_buf st) (default 0 (te_system_time env)) (ts_sink st) in
  let st' := emit_batch env st in
  core st' = (ts_stimuli st, ts_network st, r.1) /\ rs_ticks (ts_stats st') = rs_ticks (ts_stats st) /\
  rs_dropped_spikes (ts_stats st') = rs_dropped_spikes (ts_stats st) /\
  match r.2 with
  | Ok _ => ends_well env st' /\ rs_emit_errors (ts_stats st') = rs_emit_errors (ts_stats st)
  | Err e => ends_fatal e st st' /\
             rs_emit_errors (ts_stats st') = sat_add64 (rs_emit_errors (ts_stats st)) 1
  end.
Proof.
  intros Hf. cbv zeta. unfold emit_batch. destruct (emit _ _ _) as [k [u|e]]; simpl.
  - repeat split; [done|]. exists AtDone. simpl. auto 10.
  - destruct (limiter_record _ _ _) as [l out]. unfold ends_fatal, core. simpl.
    unfold enter_fatal. rewrite Hf. by destruct out.
Qed.

(** C23: the rest of a tick.  A non-finite consumed packet leaves the network
    and the sink alone.  Otherwise the network is stepped once on the decoded
    packet: a step error is fatal and nothing is emitted; a step counts one
    tick, the ids beyond [u16] are counted as dropped, and the representable
    ones, in order and stamped with the tick's time, are emitted as one batch -
    unless every id was dropped - an emission error being counted and fatal.
    The tick is recorded as successful exactly when it is not fatal. *)
Theorem tick_outcome_exact env st :
  hm_fatal (ts_health st) = None -> is_u64 (rs_dropped_spikes (ts_stats st)) ->
  let st' := run_tick net_step mods_default env st in
  let p := consumed env st in
  let s := ts_stats st in let s' := ts_stats st' in
  match first_non_finite p with
  | Some _ => ts_network st' = ts_network st /\ ts_sink st' = ts_sink st /\ rs_ticks s' = rs_ticks s /\
              ends_well env st'
  | None =>
    match net_step (ts_network st) (decode_stimuli p (ts_stimuli st)) (decode_modulators mods_default p) with
    | (net, Err e) => ts_network st' = net /\ ts_sink st' = ts_sink st /\ rs_ticks s' = rs_ticks s /\
                      ends_fatal e st st'
    | (net, Ok ids) =>
      let batch := wire_spikes (spike_time env) ids in
      let r := emit batch (default 0 (te_system_time env)) (ts_sink st) in
      ts_network st' = net /\ rs_ticks s' = wadd64 (rs_ticks s) 1 /\
      rs_dropped_spikes s' = sat_add64 (rs_dropped_spikes s) (count (fun id => u16_max <? id) ids) /\
      if bool_decide (batch = []) && negb (bool_decide (ids = []))
      then ts_sink st' = ts_sink st /\ ends_well env st'
      else ts_sink st' = r.1 /\
           match r.2 with
           | Ok _ => ends_well env st' /\ rs_emit_errors s' = rs_emit_errors s
           | Err e => ends_fatal e st st' /\ rs_emit_errors s' = sat_add64 (rs_emit_errors s) 1
           end
    end
  end.
Proof.
  intros Hf Hd. cbv zeta. unfold run_tick, consumed.
  destruct (take_in_fate env st) as (F1 & T1 & D1 & E1). pose proof (take_in_core env st) as C1.
  destruct (drain_fate env (take_in env st)) as [F2 S2]. pose proof (drain_core env (take_in env st)) as C2.
  destruct (drain_tick env (take_in env st)) as [st1 p]. simpl in *.
  rewrite C1 in C2. rewrite F1 in F2. injection C2 as Cs Cn Ck. injection F2 as Ff Ft.
  rewrite <- S2 in T1, D1, E1. clear F1 C1 S2. unfold consume.
  destruct (first_non_finite p).
  { unfold record_non_finite_rejection. destruct (limiter_record _ _ _) as [l out]. simpl.
    rewrite Cn, Ck. unfold ends_well. simpl. rewrite Ff.
    repeat split; [destruct out; apply T1|done|]. exists AtSkippedTick. simpl. auto. }
  simpl. rewrite Cs, Cn. destruct (net_step _ _ _) as [net [ids|e]].
  - unfold publish_spikes. rewrite push_spikes_spec. simpl. fold (wire_spikes (spike_time env) ids).
    set (st2 := with_buffers _ _ _). set (n := 0 + count _ ids).
    assert (0 <= n) as Hn by (pose proof (count_nonneg (fun id => u16_max <? id) ids); unfold n; lia).
    assert (is_u64 (rs_dropped_spikes (ts_stats st2))) as Hd2 by (simpl; by rewrite D1).
    destruct (note_dropped_spec env n st2 Hd2 Hn) as (F3 & C3 & B3 & T3 & E3 & D3).
    set (st3 := note_dropped env n st2) in *. unfold fate, core in F3, C3. simpl in F3, C3, B3, T3, E3, D3.
    injection F3 as Hf3 Ht3. injection C3 as Hs3 Hn3 Hk3. rewrite T1 in T3. rewrite D1 in D3. rewrite E1 in E3.
    destruct (_ && _).
    + unfold ends_well. simpl. rewrite Hn3, Hk3, Hf3, Ff, Ck. repeat split; try done.
      exists AtEmptyBatch. simpl. auto.
    + assert (hm_fatal (ts_health st3) = None) as Hf3' by (rewrite Hf3, Ff; done).
      destruct (emit_batch_spec env st3 Hf3') as (C4 & T4 & D4 & R4). unfold core in C4.
      rewrite B3, Hk3, Ck, Hn3, Hs3 in *. injection C4 as _ -> ->. rewrite T4, D4. repeat split; try done.
      destruct (emit _ _ _) as [k [u|e]]; simpl in *; [by rewrite <- E3|].
      unfold ends_fatal in *. by rewrite <- E3, <- Ft, <- Ht3.
  - unfold ends_fatal. simpl. rewrite Ck, <- Ft. unfold enter_fatal. rewrite Ff, Hf. done.
Qed.

(** C24: the counters a scrape shows are the run's: however many ticks run and
    whichever way each one ends, each of the eight counters of the health machine
    after every published tick equals the run's counter of that name
    ([same_counters]), none ever decreases and none wraps, for as long as the
    three wrapping counters have room for two increments a tick. *)
Theorem counters_published envs st :
  room (2 * len envs) (ts_stats st) -> same_counters (hm_counters (ts_health st)) (ts_stats st) ->
  let st' := drive_ticks net_step mods_default envs st in
  (forall now, same_counters (hs_counters (snapshot (ts_health st') now)) (ts_stats st')) /\
  counterwise Z.le (ts_stats st) (ts_stats st') /\ counterwise (fun n _ => is_u64 n) (ts_stats st') (ts_stats st').
Proof.
  rewrite <- published_same.
  intros Hr Hp st'. enough (published st' /\ counterwise Z.le (ts_stats st) (ts_stats st') /\ room 0 (ts_stats st'))
    as (Hp' & Hle & [Hu _]) by (split; [intros now; by apply published_same|done]).
  unfold st'. clear st'. revert st Hr Hp. induction envs as [|env envs IH]; intros st Hr Hp.
  - split; [done|]. split; [|exact Hr]. unfold counterwise. simpl. lia.
  - rewrite len_cons in Hr. pose proof (len_nonneg envs).
    destruct (published_step net_step mods_default env st (2 * len envs)) as (Hp1 & Hr1 & Hle1); [lia| |done|].
    { by replace (2 * len envs + 2) with (2 * (len envs + 1)) by lia. }
    destruct (IH _ Hr1 Hp1) as (Hp2 & Hle2 & Hr2). split; [done|]. split; [|done].
    by eapply counterwise_trans; [apply _|exact Hle1|].
Qed.
End TickGuarantees.

(** ** The pressure report *)

(** What is queued, in all four classes. *)
Definition queued (i : BoundedIngress) : Z :=
  len (qs_items (queue i Sensory).2) + len (qs_items (queue i Reward).2) +
  len (qs_items (queue i Control).2) + len (qs_items (queue i Telemetry).2).

(** An ingress of the default configuration reports what is queued and, of
    slots, 64, one for the coalescing reward class, 16 and 128. *)
Lemma default_pressure i0 i :
  BoundedIngress_new IngressConfig_default = Ok i0 -> steps ingress_step i0 i ->
  fold_left (pressure_add i) MessageClass_ALL (0, 0) = (queued i, 64 + 1 + 16 + 128) /\ 0 <= queued i <= 209.
Proof.
  intros Hnew Hst. destruct (ingress_steps_ok _ _ _ default_unsigned Hnew Hst) as [_ Hcfg].
  pose proof (fun class => class_depth_bounded _ _ _ class default_unsigned Hnew Hst) as Hd.
  unfold MessageClass_ALL, pressure_add. cbn [fold_left fst snd]. rewrite Hcfg.
  rewrite !(fun class => proj1 (Hd class)).
  pose proof (proj2 (Hd Sensory)) as H1. pose proof (proj2 (Hd Reward)) as H2.
  pose proof (proj2 (Hd Control)) as H3. pose proof (proj2 (Hd Telemetry)) as H4.
  unfold class_slots in *. simpl in H1, H2, H3, H4. unfold queued.
  set (a := len _) in *. set (b := len (qs_items (queue i Reward).2)) in *.
  set (c := len (qs_items (queue i Control).2)) in *. set (d := len (qs_items (queue i Telemetry).2)) in *.
  pose proof (len_nonneg (qs_items (queue i Sensory).2)). pose proof (len_nonneg (qs_items (queue i Reward).2)).
  pose proof (len_nonneg (qs_items (queue i Control).2)). pose proof (len_nonneg (qs_items (queue i Telemetry).2)).
  split; [|lia].
  repeat match goal with
  | |- context [wadd64 ?x ?y] =>
    lazymatch x with
    | context [wadd64] => fail
    | _ => rewrite (wadd64_small x y) by (unfold u64_max; lia)
    end
  end.
  f_equal; lia.
Qed.

(** C37: overload has the hysteresis the limits describe, exactly.  For an ingress
    built from the default configuration, after any operations on it, and a
    health machine with the default watermarks, after any events: the pressure
    report of a tick shows as depth what is queued in the four classes and as
    capacity 64 + 1 + 16 + 128 slots (the coalescing reward class counts as the
    one packet it can hold, whatever its configured capacity); and the double
    precision test enters overload at 189 queued packets or more and leaves it
    at 146 or fewer.  A zero capacity never overloads. *)
Theorem health_overload_hysteresis i0 i es now :
  BoundedIngress_new IngressConfig_default = Ok i0 -> steps ingress_step i0 i ->
  let m := run_from HealthLimits_default es in
  let shown := hs_queue_pressure (snapshot (apply_queue_pressure i now m) now) in
  qp_depth shown = queued i /\ qp_capacity shown = 64 + 1 + 16 + 128 /\
  qp_overloaded shown = (if hm_overloaded m then 147 <=? queued i else 189 <=? queued i) /\
  forall depth, shown_overload m depth 0 now = false.
Proof.
  intros Hnew Hst. cbv zeta. unfold apply_queue_pressure.
  destruct (default_pressure i0 i Hnew Hst) as [-> Hq]. split; [done|]. split; [done|].
  destruct (shown_overload_default es (queued i) now Hq) as [H _]. split; [exact H|].
  intros depth. by apply (shown_overload_default es 0 now).
Qed.

(** ** Witnesses *)

Definition demo_env : TickEnv := MkEnv (fun _ => 5) (Some 7000000) (fun i => i).

(** A network that remembers its inputs and spikes on channels 3 and 70000. *)
Definition demo_step (net : list (list f32)) (stim : list f32) (_ : NeuroModulators) :
    list (list f32) * result string (list Z) :=
  (net ++ [stim], Ok [3; 70000]).

(** The same, failing on what [demo_step] never sees. *)
Definition demo_step_strict (net : list (list f32)) (stim : list f32) (m : NeuroModulators) :
    list (list f32) * result string (list Z) :=
  if all_finite stim then demo_step net stim m else (net, Err "non-finite"%string).

Definition demo_mods : NeuroModulators := MkModulators f_zero f_zero f_zero f_zero.

Definition demo_tick : TickState StubStimulusSource (list (list f32)) CollectingSpikeSink :=
  MkTick _ _ _ StubSource [] CollectingSpikeSink_new (replicate 2 f_zero) []
    (try_enqueue demo_ingress Sensory
       (MkPacket [SpecFloat.S754_nan] None None None None None false)).1
    (handle_started HealthLimits_default 0) RuntimeStats_default TickDiagnostics_default.

Lemma ticks_step_only_finite_witness :
  drive_ticks demo_step demo_mods [demo_env; demo_env] demo_tick =
  drive_ticks demo_step_strict demo_mods [demo_env; demo_env] demo_tick.
Proof.
  apply (ticks_step_only_finite demo_step demo_mods demo_step_strict [demo_env; demo_env] demo_tick).
  - intros net stim m _ Hs _. unfold demo_step_strict. rewrite Hs. reflexivity.
  - reflexivity.
Defined.

Lemma tick_admission_exact_witness :
  rs_rejected_batches (ts_stats (take_in demo_env demo_tick)) = 0.
Proof.
  assert (diag_room (ts_stats demo_tick)) as Hr by (split; reflexivity).
  exact (proj1 (proj2 (tick_admission_exact demo_env demo_tick Hr))).
Defined.

Lemma tick_outcome_exact_witness :
  ts_network (run_tick demo_step demo_mods demo_env demo_tick) = [].
Proof.
  assert (is_u64 (rs_dropped_spikes (ts_stats demo_tick))) as Hd by (split; vm_compute; discriminate).
  exact (proj1 (tick_outcome_exact demo_step demo_mods demo_env demo_tick eq_refl Hd)).
Defined.

Lemma counters_published_witness :
  rc_ticks (hs_counters (snapshot
    (ts_health (drive_ticks demo_step demo_mods [demo_env; demo_env] demo_tick)) 9)) = 1.
Proof.
  assert (room (2 * len [demo_env; demo_env]) (ts_stats demo_tick)) as Hr
    by (unfold room, counterwise, is_u64; vm_compute; repeat split; discriminate).
  assert (same_counters (hm_counters (ts_health demo_tick)) (ts_stats demo_tick)) as Hp by (by repeat split).
  destruct (proj1 (counters_published demo_step demo_mods [demo_env; demo_env] demo_tick Hr Hp) 9) as [-> _].
  vm_compute. reflexivity.
Defined.

Lemma health_overload_hysteresis_witness :
  qp_capacity (hs_queue_pressure (snapshot (apply_queue_pressure
    (try_enqueue demo_ingress Reward demo_stimulus).1 7 (run_from HealthLimits_default demo_boot)) 7)) = 209.
Proof.
  apply (health_overload_hysteresis demo_ingress (try_enqueue demo_ingress Reward demo_stimulus).1 demo_boot 7
    demo_ingress_new). apply steps_one, is_try_enqueue.
Defined.
