(* ===== verification/Daemon.v ===== *)
(** * The daemon: construction, boot, runs and shutdown (src/daemon.rs)

    A daemon owns its configuration, registry, backend pair, ingress and health
    machine.  [World] is the part of it that outlives a run's local state: what
    the backend's methods, the ingress handles and the health handle still see.
    The network is neuromod's, restored by Checkpoint.v's [restore_network] with
    the same arguments; binding the control listener's socket is an argument,
    and the [select!] loop takes the order in which its three branches became
    ready as a list of events. *)

From stdpp Require Import pretty.
From S2P Require Import Prelude Floats Packet NetAddr Queue QueueConc Ingress Health Config.
From S2P Require Import Backend Checkpoint Diagnostics Tick.
Local Open Scope Z_scope.

(** ** Errors *)

Inductive DaemonError :=
| ConfigRejected (e : ConfigError)
| IngressRejected (e : IngressConfigError)
| SourceInit (e : string)
| RestoreFailed (e : CheckpointError)
| LiveSchema (schema : string)
| SimulationSchema (schema : string)
| DimensionMismatch (lif izh chans : Z) (c_lif c_izh c_chans : Z)
| FlushFailed (e : string)
| SourceShutdownFailed (e : string)
| ControlAddress (bind : string)
| ControlListen (e : string).

(** [err.to_string()]: the outermost context, for the errors of the restore. *)
Definition restore_error_to_string (e : DaemonError) : string :=
  match e with
  | LiveSchema schema =>
    "live mode requires a validated Spikenaut checkpoint (schema " +:+ SCHEMA_ID +:+ "), got " +:+ schema
  | SimulationSchema schema =>
    "simulation mode requires schema " +:+ SIMULATION_SCHEMA_ID +:+ ", got " +:+ schema
  | DimensionMismatch a b c a' b' c' =>
    "restored network dimensions (" +:+ pretty a +:+ "/" +:+ pretty b +:+ "/" +:+ pretty c
    +:+ ") do not match config lif_count/izh_count/channels (" +:+ pretty a' +:+ "/" +:+ pretty b'
    +:+ "/" +:+ pretty c' +:+ ")"
  | _ => "failed to restore runtime network before entering the tick loop"
  end.

(** ** Construction *)

Record BrainstemDaemon {S K : Type} := MkDaemon {
  bd_config : DaemonConfig;
  bd_registry : ServiceRegistry;
  bd_source : S;
  bd_sink : K;
  bd_ingress : BoundedIngress;
  bd_health : HealthMachine;
}.
Arguments BrainstemDaemon : clear implicits.

(** [std::mem::take(&mut config.services)]. *)
Definition take_services (c : DaemonConfig) : DaemonConfig * list ServiceConfig :=
  ({| tick_rate_hz := tick_rate_hz c; log_level := log_level c; spine_sub_port := spine_sub_port c;
      spine_pub_port := spine_pub_port c; spine_pub_bind_host := spine_pub_bind_host c;
      spine_pub_sndhwm := spine_pub_sndhwm c; spine_pub_linger_ms := spine_pub_linger_ms c;
      spine_pub_send_empty_batches := spine_pub_send_empty_batches c; model_path := model_path c;
      lif_count := lif_count c; izh_count := izh_count c; channels := channels c;
      runtime_mode := runtime_mode c; services := []; ingress := ingress c;
      control_bind := control_bind c |},
   services c).

Definition try_with_backend {S K} (c : DaemonConfig) (source : S) (sink : K) (now : Z) :
    result DaemonError (BrainstemDaemon S K) :=
  map_err ConfigRejected (daemon_validate c) ≫= fun _ =>
  map_err IngressRejected (BoundedIngress_new (ingress c)) ≫= fun i =>
  let '(c, services) := take_services c in
  Ok {| bd_config := c;
        bd_registry := from_configs services;
        bd_source := source;
        bd_sink := sink;
        bd_ingress := i;
        bd_health := handle_started HealthLimits_default now |}.

(** The backend of a daemon built without one, whatever the features. *)
Definition init_runtime_default : BackendPair StubStimulusSource NoopSpikeSink := stub.

Definition try_new (c : DaemonConfig) (now : Z) :
    result DaemonError (BrainstemDaemon StubStimulusSource NoopSpikeSink) :=
  try_with_backend c (pair_source init_runtime_default) (pair_sink init_runtime_default) now.

(** The constructors that panic on a configuration [try_with_backend] refuses. *)
Definition with_backend {S K} (c : DaemonConfig) (backend : BackendPair S K) (now : Z) :
    option (BrainstemDaemon S K) :=
  match try_with_backend c (pair_source backend) (pair_sink backend) now with
  | Ok d => Some d
  | Err _ => None
  end.

Definition BrainstemDaemon_new (c : DaemonConfig) (now : Z) :
    option (BrainstemDaemon StubStimulusSource NoopSpikeSink) :=
  with_backend c init_runtime_default now.

Definition health_snapshot {S K} (d : BrainstemDaemon S K) (now : Z) : HealthSnapshot := snapshot (bd_health d) now.

(** ** Termination signals *)

Inductive Signal := SIGINT | SIGTERM.

(** Whether a signal ends the wait, by how installing the [SIGTERM] handler went. *)
Definition awaited (sigterm : result string unit) (s : Signal) : bool :=
  match s with SIGINT => true | SIGTERM => is_ok sigterm end.

(** The signals left once the wait is over; [None] while it is not. *)
Fixpoint shutdown_signal (sigterm : result string unit) (signals : list Signal) : option (list Signal) :=
  match signals with
  | [] => None
  | s :: rest => if awaited sigterm s then Some rest else shutdown_signal sigterm rest
  end.

(** The first awaited signal ends the wait: any signal when the handler is in,
    an interrupt when it is not. *)
Lemma shutdown_signal_first sigterm before s rest :
  Forall (fun s => awaited sigterm s = false) before -> awaited sigterm s = true ->
  shutdown_signal sigterm (before ++ s :: rest) = Some rest.
Proof. intros Hb Hs. induction Hb as [|b before Hb _ IH]; simpl; by rewrite ?Hs, ?Hb. Qed.

(** ** Restored networks *)

Definition checkpoint_identity (p : ModelProvenance) : CheckpointIdentity := {|
  ci_id := mp_model_id p;
  ci_digest := if bool_decide (mp_content_sha256 p = "none"%string) then None
               else Some (mp_content_sha256 p);
|}.

Section Daemon.
Context {LifRest NetRest StdpRest : Type}.
Abbreviation Network := (@SpikingNetwork LifRest NetRest StdpRest).
Context {S K : Type} `{StimulusSource S} `{SpikeSink K}.
Variable fs : Fs.
Variable parse_document : string -> result unit SidecarDocument.
Variable parse_hub : string -> result unit HubConfig.
Variable sha256 : list Z -> list Z.
Variable with_dimensions : Z -> Z -> Z -> Network.
Variable set_rm_stdp_config : @RmStdpConfig StdpRest -> Network -> Network.
Variable components : string -> path.
Variable display : path -> string.
Variable net_step : Network -> list f32 -> NeuroModulators -> Network * result string (list Z).
Variable mods_default : NeuroModulators.
Variable tcp_bind : SocketAddr -> result string unit.

Definition restore (c : DaemonConfig) : result CheckpointError (Network * ModelProvenance) :=
  restore_network fs parse_document parse_hub sha256 with_dimensions set_rm_stdp_config
    components display c.

Definition validate_restored_pair (c : DaemonConfig) (net : Network) (p : ModelProvenance) :
    result DaemonError unit :=
  match runtime_mode c with
  | Live => require (bool_decide (mp_schema_id p = SCHEMA_ID)) (LiveSchema (mp_schema_id p))
  | Simulation =>
    require (bool_decide (mp_schema_id p = SIMULATION_SCHEMA_ID)) (SimulationSchema (mp_schema_id p))
  end ≫= fun _ =>
  require (negb (negb (len (sn_neurons net) =? lif_count c) ||
                 negb (sn_iz_neurons net =? izh_count c) ||
                 negb (sn_num_channels net =? channels c)))
    (DimensionMismatch (len (sn_neurons net)) (sn_iz_neurons net) (sn_num_channels net)
       (lif_count c) (izh_count c) (channels c)).

Definition take_restored_network (c : DaemonConfig) (restored : option (Network * ModelProvenance)) :
    result DaemonError (Network * ModelProvenance) :=
  match restored with
  | Some given => Ok given
  | None => map_err RestoreFailed (restore c)
  end ≫= fun '(net, p) =>
  validate_restored_pair c net p ≫= fun _ => Ok (net, p).

(** ** Boot *)

Definition initialize_source (c : DaemonConfig) (now : Z) :
    stateful (S * HealthMachine) DaemonError unit := fun '(source, health) =>
  match initialize (Some (model_path c)) source with
  | (source, Err e) => ((source, health_apply (InitializationFailed e) now health), Err (SourceInit e))
  | (source, Ok _) => ((source, health_apply InitializationCompleted now health), Ok tt)
  end.

(** [init_at] and [check_at] are the instants of the two health events. *)
Definition boot_network (c : DaemonConfig) (init_at check_at : Z)
    (restored : option (Network * ModelProvenance)) :
    stateful (S * HealthMachine) DaemonError (Network * ModelProvenance) :=
  fun world =>
  match initialize_source c init_at world with
  | (world, Err e) => (world, Err e)
  | ((source, health), Ok _) =>
    match take_restored_network c restored with
    | Err e =>
      ((source, health_apply (CheckpointRejected (restore_error_to_string e)) check_at health), Err e)
    | Ok (net, p) =>
      ((source, health_apply (CheckpointValidated (checkpoint_identity p)) check_at health), Ok (net, p))
    end
  end.

(** ** What outlives a run *)

Record World := MkWorld {
  w_source : S;
  w_sink : K;
  w_ingress : BoundedIngress;
  w_health : HealthMachine;
}.

(** [shutdown_backend]: both hooks always run; their errors are logged. *)
Definition shutdown_backend (source : S) (sink : K) : S * K :=
  let sink := (flush sink).1 in
  let source := (source_shutdown source).1 in
  (source, sink).

Definition abort_startup (i : BoundedIngress) (source : S) (sink : K) (health : HealthMachine) : World :=
  let i := ingress_shutdown i in
  let '(source, sink) := shutdown_backend source sink in
  MkWorld source sink i health.

Definition finish_bounded_run (source : S) (sink : K) (i : BoundedIngress) :
    S * K * BoundedIngress * result DaemonError unit :=
  let '(sink, flushed) := flush sink in
  let '(source, stopped) := source_shutdown source in
  let i := ingress_shutdown i in
  (source, sink, i,
   match flushed, stopped with
   | Err e, _ => Err (FlushFailed e)
   | Ok _, Err e => Err (SourceShutdownFailed e)
   | Ok _, Ok _ => Ok tt
   end).

(** The local state both runs start their ticks from. *)
Definition first_tick (c : DaemonConfig) (source : S) (sink : K) (net : Network) (i : BoundedIngress)
    (health : HealthMachine) (stats : RuntimeStats) : TickState S Network K :=
  MkTick S Network K source net sink (replicate (Z.to_nat (channels c)) f_zero) [] i health stats
    TickDiagnostics_default.

(** ** The bounded run *)

Definition run_for_ticks (d : BrainstemDaemon S K) (init_at check_at : Z) (envs : list TickEnv) :
    World * result DaemonError RuntimeStats :=
  let c := bd_config d in
  match boot_network c init_at check_at None (bd_source d, bd_health d) with
  | ((source, health), Err e) =>
    let i := ingress_shutdown (bd_ingress d) in
    let '(source, sink) := shutdown_backend source (bd_sink d) in
    (MkWorld source sink i health, Err e)
  | ((source, health), Ok (net, p)) =>
    let st := drive_ticks net_step mods_default envs
      (first_tick c source (bd_sink d) net (bd_ingress d) health (set_loaded (Some p) RuntimeStats_default)) in
    let '(source, sink, i, r) := finish_bounded_run (ts_source st) (ts_sink st) (ts_ingress st) in
    (MkWorld source sink i (ts_health st), r ≫= fun _ => Ok (ts_stats st))
  end.

(** ** The run until a signal *)

Definition tick_duration (c : DaemonConfig) : Z := 1000000000 / tick_rate_hz c.

(** [start_control] and [bind_control]: whether a control task was spawned. *)
Definition start_control (bind : option string) : result DaemonError bool :=
  match bind with
  | None => Ok false
  | Some bind =>
    ok_or (parse_socket_addr bind) (ControlAddress bind) ≫= fun addr =>
    map_err ControlListen (tcp_bind addr) ≫= fun _ => Ok true
  end.

(** The branches of the [select!]; the shutdown branch reads the clock for
    [BeginDrain]. *)
Inductive LoopEvent :=
| LoopTick (env : TickEnv)
| LoopHeartbeat
| LoopShutdown (now : Z).

(** [None] while no shutdown has come. *)
Fixpoint event_loop (events : list LoopEvent) (st : TickState S Network K) :
    option (TickState S Network K) :=
  match events with
  | [] => None
  | LoopTick env :: events' => event_loop events' (run_tick_published net_step mods_default env st)
  | LoopHeartbeat :: events' => event_loop events' st
  | LoopShutdown now :: _ =>
    let st := report BeginDrain now st in
    Some (with_ingress (ingress_shutdown (ts_ingress st)) st)
  end.

Definition run_loop (d : BrainstemDaemon S K) (restored : option (Network * ModelProvenance))
    (init_at check_at : Z) (events : list LoopEvent) : option (World * result DaemonError unit) :=
  let c := bd_config d in
  match start_control (control_bind c) with
  | Err e => Some (abort_startup (bd_ingress d) (bd_source d) (bd_sink d) (bd_health d), Err e)
  | Ok _ =>
    match boot_network c init_at check_at restored (bd_source d, bd_health d) with
    | ((source, health), Err e) => Some (abort_startup (bd_ingress d) source (bd_sink d) health, Err e)
    | ((source, health), Ok (net, p)) =>
      match event_loop events
              (first_tick c source (bd_sink d) net (bd_ingress d) health RuntimeStats_default) with
      | None => None
      | Some st =>
        let '(source, sink) := shutdown_backend (ts_source st) (ts_sink st) in
        Some (MkWorld source sink (ts_ingress st) (ts_health st), Ok tt)
      end
    end
  end.
(** Restores from the configuration. *)
Definition run (d : BrainstemDaemon S K) (init_at check_at : Z) (events : list LoopEvent) :
    option (World * result DaemonError unit) :=
  run_loop d None init_at check_at events.

(** The caller restored, before its sockets opened. *)
Definition run_with_restored_network (d : BrainstemDaemon S K) (network : Network) (provenance : ModelProvenance)
    (init_at check_at : Z) (events : list LoopEvent) : option (World * result DaemonError unit) :=
  run_loop d (Some (network, provenance)) init_at check_at events.
End Daemon.

(** ** Readiness and boot *)

Lemma ready_lifecycle m : health_ok m -> is_ready m = bool_decide (lifecycle_of m = Some 3%nat).
Proof.
  intros [H1 H2 _ _]. unfold is_ready, is_initialized, is_serving, lifecycle_of.
  destruct (hm_fatal m), (hm_draining m), (hm_started m), (hm_initialized m), (hm_checkpoint_ok m);
    simpl; try done; (by destruct H2) || (by discriminate H1).
Qed.

Lemma handle_started_ok limits now :
  health_ok (handle_started limits now) /\ lifecycle_of (handle_started limits now) = Some 1%nat.
Proof.
  pose proof (health_new_ok limits) as H. split; [by apply health_apply_ok|].
  unfold handle_started. by rewrite lifecycle_step.
Qed.

(** ** A run's counters do not look at the loaded checkpoint *)

Section Loaded.
Context {S N K : Type} `{StimulusSource S} `{SpikeSink K}.
Variable net_step : N -> list f32 -> NeuroModulators -> N * result string (list Z).
Variable mods_default : NeuroModulators.
Implicit Types (st : TickState S N K) (env : TickEnv).

Definition with_loaded (p : option ModelProvenance) st : TickState S N K :=
  with_stats (set_loaded p (ts_stats st)) (ts_diagnostics st) st.

Lemma note_loaded p out s : note_diagnostic out (set_loaded p s) = set_loaded p (note_diagnostic out s).
Proof. by destruct out. Qed.

Lemma rejection_loaded p now s d :
  record_non_finite_rejection now (set_loaded p s) d =
  (set_loaded p (record_non_finite_rejection now s d).1, (record_non_finite_rejection now s d).2).
Proof. unfold record_non_finite_rejection. by destruct (limiter_record _ _ _) as [l []]. Qed.

Lemma take_in_loaded p env st : take_in env (with_loaded p st) = with_loaded p (take_in env st).
Proof.
  unfold take_in, receive. simpl. destruct (next_ingress (ts_source st)) as [src [q|e]].
  - unfold gate_backend. destruct (q ≫= backend_non_finite).
    + simpl. rewrite rejection_loaded. by destruct (record_non_finite_rejection _ _ _).
    + unfold observe_and_admit, account_and_admit_backend_packet. destruct q as [q|]; [|done].
      destruct (observes_ingress q), (rejected q), (is_some (batch_id q)); done.
  - by destruct (limiter_record _ _ _) as [l []].
Qed.

Lemma drain_loaded p env st :
  drain_tick env (with_loaded p st) = (with_loaded p (drain_tick env st).1, (drain_tick env st).2).
Proof. unfold drain_tick. simpl. by destruct (drain_for_tick _). Qed.

Lemma publish_loaded p env ids st :
  publish_spikes env ids (with_loaded p st) = with_loaded p (publish_spikes env ids st).
Proof.
  unfold publish_spikes. destruct (push_spikes _ _ _ _) as [buf dropped].
  set (st1 := with_buffers _ _ (with_stats (bump_ticks (ts_stats st)) _ _)).
  change (with_buffers _ _ _) with (with_loaded p st1).
  assert (note_dropped env dropped (with_loaded p st1) = with_loaded p (note_dropped env dropped st1)) as ->.
  { unfold note_dropped. destruct (0 <? dropped); [|done]. simpl. by destruct (limiter_record _ _ _) as [l []]. }
  generalize (note_dropped env dropped st1). intros st2. destruct (_ && _); [done|].
  unfold emit_batch. simpl. destruct (emit _ _ _) as [k [u|e]]; [done|]. by destruct (limiter_record _ _ _) as [l []].
Qed.

Lemma consume_loaded p env q st :
  consume net_step mods_default env q (with_loaded p st) =
  with_loaded p (consume net_step mods_default env q st).
Proof.
  unfold consume. destruct (first_non_finite q).
  - simpl. rewrite rejection_loaded. by destruct (record_non_finite_rejection _ _ _).
  - simpl. destruct (net_step _ _ _) as [net [ids|e]]; [|done]. by rewrite <- publish_loaded.
Qed.

Lemma drive_loaded p envs st :
  drive_ticks net_step mods_default envs (with_loaded p st) =
  with_loaded p (drive_ticks net_step mods_default envs st).
Proof.
  revert st. induction envs as [|env envs IH]; intros st; [done|]. unfold drive_ticks in *. simpl.
  rewrite <- IH. f_equal. unfold run_tick_published, run_tick.
  rewrite take_in_loaded, drain_loaded. destruct (drain_tick env (take_in env st)) as [st1 q]. simpl.
  by rewrite consume_loaded.
Qed.

(** A tick calls the source once and the sink at most once. *)
Lemma tick_backend env st :
  let st' := run_tick_published net_step mods_default env st in
  ts_source st' = (next_ingress (ts_source st)).1 /\
  (ts_sink st' = ts_sink st \/
   exists batch t, ts_sink st' = (emit batch t (ts_sink st)).1).
Proof.
  cbv zeta. unfold run_tick_published, run_tick.
  assert (ts_source (take_in env st) = (next_ingress (ts_source st)).1) as Hs.
  { unfold take_in, receive. destruct (next_ingress (ts_source st)) as [src [q|e]].
    - unfold gate_backend. destruct (q ≫= backend_non_finite); [by destruct (record_non_finite_rejection _ _ _)|].
      unfold observe_and_admit. destruct q as [q|]; [|done].
      destruct (observes_ingress q); by destruct (account_and_admit_backend_packet _ _ _).
    - by destruct (limiter_record _ _ _). }
  pose proof (take_in_core env st) as [= _ _ Hk].
  unfold drain_tick. destruct (drain_for_tick _) as [i d]. simpl. unfold consume.
  destruct (first_non_finite (into_packet d)).
  { destruct (record_non_finite_rejection _ _ _). simpl. rewrite Hs, Hk. auto. }
  simpl. destruct (net_step _ _ _) as [net [ids|e]]; [|simpl; rewrite Hs, Hk; auto].
  unfold publish_spikes. destruct (push_spikes _ _ _ _) as [buf dropped].
  set (st1 := with_buffers _ buf _).
  assert (ts_source (note_dropped env dropped st1) = ts_source st1 /\
          ts_sink (note_dropped env dropped st1) = ts_sink st1) as [Ds Dk].
  { unfold note_dropped. destruct (0 <? dropped); [|done]. by destruct (limiter_record _ _ _). }
  destruct (_ && _); [simpl; rewrite Ds, Dk; simpl; rewrite Hs, Hk; auto|].
  unfold emit_batch. rewrite Dk. simpl. rewrite Hk.
  destruct (emit _ _ (ts_sink st)) as [k [u|e]] eqn:He.
  - simpl. rewrite Ds. simpl. rewrite Hs. split; [done|]. right. eexists _, _. by rewrite He.
  - destruct (limiter_record _ _ _). simpl. rewrite Ds. simpl. rewrite Hs. split; [done|]. right.
    eexists _, _. by rewrite He.
Qed.
End Loaded.

(** ** Traced backends

    Any backend with the sequence of method calls made on it. *)
Inductive BackendCall := CallInitialize | CallNext | CallShutdown | CallEmit | CallFlush.

#[export] Instance BackendCall_eq_dec : EqDecision BackendCall.
Proof. solve_decision. Defined.

Definition traced (A : Type) : Type := A * list BackendCall.

Definition trace_call {A E B} (call : BackendCall) (m : stateful A E B) : stateful (traced A) E B :=
  fun '(a, calls) => let '(a', r) := m a in ((a', calls ++ [call]), r).

#[export] Instance traced_source {S} `{StimulusSource S} : StimulusSource (traced S) := {
  next_ingress := trace_call CallNext next_ingress;
  initialize := fun path => trace_call CallInitialize (initialize path);
  source_shutdown := trace_call CallShutdown source_shutdown;
}.

#[export] Instance traced_sink {K} `{SpikeSink K} : SpikeSink (traced K) := {
  emit := fun spikes t => trace_call CallEmit (emit spikes t);
  flush := trace_call CallFlush flush;
}.

Lemma trace_call_snd {A E B} call (m : stateful A E B) x : (trace_call call m x).1.2 = x.2 ++ [call].
Proof. destruct x as [a calls]. simpl. by destruct (m a). Qed.

Section Protocol.
Context {S N K : Type} `{StimulusSource S} `{SpikeSink K}.
Variable net_step : N -> list f32 -> NeuroModulators -> N * result string (list Z).
Variable mods_default : NeuroModulators.

Lemma drive_trace envs (st : TickState (traced S) N (traced K)) :
  let st' := drive_ticks net_step mods_default envs st in
  (ts_source st').2 = (ts_source st).2 ++ replicate (length envs) CallNext /\
  exists n, (n <= length envs)%nat /\ (ts_sink st').2 = (ts_sink st).2 ++ replicate n CallEmit.
Proof.
  cbv zeta. revert st. induction envs as [|env envs IH]; intros st.
  - simpl. rewrite app_nil_r. split; [done|]. exists 0%nat. simpl. by rewrite app_nil_r.
  - unfold drive_ticks in *. simpl.
    destruct (tick_backend net_step mods_default env st) as [Hs Hk].
    set (st1 := run_tick_published net_step mods_default env st) in *.
    destruct (IH st1) as [I1 (n & Hn & I2)]. rewrite I1, I2, Hs. split.
    + simpl. rewrite (trace_call_snd CallNext), <- app_assoc. done.
    + destruct Hk as [->|(batch & t & ->)].
      * exists n. split; [lia|done].
      * exists (Datatypes.S n). split; [lia|]. simpl. by rewrite (trace_call_snd CallEmit), <- app_assoc.
Qed.
End Protocol.

(** The environments of the ticks among some events. *)
Definition ticks_of (events : list LoopEvent) : list TickEnv :=
  omap (fun e => match e with LoopTick env => Some env | _ => None end) events.

(** ** The guarantees of the daemon *)

Section DaemonGuarantees.
Context {LifRest NetRest StdpRest : Type}.
Abbreviation Network := (@SpikingNetwork LifRest NetRest StdpRest).
Context {S K : Type} `{StimulusSource S} `{SpikeSink K}.
Variable fs : Fs.
Variable parse_document : string -> result unit SidecarDocument.
Variable parse_hub : string -> result unit HubConfig.
Variable sha256 : list Z -> list Z.
Variable with_dimensions : Z -> Z -> Z -> Network.
Variable set_rm_stdp_config : @RmStdpConfig StdpRest -> Network -> Network.
Variable components : string -> path.
Variable display : path -> string.
Variable net_step : Network -> list f32 -> NeuroModulators -> Network * result string (list Z).
Variable mods_default : NeuroModulators.
Variable tcp_bind : SocketAddr -> result string unit.

Abbreviation boot := (boot_network fs parse_document parse_hub sha256 with_dimensions
  set_rm_stdp_config components display).
Abbreviation bounded_run := (run_for_ticks fs parse_document parse_hub sha256
  with_dimensions set_rm_stdp_config components display net_step mods_default).
Abbreviation live_run := (run_loop fs parse_document parse_hub sha256
  with_dimensions set_rm_stdp_config components display net_step mods_default tcp_bind).

Lemma validate_pair_ok c (net : Network) p :
  validate_restored_pair c net p = Ok tt ->
  mp_schema_id p = match runtime_mode c with Live => SCHEMA_ID | Simulation => SIMULATION_SCHEMA_ID end /\
  len (sn_neurons net) = lif_count c /\ sn_iz_neurons net = izh_count c /\
  sn_num_channels net = channels c.
Proof.
  unfold validate_restored_pair. intros ([] & Hs & Hd)%result_bind_ok.
  apply require_ok in Hd. bool_to_prop. split; [|done].
  destruct (runtime_mode c); apply require_ok in Hs; by bool_to_prop.
Qed.

(** C17: boot is all or nothing.  Whatever the source, the disk and the restored
    pair handed in, a boot that succeeds leaves a daemon that is ready, shows
    the identity of exactly the network it returns, and has checked that
    network's dimensions and schema against the configured mode; one that fails
    leaves it fatal and never ready, with the code of the step that failed. *)
Theorem boot_all_or_nothing c limits started_at init_at check_at restored (source : S) now :
  match boot c init_at check_at restored (source, handle_started limits started_at) with
  | ((_, health), Ok (net, p)) =>
    hs_ready (snapshot health now) = true /\
    hs_checkpoint (snapshot health now) = Some (checkpoint_identity p) /\
    mp_schema_id p = match runtime_mode c with Live => SCHEMA_ID | Simulation => SIMULATION_SCHEMA_ID end /\
    len (sn_neurons net) = lif_count c /\ sn_iz_neurons net = izh_count c /\
    sn_num_channels net = channels c
  | ((_, health), Err e) =>
    hs_ready (snapshot health now) = false /\ hs_phase (snapshot health now) = PhFatal /\
    exists detail, hs_fatal (snapshot health now) =
      Some (MkFatalState (match e with SourceInit _ => InitializationFailedCode
                          | _ => CheckpointInvalidCode end) detail)
  end.
Proof.
  destruct (handle_started_ok limits started_at) as [Hok Hl].
  assert (hm_fatal (handle_started limits started_at) = None /\
          hm_started (handle_started limits started_at) = true /\
          hm_draining (handle_started limits started_at) = false) as (Hf & Hst & Hdr) by done.
  set (h := handle_started limits started_at) in *.
  unfold boot_network, initialize_source. destruct (initialize _ source) as [src [u|e]].
  - assert (lifecycle_of (health_apply InitializationCompleted init_at h) = Some 2%nat) as Hl1
      by (rewrite lifecycle_step, Hl; done).
    assert (hm_fatal (health_apply InitializationCompleted init_at h) = None /\
            hm_started (health_apply InitializationCompleted init_at h) = true) as [Hf1 Hst1] by done.
    pose proof (health_apply_ok InitializationCompleted init_at h Hok) as Hok1.
    set (h1 := health_apply InitializationCompleted init_at h) in *.
    destruct (take_restored_network _ _ _ _ _ _ _ _ c restored) as [[net p]|e] eqn:Hr.
    + assert (lifecycle_of (health_apply (CheckpointValidated (checkpoint_identity p)) check_at h1) = Some 3%nat)
        as Hl2 by (rewrite lifecycle_step, Hl1; done).
      split; [cbn [snapshot hs_ready]; rewrite ready_lifecycle by (by apply health_apply_ok); by rewrite Hl2|].
      split.
      { cbn [snapshot hs_checkpoint]. unfold h1, h. done. }
      unfold take_restored_network in Hr. apply result_bind_ok in Hr as ([net' p'] & _ & Hr).
      apply result_bind_ok in Hr as ([] & Hv & [= -> ->]). by apply validate_pair_ok.
    + unfold take_restored_network in Hr. cbn [snapshot hs_ready hs_phase hs_fatal].
      assert (health_apply (CheckpointRejected (restore_error_to_string e)) check_at h1 =
              set_flags true false (hm_draining h1)
                (Some (MkFatalState CheckpointInvalidCode (restore_error_to_string e))) h1) as -> by done.
      split; [done|]. split; [done|]. exists (restore_error_to_string e).
      destruct e; try done. apply result_bind_err in Hr as [Hr|([net p] & _ & Hr)].
      * destruct restored; [done|]. by destruct (restore _ _ _ _ _ _ _ _ c).
      * apply result_bind_err in Hr as [Hr|([] & _ & Hr)]; [|done].
        unfold validate_restored_pair in Hr. apply result_bind_err in Hr as [Hr|([] & _ & Hr)].
        -- destruct (runtime_mode c); unfold require in Hr; by case_bool_decide.
        -- unfold require in Hr. by destruct (negb _).
  - split; [done|]. split; [done|]. exists e. done.
Qed.
(** The live loop's ticks are the bounded run's. *)
Lemma event_loop_ticks pre now rest (st : TickState S Network K) :
  Forall (fun e => forall t, e <> LoopShutdown t) pre ->
  event_loop net_step mods_default (pre ++ LoopShutdown now :: rest) st =
  let st' := report BeginDrain now (drive_ticks net_step mods_default (ticks_of pre) st) in
  Some (with_ingress (ingress_shutdown (ts_ingress st')) st').
Proof.
  intros Hpre. revert st. induction Hpre as [|e pre He _ IH]; intros st; [done|].
  destruct e as [env| |t]; simpl; [apply IH|apply IH|by destruct (He t)].
Qed.

Lemma begin_drain_not_ready m at_ now : hs_ready (snapshot (health_apply BeginDrain at_ m) now) = false.
Proof.
  cbn [snapshot hs_ready]. unfold is_ready, is_serving. simpl.
  destruct (hm_fatal m) eqn:Hf; simpl; rewrite ?Hf; simpl; by rewrite ?andb_false_r.
Qed.

(** C16: the bounded run is the live loop.  Once its control surface is up, a
    live run given any interleaving of ticks and heartbeats and then a signal
    ends - whatever comes after the signal - with the source, the sink and the
    closed ingress of the bounded run over the same ticks.  When the boot fails,
    both return its error and leave the same health.  When it succeeds, the live
    run's health differs by the drain alone, and is not ready afterwards, and
    the two results differ in what they report of the shutdown: the live run,
    which only logs a failed flush or a failed source shutdown, returns [Ok]; the
    bounded run returns the counters after the last tick when both succeed, and
    otherwise the flush's failure, or else the source's. *)
Theorem live_run_is_bounded_run (d : BrainstemDaemon S K) init_at check_at pre now rest :
  Forall (fun e => forall t, e <> LoopShutdown t) pre ->
  is_ok (start_control tcp_bind (control_bind (bd_config d))) = true ->
  let '(wb, rb) := bounded_run d init_at check_at (ticks_of pre) in
  exists w r, live_run d None init_at check_at (pre ++ LoopShutdown now :: rest) = Some (w, r) /\
    w_source w = w_source wb /\ w_sink w = w_sink wb /\
    w_ingress w = w_ingress wb /\ is_shutdown (w_ingress w) = true /\
    match boot (bd_config d) init_at check_at None (bd_source d, bd_health d) with
    | (_, Err e) => r = Err e /\ rb = Err e /\ w_health w = w_health wb
    | ((source, health), Ok (net, p)) =>
      let st := drive_ticks net_step mods_default (ticks_of pre)
        (first_tick (bd_config d) source (bd_sink d) net (bd_ingress d) health
          (set_loaded (Some p) RuntimeStats_default)) in
      r = Ok tt /\
      rb = match (flush (ts_sink st)).2, (source_shutdown (ts_source st)).2 with
           | Err e, _ => Err (FlushFailed e)
           | Ok _, Err e => Err (SourceShutdownFailed e)
           | Ok _, Ok _ => Ok (ts_stats st)
           end /\
      w_health w = health_apply BeginDrain now (w_health wb) /\
      forall t, hs_ready (snapshot (w_health w) t) = false
    end.
Proof.
  intros Hpre Hc. unfold run_for_ticks, run_loop.
  destruct (start_control tcp_bind _) as [spawned|e]; [|done].
  destruct (boot _ _ _ _ _) as [[source health] [[net p]|e]].
  - rewrite event_loop_ticks by done.
    change (first_tick (bd_config d) source (bd_sink d) net (bd_ingress d) health
              (set_loaded (Some p) RuntimeStats_default))
      with (with_loaded (Some p) (first_tick (bd_config d) source (bd_sink d) net (bd_ingress d) health
              RuntimeStats_default)).
    rewrite !drive_loaded. set (st := drive_ticks _ _ _ _). cbv zeta. simpl.
    unfold finish_bounded_run, shutdown_backend.
    destruct (flush (ts_sink st)) as [sink [u|e]], (source_shutdown (ts_source st)) as [src [u'|e']]; simpl.
    all: eexists _, _; split; [reflexivity|]; cbn [w_source w_sink w_ingress w_health].
    all: repeat (split; [done|]); intros t; exact (begin_drain_not_ready _ now t).
  - unfold abort_startup. destruct (shutdown_backend source (bd_sink d)) as [src sink].
    eexists _, _. split; [reflexivity|]. done.
Qed.
End DaemonGuarantees.

Section ProtocolGuarantee.
Context {LifRest NetRest StdpRest : Type}.
Abbreviation Network := (@SpikingNetwork LifRest NetRest StdpRest).
Context {S K : Type} `{StimulusSource S} `{SpikeSink K}.
Variable fs : Fs.
Variable parse_document : string -> result unit SidecarDocument.
Variable parse_hub : string -> result unit HubConfig.
Variable sha256 : list Z -> list Z.
Variable with_dimensions : Z -> Z -> Z -> Network.
Variable set_rm_stdp_config : @RmStdpConfig StdpRest -> Network -> Network.
Variable components : string -> path.
Variable display : path -> string.
Variable net_step : Network -> list f32 -> NeuroModulators -> Network * result string (list Z).
Variable mods_default : NeuroModulators.

(** C4: the backend protocol.  On every path of a bounded run - the source
    failing to initialise, the checkpoint rejected, ticks failing, the flush
    failing - the source sees one [initialize], then one [next_ingress] per tick
    and none if boot failed, then exactly one [shutdown], last; the sink sees at
    most one [emit] per tick and then exactly one [flush]; the ingress is
    closed; and a failed boot is never reported as success. *)
Theorem bounded_run_protocol (d : BrainstemDaemon (traced S) (traced K)) init_at check_at envs :
  (bd_source d).2 = [] -> (bd_sink d).2 = [] ->
  let booted := is_ok (boot_network fs parse_document parse_hub sha256 with_dimensions
    set_rm_stdp_config components display (bd_config d) init_at check_at None (bd_source d, bd_health d)).2 in
  let '(w, r) := run_for_ticks fs parse_document parse_hub sha256 with_dimensions
    set_rm_stdp_config components display net_step mods_default d init_at check_at envs in
  let ticks := if booted then length envs else 0%nat in
  (w_source w).2 = CallInitialize :: replicate ticks CallNext ++ [CallShutdown] /\
  (exists n, (n <= ticks)%nat /\ (w_sink w).2 = replicate n CallEmit ++ [CallFlush]) /\
  is_shutdown (w_ingress w) = true /\
  (booted = false -> is_ok r = false).
Proof.
  intros Hs Hk. cbv zeta. unfold run_for_ticks.
  assert (forall init_at check_at, (boot_network fs parse_document parse_hub sha256 with_dimensions
    set_rm_stdp_config components display (bd_config d) init_at check_at None
    (bd_source d, bd_health d)).1.1.2 = [CallInitialize]) as Hb.
  { intros t1 t2. unfold boot_network, initialize_source. simpl. destruct (bd_source d) as [src calls].
    simpl in Hs. subst calls. simpl. destruct (initialize _ src) as [src' [u|e]]; [|done]. simpl.
    by destruct (take_restored_network _ _ _ _ _ _ _ _ _ _) as [[net p]|e]. }
  specialize (Hb init_at check_at).
  destruct (boot_network _ _ _ _ _ _ _ _ _ _ _ _ _) as [[source health] [[net p]|e]]; simpl in Hb |- *.
  - set (st0 := first_tick _ _ _ _ _ _ _).
    destruct (drive_trace net_step mods_default envs st0) as [Ts (n & Hn & Tk)].
    set (st := drive_ticks net_step mods_default envs st0) in *. unfold finish_bounded_run.
    pose proof (trace_call_snd CallFlush flush (ts_sink st)) as Ef.
    pose proof (trace_call_snd CallShutdown source_shutdown (ts_source st)) as Es.
    change (trace_call CallFlush flush) with (flush (SpikeSink := traced_sink)) in Ef.
    change (trace_call CallShutdown source_shutdown) with (source_shutdown (StimulusSource := traced_source)) in Es.
    destruct (flush (ts_sink st)) as [sink rf], (source_shutdown (ts_source st)) as [src rs].
    simpl in *. rewrite Ef, Es, Ts, Tk, Hb, Hk. split; [done|]. split; [by exists n|]. done.
  - unfold shutdown_backend. rewrite (trace_call_snd CallShutdown), (trace_call_snd CallFlush), Hb, Hk.
    split; [done|]. split; [by exists 0%nat|]. done.
Qed.
End ProtocolGuarantee.

(** ** Witnesses *)

Definition demo_daemon : BrainstemDaemon (traced StubStimulusSource) (traced CollectingSpikeSink) :=
  MkDaemon _ _ demo_config ∅ (StubSource, []) (CollectingSpikeSink_new, []) demo_ingress
    (handle_started HealthLimits_default 0).

Definition demo_net_step (net : @SpikingNetwork unit Z unit) (_ : list f32) (_ : NeuroModulators) :
    @SpikingNetwork unit Z unit * result string (list Z) := (net, Ok [3]).

Abbreviation demo_bounded_run := (run_for_ticks demo_fs
  (fun _ => Ok demo_document) (fun _ => Err tt) (fun b => b) demo_with_dimensions demo_set_config
  (fun s => [s]) (fun _ => "p"%string) demo_net_step demo_mods).

Lemma bounded_run_protocol_witness :
  let '(w, r) := demo_bounded_run demo_daemon 1 2 [demo_env; demo_env] in
  (exists n, (w_source w).2 = CallInitialize :: replicate n CallNext ++ [CallShutdown]) /\
  is_shutdown (w_ingress w) = true.
Proof.
  pose proof (bounded_run_protocol demo_fs
    (fun _ => Ok demo_document) (fun _ => Err tt) (fun b => b) demo_with_dimensions demo_set_config
    (fun s => [s]) (fun _ => "p"%string) demo_net_step demo_mods demo_daemon 1 2 [demo_env; demo_env]
    eq_refl eq_refl) as H. cbv zeta in H.
  destruct (demo_bounded_run demo_daemon 1 2 [demo_env; demo_env]) as [w r].
  destruct H as (Hs & _ & Hd & _). split; [|exact Hd].
  match type of Hs with context [replicate ?n CallNext] => exists n; exact Hs end.
Defined.

Lemma live_run_is_bounded_run_witness :
  is_Some (run_loop demo_fs
    (fun _ => Ok demo_document) (fun _ => Err tt) (fun b => b) demo_with_dimensions demo_set_config
    (fun s => [s]) (fun _ => "p"%string) demo_net_step demo_mods (fun _ => Ok tt) demo_daemon None 1 2
    ([LoopTick demo_env; LoopHeartbeat] ++ LoopShutdown 9 :: [LoopTick demo_env])).
Proof.
  pose proof (live_run_is_bounded_run demo_fs
    (fun _ => Ok demo_document) (fun _ => Err tt) (fun b => b) demo_with_dimensions demo_set_config
    (fun s => [s]) (fun _ => "p"%string) demo_net_step demo_mods (fun _ => Ok tt) demo_daemon 1 2
    [LoopTick demo_env; LoopHeartbeat] 9 [LoopTick demo_env]) as H.
  destruct (demo_bounded_run demo_daemon 1 2 (ticks_of [LoopTick demo_env; LoopHeartbeat])) as [wb rb].
  destruct H as (w & r & H & _); [repeat constructor; discriminate|vm_compute; reflexivity|].
  rewrite H. eexists. reflexivity.
Defined.
