(* ===== verification/Typing.v ===== *)
(** * The machine types of a run (src/daemon.rs, src/backend.rs, src/ingress, src/health)

    The model keeps machine integers as [Z] and floats as [spec_float]; the
    code's types bound them.  This file gives every piece of the tick's state
    the predicate its Rust type stands for - counters are [u64]s, a spike is a
    [u16] channel and a [u32] time, floats are binary32 values - and shows that
    the operations preserve them, whatever the clock, the arrivals and the
    network do: no wrap-around, cast or saturation of the tick escapes its
    type.  A backend takes part through [TypedSource] and [TypedSink]: what it
    promises to deliver, and what it may rely on being handed. *)

From Stdlib Require Import SpecFloat.
From S2P Require Import Prelude Floats Packet Queue Ingress Health NetAddr Config Corpus Backend Checkpoint Diagnostics Tick Daemon.
Local Open Scope Z_scope.

Create HintDb typing discriminated.
#[export] Hint Resolve wadd64_range wrap64_range sat_add64_range : typing.

(** ** Types *)

Definition opt_ty {A} (P : A -> Prop) (o : option A) : Prop := from_option P True o.

(** A binary32 value: its mantissa and exponent are those of the format. *)
Definition f32_ty (x : f32) : Prop := valid_binary prec32 emax32 x = true.

Definition packet_ty (p : IngressPacket) : Prop :=
  Forall f32_ty (stimuli p) /\ opt_ty (Forall f32_ty) (modulators p) /\
  opt_ty is_u64 (batch_id p) /\ opt_ty is_u64 (timestamp_ns p).

Definition spike_ty (s : SpikeEvent) : Prop :=
  0 <= channel s <= u16_max /\ 0 <= time s <= u32_max /\ f32_ty (strength s).

Definition mods_ty (m : NeuroModulators) : Prop :=
  f32_ty (dopamine m) /\ f32_ty (serotonin m) /\ f32_ty (acetylcholine m) /\
  f32_ty (norepinephrine m).

Definition queue_ty (g : QueueState) : Prop :=
  Forall is_u64 [qs_accepted g; qs_rejected g; qs_dropped g; qs_coalesced g;
                 qs_shutdown_refused g; qs_producer_waits g; qs_producer_wait_ns g] /\
  Forall packet_ty (qs_items g).

Definition ingress_ty (i : BoundedIngress) : Prop :=
  ingress_ok i /\ forall class, queue_ty (queue i class).2.

Definition counters_ty (c : RuntimeCounters) : Prop :=
  Forall is_u64 [rc_ticks c; rc_accepted_batches c; rc_rejected_batches c; rc_receive_errors c;
                 rc_emit_errors c; rc_dropped_spikes c; rc_diagnostic_emissions c;
                 rc_suppressed_diagnostics c].

Definition stats_ty (s : RuntimeStats) : Prop :=
  counters_ty (counters_of s) /\ opt_ty is_u64 (rs_last_batch_id s).

Definition limiter_ty (l : OccurrenceLimiter) : Prop :=
  is_u64 (ol_occurrences l) /\ is_u64 (ol_emitted l) /\ opt_ty is_u64 (ol_last_key l).

Definition diagnostics_ty (d : TickDiagnostics) : Prop :=
  limiter_ty (td_receive d) /\ limiter_ty (td_emit d) /\ limiter_ty (td_dropped d) /\
  limiter_ty (td_non_finite d).

Definition health_ty (m : HealthMachine) : Prop :=
  counters_ty (hm_counters m) /\ is_u64 (hm_queue_depth m) /\ is_u64 (hm_queue_capacity m).

(** ** What the backends promise and are promised *)

Class TypedSource (S : Type) `{StimulusSource S} (IS : S -> Prop) := {
  next_typed s : IS s -> IS (next_ingress s).1 /\
    forall p, (next_ingress s).2 = Ok (Some p) -> packet_ty p;
  initialize_typed path s : IS s -> IS (initialize path s).1;
  shutdown_typed s : IS s -> IS (source_shutdown s).1;
}.

Class TypedSink (K : Type) `{SpikeSink K} (IK : K -> Prop) := {
  emit_typed spikes t k : Forall spike_ty spikes -> IK k -> IK (emit spikes t k).1;
  flush_typed k : IK k -> IK (flush k).1;
}.

#[export] Instance stub_typed : TypedSource StubStimulusSource (fun _ => True).
Proof. split; [|done..]. intros [] _. split; [done|]. intros p [= <-]. by repeat split; simpl. Qed.

(** Everything a collecting sink holds is typed. *)
#[export] Instance collecting_typed :
  TypedSink CollectingSpikeSink (fun k => Forall (Forall spike_ty) (emitted k)).
Proof.
  split; [|done]. intros spikes t k Hs Hk. simpl. apply Forall_app. split; [done|]. by constructor.
Qed.

(** ** Floats and packets *)

Lemma f32_zero_ty : f32_ty f_zero.
Proof. reflexivity. Qed.

Lemma f32_one_ty : f32_ty f_one32.
Proof. reflexivity. Qed.

Lemma packet_default_ty : packet_ty IngressPacket_default.
Proof. by repeat split; simpl. Qed.

#[export] Hint Resolve f32_zero_ty f32_one_ty packet_default_ty : typing.

Lemma apply_mask_ty mask : forall xs, Forall f32_ty xs -> Forall f32_ty (apply_mask mask xs).
Proof.
  induction mask as [|[] mask IH]; intros [|x xs] Hx; simpl; try done; inversion Hx; constructor;
    auto with typing.
Qed.

Lemma decode_stimuli_ty p buf :
  packet_ty p -> Forall f32_ty buf -> Forall f32_ty (decode_stimuli p buf).
Proof.
  intros (Hp & _) Hb. unfold decode_stimuli.
  assert (Forall f32_ty (take (Nat.min (length (stimuli p)) (length buf)) (stimuli p) ++
    (if (length (stimuli p) <? length buf)%nat
     then replicate (length buf - Nat.min (length (stimuli p)) (length buf)) f_zero
     else drop (Nat.min (length (stimuli p)) (length buf)) buf))) as H.
  { apply Forall_app. split; [by apply Forall_take|].
    destruct (_ <? _)%nat; [apply Forall_replicate; auto with typing|by apply Forall_drop]. }
  destruct (valid_mask p); [by apply apply_mask_ty|exact H].
Qed.

Lemma decode_modulators_ty d p : mods_ty d -> packet_ty p -> mods_ty (decode_modulators d p).
Proof.
  intros Hd (_ & Hm & _). unfold decode_modulators.
  destruct (modulators p) as [[|a [|b [|c [|e l]]]]|]; try done. simpl in Hm.
  rewrite !Forall_cons in Hm. by destruct Hm as (? & ? & ? & ? & _).
Qed.

(** ** Queues *)

Definition crit_ty {A} (g : QueueState) (c : crit A) : Prop := queue_ty g -> queue_ty (crit_state c).

Ltac queue_ty_tac :=
  unfold crit_ty, queue_ty in *; rewrite ?Forall_cons in *; simpl in *; intuition auto with typing.

Lemma raise_high_water_ty d g : queue_ty g -> queue_ty (raise_high_water d g).
Proof. done. Qed.
Lemma bump_accepted_ty g : queue_ty g -> queue_ty (Queue.bump_accepted g).
Proof. queue_ty_tac. Qed.
Lemma bump_rejected_ty g : queue_ty g -> queue_ty (Queue.bump_rejected g).
Proof. queue_ty_tac. Qed.
Lemma bump_dropped_ty g : queue_ty g -> queue_ty (bump_dropped g).
Proof. queue_ty_tac. Qed.
Lemma bump_coalesced_ty g : queue_ty g -> queue_ty (bump_coalesced g).
Proof. queue_ty_tac. Qed.
Lemma bump_shutdown_refused_ty g : queue_ty g -> queue_ty (bump_shutdown_refused g).
Proof. queue_ty_tac. Qed.
Lemma bump_waits_ty g : queue_ty g -> queue_ty (bump_waits g).
Proof. queue_ty_tac. Qed.
Lemma add_wait_ns_ty ns g : queue_ty g -> queue_ty (add_wait_ns ns g).
Proof. queue_ty_tac. Qed.
Lemma with_items_ty l g : Forall packet_ty l -> queue_ty g -> queue_ty (with_items l g).
Proof. queue_ty_tac. Qed.
Lemma with_closed_ty g : queue_ty g -> queue_ty (with_closed g).
Proof. done. Qed.

#[export] Hint Resolve raise_high_water_ty bump_accepted_ty bump_rejected_ty bump_dropped_ty
  bump_coalesced_ty bump_shutdown_refused_ty bump_waits_ty add_wait_ns_ty with_items_ty
  with_closed_ty : typing.

Lemma queue_ty_items g : queue_ty g -> Forall packet_ty (qs_items g).
Proof. by intros []. Qed.

Lemma push_free_ty g p : packet_ty p -> crit_ty g (push_free g p).
Proof.
  intros Hp Hg. unfold crit_state. simpl. apply raise_high_water_ty, bump_accepted_ty, with_items_ty; [|done].
  apply Forall_app. split; [by apply queue_ty_items|by constructor].
Qed.

Lemma drop_oldest_ty q g p : packet_ty p -> crit_ty g (drop_oldest_and_push q g p).
Proof.
  intros Hp Hg. unfold drop_oldest_and_push. apply (push_free_ty _ p Hp).
  apply bump_dropped_ty, with_items_ty; [|done]. apply queue_ty_items in Hg. by destruct Hg.
Qed.

Lemma push_coalesce_ty q g p : packet_ty p -> crit_ty g (push_coalesce q g p).
Proof.
  intros Hp Hg. unfold push_coalesce. destruct (qs_items g); [by apply push_free_ty|].
  unfold crit_state. simpl. auto 10 using Forall_nil, Forall_cons with typing.
Qed.

Lemma push_loop_ty q g p deadline now started :
  packet_ty p -> crit_ty g (push_loop q g p deadline now started).
Proof.
  intros Hp Hg. unfold push_loop, wait_for_slot_enter.
  pose proof (push_free_ty g p Hp Hg) as Hfree. pose proof (drop_oldest_ty q g p Hp Hg) as Hdrop.
  pose proof (push_coalesce_ty q g p Hp Hg) as Hcoal.
  destruct (qs_closed g); [unfold crit_state; simpl; auto with typing|].
  destruct (bq_policy q), (len (qs_items g) <? bq_capacity q); try destruct (_ =? 0);
    first [exact Hfree | exact Hcoal
          | destruct (drop_oldest_and_push q g p) as [[? ?] ?]; exact Hdrop
          | destruct (push_coalesce q g p) as [[? ?] ?]; exact Hcoal
          | unfold crit_state; simpl; auto with typing].
Qed.

Lemma push_locked_ty q g p deadline now started :
  packet_ty p -> crit_ty g (push_locked q g p deadline now started).
Proof.
  intros Hp Hg. unfold push_locked. destruct (payload_too_large q p); [|by apply push_loop_ty].
  destruct (qs_closed g); unfold crit_state; simpl; auto with typing.
Qed.

Lemma push_never_ty q g p : packet_ty p -> crit_ty g (push_never q g p).
Proof.
  intros Hp Hg. unfold push_never.
  pose proof (push_locked_ty q g p (push_deadline q Never 0) 0 0 Hp Hg) as H.
  by destruct (push_locked _ _ _ _ _ _) as [[g' es] [o|st rem]].
Qed.

Lemma push_resume_ty q g p deadline started woke to now started' :
  packet_ty p -> crit_ty g (push_resume q g p deadline started woke to now started').
Proof.
  intros Hp Hg. unfold push_resume, wait_for_slot_exit.
  set (g1 := add_wait_ns (sat_sub woke started) g). assert (queue_ty g1) as Hg1 by (subst g1; auto with typing).
  destruct (qs_closed g1); [unfold crit_state; simpl; auto with typing|].
  destruct (to && _); [unfold crit_state; simpl; auto with typing|].
  pose proof (push_loop_ty q g1 p deadline now started' Hp Hg1) as H.
  by destruct (push_loop _ _ _ _ _ _) as [[g' es] r].
Qed.

Lemma pop_ty g : queue_ty g -> queue_ty (crit_state (pop g)) /\ opt_ty packet_ty (crit_ret (pop g)).
Proof.
  intros Hg. pose proof (queue_ty_items g Hg) as Hi. unfold pop, crit_state, crit_ret.
  destruct (qs_items g); simpl; [done|]. inversion Hi. auto with typing.
Qed.

Lemma drain_all_ty g : queue_ty g -> queue_ty (crit_state (drain_all g)).
Proof.
  intros Hg. unfold drain_all, crit_state. destruct (qs_items g); simpl; auto using Forall_nil_2 with typing.
Qed.

(** ** The ingress *)

Lemma on_queue_ty {A} i c (f : BoundedQueue -> QueueState -> crit A) :
  length (bi_queues i) = 4%nat -> (forall d, queue_ty (queue i d).2) ->
  queue_ty (crit_state (f (queue i c).1 (queue i c).2)) ->
  forall d, queue_ty (queue (on_queue i c f).1 d).2.
Proof.
  intros Hl Hq Hf d. rewrite on_queue_queue by done. destruct (decide _); [|apply Hq].
  by destruct (queue i c).
Qed.

(** What the other holders of the handle do between the tick's own calls. *)
Inductive producer_step : BoundedIngress -> BoundedIngress -> Prop :=
| ps_push i c packet wait now started : packet_ty packet ->
    producer_step i (ingress_push i c packet wait now started).1
| ps_wake i c packet deadline started woke timed_out now started' : packet_ty packet ->
    can_be_blocked i c packet ->
    producer_step i (enqueue_wake i c packet deadline started woke timed_out now started').1
| ps_try i c packet : packet_ty packet -> producer_step i (try_enqueue i c packet).1
| ps_shutdown i : producer_step i (ingress_shutdown i).

Lemma producer_ingress_step i i' : producer_step i i' -> ingress_step i i'.
Proof. destruct 1; by constructor. Qed.

Lemma try_enqueue_ty i c packet :
  packet_ty packet -> ingress_ty i -> ingress_ty (try_enqueue i c packet).1.
Proof.
  intros Hp [Hok Hq]. split; [by apply try_enqueue_ok|]. apply on_queue_ty; [apply Hok|done|].
  specialize (Hq c). destruct (bi_shutting_down i); [|by apply push_never_ty].
  unfold crit_state. simpl. auto with typing.
Qed.

Lemma producer_step_ty i i' : ingress_ty i -> producer_step i i' -> ingress_ty i'.
Proof.
  intros [Hok Hq] Hst. split; [eauto using ingress_step_ok, producer_ingress_step|].
  assert (length (bi_queues i) = 4%nat) as Hl by apply Hok.
  destruct Hst as [i c packet wait now started Hp|i c packet dl started woke to now started' Hp _|i c packet Hp|i].
  - apply on_queue_ty; [done..|]. specialize (Hq c).
    destruct (bi_shutting_down i); [|by apply push_locked_ty]. unfold crit_state. simpl. auto with typing.
  - apply on_queue_ty; [done..|]. by apply push_resume_ty.
  - by apply try_enqueue_ty.
  - intros class. rewrite ingress_shutdown_queue by done. apply with_closed_ty, Hq.
Qed.

Lemma shutdown_ty i : ingress_ty i -> ingress_ty (ingress_shutdown i).
Proof. intros Hi. eapply producer_step_ty; [exact Hi|constructor]. Qed.

Lemma producers_ty i i' : ingress_ty i -> steps producer_step i i' -> ingress_ty i'.
Proof. intros Hi Hst. eapply (steps_invariant producer_step ingress_ty); eauto using producer_step_ty. Qed.

Lemma queue_new_ty : queue_ty QueueState_new.
Proof. unfold queue_ty, is_u64, u64_max. rewrite !Forall_cons. simpl. by repeat split; try constructor. Qed.

Lemma new_ty cfg i : config_unsigned cfg -> BoundedIngress_new cfg = Ok i -> ingress_ty i.
Proof.
  intros Hu Hn. split; [by eapply BoundedIngress_new_ok|]. revert Hn. unfold BoundedIngress_new.
  intros ([] & _ & [= <-])%result_bind_ok []; apply queue_new_ty.
Qed.

Lemma admit_ty i packet : packet_ty packet -> ingress_ty i -> ingress_ty (admit_backend_packet i packet).
Proof.
  intros (Hs & Hm & Hb & Ht) Hi. unfold admit_backend_packet, nonempty_modulators.
  assert (ingress_ty match stimuli packet with [] => i | _ =>
    (try_enqueue i Sensory (MkPacket (stimuli packet) None (valid_mask packet) (batch_id packet)
       (timestamp_ns packet) (session_id packet) (rejected packet))).1 end) as H1.
  { destruct (stimuli packet) eqn:Es; [done|]. apply try_enqueue_ty; [|done]. by repeat split. }
  destruct (modulators packet) as [[|m l]|]; try done.
  apply try_enqueue_ty; [|done]. by repeat split.
Qed.

Lemma pop_class_ty i c :
  ingress_ty i -> ingress_ty (ingress_pop i c).1 /\ opt_ty packet_ty (ingress_pop i c).2.
Proof.
  intros [Hok Hq]. destruct (pop_ty _ (Hq c)) as [Hg Hr]. split.
  - split; [by apply ingress_pop_ok|]. apply on_queue_ty; [apply Hok|done..].
  - unfold ingress_pop. rewrite on_queue_ret. by destruct (queue i c).
Qed.

Lemma drain_class_ty i c : ingress_ty i -> ingress_ty (ingress_drain_all i c).1.
Proof.
  intros [Hok Hq]. split; [by apply ingress_drain_all_ok|]. apply on_queue_ty; [apply Hok|done|].
  apply drain_all_ty, Hq.
Qed.

Lemma drain_ty i :
  ingress_ty i -> ingress_ty (drain_for_tick i).1 /\ packet_ty (into_packet (drain_for_tick i).2).
Proof.
  intros Hi. rewrite drain_unfold. cbv zeta. simpl.
  pose proof (drain_class_ty i Control Hi) as H1. set (i1 := (ingress_drain_all i Control).1) in *.
  destruct (pop_class_ty i1 Reward H1) as [H2 Hr]. set (i2 := (ingress_pop i1 Reward).1) in *.
  destruct (pop_class_ty i2 Sensory H2) as [H3 Hs]. split; [by apply drain_class_ty|].
  unfold into_packet. simpl.
  assert (packet_ty (default IngressPacket_default (ingress_pop i2 Sensory).2)) as (? & ? & ? & ?).
  { destruct (ingress_pop i2 Sensory).2; [exact Hs|apply packet_default_ty]. }
  repeat split; simpl; try done. destruct (ingress_pop i1 Reward).2 as [q|]; [|done]. by destruct Hr as (_ & ? & _).
Qed.

(** ** Counters, diagnostics and health *)

Ltac counters_ty_tac :=
  unfold stats_ty, counters_ty in *; rewrite ?Forall_cons in *; simpl in *; intuition auto with typing.

Lemma is_u64_0 : is_u64 0.
Proof. done. Qed.
Lemma is_u64_1 : is_u64 1.
Proof. done. Qed.
#[export] Hint Resolve is_u64_0 is_u64_1 : typing.

Lemma bump_ticks_ty s : stats_ty s -> stats_ty (bump_ticks s).
Proof. counters_ty_tac. Qed.
Lemma tick_accepted_ty s : stats_ty s -> stats_ty (bump_accepted s).
Proof. counters_ty_tac. Qed.
Lemma tick_rejected_ty s : stats_ty s -> stats_ty (bump_rejected s).
Proof. counters_ty_tac. Qed.
Lemma receive_errors_ty s : stats_ty s -> stats_ty (bump_receive_errors s).
Proof. counters_ty_tac. Qed.
Lemma emit_errors_ty s : stats_ty s -> stats_ty (bump_emit_errors s).
Proof. counters_ty_tac. Qed.
Lemma set_last_ty id mask s : opt_ty is_u64 id -> stats_ty s -> stats_ty (set_last id mask s).
Proof. counters_ty_tac. Qed.
Lemma note_ty out s : stats_ty s -> stats_ty (note_diagnostic out s).
Proof. destruct out; counters_ty_tac. Qed.
Lemma add_dropped_ty n s : 0 <= n -> stats_ty s -> stats_ty (add_dropped n s).
Proof.
  intros Hn Hs. assert (is_u64 (rs_dropped_spikes s)) as Hd by counters_ty_tac.
  assert (is_u64 (sat_add64 (rs_dropped_spikes s) n)) by (unfold is_u64, sat_add64, u64_max in *; lia).
  counters_ty_tac.
Qed.

Lemma limiter_record_ty key now l : is_u64 key -> limiter_ty l -> limiter_ty (limiter_record key now l).1.
Proof.
  intros Hk Hl. unfold limiter_record.
  assert (limiter_ty (limiter_switch key l)) as (Ho & He & Hkey).
  { unfold limiter_switch. destruct (bool_decide _); [done|].
    split; [|split]; simpl; auto with typing. }
  pose proof (sat_add64_range _ _ Ho is_u64_1).
  by destruct (_ || _); (split; [|split]).
Qed.

Lemma diagnostic_key_ty message : is_u64 (diagnostic_key message).
Proof.
  unfold diagnostic_key. assert (forall acc, is_u64 acc -> is_u64 (fold_left (fun hash byte =>
    wadd64 (wmul64 hash 31) (code byte)) (as_bytes message) acc)) as H.
  { induction (as_bytes message) as [|b bs IH]; intros acc Hacc; simpl; auto with typing. }
  by apply H.
Qed.

#[export] Hint Resolve bump_ticks_ty tick_accepted_ty tick_rejected_ty receive_errors_ty emit_errors_ty
  set_last_ty note_ty limiter_record_ty diagnostic_key_ty : typing.

Lemma merged_ty c d : counters_ty c -> counters_ty d -> counters_ty (merged_monotonic c d).
Proof.
  unfold counters_ty. rewrite !Forall_cons. simpl. unfold is_u64. intuition (try done; lia).
Qed.

Lemma health_apply_ty event now m :
  match event with
  | QueuePressureEvent depth cap => is_u64 depth /\ is_u64 cap
  | CountersPublished c => counters_ty c
  | _ => True
  end -> health_ty m -> health_ty (health_apply event now m).
Proof.
  intros He Hm. unfold health_apply, apply_lifecycle, apply_boot, apply_checkpoint, apply_terminal, apply_runtime,
    mark_started, mark_initialized, fatal_if_started, enter_fatal.
  destruct event; simpl; repeat case_goal; unfold health_ty in *; simpl; intuition auto using merged_ty.
Qed.

Lemma pressure_ty i now m : health_ty m -> health_ty (apply_queue_pressure i now m).
Proof.
  intros Hm. unfold apply_queue_pressure. destruct (fold_left _ _ _) as [depth cap] eqn:E.
  apply health_apply_ty; [|done]. simpl in E. injection E as <- <-. split; apply wadd64_range.
Qed.

(** ** A tick *)

Section TypedTick.
Context {S N K : Type} {IS : S -> Prop} {IK : K -> Prop}.
Context `{!StimulusSource S} `{!SpikeSink K} `{!TypedSource S IS} `{!TypedSink K IK}.
Variable net_step : N -> list f32 -> NeuroModulators -> N * result string (list Z).
Variable mods_default : NeuroModulators.
Variable ch : nat.

Record tick_ty (st : TickState S N K) : Prop := MkTickTy {
  ty_source : IS (ts_source st);
  ty_sink : IK (ts_sink st);
  ty_channels : length (ts_stimuli st) = ch;
  ty_stimuli : Forall f32_ty (ts_stimuli st);
  ty_spikes : Forall spike_ty (ts_spike_buf st);
  ty_ingress : ingress_ty (ts_ingress st);
  ty_health : health_ty (ts_health st);
  ty_stats : stats_ty (ts_stats st);
  ty_diagnostics : diagnostics_ty (ts_diagnostics st);
}.

(** The step reports neuron indices, which are [usize]s, whenever it is handed
    one binary32 value per channel. *)
Definition step_typed : Prop := forall net stim mods ids,
  length stim = ch -> Forall f32_ty stim -> mods_ty mods ->
  (net_step net stim mods).2 = Ok ids -> Forall is_u64 ids.

Definition env_typed (env : TickEnv) : Prop := forall i, steps producer_step i (te_arrivals env i).

Lemma report_ty event now st :
  match event with
  | QueuePressureEvent depth cap => is_u64 depth /\ is_u64 cap
  | CountersPublished c => counters_ty c
  | _ => True
  end -> tick_ty st -> tick_ty (report event now st).
Proof. intros He []. constructor; try done. by apply health_apply_ty. Qed.

Lemma with_stats_ty s d st : stats_ty s -> diagnostics_ty d -> tick_ty st -> tick_ty (with_stats s d st).
Proof. by intros Hs Hd []. Qed.

Lemma rejection_ty now s d :
  stats_ty s -> diagnostics_ty d ->
  stats_ty (record_non_finite_rejection now s d).1 /\
  diagnostics_ty (record_non_finite_rejection now s d).2.
Proof.
  intros Hs (H1 & H2 & H3 & H4). unfold record_non_finite_rejection.
  pose proof (limiter_record_ty (diagnostic_key NON_FINITE_DIAGNOSTIC_CATEGORY) now (td_non_finite d)
    (diagnostic_key_ty _) H4) as Hl.
  destruct (limiter_record _ _ _) as [l out]. simpl in *. split; [auto with typing|done].
Qed.

Lemma receive_ty env st :
  tick_ty st -> tick_ty (receive env st).1 /\ opt_ty packet_ty (receive env st).2.
Proof.
  intros []. unfold receive. destruct (next_typed (ts_source st) ty_source0) as [Hsrc Hp].
  destruct (next_ingress (ts_source st)) as [src [[p|]|e]]; simpl in *.
  - split; [by constructor|]. by apply Hp.
  - split; [by constructor|done].
  - destruct ty_diagnostics0 as (H1 & H2 & H3 & H4).
    pose proof (limiter_record_ty (diagnostic_key e) (te_clock env AtReceiveError) _
      (diagnostic_key_ty _) H1) as Hl.
    destruct (limiter_record _ _ _) as [l out]. split; [|done].
    apply with_stats_ty; [simpl; auto with typing|done|by constructor].
Qed.

Lemma gate_ty env p st :
  tick_ty st -> opt_ty packet_ty p ->
  tick_ty (gate_backend env p st).1 /\ opt_ty packet_ty (gate_backend env p st).2.
Proof.
  intros Hst Hp. unfold gate_backend. destruct (p ≫= backend_non_finite); [|done].
  destruct (rejection_ty (te_clock env AtBackendGate) (ts_stats st) (ts_diagnostics st)) as [Hs Hd];
    [apply Hst..|].
  destruct (record_non_finite_rejection _ _ _) as [s d]. split; [by apply with_stats_ty|done].
Qed.

Lemma account_ty p s i :
  packet_ty p -> stats_ty s -> ingress_ty i ->
  stats_ty (account_and_admit_backend_packet p s i).1 /\
  ingress_ty (account_and_admit_backend_packet p s i).2.
Proof.
  intros Hp Hs Hi. unfold account_and_admit_backend_packet. pose proof (admit_ty i p Hp Hi).
  destruct (rejected p); simpl.
  - split; [auto with typing|]. by destruct (is_some _).
  - split; [|done]. destruct (is_some _); [|done].
    apply set_last_ty; [apply Hp|auto with typing].
Qed.

Lemma admit_tick_ty env p st :
  tick_ty st -> opt_ty packet_ty p -> tick_ty (observe_and_admit env p st).
Proof.
  intros Hst Hp. unfold observe_and_admit. destruct p as [p|]; [|done]. simpl in Hp.
  set (st1 := if observes_ingress p then _ else _).
  assert (tick_ty st1) as [] by (subst st1; destruct (observes_ingress p); [by apply report_ty|done]).
  destruct (account_ty p (ts_stats st1) (ts_ingress st1) Hp ty_stats0 ty_ingress0).
  destruct (account_and_admit_backend_packet _ _ _) as [s i]. by constructor.
Qed.

Lemma take_in_ty env st : tick_ty st -> tick_ty (take_in env st).
Proof.
  intros Hst. unfold take_in. destruct (receive_ty env st Hst) as [H1 Hp].
  destruct (receive env st) as [st1 p]. destruct (gate_ty env p st1 H1 Hp) as [H2 Hp2].
  destruct (gate_backend env p st1) as [st2 p2]. by apply admit_tick_ty.
Qed.

Lemma drain_tick_ty env st :
  env_typed env -> tick_ty st -> tick_ty (drain_tick env st).1 /\ packet_ty (drain_tick env st).2.
Proof.
  intros He []. unfold drain_tick.
  destruct (drain_ty (te_arrivals env (ts_ingress st))) as [Hi Hp]; [by eapply producers_ty|].
  destruct (drain_for_tick _) as [i drained]. split; [|done].
  constructor; try done. by apply pressure_ty.
Qed.

Lemma spike_time_ty env : 0 <= spike_time env <= u32_max.
Proof.
  unfold spike_time. change u32_max with (Z.ones 32). rewrite Z.land_ones by lia.
  change (Z.ones 32) with (2 ^ 32 - 1). pose proof (Z.mod_pos_bound (wrap64 (default 0 (te_system_time env) / 1000000)) (2 ^ 32)). lia.
Qed.

Lemma push_spikes_ty env ids : forall buf dropped,
  Forall is_u64 ids -> Forall spike_ty buf -> 0 <= dropped ->
  let r := push_spikes (spike_time env) ids buf dropped in Forall spike_ty r.1 /\ 0 <= r.2.
Proof.
  induction ids as [|id ids IH]; intros buf dropped Hids Hb Hd; [done|].
  inversion Hids as [|? ? [Hid _] Hrest]; subst. simpl.
  destruct (Z.leb_spec id u16_max); apply IH; try done; [|lia].
  apply Forall_app. split; [done|]. constructor; [|done].
  split; [done|]. split; [apply spike_time_ty|apply f32_one_ty].
Qed.

Lemma note_dropped_ty env n st : 0 <= n -> tick_ty st -> tick_ty (note_dropped env n st).
Proof.
  intros Hn Hst. unfold note_dropped. destruct (0 <? n); [|done].
  destruct (ty_diagnostics _ Hst) as (H1 & H2 & H3 & H4).
  pose proof (limiter_record_ty (diagnostic_key "dropped spikes with out-of-range IDs")
    (te_clock env AtDropped) _ (diagnostic_key_ty _) H3) as Hl.
  destruct (limiter_record _ _ _) as [l out]. apply with_stats_ty; [|done|done].
  apply note_ty, add_dropped_ty; [done|]. apply Hst.
Qed.

Lemma emit_batch_ty env st : tick_ty st -> tick_ty (emit_batch env st).
Proof.
  intros []. unfold emit_batch.
  pose proof (emit_typed (ts_spike_buf st) (default 0 (te_system_time env)) (ts_sink st) ty_spikes0 ty_sink0) as Hk.
  destruct (emit _ _ _) as [sink [u|e]]; simpl in Hk.
  - apply report_ty; [done|by constructor].
  - destruct ty_diagnostics0 as (H1 & H2 & H3 & H4). cbv zeta. simpl ts_diagnostics.
    pose proof (limiter_record_ty (diagnostic_key e) (te_clock env AtEmitError) _
      (diagnostic_key_ty _) H2) as Hl.
    destruct (limiter_record _ _ _) as [l out]. apply report_ty; [done|].
    apply with_stats_ty; [simpl; auto with typing|done|by constructor].
Qed.

Lemma publish_ty env ids st : Forall is_u64 ids -> tick_ty st -> tick_ty (publish_spikes env ids st).
Proof.
  intros Hids Hst. unfold publish_spikes. cbv zeta.
  destruct (push_spikes_ty env ids [] 0 Hids (Forall_nil_2 _) ltac:(lia)) as [Hb Hd].
  destruct (push_spikes _ _ _ _) as [buf dropped]. simpl in Hb, Hd.
  set (st1 := note_dropped _ _ _). assert (tick_ty st1) as H1.
  { apply note_dropped_ty; [done|]. destruct Hst. constructor; simpl; auto with typing. }
  destruct (_ && _); [by apply report_ty|by apply emit_batch_ty].
Qed.

Lemma consume_ty env p st :
  step_typed -> mods_ty mods_default -> packet_ty p -> tick_ty st ->
  tick_ty (consume net_step mods_default env p st).
Proof.
  intros Hn Hm Hp Hst. unfold consume. destruct (first_non_finite p).
  - destruct (rejection_ty (te_clock env AtDrainedGate) (ts_stats st) (ts_diagnostics st)) as [Hs Hd];
      [apply Hst..|].
    destruct (record_non_finite_rejection _ _ _) as [s d]. apply report_ty; [done|]. by apply with_stats_ty.
  - unfold decode_inputs. destruct Hst.
    pose proof (decode_stimuli_ty p (ts_stimuli st) Hp ty_stimuli0) as Hs.
    pose proof (decode_stimuli_length p (ts_stimuli st)) as Hl.
    pose proof (Hn (ts_network st) (decode_stimuli p (ts_stimuli st)) (decode_modulators mods_default p)) as Hn'.
    simpl. destruct (net_step _ _ _) as [net [ids|e]].
    + apply publish_ty; [apply Hn'; [congruence|done|by apply decode_modulators_ty|done]|].
      constructor; simpl; congruence || done.
    + apply report_ty; [done|]. constructor; simpl; congruence || done.
Qed.

Lemma published_tick_ty env st :
  step_typed -> mods_ty mods_default -> env_typed env -> tick_ty st ->
  tick_ty (run_tick_published net_step mods_default env st).
Proof.
  intros Hn Hm He Hst. unfold run_tick_published, run_tick.
  destruct (drain_tick_ty env (take_in env st) He (take_in_ty env st Hst)) as [H1 Hp].
  destruct (drain_tick env (take_in env st)) as [st1 p].
  pose proof (consume_ty env p st1 Hn Hm Hp H1) as H2. apply report_ty; [|done]. apply H2.
Qed.

Lemma drive_ty envs st :
  step_typed -> mods_ty mods_default -> Forall env_typed envs -> tick_ty st ->
  tick_ty (drive_ticks net_step mods_default envs st).
Proof.
  intros Hn Hm He. revert st. induction He as [|env envs He _ IH]; intros st Hst; simpl; [done|].
  apply IH. by apply published_tick_ty.
Qed.
End TypedTick.

(** ** The ZeroMQ backend *)

Definition batch_ty (b : StimulusBatch) : Prop :=
  Forall f32_ty (sb_values b) /\ is_u64 (sb_batch_id b) /\ is_u64 (sb_timestamp b).

Definition message_ty (m : IpcMessage) : Prop :=
  match m with
  | Stimuli b => batch_ty b
  | Neuromodulators n =>
    Forall f32_ty [nm_dopamine n; nm_cortisol n; nm_acetylcholine n; nm_tempo n]
  | _ => True
  end.

Definition zmq_source_ty (s : ZmqStimulusSource) : Prop := opt_ty (Forall f32_ty) (zs_last_modulators s).

(** The frame ZeroMQ is handed when a batch is sent. *)
Definition frame_ty (b : SpikeBatch) : Prop :=
  is_u64 (pb_batch_id b) /\ is_u64 (pb_timestamp b) /\ Forall spike_ty (pb_spikes b).

Section TypedZmq.
Variable validate : StimulusBatch -> result string unit.
Variable from_slice : string -> result string IpcMessage.
Variable to_vec : SpikeBatch -> result string string.

(** The counters are [u64]s, and every frame on the wire encodes a typed batch. *)
Definition zmq_sink_ty (k : ZmqSpikeSink) : Prop :=
  (is_u64 (attempted (zk_stats k)) /\ is_u64 (suppressed (zk_stats k)) /\ is_u64 (failed (zk_stats k))) /\
  Forall (fun frame => exists b, frame_ty b /\ to_vec b = Ok frame) (zk_sent k).

(** Decoding yields values of the message's types. *)
Definition decodes_typed : Prop := forall buf m, from_slice buf = Ok m -> message_ty m.

Lemma accept_ty buf policy now p :
  decodes_typed -> accept_ipc_json validate from_slice buf policy now = Ok p -> packet_ty p.
Proof.
  intros Hd. unfold accept_ipc_json. intros (m & Hm & Ha)%result_bind_ok.
  apply map_err_ok, Hd in Hm. destruct m; try done; simpl in Ha, Hm.
  - unfold accept_stimulus_batch in Ha. split_ok. subst p. by destruct Hm as (? & ? & ?).
  - injection Ha as <-. by split.
Qed.

Lemma skip_ty r s : zmq_source_ty s -> opt_ty packet_ty (skip_ingress r s).
Proof. intros Hs. unfold skip_ingress. destruct (_ && _); [done|]. by repeat split. Qed.

Lemma hold_ty mods s : Forall f32_ty mods -> zmq_source_ty s -> zmq_source_ty (hold_modulators mods s).1.
Proof. intros Hm Hs. unfold hold_modulators. by destruct (existsb _ _). Qed.

Lemma drain_frames_ty fuel policy s :
  decodes_typed -> zmq_source_ty s ->
  let r := drain_frames validate from_slice fuel policy s in
  zmq_source_ty r.1 /\ forall p, r.2 = Ok (Some p) -> packet_ty p.
Proof.
  intros Hd. revert s.
  assert (forall r s, zmq_source_ty s -> forall p, Ok (E:=string) (skip_ingress r s) = Ok (Some p) -> packet_ty p) as Hk.
  { intros r s Hs p [= E]. pose proof (skip_ty r s Hs) as H. by rewrite E in H. }
  induction fuel as [|fuel IH]; intros s Hs; simpl; [split; [done|by apply Hk]|].
  destruct (zs_socket s) as [recvs|]; [|done].
  destruct recvs as [|[buf now| |e] rest]; simpl; try (split; [done|by apply Hk]); [|done].
  destruct (accept_ipc_json _ _ _ _ _) as [packet|e] eqn:Ha; [|split; [done|by apply Hk]].
  pose proof (accept_ty _ _ _ _ Hd Ha) as Hp. destruct (modulators packet) as [mods|] eqn:Em.
  - assert (Forall f32_ty mods) as Hm by (destruct Hp as (_ & Hp & _); by rewrite Em in Hp).
    unfold hold_or_reject. pose proof (hold_ty mods (set_socket (Some rest) s) Hm Hs) as H1.
    destruct (hold_modulators _ _) as [s1 [|]]; [|split; [done|by apply Hk]].
    destruct (stimuli packet) eqn:Est; [by apply IH|]. split; [done|]. by intros p [= <-].
  - split; [done|]. intros p [= <-]. unfold attach_held_modulators. rewrite Em.
    destruct Hp as (? & _ & ? & ?). by repeat split.
Qed.

Lemma zmq_emit_ty spikes t k :
  Forall spike_ty spikes -> zmq_sink_ty k -> zmq_sink_ty (zmq_emit to_vec spikes t k).1.
Proof.
  intros Hsp ((Ha & Hs & Hf) & Hw). unfold zmq_emit, zmq_sink_ty.
  destruct (_ && _); [simpl; auto with typing|].
  set (b := MkSpikeBatch _ _ _). assert (frame_ty b) as Hb by (split; [|split]; simpl; auto with typing).
  destruct (to_vec b) as [payload|] eqn:Ev; [|done]. destruct (zk_poisoned k); [done|].
  unfold socket_send. simpl. destruct (zk_sends k) as [|[u|e] rest]; simpl; auto with typing;
    (split; [auto with typing|]); apply Forall_app; (split; [done|]); constructor; eauto.
Qed.

Variable connect_call : ZmqCall -> result string unit.
Variable fresh : list Recv.
Variables corpus_env legacy_env : option string.

Definition zmq_source : StimulusSource ZmqStimulusSource := {|
  next_ingress := zmq_next_ingress validate from_slice;
  initialize := fun _ => zmq_initialize connect_call fresh corpus_env legacy_env;
  source_shutdown := default_shutdown;
|}.

Definition zmq_sink : SpikeSink ZmqSpikeSink := {| emit := zmq_emit to_vec; flush := default_flush |}.

Lemma zmq_source_typed : decodes_typed -> TypedSource (H := zmq_source) ZmqStimulusSource zmq_source_ty.
Proof.
  intros Hd. split; simpl; [|intros _ s Hs|done].
  - intros s Hs. by apply drain_frames_ty.
  - unfold zmq_initialize, zmq_connect. destruct (is_some _); [done|]. by destruct (fold_left _ _ _).
Qed.

Lemma zmq_sink_typed : TypedSink (H := zmq_sink) ZmqSpikeSink zmq_sink_ty.
Proof. split; simpl; [|done]. intros spikes t k. apply zmq_emit_ty. Qed.
End TypedZmq.

(** ** A run *)

Section TypedRun.
Context {LifRest NetRest StdpRest : Type}.
Abbreviation Network := (@SpikingNetwork LifRest NetRest StdpRest).
Context {S K : Type} {IS : S -> Prop} {IK : K -> Prop}.
Context `{!StimulusSource S} `{!SpikeSink K} `{!TypedSource S IS} `{!TypedSink K IK}.
Variable fs : Fs.
Variable parse_document : string -> result unit SidecarDocument.
Variable parse_hub : string -> result unit HubConfig.
Variable sha256 : list Z -> list Z.
Variable with_dimensions : Z -> Z -> Z -> Network.
Variable set_rm_stdp_config : @RmStdpConfig StdpRest -> Network -> Network.
Variable components : string -> path.
Variable display : path -> string.
Variable net_step : Network -> list f32 -> NeuroModulators -> Network * result string (list Z).
Variable mods_default : NeuroModulators.

Abbreviation boot := (boot_network fs parse_document parse_hub sha256 with_dimensions
  set_rm_stdp_config components display).

#[local] Arguments health_apply _ _ _ : simpl never.

Lemma boot_ty c init_at check_at restored source health :
  IS source -> health_ty health ->
  IS (boot c init_at check_at restored (source, health)).1.1 /\
  health_ty (boot c init_at check_at restored (source, health)).1.2.
Proof.
  intros Hs Hh. unfold boot_network, initialize_source.
  pose proof (initialize_typed (Some (model_path c)) source Hs) as H.
  destruct (initialize _ source) as [src [u|e]]; simpl in *; [|split; [done|by apply health_apply_ty]].
  assert (health_ty (health_apply InitializationCompleted init_at health)) by by apply health_apply_ty.
  destruct (take_restored_network _ _ _ _ _ _ _ _ _ _) as [[net p]|e]; simpl;
    (split; [done|by apply health_apply_ty]).
Qed.

Lemma stats_loaded_ty p : stats_ty (set_loaded p RuntimeStats_default).
Proof. unfold stats_ty, counters_ty. rewrite !Forall_cons. simpl. auto 15 with typing. Qed.

Lemma diagnostics_default_ty : diagnostics_ty TickDiagnostics_default.
Proof. unfold diagnostics_ty, limiter_ty. simpl. auto 15 with typing. Qed.

Lemma first_tick_ty c source sink (net : Network) i health p :
  IS source -> IK sink -> ingress_ty i -> health_ty health ->
  tick_ty (IS := IS) (IK := IK) (Z.to_nat (channels c))
    (first_tick c source sink net i health (set_loaded p RuntimeStats_default)).
Proof.
  intros. constructor; simpl; auto using stats_loaded_ty, diagnostics_default_ty.
  - apply length_replicate.
  - apply Forall_replicate, f32_zero_ty.
Qed.

Lemma health_started_ty limits now : health_ty (handle_started limits now).
Proof.
  apply health_apply_ty; [done|]. unfold health_ty, counters_ty. rewrite !Forall_cons. simpl. auto 15 with typing.
Qed.

(** C13: type preservation for whole runs.  Take a daemon built from any accepted
    configuration, over any source that delivers typed packets and any sink that
    keeps an invariant when it is handed typed batches, and run it for any
    number of ticks under any clock, any typed traffic of other producers, and
    any network that reports neuron indices when it is given one binary32 value
    per channel.  Whether the boot fails, ticks fail or all succeed: the sink's
    invariant holds (so every batch it saw had [u16] channels, [u32] times and
    binary32 strengths), the four queues hold typed packets within their bounds,
    and every queue, health and run counter is a [u64]. *)
Theorem run_typed c source sink now d init_at check_at envs :
  config_unsigned (ingress c) -> IS source -> IK sink ->
  try_with_backend c source sink now = Ok d ->
  step_typed net_step (Z.to_nat (channels c)) -> mods_ty mods_default -> Forall env_typed envs ->
  let '(w, r) := run_for_ticks fs parse_document parse_hub sha256 with_dimensions
    set_rm_stdp_config components display net_step mods_default d init_at check_at envs in
  IS (w_source w) /\ IK (w_sink w) /\ ingress_ty (w_ingress w) /\ health_ty (w_health w) /\
  forall stats, r = Ok stats -> stats_ty stats.
Proof.
  intros Hu Hs Hk Hd Hstep Hm He. unfold try_with_backend in Hd. split_ok.
  match goal with H : map_err IngressRejected _ = Ok _ |- _ => apply map_err_ok, (new_ty _ _ Hu) in H as Hi end.
  match goal with H : _ = Ok d |- _ => injection H as <- end.
  unfold run_for_ticks. cbv zeta. cbn [bd_config bd_source bd_sink bd_ingress bd_health].
  match goal with |- context [boot ?x _ _ _ _] => set (c' := x) end.
  destruct (boot_ty c' init_at check_at None source _ Hs (health_started_ty HealthLimits_default now)) as [Hs' Hh'].
  destruct (boot c' init_at check_at None _) as [[src health] [[net p]|e]]; simpl in Hs', Hh'.
  - pose proof (drive_ty net_step mods_default (Z.to_nat (channels c)) envs _ Hstep Hm He
      (first_tick_ty c' src sink net _ health (Some p) Hs' Hk Hi Hh')) as [].
    set (st := drive_ticks _ _ _ _) in *. unfold finish_bounded_run.
    pose proof (flush_typed _ ty_sink0) as Hf. destruct (flush (ts_sink st)) as [k rf].
    pose proof (shutdown_typed _ ty_source0) as Hsh. destruct (source_shutdown (ts_source st)) as [s' rs].
    split; [done|]. split; [done|]. split; [by apply shutdown_ty|]. split; [done|].
    intros stats. destruct rf, rs; simpl; try done; by intros [= <-].
  - unfold shutdown_backend. simpl. pose proof (flush_typed _ Hk). pose proof (shutdown_typed _ Hs').
    split; [done|]. split; [done|]. split; [by apply shutdown_ty|done].
Qed.
End TypedRun.

(** ** Witness *)

Lemma demo_step_typed ch : step_typed demo_net_step ch.
Proof. intros net stim mods ids _ _ _ [= <-]. constructor; [done|constructor]. Qed.

Lemma demo_env_typed : env_typed demo_env.
Proof. intros i. constructor. Qed.

Lemma run_typed_witness :
  exists d, try_with_backend demo_config StubSource CollectingSpikeSink_new 0 = Ok d /\
  Forall (Forall spike_ty) (emitted (w_sink (demo_bounded_run d 1 2 [demo_env; demo_env]).1)).
Proof.
  eexists. split; [vm_compute; reflexivity|]. match goal with |- context [demo_bounded_run ?d _ _ _] => set (d0 := d) end.
  pose proof (run_typed demo_fs (fun _ => Ok demo_document) (fun _ => Err tt) (fun b => b)
    demo_with_dimensions demo_set_config (fun s => [s]) (fun _ => "p"%string) demo_net_step demo_mods
    demo_config StubSource CollectingSpikeSink_new 0 d0 1 2 [demo_env; demo_env]) as H.
  destruct (demo_bounded_run d0 1 2 [demo_env; demo_env]) as [w r].
  apply H; [apply demo_config_unsigned|done|constructor|vm_compute; reflexivity
           |apply demo_step_typed|by repeat split|repeat constructor; apply demo_env_typed].
Defined.
