(* ===== verification/Startup.v ===== *)
(** * The binary: from the command line to a running daemon
    (src/bin/brainstem_daemon.rs)

    The calls [main] and [run] make, in order, with the effects they leave
    behind.  clap, the configuration directory, the file system, TOML,
    tracing's filter parser and the zmq socket are arguments, as are the
    checkpoint loader's. *)

From Stdlib Require Import Ascii.
From stdpp Require Import pretty.
From S2P Require Import Prelude Floats Packet NetAddr Queue QueueConc Ingress Health Config.
From S2P Require Import Backend Checkpoint Diagnostics Tick Daemon.
Local Open Scope Z_scope.

Definition CORPUS_IPC_READOUT_ENV : string := "CORPUS_IPC_ZMQ_READOUT_IPC".
Definition LEGACY_SPIKENAUT_READOUT_ENV : string := "SPIKENAUT_ZMQ_READOUT_IPC".

(** [Path::join] of a relative path: a separator only where one is needed. *)
Definition join_relative (base rel : string) : string :=
  if bool_decide (base = EmptyString) || ends_with "/"%char (as_bytes base) then base +:+ rel
  else base +:+ "/" +:+ rel.

(** [dirs::config_dir()] is [None] where the platform has none. *)
Definition default_config_path (config_dir : option string) : string :=
  join_relative (default "."%string config_dir) "soma/daemon.toml".

(** The calls on the PUB socket. *)
Inductive PubCall := SocketPub | SetSndhwm (n : Z) | SetLinger (ms : Z) | BindPub (endpoint : string).

Definition pub_calls (c : DaemonConfig) : list PubCall :=
  [SocketPub; SetSndhwm (spine_pub_sndhwm c); SetLinger (spine_pub_linger_ms c);
   BindPub (pub_endpoint (spine_pub_bind_host c) (spine_pub_port c))].

(** What the process leaves behind as it starts. *)
Inductive StartupEffect :=
| PrintError
| PrintDiagnostic
| SetVar (name value : string)
| Pub (call : PubCall).

Inductive StartupError {IoError TomlError : Type} :=
| LoadFailed (e : LoadError IoError TomlError)
| FilterFailed (e : string)
| InvalidCheckpoint (e : CheckpointError)
| PubFailed (call : PubCall) (e : string)
| InvalidDaemon (e : DaemonError).
Arguments StartupError : clear implicits.

Definition sub_endpoint (c : DaemonConfig) : string := "tcp://127.0.0.1:" +:+ pretty (spine_sub_port c).

Section Startup.
Context {LifRest NetRest StdpRest IoError TomlError EnvFilter FilterError : Type}.
Abbreviation Network := (@SpikingNetwork LifRest NetRest StdpRest).
Variable fs : Fs.
Variable parse_document : string -> result unit SidecarDocument.
Variable parse_hub : string -> result unit HubConfig.
Variable sha256 : list Z -> list Z.
Variable with_dimensions : Z -> Z -> Z -> Network.
Variable set_rm_stdp_config : @RmStdpConfig StdpRest -> Network -> Network.
Variable components : string -> path.
Variable display : path -> string.
Variable config_dir : option string.
Variable read_to_string : string -> result IoError string.
Variable toml_from_str : string -> result TomlError DaemonConfig.
Variable EnvFilter_new : string -> EnvFilter.
Variable EnvFilter_try_new : string -> result FilterError EnvFilter.
Variable zmq : PubCall -> result string unit.

Abbreviation start := (stateful (list StartupEffect) (StartupError IoError TomlError)).

Definition effect (e : StartupEffect) : start unit := modify (fun out => out ++ [e]).

(** The load in [main], which exits on an error. *)
Definition load_config (cli_config : option string) : start DaemonConfig :=
  match load read_to_string toml_from_str (default (default_config_path config_dir) cli_config) with
  | Ok cfg => mret cfg
  | Err e => effect PrintError ≫= fun _ => bail (LoadFailed e)
  end.

(** Compiled with the [corpus-ipc] feature only. *)
Definition set_readout_env (corpus_ipc : bool) (c : DaemonConfig) : start unit :=
  if corpus_ipc then
    effect (SetVar CORPUS_IPC_READOUT_ENV (sub_endpoint c)) ≫= fun _ =>
    effect (SetVar LEGACY_SPIKENAUT_READOUT_ENV (sub_endpoint c))
  else mret tt.

Definition init_logging (c : DaemonConfig) (rust_log : option string) : start unit :=
  lift_result (map_err FilterFailed (resolve_filter EnvFilter_new EnvFilter_try_new (log_level c) rust_log))
    ≫= fun resolved =>
  match rf_fallback_diagnostic resolved with
  | Some _ => effect PrintDiagnostic
  | None => mret tt
  end.

Definition restore_model (c : DaemonConfig) : start (Network * ModelProvenance) :=
  lift_result (map_err InvalidCheckpoint
    (restore_network fs parse_document parse_hub sha256 with_dimensions set_rm_stdp_config
       components display c)).

(** Everything up to the choice of a backend. *)
Definition prepare (corpus_ipc : bool) (cli_config rust_log : option string) :
    start (DaemonConfig * (Network * ModelProvenance)) :=
  load_config cli_config ≫= fun c =>
  set_readout_env corpus_ipc c ≫= fun _ =>
  init_logging c rust_log ≫= fun _ =>
  restore_model c ≫= fun restored =>
  mret (c, restored).

(** Each call is made, and ends the start if it fails. *)
Fixpoint open_pub (calls : list PubCall) : start unit :=
  match calls with
  | [] => mret tt
  | call :: calls' =>
    effect (Pub call) ≫= fun _ =>
    lift_result (map_err (PubFailed call) (zmq call)) ≫= fun _ =>
    open_pub calls'
  end.

Definition build_daemon {S K} (c : DaemonConfig) (source : S) (sink : K) (now : Z) :
    start (BrainstemDaemon S K) :=
  lift_result (map_err InvalidDaemon (try_with_backend c source sink now)).

(** With the feature: the SUB source waits for the run to connect it; [sends] is
    how the PUB socket's sends will go. *)
Definition run_zmq (cli_config rust_log : option string) (sends : list (result string unit)) (now : Z) :
    start (BrainstemDaemon ZmqStimulusSource ZmqSpikeSink * (Network * ModelProvenance)) :=
  prepare true cli_config rust_log ≫= fun '(c, restored) =>
  open_pub (pub_calls c) ≫= fun _ =>
  build_daemon c (with_channels (channels c)) (sink_with_policy sends (spine_pub_send_empty_batches c)) now
    ≫= fun d =>
  mret (d, restored).

(** Without it. *)
Definition run_stub (cli_config rust_log : option string) (now : Z) :
    start (BrainstemDaemon StubStimulusSource NoopSpikeSink * (Network * ModelProvenance)) :=
  prepare false cli_config rust_log ≫= fun '(c, restored) =>
  build_daemon c StubSource NoopSink now ≫= fun d =>
  mret (d, restored).

(** ** What a start establishes *)

(** A configuration, filter and network that passed every check before the
    first socket. *)
Record checked (cli_config rust_log : option string) (c : DaemonConfig)
    (restored : Network * ModelProvenance) : Prop := {
  ch_load : load read_to_string toml_from_str (default (default_config_path config_dir) cli_config) = Ok c;
  ch_config : daemon_validate c = Ok tt;
  ch_filter : is_ok (resolve_filter EnvFilter_new EnvFilter_try_new (log_level c) rust_log) = true;
  ch_network : restore_network fs parse_document parse_hub sha256 with_dimensions set_rm_stdp_config
    components display c = Ok restored;
}.

Definition is_pub (e : StartupEffect) : bool := match e with Pub _ => true | _ => false end.

Lemma load_validates path c :
  load read_to_string toml_from_str path = Ok c ->
  daemon_validate c = Ok tt /\ exists text, toml_from_str text = Ok c.
Proof.
  unfold load. rewrite require_bind_ok. intros [_ (text & _ & H)%result_bind_ok].
  apply result_bind_ok in H as (c' & Hp & H). apply result_bind_ok in H as ([] & Hv & [= ->]).
  apply map_err_ok in Hv, Hp. split; [done|]. by exists text.
Qed.

Lemma validated_filter c rust_log :
  daemon_validate c = Ok tt -> is_ok (resolve_filter EnvFilter_new EnvFilter_try_new (log_level c) rust_log) = true.
Proof.
  unfold daemon_validate. rewrite require_bind_ok. intros [_ ([] & _ & H)%result_bind_ok].
  apply result_bind_ok in H as ([] & _ & H). rewrite !require_bind_ok in H. destruct H as (_ & _ & H).
  apply result_bind_ok in H as ([] & Hl & _). unfold resolve_filter.
  destruct (validate_log_level (log_level c)) as [[]|e]; [|done]. cbn [mbind result_bind].
  destruct rust_log as [v|]; [by destruct (EnvFilter_try_new v)|done].
Qed.

(** What [load] accepted builds a daemon. *)
Lemma validated_builds {S K} c (source : S) (sink : K) now :
  daemon_validate c = Ok tt ->
  exists i, try_with_backend c source sink now =
    Ok (MkDaemon _ _ (take_services c).1 (from_configs (services c)) source sink i
          (handle_started HealthLimits_default now)).
Proof.
  intros Hv. unfold try_with_backend. rewrite Hv. cbn [map_err mbind result_bind].
  unfold daemon_validate in Hv. rewrite require_bind_ok in Hv. destruct Hv as [_ ([] & _ & H)%result_bind_ok].
  apply result_bind_ok in H as ([] & Hi & _). unfold BoundedIngress_new.
  destruct (ingress_validate (ingress c)) as [[]|e]; [|done]. by eexists.
Qed.

(** The effects and the result of the part before the backend. *)
Definition prepared (corpus_ipc : bool) (cli_config rust_log : option string) (out : list StartupEffect)
    (r : result (StartupError IoError TomlError) (DaemonConfig * (Network * ModelProvenance))) : Prop :=
  forallb (fun e => negb (is_pub e)) out = true /\
  match r with
  | Ok (c, restored) =>
    checked cli_config rust_log c restored /\
    (corpus_ipc = true ->
       In (SetVar CORPUS_IPC_READOUT_ENV (sub_endpoint c)) out /\
       In (SetVar LEGACY_SPIKENAUT_READOUT_ENV (sub_endpoint c)) out)
  | Err (LoadFailed _) => out = [PrintError]
  | Err (InvalidCheckpoint _) => True
  | Err _ => False
  end.

Lemma prepare_ok corpus_ipc cli_config rust_log :
  let '(out, r) := prepare corpus_ipc cli_config rust_log [] in prepared corpus_ipc cli_config rust_log out r.
Proof.
  unfold prepare, load_config. set (p := default (default_config_path config_dir) cli_config).
  destruct (load read_to_string toml_from_str p) as [c|e] eqn:Hload; [|done].
  pose proof (load_validates _ _ Hload) as [Hv _]. pose proof (validated_filter c rust_log Hv) as Hf.
  pose proof (fun restored Hr => Build_checked cli_config rust_log c restored Hload Hv Hf Hr) as Hch.
  unfold init_logging, restore_model, set_readout_env.
  destruct corpus_ipc; cbv [mbind stateful_bind effect modify lift_result mret stateful_ret bail app].
  all: destruct (resolve_filter _ _ _ _) as [f|e]; [|done]; cbv [map_err].
  all: destruct (restore_network _ _ _ _ _ _ _ _ c) as [restored|e], (rf_fallback_diagnostic f); try done.
  all: specialize (Hch restored eq_refl); split; [done|]; split; [done|]; try done.
  all: intros _; simpl; auto.
Qed.

Lemma open_pub_cons call calls out :
  open_pub (call :: calls) out =
  match zmq call with
  | Ok _ => open_pub calls (out ++ [Pub call])
  | Err e => (out ++ [Pub call], Err (PubFailed call e))
  end.
Proof.
  cbn [open_pub]. cbv [mbind stateful_bind effect modify lift_result map_err]. by destruct (zmq call).
Qed.

(** The calls a PUB set-up makes: all of them, or up to the one that failed. *)
Lemma open_pub_calls calls out :
  match open_pub calls out with
  | (out', Ok _) => out' = out ++ (Pub <$> calls)
  | (out', Err e) => exists before failed rest msg,
      calls = before ++ failed :: rest /\ e = PubFailed failed msg /\ out' = out ++ (Pub <$> before ++ [failed])
  end.
Proof.
  revert out. induction calls as [|call calls IH]; intros out; [simpl; by rewrite app_nil_r|].
  rewrite open_pub_cons. destruct (zmq call) as [u|e]; [|by exists [], call, calls, e].
  specialize (IH (out ++ [Pub call])). destruct (open_pub calls (out ++ [Pub call])) as [out' [u'|e]].
  - by rewrite IH, <- (assoc_L app).
  - destruct IH as (before & failed & rest & msg & -> & -> & ->). exists (call :: before), failed, rest, msg.
    split; [done|]. split; [done|]. by rewrite <- (assoc_L app).
Qed.

(** The restored pair is the one the boot of the run accepts. *)
Lemma checked_boots cli_config rust_log c restored :
  with_dimensions_sized with_dimensions -> set_config_sets set_rm_stdp_config -> 0 <= lif_count c ->
  checked cli_config rust_log c restored ->
  take_restored_network fs parse_document parse_hub sha256 with_dimensions set_rm_stdp_config components
    display (take_services c).1 (Some restored) = Ok restored.
Proof.
  intros Hdim Hset Hl [_ _ _ Hr]. destruct restored as [net p].
  apply restore_sound in Hr as [_ Hr]; [|done|done]. unfold take_restored_network. cbn [mbind result_bind].
  assert (validate_restored_pair (take_services c).1 net p = Ok tt) as ->; [|done].
  unfold validate_restored_pair. simpl. destruct (runtime_mode c).
  - destruct Hr as [[L1 L2 L3 _ _ _] ->]. rewrite bool_decide_true, L1, L2, L3, !Z.eqb_refl by done. done.
  - destruct Hr as [-> ->]. destruct (Hdim (lif_count c) (izh_count c) (channels c) Hl) as (-> & -> & ->).
    by rewrite bool_decide_true, !Z.eqb_refl by done.
Qed.

(** A start that succeeds built its daemon from what it checked. *)
Lemma run_zmq_ok cli_config rust_log sends now out d restored :
  run_zmq cli_config rust_log sends now [] = (out, Ok (d, restored)) ->
  exists c, checked cli_config rust_log c restored /\
    try_with_backend c (with_channels (channels c)) (sink_with_policy sends (spine_pub_send_empty_batches c)) now =
      Ok d.
Proof.
  unfold run_zmq. intros (before & [c given] & Hp & Hr)%stateful_bind_ok.
  apply stateful_bind_ok in Hr as (opened & u & _ & Hr). apply stateful_bind_ok in Hr as (built & d' & Hb & [= <- <- <-]).
  pose proof (prepare_ok true cli_config rust_log) as Hprep. rewrite Hp in Hprep. destruct Hprep as (_ & Hc & _).
  exists c. split; [done|]. unfold build_daemon, lift_result in Hb. injection Hb as _ Hb. by apply map_err_ok in Hb.
Qed.

(** C15: the binary fails closed and never fails late.  No PUB socket is created
    unless the configuration was accepted, the log filter resolved and the
    network restored; the calls made on it are then, in this order and up to the
    first that fails, its creation, its send high-water mark and its linger as
    configured, and only then its bind, to the configured host and port.  Nothing else can stop a start: the filter and the second validation
    in the daemon's constructor cannot fail on a loaded configuration, and the
    boot takes the network the binary restored.  The endpoint a source connects
    to is the configured port's, whatever the environment held before. *)
Theorem startup_fail_closed cli_config rust_log sends now :
  with_dimensions_sized with_dimensions -> set_config_sets set_rm_stdp_config ->
  (forall text c, toml_from_str text = Ok c -> daemon_unsigned c) ->
  let '(out, r) := run_zmq cli_config rust_log sends now [] in
  match r with
  | Ok (d, restored) => exists c before,
      checked cli_config rust_log c restored /\ bd_config d = (take_services c).1 /\
      forallb (fun e => negb (is_pub e)) before = true /\
      out = before ++ [Pub SocketPub; Pub (SetSndhwm (spine_pub_sndhwm c)); Pub (SetLinger (spine_pub_linger_ms c));
                       Pub (BindPub (pub_endpoint (spine_pub_bind_host c) (spine_pub_port c)))] /\
      In (SetVar CORPUS_IPC_READOUT_ENV (sub_endpoint c)) before /\
      (forall legacy, readout_endpoint (Some (sub_endpoint c)) legacy = sub_endpoint c) /\
      take_restored_network fs parse_document parse_hub sha256 with_dimensions set_rm_stdp_config
        components display (bd_config d) (Some restored) = Ok restored
  | Err (PubFailed failed msg) => exists c restored before done rest,
      checked cli_config rust_log c restored /\ forallb (fun e => negb (is_pub e)) before = true /\
      [SocketPub; SetSndhwm (spine_pub_sndhwm c); SetLinger (spine_pub_linger_ms c);
       BindPub (pub_endpoint (spine_pub_bind_host c) (spine_pub_port c))] = done ++ failed :: rest /\
      out = before ++ (Pub <$> done ++ [failed])
  | Err (LoadFailed _) | Err (InvalidCheckpoint _) => forallb (fun e => negb (is_pub e)) out = true
  | Err _ => False
  end.
Proof.
  intros Hdim Hset Hun. pose proof (prepare_ok true cli_config rust_log) as Hp. unfold run_zmq.
  unfold mbind at 1, stateful_bind at 1. destruct (prepare true cli_config rust_log []) as [before r0].
  destruct r0 as [[c restored]|e]; destruct Hp as [Hb Hp]; [|by destruct e].
  destruct Hp as [Hch Hv]. destruct (load_validates _ _ (ch_load _ _ _ _ Hch)) as [_ [text Ht]]. destruct (Hv eq_refl) as [Hv1 _].
  pose proof (open_pub_calls (pub_calls c) before) as Ho. unfold mbind at 1, stateful_bind at 1.
  destruct (open_pub (pub_calls c) before) as [out [u|e]].
  - destruct (validated_builds c (with_channels (channels c))
      (sink_with_policy sends (spine_pub_send_empty_batches c)) now (ch_config _ _ _ _ Hch)) as [i Hi].
    unfold build_daemon. rewrite Hi. cbv [mbind stateful_bind lift_result map_err mret stateful_ret].
    exists c, before. repeat (split; [done|]). apply (checked_boots cli_config rust_log c restored Hdim Hset); [|done].
    by destruct (Hun _ _ Ht).
  - destruct Ho as (calls & failed & rest & msg & Hc & -> & ->). by exists c, restored, before, calls, rest.
Qed.
End Startup.

(** ** Witness *)

Definition demo_run_zmq := run_zmq demo_fs (fun _ => Ok demo_document) (fun _ => Err tt) (fun b => b)
  demo_with_dimensions demo_set_config (fun s => [s]) (fun _ => "p"%string) None
  (fun _ => Ok "toml"%string : result unit string) (fun _ => Ok demo_config : result unit DaemonConfig)
  (fun level => level) (fun v => Ok v : result unit string) (fun _ => Ok tt) None None [] 3 [].

Lemma demo_run_zmq_starts : is_ok demo_run_zmq.2 = true.
Proof. by vm_compute. Qed.

Lemma startup_fail_closed_witness :
  exists before, demo_run_zmq.1 = before ++ [Pub SocketPub; Pub (SetSndhwm (spine_pub_sndhwm demo_config));
    Pub (SetLinger (spine_pub_linger_ms demo_config));
    Pub (BindPub (pub_endpoint (spine_pub_bind_host demo_config) (spine_pub_port demo_config)))] /\
    forallb (fun e => negb (is_pub e)) before = true.
Proof.
  pose proof (startup_fail_closed demo_fs (fun _ => Ok demo_document) (fun _ => Err tt) (fun b => b)
    demo_with_dimensions demo_set_config (fun s => [s]) (fun _ => "p"%string) None
    (fun _ => Ok "toml"%string : result unit string) (fun _ => Ok demo_config : result unit DaemonConfig)
    (fun level => level) (fun v => Ok v : result unit string) (fun _ => Ok tt) None None [] 3
    demo_dimensions_sized demo_config_sets ltac:(intros ? ? [= <-]; exact demo_config_unsigned)) as H.
  fold demo_run_zmq in H. pose proof demo_run_zmq_starts as Hok.
  destruct demo_run_zmq as [out [[d restored]|e]]; [|discriminate Hok].
  destruct H as (c & before & [[= <-] _ _ _] & _ & Hb & -> & _). by exists before.
Defined.
