(* ===== verification/Control.v ===== *)
(** * The control surface (src/control.rs)

    The HTTP listener: reading a request line, answering it from a health
    snapshot, and the connection slots.  The socket's reads and writes are the
    environment, with the instants they complete at, in nanoseconds since the
    connection was accepted; serde_json is the argument [to_vec]. *)

From Stdlib Require Import Ascii.
From S2P Require Import Prelude NetAddr Text Health HealthView.
Local Open Scope Z_scope.

Definition IO_TIMEOUT : Z := 2000000000.
Definition BUSY_IO_TIMEOUT : Z := 50000000.
Definition MAX_CONTROL_CONNS : Z := 32.
Definition MAX_BUSY_CONNS : Z := 4.

(** ** Reading the request *)

(** How an I/O future ends. *)
Inductive outcome (A : Type) :=
| Never
| Fails (at_ns : Z)
| Completes (at_ns : Z) (a : A).
Arguments Never {A}.
Arguments Fails {A} at_ns.
Arguments Completes {A} at_ns a.

Inductive ControlError := TimedOut | IoFailed.

(** [timed_io]: [tokio::time::timeout] polls the future before the deadline. *)
Definition timed_io {A} (timeout : Z) (o : outcome A) : result ControlError A :=
  match o with
  | Completes t a => if t <=? timeout then Ok a else Err TimedOut
  | Fails t => if t <=? timeout then Err IoFailed else Err TimedOut
  | Never => Err TimedOut
  end.

(** What each [read] returns and when; no bytes is the end of the stream, and a
    list that ends is a peer gone silent. *)
Abbreviation Socket := (list (Z * option bytes)).

Definition REQUEST_BUF : Z := 1024.

Definition request_line_complete (read : Z) (buf : bytes) : bool :=
  (read =? 0) || existsb (Ascii.eqb lf) buf.

(** The [while] loop of [read_request_line]; [None] is fuel run out.  What a
    read cannot fit in the buffer stays in the socket: the loop ends there. *)
Fixpoint read_loop (fuel : nat) (buf : bytes) (now : Z) (sock : Socket) : option (outcome bytes) :=
  match fuel with
  | O => None
  | S fuel' =>
    if len buf <? REQUEST_BUF then
      match sock with
      | [] => Some Never
      | (t, None) :: _ => Some (Fails (Z.max now t))
      | (t, Some chunk) :: sock' =>
        let got := take (Z.to_nat (REQUEST_BUF - len buf)) chunk in
        let buf' := buf ++ got in
        if request_line_complete (len got) buf' then Some (Completes (Z.max now t) buf')
        else read_loop fuel' buf' (Z.max now t) sock'
      end
    else Some (Completes now buf)
  end.

Definition READ_FUEL : nat := Z.to_nat (REQUEST_BUF + 1).

Definition read_request_line (sock : Socket) : outcome bytes :=
  default Never (read_loop READ_FUEL [] 0 sock).

(** [str::from_utf8(..).unwrap_or("")]. *)
Definition read_http_request (sock : Socket) : result ControlError bytes :=
  timed_io IO_TIMEOUT (read_request_line sock) ≫= fun buf =>
  Ok (if utf8_valid (code <$> buf) then buf else []).

(** ** Answering it *)

Inductive ParseResult := Get (path : bytes) | NotGet | Invalid.

Fixpoint path_without_query (target : bytes) : bytes :=
  match target with
  | [] => []
  | c :: target' => if Ascii.eqb c "?"%char then [] else c :: path_without_query target'
  end.

Definition parse_request_line (line : bytes) : ParseResult :=
  match split_whitespace line with
  | meth :: target :: _ =>
    if negb (eq_ignore_ascii_case meth (as_bytes "GET")) then NotGet
    else Get (path_without_query target)
  | _ => Invalid
  end.

Definition parse_get_path (request : bytes) : ParseResult :=
  match first_line request with
  | None => Invalid
  | Some line => parse_request_line line
  end.

(** [Display] of an unsigned integer: one digit per bit is enough. *)
Definition show_dec (n : Z) : bytes := dec_digits (S (Z.to_nat (Z.log2 n))) n.

Definition crlf : bytes := [cr; lf].

Definition reason (status : Z) : string :=
  if status =? 200 then "OK"
  else if status =? 400 then "Bad Request"
  else if status =? 404 then "Not Found"
  else if status =? 405 then "Method Not Allowed"
  else if status =? 503 then "Service Unavailable"
  else "OK".

Definition http_response (status : Z) (content_type : string) (body : bytes) : bytes :=
  as_bytes "HTTP/1.1 " ++ show_dec status ++ as_bytes " " ++ as_bytes (reason status) ++ crlf ++
  as_bytes "Content-Type: " ++ as_bytes content_type ++ crlf ++
  as_bytes "Content-Length: " ++ show_dec (len body) ++ crlf ++
  as_bytes "Connection: close" ++ crlf ++ crlf ++ body.

Definition text_plain : string := "text/plain; charset=utf-8".
Definition line_body (s : string) : bytes := as_bytes s ++ [lf].

Definition probe (ok : bool) (yes no : bytes) : Z * string * bytes :=
  if ok then (200, text_plain, yes) else (503, text_plain, no).

Definition busy_http : bytes := http_response 503 text_plain (line_body "busy").

Section Replies.
Variable to_vec : HealthSnapshot -> option bytes.

Definition route (path : bytes) (snap : HealthSnapshot) : Z * string * bytes :=
  let at_path p := bool_decide (path = as_bytes p) in
  if at_path "/livez"%string || at_path "/healthz/live"%string
  then probe (hs_live snap) (line_body "live") (line_body "not live")
  else if at_path "/readyz"%string || at_path "/healthz/ready"%string
  then probe (hs_ready snap) (line_body "ready") (line_body "not ready")
  else if at_path "/health"%string
  then (200, "application/json"%string, default (as_bytes "{}") (to_vec snap))
  else if at_path "/metrics"%string
  then (200, "text/plain; version=0.0.4"%string, as_bytes (prometheus_text snap))
  else (404, text_plain, line_body "not found").

Definition render_http (request : bytes) (snap : HealthSnapshot) : bytes :=
  match parse_get_path request with
  | Get path => let '(status, content_type, body) := route path snap in http_response status content_type body
  | NotGet => http_response 405 text_plain (line_body "method not allowed")
  | Invalid => http_response 400 text_plain (line_body "bad request")
  end.

(** [write_locked]: a writer holds the machine's lock. *)
Definition control_response (request : bytes) (write_locked : bool) (m : HealthMachine) (now : Z) : bytes :=
  match try_snapshot write_locked m now with
  | Some snap => render_http request snap
  | None => busy_http
  end.

(** [write] is how writing the reply and flushing end. *)
Definition write_http_response (write : bytes -> outcome unit) (response : bytes) : result ControlError unit :=
  timed_io IO_TIMEOUT (write response).

Definition handle_connection (sock : Socket) (write : bytes -> outcome unit) (write_locked : bool)
    (m : HealthMachine) (now : Z) : result ControlError bytes :=
  read_http_request sock ≫= fun req =>
  let response := control_response req write_locked m now in
  write_http_response write response ≫= fun _ => Ok response.
End Replies.

Definition write_busy_http (write : bytes -> outcome unit) : result ControlError bytes :=
  timed_io BUSY_IO_TIMEOUT (write busy_http) ≫= fun _ => Ok busy_http.

(** ** The listener *)

(** Permits held by the tasks of served and of busy connections. *)
Record ControlServer := MkControlServer {
  cs_served : Z;
  cs_busy : Z;
  cs_stopped : bool;
}.

(** What the loop and its tasks meet: the shutdown channel changes ([None] when
    its sender is gone), a connection or an accept error arrives, a task ends. *)
Inductive ControlEvent :=
| ShutdownChanged (value : option bool)
| Accept (ok : bool)
| ServedEnds
| BusyEnds.

Inductive ControlEffect := Nothing | Serving | BusyReply | Closed | Backoff.

#[export] Instance ControlEffect_eq_dec : EqDecision ControlEffect.
Proof. solve_decision. Defined.

Definition should_stop_control (value : option bool) : bool :=
  match value with None => true | Some signaled => signaled end.

Definition spawn_busy_conn (st : ControlServer) : ControlServer * ControlEffect :=
  if cs_busy st <? MAX_BUSY_CONNS
  then (MkControlServer (cs_served st) (cs_busy st + 1) (cs_stopped st), BusyReply)
  else (st, Closed).

Definition spawn_control_conn (st : ControlServer) : ControlServer * ControlEffect :=
  if cs_served st <? MAX_CONTROL_CONNS
  then (MkControlServer (cs_served st + 1) (cs_busy st) (cs_stopped st), Serving)
  else spawn_busy_conn st.

Definition spawn_accepted (ok : bool) (st : ControlServer) : ControlServer * ControlEffect :=
  if ok then spawn_control_conn st else (st, Backoff).

(** One event; [None] if it cannot happen: the loop takes nothing once stopped,
    and only running tasks end.  Tasks outlive the loop. *)
Definition control_step (ev : ControlEvent) (st : ControlServer) : option (ControlServer * ControlEffect) :=
  match ev with
  | ShutdownChanged value =>
    if cs_stopped st then None
    else Some (MkControlServer (cs_served st) (cs_busy st) (should_stop_control value), Nothing)
  | Accept ok => if cs_stopped st then None else Some (spawn_accepted ok st)
  | ServedEnds =>
    if 0 <? cs_served st then Some (MkControlServer (cs_served st - 1) (cs_busy st) (cs_stopped st), Nothing)
    else None
  | BusyEnds =>
    if 0 <? cs_busy st then Some (MkControlServer (cs_served st) (cs_busy st - 1) (cs_stopped st), Nothing)
    else None
  end.

Fixpoint control_run (evs : list ControlEvent) (st : ControlServer) (out : list ControlEffect) :
    option (ControlServer * list ControlEffect) :=
  match evs with
  | [] => Some (st, out)
  | ev :: evs' =>
    match control_step ev st with
    | Some (st', e) => control_run evs' st' (out ++ [e])
    | None => None
    end
  end.

(** [serve_listener]: an earlier shutdown keeps the loop from starting. *)
Definition serve_listener (signaled : bool) (evs : list ControlEvent) :
    option (ControlServer * list ControlEffect) :=
  control_run evs (MkControlServer 0 0 signaled) [].

(** [serve]: the listener is bound first, and a failed bind serves nothing. *)
Definition serve (bind : result string unit) (signaled : bool) (evs : list ControlEvent) :
    option (result string (ControlServer * list ControlEffect)) :=
  match bind with
  | Err e => Some (Err e)
  | Ok _ => Ok <$> serve_listener signaled evs
  end.

(** ** An HTTP client *)

Definition no_lf (s : bytes) : bool := forallb (fun c => negb (Ascii.eqb c lf)) s.

(** A header line, without its line end. *)
Definition read_line : reader bytes := fun s =>
  match split_lf s with
  | (line, Some rest) => Some (strip_cr line, rest)
  | (_, None) => None
  end.

Definition read_prefixed (pre : string) : reader bytes := fun s =>
  match read_line s with
  | Some (line, rest) =>
    match strip_bytes (as_bytes pre) line with Some v => Some (v, rest) | None => None end
  | None => None
  end.

(** The number a text starts with, and what follows it. *)
Definition leading_number (max : Z) (s : bytes) : option (Z * bytes) :=
  match digits_checked 10 max s 0 0 with Some (v, _, rest) => Some (v, rest) | None => None end.

(** Status code, content type and body of a reply that is framed: the fields the
    server sends, an empty line, and exactly as many bytes as announced. *)
Definition client_parse (raw : bytes) : option (Z * bytes * bytes) :=
  '(status_line, s) ← read_prefixed "HTTP/1.1 " raw;
  '(status, _) ← leading_number u16_max status_line;
  '(content_type, s) ← read_prefixed "Content-Type: " s;
  '(content_length, s) ← read_prefixed "Content-Length: " s;
  '(length, junk) ← leading_number (len raw) content_length;
  '(connection, s) ← read_prefixed "Connection: " s;
  '(blank, body) ← read_line s;
  if bool_decide (junk = [] /\ connection = as_bytes "close" /\ blank = [] /\ len body = length)
  then Some (status, content_type, body) else None.

Lemma no_lf_app a b : no_lf (a ++ b) = no_lf a && no_lf b.
Proof. apply forallb_app. Qed.

Lemma read_line_app a s : no_lf a = true -> read_line (a ++ crlf ++ s) = Some (a, s).
Proof.
  intros Ha. unfold read_line. replace (a ++ crlf ++ s) with ((a ++ [cr]) ++ lf :: s) by by rewrite <- (assoc_L app).
  rewrite split_lf_app; [by rewrite strip_cr_app|].
  change (no_lf (a ++ [cr]) = true). by rewrite no_lf_app, Ha.
Qed.

Lemma read_prefixed_app pre a s :
  no_lf (as_bytes pre) = true -> no_lf a = true ->
  read_prefixed pre (as_bytes pre ++ a ++ crlf ++ s) = Some (a, s).
Proof.
  intros Hp Ha. unfold read_prefixed. rewrite (assoc_L app), read_line_app by by rewrite no_lf_app, Hp, Ha.
  by rewrite strip_bytes_app.
Qed.

Lemma show_dec_number n max s :
  0 <= n <= max -> ends_number s -> leading_number max (show_dec n ++ s) = Some (n, s).
Proof.
  intros Hn Hs. unfold leading_number, show_dec.
  assert (0 <= n < 10 ^ Z.of_nat (S (Z.to_nat (Z.log2 n)))) as Hb.
  { split; [lia|]. pose proof (Z.log2_nonneg n). rewrite Nat2Z.inj_succ, Z2Nat.id by done.
    destruct (decide (n = 0)) as [->|]; [by vm_compute|].
    pose proof (Z.log2_spec n ltac:(lia)) as [_ H2].
    pose proof (Z.pow_le_mono_l 2 10 (Z.succ (Z.log2 n)) ltac:(lia)). lia. }
  destruct (dec_digits_checked _ n max s Hb) as [-> _]; [lia|lia|].
  by rewrite digits_checked_end.
Qed.

Lemma show_dec_forallb (p : ascii -> bool) n :
  0 <= n -> forallb p (digit_char <$> seqZ 0 10) = true -> forallb p (show_dec n) = true.
Proof.
  intros Hn Hp. unfold show_dec. generalize (S (Z.to_nat (Z.log2 n))) as fuel. intros fuel. revert n Hn.
  induction fuel as [|fuel IH]; intros n Hn; [done|]. rewrite dec_digits_S, forallb_app.
  assert (p (digit_char (n mod 10)) = true) as Hd.
  { rewrite forallb_forall in Hp. apply Hp, list_elem_of_In, list_elem_of_fmap.
    exists (n mod 10). split; [done|]. apply elem_of_seqZ, Z.mod_pos_bound. lia. }
  cbn [forallb]. rewrite Hd, !andb_true_r. destruct (n <? 10); [done|]. apply IH, Z.div_pos; lia.
Qed.

Lemma show_dec_no_lf n : 0 <= n -> no_lf (show_dec n) = true.
Proof. intros Hn. by apply show_dec_forallb. Qed.

Lemma show_dec_nonempty n : show_dec n <> [].
Proof.
  unfold show_dec. rewrite dec_digits_S. intros [_ H]%app_nil. discriminate H.
Qed.

Lemma len_http_response status ct body : len body <= len (http_response status ct body).
Proof.
  unfold http_response, len. rewrite !length_app. lia.
Qed.

(** Every reply of the server is framed. *)
Lemma client_parse_response status ct body :
  0 <= status <= u16_max -> no_lf (as_bytes ct) = true ->
  client_parse (http_response status ct body) = Some (status, as_bytes ct, body).
Proof.
  intros Hst Hct. pose proof (len_http_response status ct body) as Hlen. pose proof (len_nonneg body).
  unfold client_parse. generalize dependent (len (http_response status ct body)). intros max Hmax.
  unfold http_response.
  assert (no_lf (as_bytes (reason status)) = true) as Hr
    by (unfold reason; by repeat case_match).
  rewrite (assoc_L app (as_bytes " ")), (assoc_L app (show_dec status)).
  rewrite read_prefixed_app; [|done|by rewrite !no_lf_app, show_dec_no_lf, Hr by lia].
  cbn [mbind option_bind]. rewrite show_dec_number by done. cbn [mbind option_bind].
  rewrite read_prefixed_app by done. cbn [mbind option_bind].
  rewrite read_prefixed_app; [|done|by apply show_dec_no_lf]. cbn [mbind option_bind].
  rewrite <- (app_nil_r (show_dec (len body))), show_dec_number by done. cbn [mbind option_bind].
  change (as_bytes "Connection: close") with (as_bytes "Connection: " ++ as_bytes "close").
  rewrite <- (assoc_L app), read_prefixed_app by done. cbn [mbind option_bind].
  change (crlf ++ body) with ([] ++ crlf ++ body). rewrite read_line_app by done. cbn [mbind option_bind].
  by rewrite bool_decide_true.
Qed.

Definition client_request (meth target rest : bytes) : bytes :=
  meth ++ " "%char :: target ++ as_bytes " HTTP/1.1" ++ crlf ++ rest.

Definition token (w : bytes) : bool := negb (bool_decide (w = [])) && forallb graphic w.

Lemma graphic_no_lf w : forallb graphic w = true -> no_lf w = true.
Proof.
  induction w as [|c w IH]; simpl; [done|]. intros [Hc Hw]%andb_true_iff. rewrite IH by done.
  rewrite andb_true_r. apply negb_true_iff, Ascii.eqb_neq. by intros ->.
Qed.

(** The request line of a client is read back. *)
Lemma parse_client_request meth target rest :
  token meth = true -> token target = true ->
  parse_get_path (client_request meth target rest) =
  if eq_ignore_ascii_case meth (as_bytes "GET") then Get (path_without_query target) else NotGet.
Proof.
  unfold token. intros [Hm1 Hm2]%andb_true_iff [Ht1 Ht2]%andb_true_iff.
  apply negb_true_iff, bool_decide_eq_false in Hm1, Ht1. unfold parse_get_path, client_request.
  replace (meth ++ " "%char :: target ++ as_bytes " HTTP/1.1" ++ crlf ++ rest)
    with ((meth ++ " "%char :: target ++ as_bytes " HTTP/1.1") ++ crlf ++ rest)
    by (rewrite <- !app_assoc; cbn [app]; by rewrite <- !app_assoc).
  unfold crlf at 1. cbn [app]. rewrite first_line_crlf.
  - unfold parse_request_line. rewrite split_whitespace_word by done.
    change (as_bytes " HTTP/1.1") with (" "%char :: as_bytes "HTTP/1.1").
    rewrite split_whitespace_word by done. by destruct (eq_ignore_ascii_case _ _).
  - change (no_lf (meth ++ " "%char :: target ++ as_bytes " HTTP/1.1") = true).
    rewrite no_lf_app. change (no_lf (" "%char :: target ++ as_bytes " HTTP/1.1"))
      with (no_lf (target ++ as_bytes " HTTP/1.1")).
    by rewrite no_lf_app, (graphic_no_lf meth), (graphic_no_lf target).
Qed.

(** What the documented paths answer. *)
Definition expected_reply (to_vec : HealthSnapshot -> option bytes) (path : bytes) (snap : HealthSnapshot)
    (status : Z) (body : bytes) : Prop :=
  (path = as_bytes "/livez" \/ path = as_bytes "/healthz/live" ->
     status = (if hs_live snap then 200 else 503)) /\
  (path = as_bytes "/readyz" \/ path = as_bytes "/healthz/ready" ->
     status = (if hs_ready snap then 200 else 503)) /\
  (path = as_bytes "/health" -> status = 200 /\ forall json, to_vec snap = Some json -> body = json) /\
  (path = as_bytes "/metrics" -> status = 200 /\ body = as_bytes (prometheus_text snap)) /\
  (status = 404 <->
     ~ In path (as_bytes <$> ["/livez"; "/healthz/live"; "/readyz"; "/healthz/ready"; "/health"; "/metrics"]%string)).

Lemma route_expected to_vec path snap :
  let '(status, ct, body) := route to_vec path snap in
  expected_reply to_vec path snap status body /\ In status [200; 404; 503] /\ no_lf (as_bytes ct) = true.
Proof.
  unfold expected_reply.
  destruct (decide (In path (as_bytes <$> ["/livez"; "/healthz/live"; "/readyz"; "/healthz/ready"; "/health";
    "/metrics"]%string))) as [Hin|Hout].
  - pose proof Hin as Hp. unfold route, probe.
    simpl in Hp. repeat destruct Hp as [<-|Hp]; [..|done].
    all: repeat match goal with |- context [bool_decide (as_bytes ?a = as_bytes ?b)] =>
      let v := eval vm_compute in (bool_decide (as_bytes a = as_bytes b)) in
      change (bool_decide (as_bytes a = as_bytes b)) with v end; cbn [orb].
    all: destruct (hs_live snap), (hs_ready snap).
    all: split; [|split; [simpl; auto|done]].
    all: repeat split; try done; try (by intros [?|?]); try (intros json Hj; by rewrite Hj).
  - assert (route to_vec path snap = (404, text_plain, line_body "not found")) as ->.
    { unfold route. simpl in Hout. by rewrite !bool_decide_false by (intros ->; apply Hout; tauto). }
    split; [|split; [simpl; auto|done]]. simpl in Hout.
    repeat split; try done; intros; destruct_or?; subst; exfalso; apply Hout; tauto.
Qed.

(** C28: every reply is framed and says what the machine knows.  Whatever bytes
    a client sends, it reads the reply back as one status among 200, 400, 404,
    405 and 503, a content type and exactly the announced body; a well-formed
    request gets 405 unless its method is GET in any case, and then, query
    dropped, what its path promises: liveness, readiness, the snapshot as JSON,
    the metrics page, or 404.  While a writer holds the machine the answer is a
    503 that waits for nobody. *)
Theorem control_replies to_vec req snap m now :
  client_parse (control_response to_vec req true m now) = Some (503, as_bytes text_plain, line_body "busy") /\
  control_response to_vec req false m now = render_http to_vec req (snapshot m now) /\
  exists status content_type body,
    client_parse (render_http to_vec req snap) = Some (status, content_type, body) /\
    In status [200; 400; 404; 405; 503] /\
    forall meth target rest,
      token meth = true -> token target = true -> req = client_request meth target rest ->
      if eq_ignore_ascii_case meth (as_bytes "GET")
      then expected_reply to_vec (path_without_query target) snap status body
      else status = 405.
Proof.
  split; [by apply client_parse_response|]. split; [done|].
  assert (forall status ct body, In status [200; 400; 404; 405; 503] -> no_lf (as_bytes ct) = true ->
    client_parse (http_response status ct body) = Some (status, as_bytes ct, body)) as Hparse.
  { intros status ct body Hst. apply client_parse_response. unfold u16_max. simpl in Hst. lia. }
  unfold render_http. destruct (parse_get_path req) as [path| |] eqn:Hreq.
  - pose proof (route_expected to_vec path snap) as Hroute.
    destruct (route to_vec path snap) as [[status ct] body]. destruct Hroute as (He & Hst & Hct).
    assert (In status [200; 400; 404; 405; 503]) as Hin by (simpl in *; tauto).
    exists status, (as_bytes ct), body. split; [by apply Hparse|]. split; [done|].
    intros meth target rest Hm Ht ->. rewrite parse_client_request in Hreq by done.
    destruct (eq_ignore_ascii_case _ _); [|done]. by injection Hreq as ->.
  - eexists _, _, _. split; [apply Hparse; [simpl; auto|done]|]. split; [simpl; auto|].
    intros meth target rest Hm Ht ->. rewrite parse_client_request in Hreq by done.
    by destruct (eq_ignore_ascii_case _ _).
  - eexists _, _, _. split; [apply Hparse; [simpl; auto|done]|]. split; [simpl; auto|].
    intros meth target rest Hm Ht ->. rewrite parse_client_request in Hreq by done.
    by destruct (eq_ignore_ascii_case _ _).
Qed.

(** ** The request buffer *)

Definition has_lf (s : bytes) : bool := existsb (Ascii.eqb lf) s.

(** Everything the first [n] reads returned, and the buffer it fits in after
    [buf]. *)
Definition received (n : nat) (sock : Socket) : bytes := concat ((fun e => default [] e.2) <$> take n sock).
Definition buffered (buf : bytes) (n : nat) (sock : Socket) : bytes :=
  take (Z.to_nat REQUEST_BUF) (buf ++ received n sock).
Definition latest (now : Z) (n : nat) (sock : Socket) : Z := fold_left Z.max (fst <$> take n sock) now.

(** The loop goes on. *)
Definition unfinished (buf : bytes) : Prop := has_lf buf = false /\ len buf < REQUEST_BUF.

Definition read_spec (buf : bytes) (now : Z) (sock : Socket) (o : outcome bytes) : Prop :=
  match o with
  | Completes t line => exists n,
      line = buffered buf n sock /\ t = latest now n sock /\ (n <= length sock)%nat /\
      Forall (fun e => is_some e.2 = true) (take n sock) /\
      (forall k, (k < n)%nat -> unfinished (buffered buf k sock)) /\
      (has_lf line = true \/ len line = REQUEST_BUF \/
       exists k t', n = S k /\ sock !! k = Some (t', Some []))
  | Fails t => exists n t', sock !! n = Some (t', None) /\ unfinished (buffered buf n sock)
  | Never => Forall (fun e => is_some e.2 = true) sock /\ unfinished (buffered buf (length sock) sock)
  end.

Lemma buffered_0 buf sock : len buf <= REQUEST_BUF -> buffered buf 0 sock = buf.
Proof.
  intros Hb. unfold buffered, received. simpl. rewrite app_nil_r. apply take_ge. unfold len in Hb. lia.
Qed.

Lemma take_take_app {A} (n : nat) (l k : list A) : take n (take n l ++ k) = take n (l ++ k).
Proof.
  destruct (decide (length l <= n)%nat) as [H|H]; [by rewrite (take_ge l n)|].
  rewrite !take_app_le; [|lia|rewrite length_take; lia]. by rewrite take_take, Nat.min_id.
Qed.

Lemma buffered_S buf n t chunk sock :
  buffered buf (S n) ((t, Some chunk) :: sock) = buffered (buffered buf 1 ((t, Some chunk) :: sock)) n sock.
Proof.
  unfold buffered, received. cbn [take fmap list_fmap concat default snd]. fold (received n sock).
  rewrite take_take_app, app_nil_r. by rewrite (assoc_L app).
Qed.

Lemma buffered_1 buf t chunk sock :
  len buf <= REQUEST_BUF ->
  buffered buf 1 ((t, Some chunk) :: sock) = buf ++ take (Z.to_nat (REQUEST_BUF - len buf)) chunk.
Proof.
  intros Hb. unfold buffered, received. cbn [take fmap list_fmap concat default snd]. rewrite app_nil_r.
  rewrite take_app_ge by (unfold len in Hb; lia). f_equal. f_equal. unfold len. lia.
Qed.

Lemma read_spec_cons buf now t chunk sock o :
  unfinished buf ->
  read_spec (buffered buf 1 ((t, Some chunk) :: sock)) (Z.max now t) sock o ->
  read_spec buf now ((t, Some chunk) :: sock) o.
Proof.
  intros Hu. assert (buffered buf 0 ((t, Some chunk) :: sock) = buf) as H0
    by (apply buffered_0; destruct Hu; lia).
  destruct o as [|t'|t' line]; simpl.
  - intros [Hf Hr]. rewrite (buffered_S buf (length sock)). split; [by constructor|done].
  - intros (n & t'' & Hn & Hr). exists (S n), t''. by rewrite (buffered_S buf n).
  - intros (n & -> & Ht & Hn & Hf & Hk & Hend). exists (S n). rewrite (buffered_S buf n).
    split; [done|].
    split; [done|]. split; [lia|]. split; [by constructor|]. split.
    + intros [|k] Hlt; [by rewrite H0|]. rewrite (buffered_S buf k). apply Hk. lia.
    + destruct Hend as [H|[H|(k & t'' & -> & H)]]; [by left|by right; left|]. right. right. by exists (S k), t''.
Qed.

(** The loop ends on any socket: every read that does not end it fills the
    buffer by a byte or more. *)
Lemma read_loop_spec fuel buf now sock :
  has_lf buf = false -> len buf <= REQUEST_BUF -> REQUEST_BUF - len buf < Z.of_nat fuel ->
  exists o, read_loop fuel buf now sock = Some o /\ read_spec buf now sock o.
Proof.
  revert buf now sock. induction fuel as [|fuel IH]; intros buf now sock Hlf Hb Hfuel; [lia|].
  cbn [read_loop]. destruct (Z.ltb_spec (len buf) REQUEST_BUF) as [Hlt|Hge].
  2:{ eexists. split; [done|]. exists O. rewrite buffered_0 by done. repeat split; [simpl; lia|constructor|lia|lia|].
      right. left. lia. }
  assert (unfinished buf) as Hu by done.
  destruct sock as [|[t [chunk|]] sock].
  - eexists. split; [done|]. split; [constructor|]. by rewrite buffered_0.
  - rewrite <- buffered_1 with (t := t) (sock := sock) by done.
    set (got := take (Z.to_nat (REQUEST_BUF - len buf)) chunk).
    assert (buffered buf 1 ((t, Some chunk) :: sock) = buf ++ got) as Hb1 by by apply buffered_1.
    assert (len (buf ++ got) <= REQUEST_BUF) as Hle.
    { rewrite len_app. unfold got, len in *. rewrite length_take. lia. }
    destruct (request_line_complete (len got) _) eqn:Hc.
    + eexists. split; [done|]. exists 1%nat. split; [done|]. split; [done|]. split; [simpl; lia|].
      split; [by repeat constructor|]. split; [intros k Hk; replace k with O by lia; by rewrite buffered_0|].
      unfold request_line_complete in Hc. apply orb_true_iff in Hc as [Hz|Hc]; [|by left].
      right. right. exists O, t. split; [done|]. simpl. apply Z.eqb_eq, len_zero_inv in Hz.
      destruct chunk as [|c chunk]; [done|]. unfold got, len in Hz. exfalso.
      destruct (Z.to_nat (REQUEST_BUF - Z.of_nat (length buf))) eqn:Hn; [unfold len in Hlt; lia|done].
    + apply orb_false_iff in Hc as [Hz Hc]. apply Z.eqb_neq in Hz. pose proof (len_nonneg got).
      rewrite Hb1 in Hc |- *. rewrite len_app in Hle.
      destruct (IH (buf ++ got) (Z.max now t) sock) as (o & Ho & Hs); [done|rewrite len_app; lia|rewrite len_app; lia|].
      exists o. split; [done|]. apply read_spec_cons; [done|]. by rewrite Hb1.
  - eexists. split; [done|]. exists O, t. split; [done|]. by rewrite buffered_0.
Qed.

Lemma read_loop_fuel fuel fuel' buf now sock o :
  read_loop fuel buf now sock = Some o -> (fuel <= fuel')%nat -> read_loop fuel' buf now sock = Some o.
Proof.
  revert fuel' buf now sock. induction fuel as [|fuel IH]; intros fuel' buf now sock H Hle; [done|].
  destruct fuel' as [|fuel']; [lia|]. cbn [read_loop] in *. destruct (_ <? _); [|done].
  destruct sock as [|[t [chunk|]] sock]; [done| |done]. destruct (request_line_complete _ _); [done|].
  apply IH; [done|lia].
Qed.

(** C29: reading a request ends.  Whatever a peer sends, however it is cut into
    reads, the loop is over after at most 1024 of them and more fuel changes
    nothing.  What it returns is what arrived, cut at the buffer's 1024 bytes,
    at the instant of the read that first brought a newline, the full buffer or
    the end of the stream; it fails only with a read that fails, and waits
    forever - for the deadline of [timed_io] to end it - only on a peer that
    fell silent before all three. *)
Theorem request_read_terminates sock fuel :
  (READ_FUEL <= fuel)%nat ->
  read_loop fuel [] 0 sock = Some (read_request_line sock) /\
  read_spec [] 0 sock (read_request_line sock).
Proof.
  intros Hfuel. destruct (read_loop_spec READ_FUEL [] 0 sock) as (o & Ho & Hs); [done|done|done|].
  unfold read_request_line. rewrite Ho. split; [|done]. by eapply read_loop_fuel.
Qed.

(** ** The slots *)

Definition effect_is (e e' : ControlEffect) : bool := bool_decide (e = e').
Definition is_accept (ev : ControlEvent) : bool := match ev with Accept _ => true | _ => false end.
Definition is_served_end (ev : ControlEvent) : bool := match ev with ServedEnds => true | _ => false end.
Definition is_busy_end (ev : ControlEvent) : bool := match ev with BusyEnds => true | _ => false end.

(** Permits held and the tasks they belong to. *)
Record slots_ok (evs : list ControlEvent) (out : list ControlEffect) (st : ControlServer) : Prop := {
  so_served : 0 <= cs_served st <= MAX_CONTROL_CONNS;
  so_busy : 0 <= cs_busy st <= MAX_BUSY_CONNS;
  so_serving : count (effect_is Serving) out = cs_served st + count is_served_end evs;
  so_replies : count (effect_is BusyReply) out = cs_busy st + count is_busy_end evs;
  so_accepts : count is_accept evs =
    count (effect_is Serving) out + count (effect_is BusyReply) out + count (effect_is Closed) out +
    count (effect_is Backoff) out;
}.

Lemma control_step_ok ev evs out st st' e :
  slots_ok evs out st -> control_step ev st = Some (st', e) -> slots_ok (evs ++ [ev]) (out ++ [e]) st'.
Proof.
  intros [H1 H2 H3 H4 H5].
  assert (forall st1 e1, st1 = st' -> e1 = e -> slots_ok (evs ++ [ev]) (out ++ [e1]) st1 ->
    slots_ok (evs ++ [ev]) (out ++ [e]) st') as Hgo by by intros ?? -> ->.
  destruct ev as [value|ok| |]; simpl; unfold spawn_accepted, spawn_control_conn, spawn_busy_conn;
    repeat (case_match; try done); intros [= Hst He]; eapply Hgo; try exact Hst; try exact He; bool_to_prop;
    constructor; rewrite ?count_app; simpl; lia.
Qed.

Lemma control_run_ok evs1 evs st out st' out' :
  slots_ok evs1 out st -> control_run evs st out = Some (st', out') -> slots_ok (evs1 ++ evs) out' st'.
Proof.
  revert evs1 st out. induction evs as [|ev evs IH]; intros evs1 st out Hok; simpl.
  - intros [= <- <-]. by rewrite app_nil_r.
  - destruct (control_step ev st) as [[st1 e]|] eqn:Hs; [|done]. intros Hr.
    replace (evs1 ++ ev :: evs) with ((evs1 ++ [ev]) ++ evs) by by rewrite <- (assoc_L app).
    eapply IH; [|exact Hr]. by eapply control_step_ok.
Qed.

Lemma control_run_app evs1 evs2 st out :
  control_run (evs1 ++ evs2) st out = '(st', out') ← control_run evs1 st out; control_run evs2 st' out'.
Proof.
  revert st out. induction evs1 as [|ev evs1 IH]; intros st out; [done|]. simpl.
  destruct (control_step ev st) as [[st' e]|]; [apply IH|done].
Qed.

(** Nothing is accepted by a loop that has stopped, and it does not restart. *)
Lemma control_run_stopped evs st out r :
  cs_stopped st = true -> control_run evs st out = Some r ->
  count is_accept evs = 0 /\ cs_stopped r.1 = true.
Proof.
  revert st out. induction evs as [|ev evs IH]; intros st out Hst; simpl; [by intros [= <-]|].
  destruct ev as [value|ok| |]; simpl; rewrite ?Hst; try done; (destruct (0 <? _); [|done]);
    intros Hr; apply IH in Hr; done.
Qed.

Lemma control_run_out evs st out st' out' :
  control_run evs st out = Some (st', out') -> exists new, out' = out ++ new.
Proof.
  revert st out. induction evs as [|ev evs IH]; intros st out; simpl.
  - intros [= _ <-]. exists []. by rewrite app_nil_r.
  - destruct (control_step ev st) as [[st1 e]|]; [|done]. intros (new & ->)%IH.
    exists (e :: new). by rewrite <- (assoc_L app).
Qed.

(** The state and the effect of one arrival of a run. *)
Lemma control_run_accept evs1 ok evs2 st0 out0 st out :
  control_run (evs1 ++ Accept ok :: evs2) st0 out0 = Some (st, out) ->
  exists st1 out1 e, control_run evs1 st0 out0 = Some (st1, out1) /\ out !! length out1 = Some e /\
    cs_stopped st1 = false /\ e = (spawn_accepted ok st1).2.
Proof.
  rewrite control_run_app. destruct (control_run evs1 st0 out0) as [[st1 out1]|] eqn:H1; [|done].
  cbn [mbind option_bind control_run control_step]. destruct (cs_stopped st1) eqn:Hst; [done|].
  destruct (spawn_accepted ok st1) as [st2 e] eqn:He. intros Hr.
  apply control_run_out in Hr as (new & ->). exists st1, out1, e. split; [done|]. split; [|by rewrite He].
  rewrite <- (assoc_L app). by apply list_lookup_middle.
Qed.

(** What an arrival gets, from the slots taken. *)
Lemma spawn_accepted_effect evs out ok st e :
  slots_ok evs out st -> e = (spawn_accepted ok st).2 ->
  (e = Backoff <-> ok = false) /\
  (e = Serving <-> ok = true /\ cs_served st < MAX_CONTROL_CONNS) /\
  (e = Closed <-> ok = true /\ cs_served st = MAX_CONTROL_CONNS /\ cs_busy st = MAX_BUSY_CONNS).
Proof.
  intros [H1 H2 _ _ _] ->. unfold spawn_accepted, spawn_control_conn, spawn_busy_conn.
  destruct ok; [|by repeat split; intros; destruct_and?].
  destruct (Z.ltb_spec (cs_served st) MAX_CONTROL_CONNS); simpl; [repeat split; intros; destruct_and?; done || lia|].
  destruct (Z.ltb_spec (cs_busy st) MAX_BUSY_CONNS); simpl; repeat split; intros; destruct_and?; done || lia.
Qed.

Lemma slots_ok_init signaled : slots_ok [] [] (MkControlServer 0 0 signaled).
Proof. by constructor. Qed.

(** C32: connections are bounded.  In any run of the listener at most 32
    connections are served and four told they are busy at a time, each by a task
    that gives its slot back; every arrival is exactly one of served, told
    busy, closed, or an accept error waited out; it is served if a slot is free
    and closed unanswered only when all 36 are taken; and once the daemon
    signals the end, or its sender is gone, nothing more is accepted. *)
Theorem control_connections_bounded signaled evs st out :
  serve_listener signaled evs = Some (st, out) ->
  slots_ok evs out st /\
  (forall evs1 ok evs2, evs = evs1 ++ Accept ok :: evs2 -> exists st1 out1 e,
     serve_listener signaled evs1 = Some (st1, out1) /\ out !! length out1 = Some e /\ signaled = false /\
     (e = Backoff <-> ok = false) /\
     (e = Serving <-> ok = true /\ cs_served st1 < MAX_CONTROL_CONNS) /\
     (e = Closed <-> ok = true /\ cs_served st1 = MAX_CONTROL_CONNS /\ cs_busy st1 = MAX_BUSY_CONNS)) /\
  (forall evs1 value evs2, evs = evs1 ++ ShutdownChanged value :: evs2 -> value <> Some false ->
     count is_accept evs2 = 0).
Proof.
  intros Hr. split; [exact (control_run_ok [] evs _ _ _ _ (slots_ok_init signaled) Hr)|]. split.
  - intros evs1 ok evs2 ->. apply control_run_accept in Hr as (st1 & out1 & e & H1 & Ho & Hst & He).
    exists st1, out1, e. split; [done|]. split; [done|]. split.
    + destruct signaled; [|done]. apply control_run_stopped in H1 as [_ H1]; [|done]. simpl in H1. congruence.
    + eapply spawn_accepted_effect; [|exact He]. exact (control_run_ok [] evs1 _ _ _ _ (slots_ok_init signaled) H1).
  - intros evs1 value evs2 -> Hv. unfold serve_listener in Hr. rewrite control_run_app in Hr.
    destruct (control_run evs1 _ _) as [[st1 out1]|]; [|done]. cbn [mbind option_bind control_run control_step] in Hr.
    destruct (cs_stopped st1); [done|]. eapply control_run_stopped; [|exact Hr]. simpl.
    by destruct value as [[]|].
Qed.

(** ** Witnesses *)

Definition demo_machine : HealthMachine := handle_started (MkHealthLimits 0 Floats.f_one64 Floats.f_one64) 5.

Lemma control_replies_witness :
  exists content_type body,
    client_parse (render_http (fun _ => None) (client_request (as_bytes "get") (as_bytes "/readyz?probe=1") [])
      (snapshot demo_machine 6)) = Some (503, content_type, body).
Proof.
  destruct (control_replies (fun _ => None) (client_request (as_bytes "get") (as_bytes "/readyz?probe=1") [])
    (snapshot demo_machine 6) demo_machine 6) as (_ & _ & status & ct & body & Hp & _ & Hr).
  exists ct, body. rewrite Hp.
  destruct (Hr (as_bytes "get") (as_bytes "/readyz?probe=1") [] eq_refl eq_refl eq_refl) as (_ & Hready & _).
  rewrite (Hready (or_introl eq_refl)). reflexivity.
Defined.

(** A request cut in two, the second part carrying the newline. *)
Lemma request_read_terminates_witness :
  read_loop 2000 [] 0 [(3, Some (as_bytes "GET /livez")); (8, Some (as_bytes " HTTP/1.1" ++ crlf)); (9, None)] =
  Some (Completes 8 (as_bytes "GET /livez HTTP/1.1" ++ crlf)).
Proof.
  destruct (request_read_terminates
    [(3, Some (as_bytes "GET /livez")); (8, Some (as_bytes " HTTP/1.1" ++ crlf)); (9, None)] 2000) as [-> _];
    [apply Nat.leb_le|]; reflexivity.
Defined.

(** 33 arrivals, a served task that ends, and the signal. *)
Definition demo_arrivals : list ControlEvent :=
  replicate 33 (Accept true) ++ [ServedEnds; Accept true; ShutdownChanged (Some true)].

Lemma control_connections_bounded_witness :
  exists st out, serve_listener false demo_arrivals = Some (st, out) /\ slots_ok demo_arrivals out st.
Proof.
  pose proof (control_connections_bounded false demo_arrivals) as H.
  assert (is_Some (serve_listener false demo_arrivals)) as [[st out] Hr] by (eexists; vm_compute; reflexivity).
  exists st, out. split; [exact Hr|]. exact (proj1 (H st out Hr)).
Defined.
