(* ===== verification/Service.v ===== *)
(** * The running service (src/daemon.rs: [run_loop] and its control task)

    [run_loop] is one task of a single-threaded tokio runtime; the control
    surface it spawns is another, and every accepted connection a third kind.
    Between two awaits a task runs alone, so the service is a state and one
    partial transition per stretch between awaits: the main task's start, boot,
    loop iterations, [stop_control] - the send, then the join - and backend
    shutdown; the control task's first poll and its [select!] branches; a
    connection's answer and its end.  [Daemon.run_loop] is the same main task
    with nobody else around, and the refinement below says the others do not
    disturb it.  The watch channel is tokio's: its documented behaviour is
    the class [WatchLaws]. *)

From S2P Require Import Prelude Floats Packet Queue Ingress Health NetAddr Text HealthView Config Corpus Backend Checkpoint Diagnostics Tick Daemon Control.
Local Open Scope Z_scope.

(** ** The stop channel *)

Class WatchChannel (C : Type) := {
  watch_channel : bool -> C;
  watch_send : bool -> C -> C;
  watch_close : C -> C;                       (** the sender is dropped *)
  watch_borrow : C -> bool;
  watch_changed : C -> option (C * bool);     (** pending, or ready with [is_ok] *)
}.

(** A sent value is the one borrowed, a receiver that has not seen it is woken,
    and being woken changes no value. *)
Class WatchLaws (C : Type) `{WatchChannel C} := {
  watch_sent v c : watch_borrow (watch_close (watch_send v c)) = v;
  watch_wakes v c : is_Some (watch_changed (watch_close (watch_send v c)));
  watch_kept c c' ok : watch_changed c = Some (c', ok) -> watch_borrow c' = watch_borrow c;
}.

(** ** State *)

(** The control task by its handle: none, spawned but not yet polled, in its
    loop, ended. *)
Inductive ControlTask := NotSpawned | Spawned | Listening | Finished.

(** [cp_waiting] of the served connections have not been answered yet. *)
Record ControlPlane {C : Type} := MkPlane {
  cp_task : ControlTask;
  cp_server : ControlServer;
  cp_watch : C;
  cp_waiting : Z;
}.
Arguments ControlPlane : clear implicits.

Inductive ServiceEvent :=
| MainStarts
| MainBoots
| MainLoop (ev : LoopEvent)
| MainSends
| MainJoins
| MainCloses
| ControlBegins (has_addr : bool)
| ControlSees
| ControlAccepts (ok : bool)
| ConnAnswers (sock : list (Z * option bytes)) (write_locked : bool) (now : Z)
| ConnEnds (answered : bool)
| BusyConnEnds.

(** What the [select!] loop is polled with. *)
Definition loop_events (evs : list ServiceEvent) : list LoopEvent :=
  omap (fun ev => match ev with MainLoop e => Some e | _ => None end) evs.

Section Service.
Context {LifRest NetRest StdpRest : Type}.
Abbreviation Network := (@SpikingNetwork LifRest NetRest StdpRest).
Context {S K : Type} `{StimulusSource S} `{SpikeSink K}.
Context {C : Type} `{WatchChannel C}.
Variable fs : Fs.
Variable parse_document : string -> result unit SidecarDocument.
Variable parse_hub : string -> result unit HubConfig.
Variable sha256 : list Z -> list Z.
Variable with_dimensions : Z -> Z -> Z -> Network.
Variable set_rm_stdp_config : @RmStdpConfig StdpRest -> Network -> Network.
Variable components : string -> path.
Variable display : path -> string.
Variable net_step : Network -> list f32 -> NeuroModulators -> Network * result string (list Z).
Variable mods_default : NeuroModulators.
Variable tcp_bind : SocketAddr -> result string unit.
Variable to_vec : HealthSnapshot -> option bytes.

Abbreviation boot := (boot_network fs parse_document parse_hub sha256 with_dimensions
  set_rm_stdp_config components display).
Abbreviation sequential_run := (run_loop fs parse_document parse_hub sha256 with_dimensions
  set_rm_stdp_config components display net_step mods_default tcp_bind).

(** The run's parameters, and the instants its boot reads. *)
Variable c : DaemonConfig.
Variable restored : option (Network * ModelProvenance).
Variables init_at check_at : Z.

(** Where the main task is, with what it owns there. *)
Inductive MainTask :=
| Binding (w : @World S K)
| Booting (w : @World S K)
| Looping (st : TickState S Network K)
| Stopping (w : @World S K) (r : result DaemonError unit)
| Joining (w : @World S K) (r : result DaemonError unit)
| Closing (w : @World S K) (r : result DaemonError unit)
| Returned (w : @World S K) (r : result DaemonError unit).

Record Service := MkService {
  sv_main : MainTask;
  sv_plane : ControlPlane C;
  sv_replies : list bytes;
}.

(** The machine behind the handle every task shares. *)
Definition health_of (m : MainTask) : HealthMachine :=
  match m with
  | Looping st => ts_health st
  | Binding w | Booting w | Stopping w _ | Joining w _ | Closing w _ | Returned w _ => w_health w
  end.

Definition set_main (m : MainTask) (s : Service) : Service := MkService m (sv_plane s) (sv_replies s).
Definition set_task (t : ControlTask) (p : ControlPlane C) : ControlPlane C :=
  MkPlane C t (cp_server p) (cp_watch p) (cp_waiting p).
Definition set_server (server : ControlServer) (waiting : Z) (p : ControlPlane C) : ControlPlane C :=
  MkPlane C (cp_task p) server (cp_watch p) waiting.
Definition set_watch (w : C) (p : ControlPlane C) : ControlPlane C :=
  MkPlane C (cp_task p) (cp_server p) w (cp_waiting p).

Definition no_plane : ControlPlane C := MkPlane C NotSpawned (MkControlServer 0 0 false) (watch_channel false) 0.

Definition down (w : @World S K) : @World S K :=
  MkWorld (w_source w) (w_sink w) (ingress_shutdown (w_ingress w)) (w_health w).

(** ** The main task *)

(** [start_control]; on an error [abort_startup] closes the ingress and has no
    task to stop. *)
Definition main_starts (s : Service) : option Service :=
  match sv_main s with
  | Binding w =>
    match start_control tcp_bind (control_bind c) with
    | Err e => Some (set_main (Stopping (down w) (Err e)) s)
    | Ok spawned =>
      Some (MkService (Booting w) (if spawned then set_task Spawned no_plane else no_plane) (sv_replies s))
    end
  | _ => None
  end.

Definition main_boots (s : Service) : option Service :=
  match sv_main s with
  | Booting w =>
    match boot c init_at check_at restored (w_source w, w_health w) with
    | ((source, health), Err e) =>
      Some (set_main (Stopping (down (MkWorld source (w_sink w) (w_ingress w) health)) (Err e)) s)
    | ((source, health), Ok (net, _)) =>
      Some (set_main (Looping (first_tick c source (w_sink w) net (w_ingress w) health RuntimeStats_default)) s)
    end
  | _ => None
  end.

(** One round of the [select!] loop. *)
Definition main_loop (ev : LoopEvent) (s : Service) : option Service :=
  match sv_main s with
  | Looping st =>
    match ev with
    | LoopTick env => Some (set_main (Looping (run_tick_published net_step mods_default env st)) s)
    | LoopHeartbeat => Some s
    | LoopShutdown now =>
      let st := report BeginDrain now st in
      Some (set_main (Stopping (MkWorld (ts_source st) (ts_sink st) (ingress_shutdown (ts_ingress st))
                                  (ts_health st)) (Ok tt)) s)
    end
  | _ => None
  end.

(** [stop_control]: the value is sent and the sender dropped, if there is one. *)
Definition main_sends (s : Service) : option Service :=
  match sv_main s with
  | Stopping w r =>
    let p := sv_plane s in
    let p := match cp_task p with
             | NotSpawned => p
             | _ => set_watch (watch_close (watch_send true (cp_watch p))) p
             end in
    Some (MkService (Joining w r) p (sv_replies s))
  | _ => None
  end.

(** The join handle is ready once the task has ended. *)
Definition main_joins (s : Service) : option Service :=
  match sv_main s, cp_task (sv_plane s) with
  | Joining w r, (NotSpawned | Finished) => Some (set_main (Closing w r) s)
  | _, _ => None
  end.

Definition close (w : @World S K) : @World S K :=
  let '(source, sink) := shutdown_backend (w_source w) (w_sink w) in
  MkWorld source sink (w_ingress w) (w_health w).

Definition main_closes (s : Service) : option Service :=
  match sv_main s with
  | Closing w r => Some (set_main (Returned (close w) r) s)
  | _ => None
  end.

(** ** The control task *)

(** Up to the first await of [serve_listener]. *)
Definition control_begins (has_addr : bool) (p : ControlPlane C) : option (ControlPlane C) :=
  match cp_task p with
  | Spawned =>
    Some (if negb has_addr then set_task Finished p
          else if watch_borrow (cp_watch p) then set_task Finished p
          else set_task Listening p)
  | _ => None
  end.

(** The [changed] branch, when it is ready. *)
Definition control_sees (p : ControlPlane C) : option (ControlPlane C) :=
  match cp_task p with
  | Listening =>
    '(w, ok) ← watch_changed (cp_watch p);
    '(server, _) ← control_step (ShutdownChanged (if (ok : bool) then Some (watch_borrow w) else None)) (cp_server p);
    let p := set_server server (cp_waiting p) (set_watch w p) in
    Some (if cs_stopped server then set_task Finished p else p)
  | _ => None
  end.

Definition control_accepts (ok : bool) (p : ControlPlane C) : option (ControlPlane C) :=
  match cp_task p with
  | Listening =>
    '(server, effect) ← control_step (Accept ok) (cp_server p);
    Some (set_server server (if effect_is Serving effect then cp_waiting p + 1 else cp_waiting p) p)
  | _ => None
  end.

(** ** Connections *)

(** A served connection has its request and takes its snapshot. *)
Definition conn_answers (sock : list (Z * option bytes)) (write_locked : bool) (now : Z) (s : Service) :
    option Service :=
  match read_http_request sock with
  | Ok req =>
    if 0 <? cp_waiting (sv_plane s) then
      let p := set_server (cp_server (sv_plane s)) (cp_waiting (sv_plane s) - 1) (sv_plane s) in
      Some (MkService (sv_main s) p
              (sv_replies s ++ [control_response to_vec req write_locked (health_of (sv_main s)) now]))
    else None
  | Err _ => None
  end.

(** A served task ends, after its answer or without one, and frees its slot. *)
Definition conn_ends (answered : bool) (p : ControlPlane C) : option (ControlPlane C) :=
  let left := if answered then cp_waiting p else cp_waiting p - 1 in
  if (left <? 0) || (answered && (cs_served (cp_server p) <=? cp_waiting p)) then None
  else
    '(server, _) ← control_step ServedEnds (cp_server p);
    Some (set_server server left p).

Definition busy_conn_ends (p : ControlPlane C) : option (ControlPlane C) :=
  '(server, _) ← control_step BusyEnds (cp_server p);
  Some (set_server server (cp_waiting p) p).

(** ** The service *)

Definition on_plane (f : ControlPlane C -> option (ControlPlane C)) (s : Service) : option Service :=
  p ← f (sv_plane s); Some (MkService (sv_main s) p (sv_replies s)).

Definition service_step (ev : ServiceEvent) (s : Service) : option Service :=
  match ev with
  | MainStarts => main_starts s
  | MainBoots => main_boots s
  | MainLoop ev => main_loop ev s
  | MainSends => main_sends s
  | MainJoins => main_joins s
  | MainCloses => main_closes s
  | ControlBegins has_addr => on_plane (control_begins has_addr) s
  | ControlSees => on_plane control_sees s
  | ControlAccepts ok => on_plane (control_accepts ok) s
  | ConnAnswers sock write_locked now => conn_answers sock write_locked now s
  | ConnEnds answered => on_plane (conn_ends answered) s
  | BusyConnEnds => on_plane busy_conn_ends s
  end.

Fixpoint service_run (evs : list ServiceEvent) (s : Service) : option Service :=
  match evs with
  | [] => Some s
  | ev :: evs' => s' ← service_step ev s; service_run evs' s'
  end.

Definition service_start (d : BrainstemDaemon S K) : Service :=
  MkService (Binding (MkWorld (bd_source d) (bd_sink d) (bd_ingress d) (bd_health d))) no_plane [].
End Service.

Section ServiceFacts.
Context {LifRest NetRest StdpRest : Type}.
Abbreviation Network := (@SpikingNetwork LifRest NetRest StdpRest).
Context {S K : Type} `{StimulusSource S} `{SpikeSink K}.
Context {C : Type} `{!WatchChannel C} `{!WatchLaws C}.
Variable fs : Fs.
Variable parse_document : string -> result unit SidecarDocument.
Variable parse_hub : string -> result unit HubConfig.
Variable sha256 : list Z -> list Z.
Variable with_dimensions : Z -> Z -> Z -> Network.
Variable set_rm_stdp_config : @RmStdpConfig StdpRest -> Network -> Network.
Variable components : string -> path.
Variable display : path -> string.
Variable net_step : Network -> list f32 -> NeuroModulators -> Network * result string (list Z).
Variable mods_default : NeuroModulators.
Variable tcp_bind : SocketAddr -> result string unit.
Variable to_vec : HealthSnapshot -> option bytes.

Abbreviation boot := (boot_network fs parse_document parse_hub sha256 with_dimensions
  set_rm_stdp_config components display).
Abbreviation sequential_run := (run_loop fs parse_document parse_hub sha256 with_dimensions
  set_rm_stdp_config components display net_step mods_default tcp_bind).
Variable c : DaemonConfig.
Variable restored : option (Network * ModelProvenance).
Variables init_at check_at : Z.
Abbreviation step := (service_step (C := C) fs parse_document parse_hub sha256 with_dimensions
  set_rm_stdp_config components display net_step mods_default tcp_bind to_vec c restored init_at check_at).
Abbreviation run := (service_run (C := C) fs parse_document parse_hub sha256 with_dimensions
  set_rm_stdp_config components display net_step mods_default tcp_bind to_vec c restored init_at check_at).
Abbreviation state := (Service (LifRest := LifRest) (NetRest := NetRest) (StdpRest := StdpRest) (S := S) (K := K) (C := C)).

Lemma run_app evs1 evs2 (s : state) : run (evs1 ++ evs2) s = s' ← run evs1 s; run evs2 s'.
Proof.
  revert s. induction evs1 as [|ev evs1 IH]; intros s; [done|]. simpl.
  destruct (step ev s) as [s'|]; simpl; [apply IH|done].
Qed.

(** An invariant of the steps is one of the runs. *)
Lemma run_invariant (I : state -> Prop) :
  (forall ev s s', I s -> step ev s = Some s' -> I s') ->
  forall evs s s', I s -> run evs s = Some s' -> I s'.
Proof.
  intros HI evs. induction evs as [|ev evs IH]; intros s s' Hs; simpl; [by intros [= <-]|].
  destruct (step ev s) as [s1|] eqn:E; simpl; [|done]. apply IH. by eapply HI.
Qed.

(** ** Refinement of the sequential run *)

Definition after_boot (w : @World S K) (rest : list LoopEvent) : option (@World S K * result DaemonError unit) :=
  match boot c init_at check_at restored (w_source w, w_health w) with
  | ((source, health), Err e) =>
    Some (abort_startup (w_ingress w) source (w_sink w) health, Err e)
  | ((source, health), Ok (net, _)) =>
    st ← event_loop net_step mods_default rest
           (first_tick c source (w_sink w) net (w_ingress w) health RuntimeStats_default);
    Some (close (MkWorld (ts_source st) (ts_sink st) (ts_ingress st) (ts_health st)), Ok tt)
  end.

(** What is left of the sequential run, from each place of the main task. *)
Definition remaining (m : MainTask) (rest : list LoopEvent) :
    option (@World S K * result DaemonError unit) :=
  match m with
  | Binding w =>
    match start_control tcp_bind (control_bind c) with
    | Err e => Some (abort_startup (w_ingress w) (w_source w) (w_sink w) (w_health w), Err e)
    | Ok _ => after_boot w rest
    end
  | Booting w => after_boot w rest
  | Looping st =>
    st ← event_loop net_step mods_default rest st;
    Some (close (MkWorld (ts_source st) (ts_sink st) (ts_ingress st) (ts_health st)), Ok tt)
  | Stopping w r | Joining w r | Closing w r => Some (close w, r)
  | Returned w r => Some (w, r)
  end.

Lemma remaining_start (d : BrainstemDaemon S K) rest :
  bd_config d = c ->
  remaining (Binding (MkWorld (bd_source d) (bd_sink d) (bd_ingress d) (bd_health d))) rest =
  sequential_run d restored init_at check_at rest.
Proof.
  intros Hc. unfold remaining, after_boot, run_loop, close. rewrite Hc. simpl.
  destruct (start_control _ _); [|done]. destruct (boot _ _ _ _ _) as [[source health] [[net p]|e]]; [|done].
  by destruct (event_loop _ _ _ _).
Qed.

(** The control plane's steps leave the main task where it is. *)
Lemma on_plane_main f (s s' : state) : on_plane (C := C) f s = Some s' -> sv_main s' = sv_main s.
Proof. unfold on_plane. destruct (f (sv_plane s)); [|done]. by intros [= <-]. Qed.

Lemma answers_main sock locked now (s s' : state) :
  conn_answers to_vec sock locked now s = Some s' -> sv_main s' = sv_main s.
Proof.
  unfold conn_answers. destruct (read_http_request sock); [|done]. destruct (0 <? _); [|done]. by intros [= <-].
Qed.

(** Only the main task's own steps move it, and each does what the sequential
    run does there. *)
Lemma step_remaining ev (s s' : state) rest :
  step ev s = Some s' ->
  remaining (sv_main s) (loop_events [ev] ++ rest) = remaining (sv_main s') rest.
Proof.
  destruct ev as [| |ev| | | |has| |ok|sock locked now|answered|]; unfold step; simpl;
    try (intros Hp; apply on_plane_main in Hp || apply answers_main in Hp; by rewrite Hp).
  - unfold main_starts, remaining. destruct (sv_main s) as [w| | | | | |]; try done.
    by destruct (start_control _ _); intros [= <-].
  - unfold main_boots, remaining. destruct (sv_main s) as [|w| | | | |]; try done. unfold after_boot.
    destruct (boot _ _ _ _ _) as [[source health] [[net p]|e]]; intros [= <-]; done.
  - unfold main_loop, remaining. destruct (sv_main s) as [| |st| | | |] eqn:E; try done.
    destruct ev as [env| |now]; intros [= <-]; simpl; [done|by rewrite E|done].
  - unfold main_sends. destruct (sv_main s); try done. by intros [= <-].
  - unfold main_joins. destruct (sv_main s), (cp_task (sv_plane s)); try done; by intros [= <-].
  - unfold main_closes. destruct (sv_main s); try done. by intros [= <-].
Qed.

Lemma run_remaining evs (s s' : state) rest :
  run evs s = Some s' -> remaining (sv_main s) (loop_events evs ++ rest) = remaining (sv_main s') rest.
Proof.
  revert s. induction evs as [|ev evs IH]; intros s; [by intros [= <-]|]. cbn [service_run].
  destruct (step ev s) as [s1|] eqn:E; [|done]. cbn [mbind option_bind]. intros Hr.
  assert (loop_events (ev :: evs) ++ rest = loop_events [ev] ++ loop_events evs ++ rest) as ->
    by (unfold loop_events; destruct ev; reflexivity).
  rewrite (step_remaining ev s s1); [by apply IH|done].
Qed.

(** ** The control plane's invariant *)

Definition plane_ok (s : state) : Prop :=
  let p := sv_plane s in
  (cp_task p = Spawned \/ cp_task p = Listening -> cs_stopped (cp_server p) = false) /\
  0 <= cp_waiting p <= cs_served (cp_server p) /\ cs_served (cp_server p) <= MAX_CONTROL_CONNS /\
  0 <= cs_busy (cp_server p) <= MAX_BUSY_CONNS /\
  match sv_main s with
  | Binding _ => cp_task p = NotSpawned
  | Joining _ _ => cp_task p = NotSpawned \/ cp_task p = Finished \/
                   exists w, cp_watch p = watch_close (watch_send true w)
  | Closing _ _ | Returned _ _ => cp_task p = NotSpawned \/ cp_task p = Finished
  | _ => True
  end.

Lemma plane_ok_start w : plane_ok (MkService (Binding w) no_plane []).
Proof. split; [by intros [[=]|[=]]|]. unfold MAX_CONTROL_CONNS, MAX_BUSY_CONNS. simpl. by repeat split. Qed.

(** What a step leaves alone, and its easy new conjuncts. *)
Ltac frame := repeat (split; [done|]); try done.

Lemma step_plane_ok ev (s s' : state) : plane_ok s -> step ev s = Some s' -> plane_ok s'.
Proof.
  destruct s as [m [task server w waiting] replies]. intros (Hst & Hw & Hs & Hb & Hm). simpl in *.
  destruct ev as [| |ev| | | |has| |ok|sock locked now|answered|]; unfold service_step.
  - unfold main_starts. simpl. destruct m as [w0| | | | | |]; try done. subst task.
    destruct (start_control _ _) as [[]|]; intros [= <-]; try (by split; simpl);
      (split; [done|]); unfold MAX_CONTROL_CONNS, MAX_BUSY_CONNS; simpl; by repeat split.
  - unfold main_boots. simpl. destruct m; try done.
    destruct (boot _ _ _ _ _) as [[source health] [[net p]|e]]; intros [= <-]; frame.
  - unfold main_loop. simpl. destruct m; try done. destruct ev; intros [= <-]; frame.
  - unfold main_sends. simpl. destruct m; try done.
    destruct task; intros [= <-]; frame; simpl; eauto 10.
  - unfold main_joins. simpl. destruct m, task; try done; intros [= <-]; frame; simpl; auto.
  - unfold main_closes. simpl. destruct m; try done. intros [= <-]. frame.
  - unfold on_plane, control_begins. simpl. destruct task; try done.
    destruct has; simpl; [destruct (watch_borrow w)|]; intros [= <-]; (split; [by auto|]); simpl;
      frame; destruct m; auto; destruct_or?; done || eauto.
  - unfold on_plane, control_sees. simpl. destruct task; try done.
    destruct (watch_changed w) as [[w' ok]|] eqn:Ew; simpl; [|done]. rewrite Hst by auto. simpl.
    set (stop := should_stop_control _). destruct stop eqn:Estop; intros [= <-]; simpl;
      (split; [by auto || (intros [[=]|[=]])|]); simpl; frame.
    + destruct m; auto; by destruct_or?.
    + destruct m; auto; destruct_or?; try done. destruct Hm as [w1 ->].
      exfalso. subst stop. pose proof (watch_kept _ _ _ Ew) as Hk. rewrite watch_sent in Hk.
      destruct ok; simpl in Estop; congruence.
  - unfold on_plane, control_accepts. simpl. destruct task; try done. rewrite Hst by auto. simpl.
    unfold spawn_accepted, spawn_control_conn, spawn_busy_conn.
    destruct ok; [destruct (Z.ltb_spec (cs_served server) MAX_CONTROL_CONNS);
      [|destruct (Z.ltb_spec (cs_busy server) MAX_BUSY_CONNS)]|]; simpl; intros [= <-];
      (split; [by auto|]); simpl; repeat split; try done; lia.
  - unfold conn_answers. destruct (read_http_request sock); [|done]. simpl.
    destruct (Z.ltb_spec 0 waiting); [|done]. intros [= <-]. (split; [done|]). simpl. repeat split; try done; lia.
  - unfold on_plane, conn_ends. simpl. destruct (_ || _) eqn:Eg; [done|]. simpl.
    destruct (Z.ltb_spec 0 (cs_served server)); [|done]. intros [= <-].
    apply orb_false_iff in Eg as [Eg Ea]. apply Z.ltb_ge in Eg.
    (split; [done|]). simpl.
    destruct answered; simpl in *; [apply Z.leb_gt in Ea|]; repeat split; try done; lia.
  - unfold on_plane, busy_conn_ends. simpl. destruct (Z.ltb_spec 0 (cs_busy server)); [|done].
    intros [= <-]. (split; [done|]). simpl. repeat split; try done; lia.
Qed.

Lemma reachable_plane_ok (d : BrainstemDaemon S K) evs s : run evs (service_start d) = Some s -> plane_ok s.
Proof. intros Hr. eapply (run_invariant plane_ok); [exact step_plane_ok| |exact Hr]. apply plane_ok_start. Qed.

(** ** Readiness *)

Definition not_ready (m : HealthMachine) : Prop := forall now, hs_ready (snapshot m now) = false.

Definition not_serving (m : HealthMachine) : Prop := is_serving m = false.

Lemma not_serving_not_ready m : not_serving m -> not_ready m.
Proof. intros Hm now. cbn [snapshot hs_ready]. unfold is_ready. by rewrite Hm, andb_false_r. Qed.

(** Outside its loop the main task's machine is either fresh or at its end. *)
Definition health_at (m : MainTask (LifRest := LifRest) (NetRest := NetRest) (StdpRest := StdpRest) (S := S) (K := K)) : Prop :=
  match m with
  | Binding w | Booting w => hm_started (w_health w) = true /\ hm_checkpoint_ok (w_health w) = false
  | Looping _ => True
  | Stopping w r | Joining w r | Closing w r | Returned w r =>
    not_ready (w_health w)
  end.

Lemma fresh_not_ready m : hm_checkpoint_ok m = false -> not_ready m.
Proof. intros Hm now. cbn [snapshot hs_ready]. unfold is_ready, is_initialized. by rewrite Hm, andb_false_r. Qed.

Lemma fatal_started_not_ready code detail m : hm_started m = true -> not_ready (fatal_if_started code detail m).
Proof.
  intros Hm. apply not_serving_not_ready. unfold fatal_if_started, enter_fatal, not_serving, is_serving. rewrite Hm.
  destruct (hm_fatal m) eqn:Hf; simpl; rewrite ?Hf; simpl; apply andb_false_r.
Qed.

Lemma failed_boot_not_ready (w : @World S K) source health e :
  hm_started (w_health w) = true ->
  boot c init_at check_at restored (w_source w, w_health w) = ((source, health), Err e) -> not_ready health.
Proof.
  intros Hs. unfold boot_network, initialize_source. destruct (initialize _ _) as [src [u|e']].
  - destruct (take_restored_network _ _ _ _ _ _ _ _ _ _) as [[net p]|e'']; [done|]. intros [= _ <- _].
    apply fatal_started_not_ready. simpl. unfold mark_initialized. by destruct (_ && _).
  - intros [= _ <- _]. by apply fatal_started_not_ready.
Qed.

Lemma step_health_at ev (s s' : state) :
  health_at (sv_main s) -> step ev s = Some s' -> health_at (sv_main s').
Proof.
  intros Hm. destruct ev as [| |ev| | | |has| |ok|sock locked now|answered|]; unfold service_step;
    try (intros Hp; apply on_plane_main in Hp || apply answers_main in Hp; by rewrite Hp);
    destruct s as [m p replies]; simpl in Hm.
  - unfold main_starts. simpl. destruct m; try done.
    destruct (start_control _ _); intros [= <-]; simpl; [done|]. apply fresh_not_ready, Hm.
  - unfold main_boots. simpl. destruct m; try done.
    destruct (boot _ _ _ _ _) as [[source health] [[net q]|e]] eqn:E; intros [= <-]; simpl; [done|].
    eapply failed_boot_not_ready; [apply Hm|exact E].
  - unfold main_loop. simpl. destruct m; try done. destruct ev; intros [= <-]; try done. simpl.
    intros now'. exact (begin_drain_not_ready _ now now').
  - unfold main_sends. simpl. destruct m; try done. by intros [= <-].
  - unfold main_joins. simpl. destruct m, (cp_task p); try done; by intros [= <-].
  - unfold main_closes. simpl. destruct m; try done. intros [= <-]. simpl.
    exact Hm.
Qed.

Lemma reachable_health_at (d : BrainstemDaemon S K) evs s :
  hm_started (bd_health d) = true -> hm_checkpoint_ok (bd_health d) = false ->
  run evs (service_start d) = Some s -> health_at (sv_main s).
Proof.
  intros H1 H2 Hr. refine (run_invariant (fun s => health_at (sv_main s)) _ evs _ s _ Hr); [|by split].
  intros ev s1 s2. apply step_health_at.
Qed.

(** What a client asking for readiness is told. *)
Definition readyz_request (rest : bytes) : bytes := client_request (as_bytes "GET") (as_bytes "/readyz") rest.

Lemma readyz_reply rest locked m now :
  exists content_type body,
    client_parse (control_response to_vec (readyz_request rest) locked m now) =
    Some (if negb locked && hs_ready (snapshot m now) then 200 else 503, content_type, body).
Proof.
  unfold control_response, try_snapshot. destruct locked; simpl negb; cbn [andb].
  - eexists _, _. by apply client_parse_response.
  - unfold render_http, readyz_request. rewrite parse_client_request by done.
    change (eq_ignore_ascii_case (as_bytes "GET") (as_bytes "GET")) with true. cbv iota.
    change (path_without_query (as_bytes "/readyz")) with (as_bytes "/readyz").
    pose proof (route_expected to_vec (as_bytes "/readyz") (snapshot m now)) as Hr.
    destruct (route to_vec (as_bytes "/readyz") (snapshot m now)) as [[status ct] body].
    destruct Hr as ((_ & Hready & _) & _ & Hct). rewrite (Hready (or_introl eq_refl)).
    eexists _, _. apply client_parse_response; [|done]. unfold u16_max. destruct (hs_ready _); lia.
Qed.

(** Once the signal has been handled the main task never loops again. *)
Definition past_loop (m : MainTask (LifRest := LifRest) (NetRest := NetRest) (StdpRest := StdpRest) (S := S) (K := K)) : bool :=
  match m with Binding _ | Booting _ | Looping _ => false | _ => true end.

Lemma step_past_loop ev (s s' : state) :
  past_loop (sv_main s) = true -> step ev s = Some s' -> past_loop (sv_main s') = true.
Proof.
  intros Hm. destruct ev as [| |ev| | | |has| |ok|sock locked now|answered|]; unfold service_step;
    try (intros Hp; apply on_plane_main in Hp || apply answers_main in Hp; by rewrite Hp);
    unfold main_starts, main_boots, main_loop, main_sends, main_joins, main_closes;
    destruct (sv_main s); try done; try destruct (cp_task _); try done; by intros [= <-].
Qed.

Lemma run_past_loop evs (s s' : state) :
  past_loop (sv_main s) = true -> run evs s = Some s' -> past_loop (sv_main s') = true.
Proof. intros Hs. by apply (run_invariant (fun s => past_loop (sv_main s) = true) step_past_loop). Qed.

(** While it has not left its loop, no signal has been handled. *)
Lemma no_signal_yet evs (s s' : state) :
  run evs s = Some s' -> past_loop (sv_main s') = false ->
  Forall (fun e => forall t, e <> LoopShutdown t) (loop_events evs).
Proof.
  revert s. induction evs as [|ev evs IH]; intros s; [constructor|]. cbn [service_run].
  destruct (step ev s) as [s1|] eqn:E; [|done]. cbn [mbind option_bind]. intros Hr Hl.
  pose proof (IH s1 Hr Hl) as Hrest. destruct ev as [| |e| | | | | | | | |]; try exact Hrest.
  change (loop_events (MainLoop e :: evs)) with (e :: loop_events evs). constructor; [|done].
  intros t ->. simpl in E. unfold main_loop in E. destruct (sv_main s); try done. injection E as <-.
  apply run_past_loop in Hr; [congruence|done].
Qed.

(** ** The guarantees *)

(** C10: the control surface does not disturb the run.  Interleave the main task
    with its control task and any number of clients however the runtime likes:
    when the run returns, its result and everything it leaves behind - source,
    sink, ingress and health - are exactly those of the sequential run over the
    same ticks, heartbeats and signal; and by then the control task, if one was
    spawned, has ended, so no connection is accepted after the backend is shut
    down. *)
Theorem service_refines_run (d : BrainstemDaemon S K) evs s w r :
  bd_config d = c -> run evs (service_start d) = Some s -> sv_main s = Returned w r ->
  sequential_run d restored init_at check_at (loop_events evs) = Some (w, r) /\
  (cp_task (sv_plane s) = NotSpawned \/ cp_task (sv_plane s) = Finished).
Proof.
  intros Hc Hr Hm. split.
  - rewrite <- (remaining_start d _ Hc). rewrite <- (app_nil_r (loop_events evs)).
    change (Binding (MkWorld (bd_source d) (bd_sink d) (bd_ingress d) (bd_health d)))
      with (sv_main (service_start d : state)).
    rewrite (run_remaining evs (service_start d) s [] Hr), Hm. done.
  - pose proof (reachable_plane_ok d evs s Hr) as (_ & _ & _ & _ & Hp). by rewrite Hm in Hp.
Qed.

(** C12: readiness is never claimed out of turn.  In any interleaving, a client
    of an answered connection that asks for /readyz reads a framed 200 or 503,
    and a 200 only while the main task is in its tick loop - after the network
    was restored and validated, before any termination signal was handled; from
    the signal on, and after a failed boot, every answer is 503. *)
Theorem ready_only_while_ticking c0 source sink now0 d evs s s' sock locked now rest :
  try_with_backend c0 source sink now0 = Ok d -> run evs (service_start d) = Some s ->
  read_http_request sock = Ok (readyz_request rest) ->
  step (ConnAnswers sock locked now) s = Some s' ->
  exists reply status content_type body,
    sv_replies s' = sv_replies s ++ [reply] /\
    client_parse reply = Some (status, content_type, body) /\
    (status = 200 \/ status = 503) /\
    (status = 200 -> (exists st, sv_main s = Looping st) /\
       Forall (fun e => forall t, e <> LoopShutdown t) (loop_events evs)).
Proof.
  intros Hd Hr Hreq Hstep. unfold service_step, conn_answers in Hstep. rewrite Hreq in Hstep.
  destruct (0 <? _); [|done]. injection Hstep as <-.
  destruct (readyz_reply rest locked (health_of (sv_main s)) now) as (ct & body & Hp).
  eexists _, _, ct, body. split; [reflexivity|]. split; [exact Hp|]. split; [destruct (_ && _); auto|].
  assert (health_at (sv_main s)) as Hh.
  { eapply reachable_health_at; [..|exact Hr]; unfold try_with_backend in Hd; split_ok;
      match goal with Hx : _ = Ok d |- _ => by injection Hx as <- end. }
  intros H200. assert (hs_ready (snapshot (health_of (sv_main s)) now) = true) as Hready
    by (destruct locked, (hs_ready _); done).
  destruct (sv_main s) as [w|w|st|w r|w r|w r|w r] eqn:Em; simpl in Hh, Hready;
    [by rewrite (fresh_not_ready _ (proj2 Hh)) in Hready|by rewrite (fresh_not_ready _ (proj2 Hh)) in Hready| |by rewrite Hh in Hready..].
  split; [eauto|]. eapply no_signal_yet; [exact Hr|]. by rewrite Em.
Qed.

Definition own_step (ev : ServiceEvent) : bool :=
  match ev with MainSends | MainJoins | MainCloses | ControlBegins true | ControlSees => true | _ => false end.

Lemma joining_completes (s : state) w r :
  plane_ok s -> sv_main s = Joining w r ->
  exists evs s', (length evs <= 1)%nat /\ Forall (fun ev => own_step ev = true) evs /\
    run evs s = Some s' /\ sv_main s' = Joining w r /\
    (cp_task (sv_plane s') = NotSpawned \/ cp_task (sv_plane s') = Finished).
Proof.
  destruct s as [m [task server wc waiting] replies]. intros (Hst & _ & _ & _ & Hj) Hm. simpl in *. subst m.
  destruct task.
  - exists [], (MkService (Joining w r) (MkPlane C NotSpawned server wc waiting) replies).
    split; [simpl; lia|]. split; [done|]. split; [done|]. simpl. auto.
  - destruct Hj as [?|[?|[w0 Hj]]]; [done..|]. eexists [ControlBegins true], _.
    split; [done|]. split; [by repeat constructor|]. cbn [service_run service_step].
    unfold on_plane, control_begins. cbn [cp_task sv_plane cp_watch negb]. rewrite Hj, watch_sent.
    split; [reflexivity|]. simpl. auto.
  - destruct Hj as [?|[?|[w0 Hj]]]; [done..|]. subst wc.
    destruct (watch_wakes true w0) as [[wc' ok] Hw]. pose proof (watch_kept _ _ _ Hw) as Hk.
    rewrite watch_sent in Hk. eexists [ControlSees], _.
    split; [done|]. split; [by repeat constructor|]. cbn [service_run service_step].
    unfold on_plane, control_sees. cbn [cp_task sv_plane cp_watch cp_server]. rewrite Hw.
    cbn [mbind option_bind control_step]. rewrite Hst by auto. simpl. rewrite Hk.
    split; [destruct ok; reflexivity|]. simpl. auto.
  - exists [], (MkService (Joining w r) (MkPlane C Finished server wc waiting) replies).
    split; [simpl; lia|]. split; [done|]. split; [done|]. simpl. auto.
Qed.

Lemma joined_closes (s : state) w r :
  sv_main s = Joining w r -> (cp_task (sv_plane s) = NotSpawned \/ cp_task (sv_plane s) = Finished) ->
  exists s', run [MainJoins; MainCloses] s = Some s' /\ sv_main s' = Returned (close w) r.
Proof.
  destruct s as [m [task server wc waiting] replies]. simpl. intros -> [-> | ->]; by eexists.
Qed.

(** C11: shutdown completes.  From wherever the service is once its main task
    has left its loop or failed to start - however many connections are open,
    whatever they are waiting for, and whether or not the control task has been
    polled yet - at most four steps of the main and control tasks alone take the
    run to its return: the control task is always woken by the stop signal, so
    the join never waits on a client. *)
Theorem shutdown_completes (d : BrainstemDaemon S K) evs s :
  run evs (service_start d) = Some s -> past_loop (sv_main s) = true ->
  exists evs' s' w r, (length evs' <= 4)%nat /\ Forall (fun ev => own_step ev = true) evs' /\
    run evs' s = Some s' /\ sv_main s' = Returned w r.
Proof.
  intros Hr Hp. pose proof (reachable_plane_ok d evs s Hr) as Hok.
  assert (forall s1 w r, plane_ok s1 -> sv_main s1 = Joining w r ->
    exists evs' s', (length evs' <= 3)%nat /\ Forall (fun ev => own_step ev = true) evs' /\
      run evs' s1 = Some s' /\ sv_main s' = Returned (close w) r) as Hj.
  { intros s1 w r Hok1 Hm. destruct (joining_completes s1 w r Hok1 Hm) as (e1 & s2 & Hl & Hf & H1 & H2 & Ht).
    destruct (joined_closes s2 w r H2 Ht) as (s3 & H3 & H4). exists (e1 ++ [MainJoins; MainCloses]), s3.
    split; [rewrite length_app; simpl; lia|]. split; [apply Forall_app; split; [done|by repeat constructor]|].
    rewrite run_app, H1. done. }
  destruct (sv_main s) as [w|w|st|w r|w r|w r|w r] eqn:Em; try done.
  - destruct (step MainSends s) as [s1|] eqn:Es; [|by unfold service_step, main_sends in Es; rewrite Em in Es].
    destruct (Hj s1 w r) as (e & s' & Hl & Hf & H1 & H2).
    + by eapply step_plane_ok.
    + unfold service_step, main_sends in Es. rewrite Em in Es. by injection Es as <-.
    + exists (MainSends :: e), s', (close w), r. split; [simpl; lia|]. split; [by constructor|].
      cbn [service_run]. by rewrite Es.
  - destruct (Hj s w r Hok Em) as (e & s' & Hl & Hf & H1 & H2). exists e, s', (close w), r. split; [lia|done].
  - exists [MainCloses], (set_main (Returned (close w) r) s), (close w), r. split; [simpl; lia|].
    split; [by repeat constructor|]. cbn [service_run]. unfold service_step, main_closes. by rewrite Em.
  - exists [], s, w, r. split; [simpl; lia|]. by split.
Qed.
End ServiceFacts.

(** ** Witnesses *)

(** A channel that keeps its value, whether it was seen, and whether its sender
    is gone. *)
Record DemoWatch := MkDemoWatch { dw_value : bool; dw_unseen : bool; dw_closed : bool }.

#[export] Instance demo_watch : WatchChannel DemoWatch := {
  watch_channel v := MkDemoWatch v false false;
  watch_send v c := MkDemoWatch v true (dw_closed c);
  watch_close c := MkDemoWatch (dw_value c) (dw_unseen c) true;
  watch_borrow := dw_value;
  watch_changed c :=
    if dw_unseen c then Some (MkDemoWatch (dw_value c) false (dw_closed c), true)
    else if dw_closed c then Some (c, false) else None;
}.

#[export] Instance demo_watch_laws : WatchLaws DemoWatch.
Proof.
  split; [done|by eexists|]. intros [v [] []] c' ok; simpl; by intros [= <- _].
Qed.

Definition demo_service_daemon : BrainstemDaemon StubStimulusSource CollectingSpikeSink :=
  MkDaemon _ _ (take_services demo_config).1 (from_configs (services demo_config)) StubSource
    CollectingSpikeSink_new demo_ingress (handle_started HealthLimits_default 0).

Abbreviation demo_service_run := (service_run (C := DemoWatch) demo_fs
  (fun _ => Ok demo_document) (fun _ => Err tt) (fun b => b) demo_with_dimensions demo_set_config
  (fun s => [s]) (fun _ => "p"%string) demo_net_step demo_mods (fun _ => Ok tt) (fun _ => None)
  (bd_config demo_service_daemon) None 1 2).

(** Two clients connect; one is answered while the daemon ticks. *)
Definition demo_prefix : list ServiceEvent :=
  [MainStarts; ControlBegins true; ControlAccepts true; MainBoots; ControlAccepts true;
   MainLoop (LoopTick demo_env)].

Definition demo_readyz : list (Z * option bytes) := [(3, Some (readyz_request []))].

Definition demo_suffix : list ServiceEvent :=
  [MainLoop LoopHeartbeat; ConnEnds true; MainLoop (LoopShutdown 9); MainSends; ControlSees; MainJoins; MainCloses].

Lemma service_refines_run_witness : exists w,
  run_loop demo_fs (fun _ => Ok demo_document) (fun _ => Err tt) (fun b => b) demo_with_dimensions
    demo_set_config (fun s => [s]) (fun _ => "p"%string) demo_net_step demo_mods (fun _ => Ok tt)
    demo_service_daemon None 1 2 [LoopTick demo_env; LoopHeartbeat; LoopShutdown 9] = Some (w, Ok tt).
Proof.
  assert (exists s w, demo_service_run (demo_prefix ++ ConnAnswers demo_readyz false 7 :: demo_suffix)
    (service_start demo_service_daemon) = Some s /\ sv_main s = Returned w (Ok tt)) as (s & w & Hr & Hm)
    by (eexists _, _; split; [vm_compute; reflexivity|reflexivity]).
  exists w. exact (proj1 (service_refines_run demo_fs
    (fun _ => Ok demo_document) (fun _ => Err tt) (fun b => b) demo_with_dimensions demo_set_config
    (fun s => [s]) (fun _ => "p"%string) demo_net_step demo_mods (fun _ => Ok tt) (fun _ => None)
    (bd_config demo_service_daemon) None 1 2 demo_service_daemon _ s w (Ok tt) eq_refl Hr Hm)).
Defined.

Lemma ready_only_while_ticking_witness : exists s s' reply ct body,
  demo_service_run demo_prefix (service_start demo_service_daemon) = Some s /\
  demo_service_run [ConnAnswers demo_readyz false 7] s = Some s' /\
  sv_replies s' = sv_replies s ++ [reply] /\ client_parse reply = Some (200, ct, body) /\
  exists st, sv_main s = Looping st.
Proof.
  assert (exists s s', demo_service_run demo_prefix (service_start demo_service_daemon) = Some s /\
    demo_service_run [ConnAnswers demo_readyz false 7] s = Some s' /\
    match sv_replies s' with [_; _] => False | reply :: _ => (fst ∘ fst <$> client_parse reply) = Some 200 | _ => False end /\
    sv_replies s = [])
    as (s & s' & Hr & Hs & Hreply & Hnil)
    by (eexists _, _; split; [vm_compute; reflexivity|]; split; [vm_compute; reflexivity|]; by split; vm_compute).
  exists s, s'.
  pose proof (ready_only_while_ticking demo_fs
    (fun _ => Ok demo_document) (fun _ => Err tt) (fun b => b) demo_with_dimensions demo_set_config
    (fun s => [s]) (fun _ => "p"%string) demo_net_step demo_mods (fun _ => Ok tt) (fun _ => None)
    (bd_config demo_service_daemon) None 1 2 demo_config StubSource CollectingSpikeSink_new 0
    demo_service_daemon demo_prefix s s' demo_readyz false 7 []) as H.
  destruct H as (reply & status & ct & body & Ha & Hp & _ & H200); [vm_compute; reflexivity|exact Hr|vm_compute; reflexivity
    |cbn [service_run] in Hs; destruct (service_step _ _ _ _ _ _ _ _ _ _ _ _ _ _ _ _ _ _) as [s1|]; [exact Hs|discriminate]|].
  rewrite Hnil in Ha. rewrite Ha in Hreply. simpl in Hreply. rewrite Hp in Hreply. injection Hreply as ->.
  exists reply, ct, body. split; [exact Hr|]. split; [exact Hs|]. split; [by rewrite Hnil, Ha|]. split; [exact Hp|]. by apply H200.
Defined.

(** The signal comes with the control task spawned and never polled, and no
    client in sight. *)
Lemma shutdown_completes_witness : exists s evs' s' w r,
  demo_service_run [MainStarts; MainBoots; MainLoop (LoopShutdown 9)] (service_start demo_service_daemon) = Some s /\
  (length evs' <= 4)%nat /\ demo_service_run evs' s = Some s' /\ sv_main s' = Returned w r.
Proof.
  assert (exists s, demo_service_run [MainStarts; MainBoots; MainLoop (LoopShutdown 9)]
    (service_start demo_service_daemon) = Some s /\ past_loop (sv_main s) = true) as (s & Hr & Hp)
    by (eexists; split; [vm_compute; reflexivity|reflexivity]).
  destruct (shutdown_completes demo_fs
    (fun _ => Ok demo_document) (fun _ => Err tt) (fun b => b) demo_with_dimensions demo_set_config
    (fun s => [s]) (fun _ => "p"%string) demo_net_step demo_mods (fun _ => Ok tt) (fun _ => None)
    (bd_config demo_service_daemon) None 1 2 demo_service_daemon _ s Hr Hp) as (evs' & s' & w & r & Hl & _ & H1 & H2).
  exists s, evs', s', w, r. split; [exact Hr|]. split; [exact Hl|]. split; [exact H1|exact H2].
Defined.
