(* ===== verification/Probe.v ===== *)
(** * A probe over the wire

    The control surface composed with the health machine: from the bytes of a
    readiness probe, cut into reads anyhow, to the state of the lifecycle
    automaton. *)

From Stdlib Require Import Ascii.
From S2P Require Import Prelude NetAddr Text Health HealthView Daemon Control.
Local Open Scope Z_scope.

Definition ascii_only (s : bytes) : bool := forallb (fun c => code c <? 128) s.

Lemma code_nonneg c : 0 <= code c.
Proof. unfold code. lia. Qed.

Lemma ascii_utf8 s : ascii_only s = true -> utf8_valid (code <$> s) = true.
Proof.
  induction s as [|c s IH]; [done|]. unfold ascii_only. cbn [forallb fmap list_fmap utf8_valid].
  intros [-> Hs]%andb_true_iff. by apply IH.
Qed.

Lemma forallb_take {A} (p : A -> bool) n l : forallb p l = true -> forallb p (take n l) = true.
Proof.
  revert n. induction l as [|x l IH]; intros [|n]; try done. cbn [forallb take].
  intros [-> Hl]%andb_true_iff. by apply IH.
Qed.

Lemma has_lf_app a b : has_lf (a ++ b) = has_lf a || has_lf b.
Proof. apply existsb_app. Qed.

Lemma no_lf_has_lf a : no_lf a = true -> has_lf a = false.
Proof.
  unfold no_lf, has_lf. induction a as [|c a IH]; cbn [forallb existsb]; [done|].
  intros [Hc Ha]%andb_true_iff. apply negb_true_iff in Hc. by rewrite Ascii.eqb_sym, Hc, IH.
Qed.

(** The part of a request that was read holds its whole first line. *)
Lemma take_first_line a s n :
  no_lf a = true -> has_lf (take n (a ++ lf :: s)) = true ->
  exists s', take n (a ++ lf :: s) = a ++ lf :: s'.
Proof.
  intros Ha Hn. destruct (decide (n <= length a)%nat) as [Hle|Hgt].
  - rewrite take_app_le in Hn by done. rewrite no_lf_has_lf in Hn; [done|].
    by apply forallb_take.
  - rewrite take_app_ge by lia. destruct (n - length a)%nat as [|k] eqn:Hk; [lia|]. by exists (take k s).
Qed.

Lemma latest_bound sock n now deadline :
  now <= deadline -> Forall (fun e => e.1 <= deadline) sock -> latest now n sock <= deadline.
Proof.
  unfold latest. revert now sock. induction n as [|n IH]; intros now sock Hn Hs; [done|].
  destruct Hs as [|e sock He Hs]; [done|]. simpl. apply IH; [lia|done].
Qed.

Lemma received_all sock : received (length sock) sock = concat ((fun e => default [] e.2) <$> sock).
Proof. unfold received. by rewrite take_ge. Qed.

Lemma received_prefix n sock : exists rest, received (length sock) sock = received n sock ++ rest.
Proof.
  exists (concat ((fun e => default [] e.2) <$> drop n sock)). rewrite received_all. unfold received.
  by rewrite <- concat_app, <- fmap_app, take_drop.
Qed.

(** A peer that sends a request, in any pieces, by the deadline. *)
Record sends (sock : Socket) (request : bytes) (deadline : Z) : Prop := {
  sd_data : Forall (fun e => exists c chunk, e.2 = Some (c :: chunk)) sock;
  sd_whole : received (length sock) sock = request;
  sd_time : Forall (fun e => e.1 <= deadline) sock;
}.

(** What the server reads of it has the same first line. *)
Lemma sends_first_line sock a s deadline :
  0 <= deadline -> no_lf a = true -> len a < REQUEST_BUF ->
  sends sock (a ++ lf :: s) deadline ->
  exists t s', read_request_line sock = Completes t (a ++ lf :: s') /\ t <= deadline /\
    exists n, a ++ lf :: s' = take n (a ++ lf :: s).
Proof.
  intros Hd Ha Hlen [H1 H2 H3].
  assert (forall n, len (take n (a ++ lf :: s)) = REQUEST_BUF -> has_lf (take n (a ++ lf :: s)) = true) as Hfull.
  { intros n Hn. assert (length a < n)%nat as Hlt.
    { unfold len in *. rewrite length_take in Hn. lia. }
    rewrite take_app_ge by lia. destruct (n - length a)%nat as [|k] eqn:Hk; [lia|].
    rewrite has_lf_app. apply orb_true_r. }
  destruct (read_loop_spec READ_FUEL [] 0 sock) as (o & Ho & Hs); [done|done|done|].
  unfold read_request_line. rewrite Ho. cbn [default]. destruct o as [|t|t line]; simpl in Hs.
  - destruct Hs as [_ [Hlf Hshort]]. unfold buffered in Hlf, Hshort. rewrite H2 in *. cbn [app] in *.
    rewrite take_ge in Hlf by (unfold len in Hshort; rewrite length_take in Hshort; lia).
    rewrite has_lf_app in Hlf. by apply orb_false_iff in Hlf as [_ Hlf].
  - destruct Hs as (n & t' & Hn & _). apply (Forall_lookup_1 _ _ _ _ H1) in Hn as (c & chunk & Hn). done.
  - destruct Hs as (n & -> & -> & Hn & _ & _ & Hend).
    destruct (received_prefix n sock) as [rest Hr]. rewrite H2 in Hr.
    assert (buffered [] n sock = take (length (buffered [] n sock)) (a ++ lf :: s)) as Hpre.
    { rewrite Hr. unfold buffered. cbn [app]. generalize (received n sock), (Z.to_nat REQUEST_BUF).
      intros l k. rewrite length_take, take_app_le by lia.
      destruct (Nat.le_ge_cases k (length l)) as [Hk|Hk]; [by rewrite Nat.min_l|].
      by rewrite Nat.min_r, !take_ge by done. }
    assert (has_lf (buffered [] n sock) = true) as Hlf.
    { destruct Hend as [Hend|[Hend|(k & t' & _ & Hk)]]; [done| |].
      - rewrite Hpre in Hend |- *. by apply Hfull.
      - by apply (Forall_lookup_1 _ _ _ _ H1) in Hk as (c & chunk & Hk). }
    rewrite Hpre in Hlf. destruct (take_first_line _ _ _ Ha Hlf) as [s' Hs']. rewrite Hpre.
    exists (latest 0 n sock), s'. rewrite Hs'. split; [done|].
    split; [by apply latest_bound|]. by eexists.
Qed.

(** C14: a readiness probe sees the lifecycle.  However a peer cuts its request
    into reads, as long as the request line fits the buffer and all of it is in
    by the deadline, it is answered by a framed reply; [/readyz] is 200 exactly
    when the events the machine was given make the lifecycle automaton ready, and
    [/livez] 200 exactly when the process was started - whatever the peer sends
    after the request line.  As in the code, and unlike what docs/health.md says,
    a [Fatal] event makes the automaton terminal even before [ProcessStarted]
    ([Health.unstarted_fatal_terminal]): such a process answers 503 after its
    boot.  A process started first follows the documented automaton. *)
Theorem probe_sees_lifecycle to_vec sock target rest write written es limits now :
  token target = true -> ascii_only (client_request (as_bytes "GET") target rest) = true ->
  len target + 14 < REQUEST_BUF ->
  sends sock (client_request (as_bytes "GET") target rest) IO_TIMEOUT ->
  (forall response, write response = Completes written tt) -> written <= IO_TIMEOUT ->
  exists response status content_type body,
    handle_connection to_vec sock write false (run_from limits es) now = Ok response /\
    client_parse response = Some (status, content_type, body) /\
    (path_without_query target = as_bytes "/readyz" ->
       status = if decide (lifecycle es = Some 3%nat) then 200 else 503) /\
    (path_without_query target = as_bytes "/livez" ->
       status = if hm_started (run_from limits es) then 200 else 503).
Proof.
  intros Ht Hascii Hfit Hsends Hwrite Hwritten. set (req := client_request (as_bytes "GET") target rest) in *.
  set (line := as_bytes "GET" ++ " "%char :: target ++ as_bytes " HTTP/1.1" ++ [cr]).
  assert (forall s, client_request (as_bytes "GET") target s = line ++ lf :: s) as Hreq.
  { intros s. unfold line, client_request.
    by rewrite <- app_assoc, <- app_comm_cons, <- !app_assoc. }
  pose proof Ht as [_ Hg]%andb_true_iff.
  destruct (sends_first_line sock line rest IO_TIMEOUT) as (t & s' & Hread & Htime & n & Hn); [done| | |by rewrite <- Hreq|].
  { unfold line. rewrite no_lf_app. change (no_lf (" "%char :: target ++ as_bytes " HTTP/1.1" ++ [cr]))
      with (no_lf (target ++ as_bytes " HTTP/1.1" ++ [cr])).
    by rewrite no_lf_app, (graphic_no_lf target). }
  { unfold line. rewrite len_app, len_cons, len_app. change (len (as_bytes "GET")) with 3.
    change (len (as_bytes " HTTP/1.1" ++ [cr])) with 10. unfold REQUEST_BUF in *. lia. }
  assert (read_http_request sock = Ok (client_request (as_bytes "GET") target s')) as Hr.
  { unfold read_http_request. rewrite Hread. cbn [timed_io].
    destruct (Z.leb_spec t IO_TIMEOUT); [|lia]. cbn [mbind result_bind].
    rewrite ascii_utf8; [by rewrite Hreq|]. rewrite Hn, <- Hreq. by apply forallb_take. }
  pose proof (route_expected to_vec (path_without_query target) (snapshot (run_from limits es) now)) as Hroute.
  destruct (route to_vec (path_without_query target) _) as [[status ct] body] eqn:Hro.
  destruct Hroute as ((He1 & He2 & _) & Hst & Hct).
  exists (http_response status ct body), status, (as_bytes ct), body. split; [|split; [|split]].
  - unfold handle_connection. rewrite Hr. cbn [mbind result_bind]. unfold write_http_response, control_response, try_snapshot.
    assert (render_http to_vec (client_request (as_bytes "GET") target s') (snapshot (run_from limits es) now) =
      http_response status ct body) as ->
      by (unfold render_http; rewrite parse_client_request by done;
          change (eq_ignore_ascii_case (as_bytes "GET") (as_bytes "GET")) with true; cbn iota; by rewrite Hro).
    rewrite Hwrite. cbn [timed_io]. by destruct (Z.leb_spec written IO_TIMEOUT); [|lia].
  - apply client_parse_response; [|done]. unfold u16_max. simpl in Hst. lia.
  - intros Hp. rewrite (He2 (or_introl Hp)). cbn [snapshot hs_ready].
    rewrite ready_lifecycle by apply run_from_ok.
    assert (lifecycle es = lifecycle_of (run_from limits es)) as ->
      by (symmetry; apply (lifecycle_run es), health_new_ok).
    by destruct (decide _) as [->|]; [|rewrite bool_decide_false].
  - intros Hp. by rewrite (He1 (or_introl Hp)).
Qed.

(** ** Witness *)

(** [GET /readyz] in two pieces, half a second apart, to a machine that booted. *)
Definition demo_probe : Socket :=
  [(0, Some (as_bytes "GET /rea")); (500000000, Some (as_bytes "dyz HTTP/1.1" ++ crlf ++ crlf))].

Lemma probe_sees_lifecycle_witness :
  exists response content_type body,
    handle_connection (fun _ => None) demo_probe (fun _ => Completes 7 tt) false
      (run_from HealthLimits_default demo_boot) 5 = Ok response /\
    client_parse response = Some (200, content_type, body).
Proof.
  assert (sends demo_probe (client_request (as_bytes "GET") (as_bytes "/readyz") crlf) IO_TIMEOUT) as Hsend.
  { constructor; [repeat constructor; by eexists _, _|reflexivity|by repeat constructor]. }
  destruct (probe_sees_lifecycle (fun _ => None) demo_probe (as_bytes "/readyz") crlf (fun _ => Completes 7 tt) 7
    demo_boot HealthLimits_default 5 eq_refl eq_refl eq_refl Hsend (fun _ => eq_refl) ltac:(done))
    as (response & status & ct & body & Hh & Hc & Hready & _).
  exists response, ct, body. split; [exact Hh|]. rewrite Hc, (Hready eq_refl). reflexivity.
Defined.
