(* ===== verification/Durable.v ===== *)
(** * Durable session state (src/runtime/durable.rs)

    The blob a restart keeps, its validation and its encoding.  serde_json is an
    argument: [to_vec] and [from_slice] at [DurableState]. *)

From Stdlib Require Import Ascii.
From S2P Require Import Prelude NetAddr Text.
Local Open Scope Z_scope.

Definition DURABLE_SCHEMA_VERSION : Z := 1.
Definition FAKE_CHECKPOINT_ID : string := "fake-core-v1".
Definition MAGIC : bytes := as_bytes "BSDK1" ++ [chr 10].

Record InflightRecord := MkInflight {
  if_session_id : Z;
  if_tick_seq : Z;
  if_ingress_seq : Z;
}.

#[export] Instance InflightRecord_eq_dec : EqDecision InflightRecord.
Proof. solve_decision. Defined.

Record DurableState := MkDurable {
  ds_schema_version : Z;
  ds_checkpoint_id : string;
  ds_last_session_id : Z;
  ds_committed_tick_seq : Z;
  ds_committed_ingress_seq : Z;
  ds_inflight : option InflightRecord;
}.

#[export] Instance DurableState_eq_dec : EqDecision DurableState.
Proof. solve_decision. Defined.

Definition DurableState_fresh : DurableState := {|
  ds_schema_version := DURABLE_SCHEMA_VERSION;
  ds_checkpoint_id := FAKE_CHECKPOINT_ID;
  ds_last_session_id := 0;
  ds_committed_tick_seq := 0;
  ds_committed_ingress_seq := 0;
  ds_inflight := None;
|}.

(** Assignments to the fields. *)
Definition set_session (id : Z) (s : DurableState) : DurableState :=
  MkDurable (ds_schema_version s) (ds_checkpoint_id s) id (ds_committed_tick_seq s)
    (ds_committed_ingress_seq s) (ds_inflight s).
Definition set_inflight (r : option InflightRecord) (s : DurableState) : DurableState :=
  MkDurable (ds_schema_version s) (ds_checkpoint_id s) (ds_last_session_id s) (ds_committed_tick_seq s)
    (ds_committed_ingress_seq s) r.
Definition set_committed (tick ingress : Z) (s : DurableState) : DurableState :=
  MkDurable (ds_schema_version s) (ds_checkpoint_id s) (ds_last_session_id s) tick ingress (ds_inflight s).

Inductive DurableError :=
| SchemaVersion (v : Z)
| CheckpointId (id : string)
| SessionZero
| TickOverflow
| InflightTick (tick committed : Z)
| InflightSession (session last : Z)
| InflightIngress (ingress committed : Z)
| MissingMagic
| BadJson
| Serialize.

(** [chars().any(char::is_control)] on UTF-8: C0, DEL, and the C1 block as the
    byte [C2] followed by [80..9F]. *)
Fixpoint has_control (s : bytes) : bool :=
  match s with
  | [] => false
  | c :: s' =>
    (code c <? 32) || (code c =? 127) ||
    ((code c =? 194) && match s' with d :: _ => (128 <=? code d) && (code d <=? 159) | [] => false end) ||
    has_control s'
  end.

Definition validate_identity (s : DurableState) : result DurableError unit :=
  require (ds_schema_version s =? DURABLE_SCHEMA_VERSION) (SchemaVersion (ds_schema_version s)) ≫= fun _ =>
  require (negb (bool_decide (ds_checkpoint_id s = EmptyString) ||
                 has_control (as_bytes (ds_checkpoint_id s)) ||
                 negb (bool_decide (ds_checkpoint_id s = FAKE_CHECKPOINT_ID))))
    (CheckpointId (ds_checkpoint_id s)).

Definition validate_session (s : DurableState) : result DurableError unit :=
  require (negb ((ds_last_session_id s =? 0) &&
                 (negb (ds_committed_tick_seq s =? 0) || negb (ds_committed_ingress_seq s =? 0) ||
                  is_some (ds_inflight s)))) SessionZero.

Definition validate_inflight (s : DurableState) : result DurableError unit :=
  match ds_inflight s with
  | None => Ok tt
  | Some inf =>
    ok_or (checked_add64 (ds_committed_tick_seq s) 1) TickOverflow ≫= fun next =>
    require (if_tick_seq inf =? next) (InflightTick (if_tick_seq inf) (ds_committed_tick_seq s)) ≫= fun _ =>
    require (if_session_id inf =? ds_last_session_id s)
      (InflightSession (if_session_id inf) (ds_last_session_id s)) ≫= fun _ =>
    require (negb (if_ingress_seq inf <=? ds_committed_ingress_seq s))
      (InflightIngress (if_ingress_seq inf) (ds_committed_ingress_seq s))
  end.

Definition durable_validate (s : DurableState) : result DurableError unit :=
  validate_identity s ≫= fun _ => validate_session s ≫= fun _ => validate_inflight s.

(** ** The store *)

Record DurableStore := MkStore { blob : option bytes }.

Definition store_empty : DurableStore := MkStore None.
Definition store_malformed (raw : bytes) : DurableStore := MkStore (Some raw).

Section Store.
Variable to_vec : DurableState -> option bytes.
Variable from_slice : bytes -> option DurableState.

Definition encode (s : DurableState) : result DurableError bytes :=
  ok_or (to_vec s) Serialize ≫= fun json => Ok (MAGIC ++ json).

Definition decode (raw : bytes) : result DurableError DurableState :=
  ok_or (strip_bytes MAGIC raw) MissingMagic ≫= fun json =>
  ok_or (from_slice json) BadJson ≫= fun s =>
  durable_validate s ≫= fun _ => Ok s.

Definition load (store : DurableStore) : result DurableError (option DurableState) :=
  match blob store with
  | None => Ok None
  | Some raw => decode raw ≫= fun s => Ok (Some s)
  end.

Definition persist (s : DurableState) : stateful DurableStore DurableError unit := fun store =>
  match durable_validate s ≫= fun _ => encode s with
  | Ok raw => (MkStore (Some raw), Ok tt)
  | Err e => (store, Err e)
  end.

Definition from_state (s : DurableState) : result DurableError DurableStore :=
  durable_validate s ≫= fun _ =>
  match persist s store_empty with
  | (store, Ok _) => Ok store
  | (_, Err e) => Err e
  end.
End Store.

(** ** What validation means *)

(** What may enter the live loop. *)
Record durable_ok (s : DurableState) : Prop := {
  do_schema : ds_schema_version s = DURABLE_SCHEMA_VERSION;
  do_id : ds_checkpoint_id s = FAKE_CHECKPOINT_ID;
  do_zero : ds_last_session_id s = 0 ->
    ds_committed_tick_seq s = 0 /\ ds_committed_ingress_seq s = 0 /\ ds_inflight s = None;
  do_inflight : forall r, ds_inflight s = Some r ->
    if_tick_seq r = ds_committed_tick_seq s + 1 /\ ds_committed_tick_seq s < u64_max /\
    if_session_id r = ds_last_session_id s /\ ds_committed_ingress_seq s < if_ingress_seq r;
}.

Lemma validate_identity_iff s :
  validate_identity s = Ok tt <->
  ds_schema_version s = DURABLE_SCHEMA_VERSION /\ ds_checkpoint_id s = FAKE_CHECKPOINT_ID.
Proof.
  unfold validate_identity. rewrite require_bind_ok, require_ok, Z.eqb_eq.
  destruct (decide (ds_checkpoint_id s = FAKE_CHECKPOINT_ID)) as [->|Hne].
  - split; [by intros [-> _]|]. intros [-> _]. by split.
  - rewrite (bool_decide_eq_false_2 (_ = FAKE_CHECKPOINT_ID)) by done. simpl.
    rewrite orb_true_r. simpl. split; [by intros [_ ?]|by intros [_ ?]].
Qed.

Lemma validate_session_iff s :
  validate_session s = Ok tt <->
  (ds_last_session_id s = 0 ->
   ds_committed_tick_seq s = 0 /\ ds_committed_ingress_seq s = 0 /\ ds_inflight s = None).
Proof.
  unfold validate_session. rewrite require_ok.
  destruct (Z.eqb_spec (ds_last_session_id s) 0); simpl; [|by split].
  destruct (Z.eqb_spec (ds_committed_tick_seq s) 0), (Z.eqb_spec (ds_committed_ingress_seq s) 0),
    (ds_inflight s); simpl; split; intros H; try done; destruct H as (? & ? & ?); done.
Qed.

Lemma validate_inflight_iff s :
  validate_inflight s = Ok tt <->
  (forall r, ds_inflight s = Some r ->
    if_tick_seq r = ds_committed_tick_seq s + 1 /\ ds_committed_tick_seq s < u64_max /\
    if_session_id r = ds_last_session_id s /\ ds_committed_ingress_seq s < if_ingress_seq r).
Proof.
  unfold validate_inflight. destruct (ds_inflight s) as [r|]; [|by split].
  unfold checked_add64. destruct (Z.leb_spec (ds_committed_tick_seq s + 1) u64_max); simpl.
  - rewrite !require_bind_ok, require_ok, negb_true_iff, !Z.eqb_eq, Z.leb_gt. split.
    + intros (? & ? & ?) r' [= <-]. repeat split; lia.
    + intros Hr. destruct (Hr r eq_refl) as (? & ? & ? & ?). auto.
  - split; [done|]. intros Hr. destruct (Hr r eq_refl) as (_ & ? & _). lia.
Qed.

Lemma durable_validate_iff s : durable_validate s = Ok tt <-> durable_ok s.
Proof.
  assert (forall m k : result DurableError unit, m ≫= (fun _ => k) = Ok tt <-> m = Ok tt /\ k = Ok tt) as Hb.
  { intros [[]|e] k; simpl; [tauto|]. split; [done|by intros [? _]]. }
  unfold durable_validate. rewrite !Hb, validate_identity_iff, validate_session_iff, validate_inflight_iff.
  split; [intros ([? ?] & ? & ?); by constructor|]. intros [? ? ? ?]. auto.
Qed.

(** serde_json's contract on the state: what it writes it reads back. *)
Definition json_roundtrips (to_vec : DurableState -> option bytes) (from_slice : bytes -> option DurableState) : Prop :=
  forall s, exists json, to_vec s = Some json /\ from_slice json = Some s.

Section StoreFacts.
Variable to_vec : DurableState -> option bytes.
Variable from_slice : bytes -> option DurableState.
Hypothesis Hjson : json_roundtrips to_vec from_slice.

Lemma persist_load s store :
  durable_ok s ->
  exists store', persist to_vec s store = (store', Ok tt) /\ load from_slice store' = Ok (Some s).
Proof.
  intros Hs%durable_validate_iff. destruct (Hjson s) as (json & Hw & Hr).
  assert (decode from_slice (MAGIC ++ json) = Ok s) as Hd.
  { unfold decode. rewrite strip_bytes_app. cbn [ok_or mbind result_bind]. by rewrite Hr; simpl; rewrite Hs. }
  exists (MkStore (Some (MAGIC ++ json))). unfold persist, encode, load. rewrite Hs, Hw.
  split; [reflexivity|]. cbn [blob]. by rewrite Hd.
Qed.

Lemma load_ok store s : load from_slice store = Ok (Some s) -> durable_ok s.
Proof.
  unfold load, decode. destruct (blob store) as [raw|]; [|done].
  intros (s' & H & [= ->])%result_bind_ok. apply result_bind_ok in H as (json & _ & H).
  apply result_bind_ok in H as (s' & _ & H). apply result_bind_ok in H as ([] & Hv & [= ->]).
  by apply durable_validate_iff.
Qed.
End StoreFacts.

(** C31: only valid state is ever durable.  The store accepts exactly the states
    with the expected schema and identity, no work before the first session and
    an in-flight record that is the next tick of the last session on fresh
    ingress - a refused state leaves the blob as it was, an accepted one is read
    back unchanged - and loading yields only such states, whatever the bytes. *)
Theorem store_holds_valid_state to_vec from_slice s store :
  json_roundtrips to_vec from_slice ->
  let '(store', r) := persist to_vec s store in
  (is_ok r = true <-> durable_ok s) /\
  (if is_ok r then load from_slice store' = Ok (Some s) else store' = store) /\
  (forall raw t, load from_slice (store_malformed raw) = Ok (Some t) -> durable_ok t).
Proof.
  intros Hj. assert (forall raw t, load from_slice (store_malformed raw) = Ok (Some t) -> durable_ok t) as Hl
    by (intros raw t; apply load_ok).
  destruct (durable_validate s) as [[]|e] eqn:Hv.
  - pose proof (proj1 (durable_validate_iff s) Hv) as Hs.
    destruct (persist_load to_vec from_slice Hj s store Hs) as (store' & -> & Hr). done.
  - unfold persist. rewrite Hv. simpl. split; [|done]. split; [done|].
    intros Hs%durable_validate_iff. by rewrite Hs in Hv.
Qed.

(** ** Witness *)

(** A concrete writer and reader: the binary digits of stdpp's code of the
    state. *)
Definition durable_tuple (s : DurableState) :
    Z * string * Z * Z * Z * option (Z * Z * Z) :=
  (ds_schema_version s, ds_checkpoint_id s, ds_last_session_id s, ds_committed_tick_seq s,
   ds_committed_ingress_seq s,
   (fun r => (if_session_id r, if_tick_seq r, if_ingress_seq r)) <$> ds_inflight s).

Definition durable_of_tuple (t : Z * string * Z * Z * Z * option (Z * Z * Z)) : DurableState :=
  let '(v, id, session, tick, ingress, inf) := t in
  MkDurable v id session tick ingress ((fun '(a, b, c) => MkInflight a b c) <$> inf).

#[export] Instance DurableState_countable : Countable DurableState.
Proof.
  refine (inj_countable' durable_tuple durable_of_tuple _).
  intros [v id a b c [[x y z]|]]; reflexivity.
Defined.

Fixpoint digits_of (p : positive) : bytes :=
  match p with
  | xH => []
  | xO p' => chr 48 :: digits_of p'
  | xI p' => chr 49 :: digits_of p'
  end.

Fixpoint of_digits (s : bytes) : positive :=
  match s with
  | [] => xH
  | c :: s' => if Ascii.eqb c (chr 48) then xO (of_digits s') else xI (of_digits s')
  end.

Lemma of_digits_of p : of_digits (digits_of p) = p.
Proof. induction p; simpl; by f_equal. Qed.

Definition demo_to_vec (s : DurableState) : option bytes := Some (digits_of (countable.encode s)).
Definition demo_from_slice (raw : bytes) : option DurableState := countable.decode (of_digits raw).

Lemma demo_json_roundtrips : json_roundtrips demo_to_vec demo_from_slice.
Proof.
  intros s. eexists. split; [done|]. unfold demo_from_slice. by rewrite of_digits_of, decode_encode.
Qed.

Lemma store_holds_valid_state_witness :
  is_ok (persist demo_to_vec DurableState_fresh store_empty).2 = true.
Proof.
  pose proof (store_holds_valid_state demo_to_vec demo_from_slice DurableState_fresh store_empty
    demo_json_roundtrips) as H.
  destruct (persist demo_to_vec DurableState_fresh store_empty) as [store' r].
  apply (proj2 (proj1 H)). constructor; [reflexivity|reflexivity|intros _; repeat split|discriminate].
Defined.
