(* ===== verification/Harness.v ===== *)
(** * The restart and fault-injection harness (src/runtime/)

    The fault points and their oracle (mod.rs), the fake clock (clock.rs), core
    and source (fakes.rs), the injector (inject.rs) and the harness itself
    (harness.rs), whose methods take [&mut self] and return [Result]: they are
    [stateful] over [RuntimeHarness], keeping what they changed before an early
    return. *)

From Stdlib Require Import Sorting.Sorted.
From S2P Require Import Prelude NetAddr Floats Durable.
Local Open Scope Z_scope.

(** ** Fault points and outcomes (mod.rs) *)

Inductive Boundary := Initialize | CheckpointValidation | Ingress | TickExecute | MetricPublish | Shutdown.

#[export] Instance Boundary_eq_dec : EqDecision Boundary.
Proof. solve_decision. Defined.

Inductive FaultPoint :=
| Before (b : Boundary)
| After (b : Boundary)
| MalformedCheckpoint
| CoreStepError
| ClosedChannel
| BackpressureTimeout
| InterruptedShutdown.

#[export] Instance FaultPoint_eq_dec : EqDecision FaultPoint.
Proof. solve_decision. Defined.

Definition ALL_FAULT_POINTS : list FaultPoint :=
  [Before Initialize; After Initialize; Before CheckpointValidation; After CheckpointValidation;
   Before Ingress; After Ingress; Before TickExecute; After TickExecute; Before MetricPublish;
   After MetricPublish; Before Shutdown; After Shutdown; MalformedCheckpoint; CoreStepError;
   ClosedChannel; BackpressureTimeout; InterruptedShutdown].

Inductive Health :=
| Starting | Live | CheckpointInvalid | Degraded | Faulted | ShuttingDown | Stopped | IncompleteShutdown.

#[export] Instance Health_eq_dec : EqDecision Health.
Proof. solve_decision. Defined.

Inductive RestartOutcome := FreshStart | RecoveredClean | RecoveredIncomplete | RejectedInvalid.

#[export] Instance RestartOutcome_eq_dec : EqDecision RestartOutcome.
Proof. solve_decision. Defined.

Record SequencedIngress := MkSequenced { si_seq : Z; si_stimuli : list f32 }.

Record ExpectedOutcome := MkExpected {
  eo_terminal_health : Health;
  eo_restart : RestartOutcome;
  eo_published_before_crash : Z;
  eo_live_loop_entered : bool;
}.

Definition ingress_degraded : ExpectedOutcome := MkExpected Degraded RecoveredClean 0 true.
Definition incomplete_tick (health : Health) : ExpectedOutcome := MkExpected health RecoveredIncomplete 0 true.
Definition shutdown_incomplete : ExpectedOutcome := MkExpected IncompleteShutdown RecoveredClean 1 true.

Definition before_boundary (b : Boundary) : ExpectedOutcome :=
  match b with
  | Initialize | CheckpointValidation => MkExpected Faulted FreshStart 0 false
  | Ingress => ingress_degraded
  | TickExecute => MkExpected Faulted RecoveredClean 0 true
  | MetricPublish => incomplete_tick Degraded
  | Shutdown => shutdown_incomplete
  end.

Definition after_boundary (b : Boundary) : ExpectedOutcome :=
  match b with
  | Initialize => MkExpected Faulted FreshStart 0 false
  | CheckpointValidation => MkExpected Faulted RecoveredClean 0 false
  | Ingress => ingress_degraded
  | TickExecute => incomplete_tick Faulted
  | MetricPublish | Shutdown => MkExpected Faulted RecoveredClean 1 true
  end.

Definition expected_outcome (point : FaultPoint) : ExpectedOutcome :=
  match point with
  | Before b => before_boundary b
  | After b => after_boundary b
  | MalformedCheckpoint => MkExpected CheckpointInvalid RejectedInvalid 0 false
  | CoreStepError => incomplete_tick Faulted
  | ClosedChannel => ingress_degraded
  | BackpressureTimeout => incomplete_tick Degraded
  | InterruptedShutdown => shutdown_incomplete
  end.

(** ** Clock, core and source (clock.rs, fakes.rs) *)

Definition BACKPRESSURE_BUDGET_NS : Z := 10000000.
Definition TICK_PERIOD_NS : Z := 1000000.

Definition clock_advance (now ns : Z) : Z := sat_add64 now ns.

Record FakeCore := MkCore { fc_steps : Z; fc_last_stimuli : option (list f32) }.

Definition FakeCore_default : FakeCore := MkCore 0 None.

(** Indices of the stimuli above 0.5 that fit a [u16]. *)
Fixpoint spikes_from (i : Z) (stimuli : list f32) : list Z :=
  match stimuli with
  | [] => []
  | s :: stimuli' =>
    (if f_gt s f_half32 && (i <=? u16_max) then [i] else []) ++ spikes_from (i + 1) stimuli'
  end.

Definition core_step (stimuli : list f32) (core : FakeCore) : FakeCore * list Z :=
  (MkCore (wadd64 (fc_steps core) 1) (Some stimuli), spikes_from 0 stimuli).

Record CommittedOutput := MkOutput {
  co_session_id : Z;
  co_tick_seq : Z;
  co_ingress_seq : Z;
  co_spike_ids : list Z;
  co_time_ns : Z;
}.

Record MetricEvent := MkMetric {
  me_session_id : Z;
  me_tick_seq : Z;
  me_ingress_seq : Z;
}.

Inductive TickResult := Committed | SkippedReplay | NoIngress.

#[export] Instance TickResult_eq_dec : EqDecision TickResult.
Proof. solve_decision. Defined.

Definition stimuli_for (seed seq : Z) : list f32 :=
  let v := f32_div (f32_of_int (wadd64 seed (wmul64 seq 17) mod 10)) (f32_of_int 10) in
  [v; f32_sub f_one32 v].

Definition packets_for_seed (seed : Z) : list SequencedIngress :=
  (fun seq => MkSequenced seq (stimuli_for seed seq)) <$> [1; 2; 3; 4; 5; 6; 7; 8].

(** ** The injector's health mapping (inject.rs) *)

Definition injected_terminal_health (point : FaultPoint) : Health :=
  match point with
  | Before Initialize | After Initialize | Before CheckpointValidation | After CheckpointValidation
  | Before TickExecute | After TickExecute | After MetricPublish | After Shutdown
  | CoreStepError => Faulted
  | MalformedCheckpoint => CheckpointInvalid
  | Before Ingress | After Ingress | ClosedChannel | Before MetricPublish | BackpressureTimeout => Degraded
  | Before Shutdown | InterruptedShutdown => IncompleteShutdown
  end.

(** ** The harness (harness.rs) *)

Definition MAX_STEPS : Z := 64.

Record RuntimeHarness := MkHarness {
  h_clock : Z;
  h_core : FakeCore;
  h_store : DurableStore;
  h_durable : DurableState;
  h_armed : option FaultPoint;
  h_source : list SequencedIngress;
  h_published : list CommittedOutput;
  h_metrics : list MetricEvent;
  h_health : Health;
  h_session_id : Z;
  h_live : bool;
  h_live_loop_entered : bool;
  h_incomplete_prior : bool;
  h_restart_outcome : option RestartOutcome;
  h_skipped_replays : Z;
  h_steps_taken : Z;
  h_channel_open : bool;
}.

(** Assignments to the fields, by the groups the methods write together. *)
Definition set_volatile (clock : Z) (core : FakeCore) (source : list SequencedIngress) (h : RuntimeHarness) :
    RuntimeHarness :=
  MkHarness clock core (h_store h) (h_durable h) (h_armed h) source (h_published h) (h_metrics h)
    (h_health h) (h_session_id h) (h_live h) (h_live_loop_entered h) (h_incomplete_prior h)
    (h_restart_outcome h) (h_skipped_replays h) (h_steps_taken h) (h_channel_open h).
Definition set_store (store : DurableStore) (h : RuntimeHarness) : RuntimeHarness :=
  MkHarness (h_clock h) (h_core h) store (h_durable h) (h_armed h) (h_source h) (h_published h)
    (h_metrics h) (h_health h) (h_session_id h) (h_live h) (h_live_loop_entered h)
    (h_incomplete_prior h) (h_restart_outcome h) (h_skipped_replays h) (h_steps_taken h) (h_channel_open h).
Definition set_durable (d : DurableState) (h : RuntimeHarness) : RuntimeHarness :=
  MkHarness (h_clock h) (h_core h) (h_store h) d (h_armed h) (h_source h) (h_published h)
    (h_metrics h) (h_health h) (h_session_id h) (h_live h) (h_live_loop_entered h)
    (h_incomplete_prior h) (h_restart_outcome h) (h_skipped_replays h) (h_steps_taken h) (h_channel_open h).
Definition set_armed (p : option FaultPoint) (h : RuntimeHarness) : RuntimeHarness :=
  MkHarness (h_clock h) (h_core h) (h_store h) (h_durable h) p (h_source h) (h_published h)
    (h_metrics h) (h_health h) (h_session_id h) (h_live h) (h_live_loop_entered h)
    (h_incomplete_prior h) (h_restart_outcome h) (h_skipped_replays h) (h_steps_taken h) (h_channel_open h).
Definition set_outputs (out : list CommittedOutput) (ms : list MetricEvent) (h : RuntimeHarness) : RuntimeHarness :=
  MkHarness (h_clock h) (h_core h) (h_store h) (h_durable h) (h_armed h) (h_source h) out ms
    (h_health h) (h_session_id h) (h_live h) (h_live_loop_entered h)
    (h_incomplete_prior h) (h_restart_outcome h) (h_skipped_replays h) (h_steps_taken h) (h_channel_open h).
Definition set_status (health : Health) (live entered open : bool) (h : RuntimeHarness) : RuntimeHarness :=
  MkHarness (h_clock h) (h_core h) (h_store h) (h_durable h) (h_armed h) (h_source h) (h_published h)
    (h_metrics h) health (h_session_id h) live entered
    (h_incomplete_prior h) (h_restart_outcome h) (h_skipped_replays h) (h_steps_taken h) open.
Definition set_recovery (session : Z) (incomplete : bool) (outcome : option RestartOutcome)
    (h : RuntimeHarness) : RuntimeHarness :=
  MkHarness (h_clock h) (h_core h) (h_store h) (h_durable h) (h_armed h) (h_source h) (h_published h)
    (h_metrics h) (h_health h) session (h_live h) (h_live_loop_entered h) incomplete outcome
    (h_skipped_replays h) (h_steps_taken h) (h_channel_open h).
Definition set_counts (skipped steps : Z) (h : RuntimeHarness) : RuntimeHarness :=
  MkHarness (h_clock h) (h_core h) (h_store h) (h_durable h) (h_armed h) (h_source h) (h_published h)
    (h_metrics h) (h_health h) (h_session_id h) (h_live h) (h_live_loop_entered h)
    (h_incomplete_prior h) (h_restart_outcome h) skipped steps (h_channel_open h).

Definition set_health (health : Health) (h : RuntimeHarness) : RuntimeHarness :=
  set_status health (h_live h) (h_live_loop_entered h) (h_channel_open h) h.

Inductive HarnessError :=
| Injected (point : FaultPoint)
| InjectedMalformed
| TickSequenceOverflow
| SessionOverflow
| StoreError (e : DurableError)
| NotStarted
| StepLimit
| CoreStepFailed
| BackpressureFailed
| ClosedPublishChannel
| ClosedIngressChannel
| ShutdownInterrupted.

Abbreviation H := (stateful RuntimeHarness HarnessError).

(** [FaultInjector::take]. *)
Definition take_fault (point : FaultPoint) : H bool := fun h =>
  if bool_decide (h_armed h = Some point) then (set_armed None h, Ok true) else (h, Ok false).

Definition apply_fault (point : FaultPoint) (h : RuntimeHarness) : RuntimeHarness :=
  let health := injected_terminal_health point in
  let live := match health with
              | Faulted | Degraded | IncompleteShutdown | CheckpointInvalid => false
              | _ => h_live h
              end in
  set_status health live (h_live_loop_entered h) (h_channel_open h) h.

(** [FaultInjector::fire], then the health of the fault. *)
Definition fail_point (point : FaultPoint) : H unit := fun h =>
  if bool_decide (h_armed h = Some point)
  then (apply_fault point (set_armed None h), Err (Injected point))
  else (h, Ok tt).

Definition reject_checkpoint (h : RuntimeHarness) : RuntimeHarness :=
  set_recovery (h_session_id h) (h_incomplete_prior h) (Some RejectedInvalid)
    (set_status CheckpointInvalid false (h_live_loop_entered h) (h_channel_open h) h).

Definition initialize : H unit :=
  fail_point (Before Initialize) ≫= fun _ =>
  modify (fun h => set_outputs [] []
    (set_status (h_health h) (h_live h) (h_live_loop_entered h) true
       (set_volatile (h_clock h) FakeCore_default (h_source h) h))) ≫= fun _ =>
  fail_point (After Initialize).

Section Harness.
Variable to_vec : DurableState -> option bytes.
Variable from_slice : bytes -> option DurableState.

(** [self.store.persist(&state)?]. *)
Definition persist_state (s : DurableState) : H unit := fun h =>
  match persist to_vec s (h_store h) with
  | (store, Ok _) => (set_store store h, Ok tt)
  | (store, Err e) => (set_store store h, Err (StoreError e))
  end.

Definition start_fresh_session : H unit :=
  modify (fun h => set_recovery 1 (h_incomplete_prior h) (h_restart_outcome h)
                     (set_durable (set_session 1 DurableState_fresh) h)) ≫= fun _ =>
  persist_state (set_session 1 DurableState_fresh) ≫= fun _ =>
  modify (fun h => set_recovery (h_session_id h) false (Some FreshStart) h).

Definition recover_session (state : DurableState) : H unit :=
  let incomplete := is_some (ds_inflight state) in
  let state := set_inflight None state in
  modify (fun h => set_recovery (h_session_id h) incomplete (h_restart_outcome h) h) ≫= fun _ =>
  match checked_add64 (ds_last_session_id state) 1 with
  | None => modify reject_checkpoint ≫= fun _ => bail SessionOverflow
  | Some session_id =>
    let state := set_session session_id state in
    modify (fun h => set_recovery session_id (h_incomplete_prior h) (h_restart_outcome h) h) ≫= fun _ =>
    persist_state state ≫= fun _ =>
    modify (fun h => set_recovery (h_session_id h) (h_incomplete_prior h)
                       (Some (if incomplete then RecoveredIncomplete else RecoveredClean))
                       (set_durable state h))
  end.

Definition malformed_blob : bytes := as_bytes "{injected-malformed-checkpoint".

Definition validate_checkpoint : H unit :=
  fail_point (Before CheckpointValidation) ≫= fun _ =>
  take_fault MalformedCheckpoint ≫= fun injected =>
  if injected : bool then
    modify (fun h => reject_checkpoint (set_store (store_malformed malformed_blob) h)) ≫= fun _ =>
    bail InjectedMalformed
  else get ≫= fun h =>
  match load from_slice (h_store h) with
  | Ok None => start_fresh_session
  | Ok (Some state) =>
    if ds_committed_tick_seq state =? u64_max
    then modify reject_checkpoint ≫= fun _ => bail TickSequenceOverflow
    else recover_session state
  | Err e => modify reject_checkpoint ≫= fun _ => bail (StoreError e)
  end.

Definition boot : H unit :=
  modify (set_health Starting) ≫= fun _ =>
  initialize ≫= fun _ =>
  validate_checkpoint ≫= fun _ =>
  fail_point (After CheckpointValidation) ≫= fun _ =>
  modify (fun h => set_status Live true true (h_channel_open h) h).

Definition begin_tick : H unit :=
  get ≫= fun h =>
  if negb (h_live h) then bail NotStarted else
  let steps := Z.min (h_steps_taken h + 1) u32_max in
  modify (fun h => set_counts (h_skipped_replays h) steps h) ≫= fun _ =>
  if MAX_STEPS <? steps then bail StepLimit else
  modify (fun h => set_volatile (clock_advance (h_clock h) TICK_PERIOD_NS) (h_core h) (h_source h) h).

Definition ingress : H (option SequencedIngress) :=
  fail_point (Before Ingress) ≫= fun _ =>
  take_fault ClosedChannel ≫= fun closed =>
  get ≫= fun h =>
  if closed || negb (h_channel_open h)
  then modify (apply_fault ClosedChannel) ≫= fun _ => bail ClosedIngressChannel else
  let packet := head (h_source h) in
  modify (fun h => set_volatile (h_clock h) (h_core h) (tail (h_source h)) h) ≫= fun _ =>
  fail_point (After Ingress) ≫= fun _ =>
  mret packet.

Definition execute_tick (packet : SequencedIngress) : H (Z * list Z) :=
  fail_point (Before TickExecute) ≫= fun _ =>
  get ≫= fun h =>
  match checked_add64 (ds_committed_tick_seq (h_durable h)) 1 with
  | None =>
    modify (fun h => set_status Faulted false (h_live_loop_entered h) (h_channel_open h) h) ≫= fun _ =>
    bail TickSequenceOverflow
  | Some tick_seq =>
    let next := set_inflight (Some (MkInflight (h_session_id h) tick_seq (si_seq packet))) (h_durable h) in
    persist_state next ≫= fun _ =>
    modify (set_durable next) ≫= fun _ =>
    take_fault CoreStepError ≫= fun failed =>
    if failed : bool then modify (apply_fault CoreStepError) ≫= fun _ => bail CoreStepFailed else
    get ≫= fun h =>
    let '(core, spike_ids) := core_step (si_stimuli packet) (h_core h) in
    modify (fun h => set_volatile (h_clock h) core (h_source h) h) ≫= fun _ =>
    fail_point (After TickExecute) ≫= fun _ =>
    mret (tick_seq, spike_ids)
  end.

Definition publish_metrics (tick_seq ingress_seq : Z) (spike_ids : list Z) : H unit :=
  fail_point (Before MetricPublish) ≫= fun _ =>
  take_fault BackpressureTimeout ≫= fun timed_out =>
  if timed_out : bool then
    modify (fun h => apply_fault BackpressureTimeout
      (set_volatile (clock_advance (h_clock h) BACKPRESSURE_BUDGET_NS) (h_core h) (h_source h) h)) ≫= fun _ =>
    bail BackpressureFailed
  else get ≫= fun h =>
  if negb (h_channel_open h) then modify (set_health Degraded) ≫= fun _ => bail ClosedPublishChannel else
  let output := MkOutput (h_session_id h) tick_seq ingress_seq spike_ids (h_clock h) in
  let next := set_inflight None (set_committed tick_seq ingress_seq (h_durable h)) in
  persist_state next ≫= fun _ =>
  modify (fun h => set_outputs (h_published h ++ [output])
    (h_metrics h ++ [MkMetric (co_session_id output) (co_tick_seq output) (co_ingress_seq output)])
    (set_durable next h)) ≫= fun _ =>
  fail_point (After MetricPublish).

Definition run_tick : H TickResult :=
  begin_tick ≫= fun _ =>
  ingress ≫= fun packet =>
  match packet with
  | None => mret NoIngress
  | Some packet =>
    get ≫= fun h =>
    if si_seq packet <=? ds_committed_ingress_seq (h_durable h) then
      modify (fun h => set_counts (wadd64 (h_skipped_replays h) 1) (h_steps_taken h) h) ≫= fun _ =>
      mret SkippedReplay
    else
      execute_tick packet ≫= fun '(tick_seq, spike_ids) =>
      publish_metrics tick_seq (si_seq packet) spike_ids ≫= fun _ =>
      mret Committed
  end.

Definition shutdown : H unit :=
  modify (set_health ShuttingDown) ≫= fun _ =>
  fail_point (Before Shutdown) ≫= fun _ =>
  take_fault InterruptedShutdown ≫= fun interrupted =>
  if interrupted : bool then modify (apply_fault InterruptedShutdown) ≫= fun _ => bail ShutdownInterrupted else
  modify (fun h => set_status (h_health h) false (h_live_loop_entered h) false h) ≫= fun _ =>
  fail_point (After Shutdown) ≫= fun _ =>
  modify (set_health Stopped).
End Harness.

Definition arm_fault (point : FaultPoint) (h : RuntimeHarness) : RuntimeHarness := set_armed (Some point) h.

Definition push_ingress (p : SequencedIngress) (h : RuntimeHarness) : RuntimeHarness :=
  set_volatile (h_clock h) (h_core h) (h_source h ++ [p]) h.

Definition push_ingress_front (p : SequencedIngress) (h : RuntimeHarness) : RuntimeHarness :=
  set_volatile (h_clock h) (h_core h) (p :: h_source h) h.

(** The builder: what a harness starts from. *)
Record HarnessBuilder := MkBuilder {
  hb_seed : Z;
  hb_store : DurableStore;
  hb_injector : option FaultPoint;
  hb_packets : list SequencedIngress;
}.

Definition builder_new (seed : Z) : HarnessBuilder := MkBuilder seed store_empty None (packets_for_seed seed).
Definition builder_store (store : DurableStore) (b : HarnessBuilder) : HarnessBuilder :=
  MkBuilder (hb_seed b) store (hb_injector b) (hb_packets b).
Definition builder_fault (point : FaultPoint) (b : HarnessBuilder) : HarnessBuilder :=
  MkBuilder (hb_seed b) (hb_store b) (Some point) (hb_packets b).
Definition builder_packets (packets : list SequencedIngress) (b : HarnessBuilder) : HarnessBuilder :=
  MkBuilder (hb_seed b) (hb_store b) (hb_injector b) packets.

Definition builder_build (b : HarnessBuilder) : RuntimeHarness := {|
  h_clock := sat_add64 (wmul64 (hb_seed b) 1000000) 1;
  h_core := FakeCore_default;
  h_store := hb_store b;
  h_durable := DurableState_fresh;
  h_armed := hb_injector b;
  h_source := hb_packets b;
  h_published := [];
  h_metrics := [];
  h_health := Starting;
  h_session_id := 0;
  h_live := false;
  h_live_loop_entered := false;
  h_incomplete_prior := false;
  h_restart_outcome := None;
  h_skipped_replays := 0;
  h_steps_taken := 0;
  h_channel_open := false;
|}.


(** What any builder builds. *)
Definition build (seed : Z) (store : DurableStore) (armed : option FaultPoint)
    (packets : list SequencedIngress) : RuntimeHarness :=
  builder_build (MkBuilder seed store armed packets).

(** ** Running the harness forward *)

(** Nothing fires in an unarmed harness. *)
Lemma bool_decide_off p h : h_armed h = None -> bool_decide (h_armed h = Some p) = false.
Proof. intros Ha. apply bool_decide_eq_false_2. congruence. Qed.

Lemma unarmed_bind {A} p h (f : unit -> stateful RuntimeHarness HarnessError A) :
  h_armed h = None -> (fail_point p ≫= f) h = f tt h.
Proof. intros Ha. unfold mbind, stateful_bind, fail_point. by rewrite bool_decide_off. Qed.

Lemma unarmed_take {A} p h (f : bool -> stateful RuntimeHarness HarnessError A) :
  h_armed h = None -> (take_fault p ≫= f) h = f false h.
Proof. intros Ha. unfold mbind, stateful_bind, take_fault. by rewrite bool_decide_off. Qed.

Lemma modify_bind {A} g h (f : unit -> stateful RuntimeHarness HarnessError A) :
  (modify g ≫= f) h = f tt (g h).
Proof. done. Qed.

Lemma get_bind {A} h (f : RuntimeHarness -> stateful RuntimeHarness HarnessError A) :
  (get ≫= f) h = f h h.
Proof. done. Qed.

Lemma mret_bind {A B} (a : A) h (f : A -> stateful RuntimeHarness HarnessError B) :
  (mret a ≫= f) h = f a h.
Proof. done. Qed.

Lemma bind_assoc {A B C} (m : stateful RuntimeHarness HarnessError A) (f : A -> stateful RuntimeHarness HarnessError B)
    (g : B -> stateful RuntimeHarness HarnessError C) h :
  ((m ≫= f) ≫= g) h = (m ≫= (fun a => f a ≫= g)) h.
Proof. unfold mbind, stateful_bind. by destruct (m h) as [h' [a|e]]. Qed.

Lemma unarmed_end p h : h_armed h = None -> fail_point p h = (h, Ok tt).
Proof. intros Ha. unfold fail_point. by rewrite bool_decide_off. Qed.

(** Runs the unarmed harness forward. *)
Ltac advance := repeat first
  [ rewrite bind_assoc | rewrite modify_bind | rewrite get_bind | rewrite mret_bind
  | rewrite unarmed_bind by done | rewrite unarmed_take by done | rewrite unarmed_end by done ].

Lemma run_bind {A B} (m : stateful RuntimeHarness HarnessError A)
    (f : A -> stateful RuntimeHarness HarnessError B) h h' a :
  m h = (h', Ok a) -> (m ≫= f) h = f a h'.
Proof. intros E. unfold mbind, stateful_bind. by rewrite E. Qed.

Lemma run_stop {A B} (m : stateful RuntimeHarness HarnessError A)
    (f : A -> stateful RuntimeHarness HarnessError B) h h' e :
  m h = (h', Err e) -> (m ≫= f) h = (h', Err e).
Proof. intros E. unfold mbind, stateful_bind. by rewrite E. Qed.
