(* ===== verification/ExactlyOnce.v ===== *)
(** * Exactly once across crashes and restarts

    The invariant of the harness over any sequence of boots, ticks, faults,
    shutdowns and restarts on one store: what is published is a gapless,
    strictly advancing history, and the store has committed exactly it. *)

From Stdlib Require Import Sorting.Sorted.
From S2P Require Import Prelude NetAddr Floats Durable Harness.
Local Open Scope Z_scope.

(** ** What has been published *)

Definition last_seq (hist : list CommittedOutput) : Z := default 0 (last (co_ingress_seq <$> hist)).

(** Outputs numbered from one without gaps, on strictly increasing ingress, in
    non-decreasing sessions. *)
Record history_ok (hist : list CommittedOutput) : Prop := {
  hi_ticks : co_tick_seq <$> hist = seqZ 1 (len hist);
  hi_ingress : StronglySorted Z.lt (co_ingress_seq <$> hist);
  hi_sessions : StronglySorted Z.le (co_session_id <$> hist);
  hi_last : Forall (fun o => co_ingress_seq o <= last_seq hist) hist;
}.

(** A durable state that records exactly a history. *)
Record records (hist : list CommittedOutput) (s : DurableState) : Prop := {
  re_tick : ds_committed_tick_seq s = len hist;
  re_ingress : ds_committed_ingress_seq s = last_seq hist;
  re_session : 1 <= ds_last_session_id s;
  re_sessions : Forall (fun o => co_session_id o <= ds_last_session_id s) hist;
}.

Lemma history_nil : history_ok [].
Proof. by repeat constructor. Qed.

Lemma sorted_snoc (R : Z -> Z -> Prop) l x :
  StronglySorted R l -> Forall (fun y => R y x) l -> StronglySorted R (l ++ [x]).
Proof.
  intros Hs Hf. induction Hs as [|y l Hs IH Hy]; simpl; [by repeat constructor|].
  inversion Hf; subst. constructor; [by apply IH|]. apply Forall_app. by repeat constructor.
Qed.

Lemma last_seq_snoc hist o : last_seq (hist ++ [o]) = co_ingress_seq o.
Proof. unfold last_seq. rewrite fmap_app. simpl. by rewrite last_snoc. Qed.

Lemma history_snoc hist s o :
  history_ok hist -> records hist s -> co_tick_seq o = len hist + 1 ->
  last_seq hist < co_ingress_seq o -> co_session_id o = ds_last_session_id s ->
  history_ok (hist ++ [o]).
Proof.
  intros [H1 H2 H3 H4] [_ _ _ R4] Ht Hi Hs. constructor.
  - rewrite fmap_app, len_app, H1. simpl. change (len [o]) with 1.
    rewrite seqZ_app by (unfold len; lia). simpl. by rewrite Ht, Z.add_comm.
  - rewrite fmap_app. apply sorted_snoc; [done|]. apply Forall_fmap. eapply Forall_impl; [exact H4|].
    simpl. intros. lia.
  - rewrite fmap_app. apply sorted_snoc; [done|]. apply Forall_fmap. eapply Forall_impl; [exact R4|].
    simpl. intros. lia.
  - rewrite last_seq_snoc. apply Forall_app. split; [|repeat constructor; lia].
    eapply Forall_impl; [exact H4|]. simpl. intros. lia.
Qed.

Lemma records_snoc hist s o :
  records hist s -> co_tick_seq o = len hist + 1 -> co_session_id o = ds_last_session_id s ->
  records (hist ++ [o]) (set_inflight None (set_committed (co_tick_seq o) (co_ingress_seq o) s)).
Proof.
  intros [R1 R2 R3 R4] Ht Hs. constructor; simpl.
  - rewrite len_app, Ht. done.
  - by rewrite last_seq_snoc.
  - done.
  - apply Forall_app. split; [done|]. repeat constructor. lia.
Qed.

(** ** Steps of the harness's monad *)

Lemma apply_fault_live p h : h_live (apply_fault p h) = false.
Proof. by destruct p as [[]|[]| | | | |]. Qed.

Section HarnessTriples.
Variable to_vec : DurableState -> option bytes.
Variable from_slice : bytes -> option DurableState.
Hypothesis Hjson : json_roundtrips to_vec from_slice.

Lemma take_fault_triple (P : RuntimeHarness -> Prop) p (R : HarnessError -> RuntimeHarness -> Prop) :
  (forall h, P h -> P (set_armed None h)) -> triple P (take_fault p) (fun _ => P) R.
Proof. intros HP h Hh. unfold take_fault. case_bool_decide; auto. Qed.

Lemma fail_point_triple (P : RuntimeHarness -> Prop) p (R : HarnessError -> RuntimeHarness -> Prop) :
  (forall h, P h -> R (Injected p) (apply_fault p (set_armed None h))) ->
  triple P (fail_point p) (fun _ => P) R.
Proof. intros HP h Hh. unfold fail_point. case_bool_decide; auto. Qed.

Lemma persist_triple (P : RuntimeHarness -> Prop) s (R : HarnessError -> RuntimeHarness -> Prop) Q :
  (forall h, P h -> durable_ok s) ->
  (forall h store, P h -> load from_slice store = Ok (Some s) -> Q tt (set_store store h)) ->
  triple P (persist_state to_vec s) Q R.
Proof.
  intros Hs HQ h Hh. unfold persist_state.
  destruct (persist_load to_vec from_slice Hjson s (h_store h) (Hs h Hh)) as (store & -> & Hl). by apply HQ.
Qed.

(** A live session between its steps: the store holds the durable state, which
    records the history. *)
Record session (sid : Z) (hist pub : list CommittedOutput) (h : RuntimeHarness) : Prop := {
  se_history : history_ok hist;
  se_store : load from_slice (h_store h) = Ok (Some (h_durable h));
  se_records : records hist (h_durable h);
  se_session : h_session_id h = sid;
  se_sid : ds_last_session_id (h_durable h) = sid;
  se_published : h_published h = pub;
  se_open : h_channel_open h = true;
}.

(** A dead one keeps a store that records the history. *)
Definition crashed (sid : Z) (hist pub : list CommittedOutput) (h : RuntimeHarness) : Prop :=
  history_ok hist /\ h_published h = pub /\ h_live h = false /\
  exists s, load from_slice (h_store h) = Ok (Some s) /\ records hist s /\ ds_last_session_id s = sid.

Lemma session_crashed sid hist pub p h : session sid hist pub h -> crashed sid hist pub (apply_fault p h).
Proof.
  intros [H1 H2 H3 _ H4 H5 _]. split; [done|]. split; [done|]. split; [apply apply_fault_live|]. eauto.
Qed.

Lemma session_armed sid hist pub p h : session sid hist pub h -> session sid hist pub (set_armed p h).
Proof. by intros []. Qed.

Lemma session_volatile sid hist pub c k src h : session sid hist pub h -> session sid hist pub (set_volatile c k src h).
Proof. by intros []. Qed.

Lemma session_counts sid hist pub c d h : session sid hist pub h -> session sid hist pub (set_counts c d h).
Proof. by intros []. Qed.

Hint Resolve session_crashed session_armed session_volatile : brain.

(** The work of a tick once the packet is known to be fresh. *)
Definition pending (sid : Z) (hist pub : list CommittedOutput) (h : RuntimeHarness) : Prop :=
  session sid hist pub h /\ ds_inflight (h_durable h) = None /\ h_live h = true.

Definition executed (sid : Z) (hist pub : list CommittedOutput) (seq : Z) (tick : Z) (h : RuntimeHarness) : Prop :=
  session sid hist pub h /\ h_live h = true /\ tick = len hist + 1.

Lemma inflight_ok sid hist pub h seq tick :
  pending sid hist pub h -> last_seq hist < seq ->
  checked_add64 (ds_committed_tick_seq (h_durable h)) 1 = Some tick ->
  durable_ok (set_inflight (Some (MkInflight (h_session_id h) tick seq)) (h_durable h)).
Proof.
  intros ([_ Hl [R1 R2 R3 _] Hs Hd _ _] & _ & _) Hseq. unfold checked_add64.
  destruct (Z.leb_spec (ds_committed_tick_seq (h_durable h) + 1) u64_max); [|done]. intros [= <-].
  apply load_ok in Hl as [D1 D2 D3 D4]. constructor; simpl; [done|done|lia|].
  intros r [= <-]. simpl. repeat split; lia.
Qed.

Lemma execute_triple sid hist pub packet :
  last_seq hist < si_seq packet ->
  triple (pending sid hist pub) (execute_tick to_vec packet)
    (fun '(tick, _) => executed sid hist pub (si_seq packet) tick)
    (fun _ => crashed sid hist pub).
Proof.
  intros Hseq. unfold execute_tick.
  eapply triple_bind; [apply fail_point_triple; intros h [Hs ?]; by apply session_crashed, session_armed|intros []].
  eapply (triple_bind _ _ _ _ (fun h0 h => pending sid hist pub h /\ h0 = h)); [by intros h Hh|].
  intros h0. destruct (checked_add64 (ds_committed_tick_seq (h_durable h0)) 1) as [tick|] eqn:Htick.
  2:{ eapply triple_bind; [apply (triple_modify _ _ (fun _ => crashed sid hist pub))|intros []; apply triple_bail; auto].
      intros h [([] & _ & _) ->]. unfold crashed. simpl. eauto 10. }
  assert (tick = ds_committed_tick_seq (h_durable h0) + 1) as Et
    by (unfold checked_add64 in Htick; destruct (_ <=? _); congruence).
  set (next := set_inflight _ (h_durable h0)).
  eapply (triple_bind _ _ _ _ (fun _ h => exists h1, pending sid hist pub h1 /\ h0 = h1 /\
    load from_slice (h_store h) = Ok (Some next) /\ h = set_store (h_store h) h1)).
  { eapply persist_triple.
    - intros h [Hp ->]. by eapply inflight_ok.
    - intros h store [Hp ->] Hl. exists h. done. }
  intros []. eapply (triple_bind _ _ _ _ (fun _ => executed sid hist pub (si_seq packet) tick)).
  { apply triple_modify. intros h (h1 & (([S1 S2 S3 S4 S7' S5 S6] & S7 & S8) & -> & Hl & ->)). simpl in Hl.
    split; [|split; [done|]].
    - constructor; simpl; try done. destruct S3 as [R1 R2 R3 R4]. by constructor.
    - destruct S3 as [R1 _ _ _]. lia. }
  intros []. eapply triple_bind; [apply take_fault_triple; by intros h ([] & ? & ?)|].
  intros failed. destruct failed; cbv beta.
  { eapply triple_bind; [apply (triple_modify _ _ (fun _ => crashed sid hist pub))|intros []; by apply triple_bail].
    intros h (Hs & _). auto with brain. }
  eapply (triple_bind _ _ _ _ (fun _ => executed sid hist pub (si_seq packet) tick)); [by intros h Hh|].
  intros h2. simpl. eapply (triple_bind _ _ _ _ (fun _ => executed sid hist pub (si_seq packet) tick)).
  { apply triple_modify. intros h ([] & ? & ?). by split. }
  intros []. eapply triple_bind; [apply fail_point_triple; intros h [Hs ?]; by apply session_crashed, session_armed|].
  intros []. by apply triple_ret.
Qed.
(** The outputs a tick on packet [hd] may have added. *)
Definition added (hd : option SequencedIngress) (new : list CommittedOutput) : Prop :=
  new = [] \/ exists o p, hd = Some p /\ new = [o] /\ co_ingress_seq o = si_seq p.

(** After a tick, committed or interrupted. *)
Definition ticked (sid : Z) (hist pub : list CommittedOutput) (hd : option SequencedIngress) (h : RuntimeHarness) : Prop :=
  exists new, added hd new /\
    (crashed sid (hist ++ new) (pub ++ new) h \/ pending sid (hist ++ new) (pub ++ new) h).

Lemma crashed_ticked sid hist pub hd h : crashed sid hist pub h -> ticked sid hist pub hd h.
Proof. intros Hc. exists []. rewrite !app_nil_r. split; [by left|by left]. Qed.

Lemma pending_ticked sid hist pub hd h : pending sid hist pub h -> ticked sid hist pub hd h.
Proof. intros Hc. exists []. rewrite !app_nil_r. split; [by left|by right]. Qed.

Hint Resolve crashed_ticked pending_ticked : brain.

Lemma publish_triple sid hist pub packet tick spikes :
  last_seq hist < si_seq packet ->
  triple (executed sid hist pub (si_seq packet) tick) (publish_metrics to_vec tick (si_seq packet) spikes)
    (fun _ => ticked sid hist pub (Some packet)) (fun _ => ticked sid hist pub (Some packet)).
Proof.
  intros Hseq. unfold publish_metrics.
  eapply triple_bind; [apply fail_point_triple; intros h [Hs ?]; by apply crashed_ticked, session_crashed, session_armed|intros []].
  eapply triple_bind; [apply take_fault_triple; intros h (Hs & ? & ?); split; [by apply session_armed|done]|].
  intros timed_out. destruct timed_out; cbv beta.
  { eapply triple_bind; [apply (triple_modify _ _ (fun _ => ticked sid hist pub (Some packet)))|intros []; by apply triple_bail].
    intros h [Hs ?]. by apply crashed_ticked, session_crashed, session_volatile. }
  eapply (triple_bind _ _ _ _ (fun h0 h => executed sid hist pub (si_seq packet) tick h /\ h0 = h)); [by intros h Hh|].
  intros h0. destruct (h_channel_open h0) eqn:Hopen; simpl.
  2:{ intros h [([_ _ _ _ _ _ Ho] & _) ->]. by rewrite Ho in Hopen. }
  set (o := MkOutput _ _ _ _ _). set (next := set_inflight None _).
  eapply (triple_bind _ _ _ _ (fun _ h => exists h1, executed sid hist pub (si_seq packet) tick h1 /\ h0 = h1 /\
    load from_slice (h_store h) = Ok (Some next) /\ h = set_store (h_store h) h1)).
  { eapply persist_triple.
    - intros h [([_ Hl [_ _ Rs _] _ _ _ _] & _) ->]. apply load_ok in Hl as [D1 D2 _ _].
      constructor; simpl; [done|done|lia|done].
    - intros h store [Hp ->] Hl. exists h. done. }
  intros []. eapply (triple_bind _ _ _ _ (fun _ => pending sid (hist ++ [o]) (pub ++ [o]))).
  { apply triple_modify. intros h (h1 & (([S1 S2 S3 S4 S7' S5 S6] & S7 & S8) & -> & Hl & ->)).
    assert (co_session_id o = ds_last_session_id (h_durable h1)) as Hsess by (simpl; congruence).
    split; [|done]. constructor; simpl; try done.
    - by eapply history_snoc.
    - by apply (records_snoc hist (h_durable h1) o).
    - by rewrite S5. }
  intros []. apply (triple_weaken _ (pending sid (hist ++ [o]) (pub ++ [o])) _ _ (fun _ => pending sid (hist ++ [o]) (pub ++ [o]))
    _ (fun _ => crashed sid (hist ++ [o]) (pub ++ [o]))); [|done| |].
  - apply fail_point_triple. intros h [Hs ?]. by apply session_crashed, session_armed.
  - intros [] h Hp. exists [o]. split; [|by right]. right. by exists o, packet.
  - intros e h Hc. exists [o]. split; [|by left]. right. by exists o, packet.
Qed.

Lemma ingress_triple sid hist pub src :
  triple (fun h => pending sid hist pub h /\ h_source h = src) ingress
    (fun packet h => pending sid hist pub h /\ packet = head src /\ h_source h = tail src)
    (fun _ => crashed sid hist pub).
Proof.
  unfold ingress.
  eapply triple_bind; [apply fail_point_triple; intros h [[Hs ?] ?]; by apply session_crashed, session_armed|intros []].
  eapply triple_bind; [apply take_fault_triple; intros h ((Hs & ? & ?) & ?); (split; [split; [by apply session_armed|done]|done])|].
  intros closed.
  eapply (triple_bind _ _ _ _ (fun h0 h => (pending sid hist pub h /\ h_source h = src) /\ h0 = h)); [by intros h Hh|].
  intros h0. destruct (closed || negb (h_channel_open h0)).
  { eapply triple_bind; [apply (triple_modify _ _ (fun _ => crashed sid hist pub))|intros []; by apply triple_bail].
    intros h [[[Hs ?] ?] ?]. by apply session_crashed. }
  intros h [[(Hs & Hi & Hl) Hsrc] ->]. simpl.
  pose proof (session_volatile sid hist pub (h_clock h) (h_core h) (tail (h_source h)) h Hs) as Hs'.
  unfold mbind, stateful_bind, modify, fail_point. simpl.
  case_bool_decide; [by apply session_crashed, session_armed|]. by rewrite <- Hsrc.
Qed.

Lemma run_tick_triple sid hist pub hd :
  triple (fun h => pending sid hist pub h /\ head (h_source h) = hd) (run_tick to_vec)
    (fun _ => ticked sid hist pub hd) (fun _ => ticked sid hist pub hd).
Proof.
  unfold run_tick.
  eapply (triple_bind _ _ _ _ (fun _ h => pending sid hist pub h /\ head (h_source h) = hd)).
  { unfold begin_tick. intros h [(Hs & Hi & Hl) Hsrc]. unfold mbind, stateful_bind, get. rewrite Hl.
    simpl. unfold modify, bail. simpl. set (n := Z.min _ _).
    pose proof (session_counts sid hist pub (h_skipped_replays h) n h Hs) as Hc.
    destruct (_ <? _); [by apply pending_ticked|]. split; [|done]. split; [|done]. by apply session_volatile. }
  intros []. eapply (triple_bind _ _ _ _ (fun packet h => pending sid hist pub h /\ packet = hd)).
  { intros h [Hp Hsrc]. pose proof (ingress_triple sid hist pub (h_source h) h (conj Hp eq_refl)) as Ht.
    destruct (ingress h) as [h' [packet|e]]; [|by apply crashed_ticked].
    destruct Ht as (? & -> & _). by rewrite Hsrc. }
  intros packet. destruct packet as [packet|].
  2:{ apply triple_ret. intros h [Hp _]. by apply pending_ticked. }
  eapply (triple_bind _ _ _ _ (fun h0 h => (pending sid hist pub h /\ Some packet = hd) /\ h0 = h)); [by intros h Hh|].
  intros h0. destruct (Z.leb_spec (si_seq packet) (ds_committed_ingress_seq (h_durable h0))) as [Hle|Hlt].
  { eapply (triple_bind _ _ _ _ (fun _ => pending sid hist pub)); [|intros []; apply triple_ret; auto with brain].
    apply triple_modify. intros h [[(Hs & ? & ?) _] _]. split; [by apply session_counts|done]. }
  intros h [[Hp <-] ->]. destruct (Hp) as ([_ _ [_ Ri _ _] _ _ _ _] & _ & _).
  assert (last_seq hist < si_seq packet) as Hseq by lia.
  assert (triple (pending sid hist pub)
    (execute_tick to_vec packet ≫= fun '(tick, spikes) =>
     publish_metrics to_vec tick (si_seq packet) spikes ≫= fun _ => mret Committed)
    (fun _ => ticked sid hist pub (Some packet)) (fun _ => ticked sid hist pub (Some packet))) as Ht; [|by apply Ht].
  eapply (triple_bind _ _ _ _ (fun '(tick, _) h => executed sid hist pub (si_seq packet) tick h)).
  - eapply triple_weaken; [by apply execute_triple|done| |].
    + intros [tick spikes] h' He. exact He.
    + intros e h' Hc. by apply crashed_ticked.
  - intros [tick spikes]. eapply triple_bind; [by apply publish_triple|]. intros []. by apply triple_ret.
Qed.
(** ** Boot *)

Definition store_records (hist : list CommittedOutput) (store : DurableStore) : Prop :=
  match load from_slice store with
  | Ok None => hist = []
  | Ok (Some s) => records hist s
  | Err _ => True
  end.

Definition core_ok (hist : list CommittedOutput) (h : RuntimeHarness) : Prop :=
  history_ok hist /\ store_records hist (h_store h).

Definition dead (hist : list CommittedOutput) (h : RuntimeHarness) : Prop :=
  core_ok hist h /\ h_live h = false.

(** The invariant of a harness between two operations. *)
Definition harness_ok (hist : list CommittedOutput) (h : RuntimeHarness) : Prop :=
  core_ok hist h /\ (h_live h = true -> pending (h_session_id h) hist (h_published h) h).

Lemma crashed_dead sid hist pub h : crashed sid hist pub h -> dead hist h.
Proof.
  intros (Hh & _ & Hl & s & Hs & Hr & _). split; [|done]. split; [done|]. unfold store_records. by rewrite Hs.
Qed.

Lemma dead_ok hist h : dead hist h -> harness_ok hist h.
Proof. intros [Hc Hl]. split; [done|]. by rewrite Hl. Qed.

Lemma pending_ok sid hist pub h : pending sid hist pub h -> harness_ok hist h.
Proof.
  intros ([H1 H2 H3 H4 H4' H5 H6] & Hi & Hl). split.
  - split; [done|]. unfold store_records. by rewrite H2.
  - intros _. subst sid. split; [by constructor|done].
Qed.

Lemma core_fault hist p h : core_ok hist h -> dead hist (apply_fault p (set_armed None h)).
Proof. intros Hc. split; [exact Hc|apply apply_fault_live]. Qed.

Hint Resolve core_fault : brain.

(** A recovered or fresh state, persisted. *)
Lemma adopt_session hist s store :
  history_ok hist -> records hist s -> ds_inflight s = None -> load from_slice store = Ok (Some s) ->
  forall h, h_store h = store -> h_durable h = s -> h_session_id h = ds_last_session_id s ->
    h_published h = [] -> h_channel_open h = true ->
    session (h_session_id h) hist [] h /\ ds_inflight (h_durable h) = None.
Proof. intros. subst. split; [by constructor|done]. Qed.

Definition reset (hist : list CommittedOutput) (h : RuntimeHarness) : Prop :=
  core_ok hist h /\ h_published h = [] /\ h_channel_open h = true.

Definition adopted (hist : list CommittedOutput) (h : RuntimeHarness) : Prop :=
  session (h_session_id h) hist [] h /\ ds_inflight (h_durable h) = None.

Lemma initialize_triple hist :
  triple (core_ok hist) initialize (fun _ => reset hist) (fun _ => dead hist).
Proof.
  unfold initialize. eapply triple_bind; [apply fail_point_triple; auto with brain|intros []].
  eapply (triple_bind _ _ _ _ (fun _ => reset hist)); [by apply triple_modify|intros []].
  apply fail_point_triple. intros h [Hc _]. auto with brain.
Qed.

Lemma fresh_triple hist :
  triple (fun h => reset hist h /\ hist = []) (start_fresh_session to_vec)
    (fun _ => adopted hist) (fun _ => dead hist).
Proof.
  unfold start_fresh_session. set (s := set_session 1 DurableState_fresh).
  eapply (triple_bind _ _ _ _ (fun _ h => reset hist h /\ hist = [] /\ h_session_id h = 1 /\ h_durable h = s)).
  { apply triple_modify. by intros h [? ?]. }
  intros []. eapply (triple_bind _ _ _ _ (fun _ => adopted hist)).
  - eapply persist_triple; [intros _ _; by constructor|].
    intros h store ((Hc & Hp & Ho) & -> & Hi & Hd) Hl.
    assert (records [] s) as Hr by by constructor.
    by apply (adopt_session [] s store history_nil Hr).
  - intros []. apply triple_modify. intros h [[] ?]. split; [by constructor|done].
Qed.

Lemma records_recovered hist s id :
  records hist s -> checked_add64 (ds_last_session_id s) 1 = Some id ->
  records hist (set_session id (set_inflight None s)) /\ 1 <= id.
Proof.
  intros [R1 R2 R3 R4]. unfold checked_add64. destruct (_ <=? _); [|done]. intros [= <-].
  split; [|lia]. constructor; simpl; [done|done|lia|]. eapply Forall_impl; [exact R4|]. simpl. lia.
Qed.

Lemma recover_triple hist s :
  durable_ok s -> records hist s ->
  triple (reset hist) (recover_session to_vec s) (fun _ => adopted hist) (fun _ => dead hist).
Proof.
  intros [D1 D2 _ _] Hr. unfold recover_session. simpl ds_last_session_id.
  eapply (triple_bind _ _ _ _ (fun _ => reset hist)); [by apply triple_modify|intros []].
  destruct (checked_add64 (ds_last_session_id s) 1) as [id|] eqn:Hid.
  2:{ eapply (triple_bind _ _ _ _ (fun _ => dead hist)); [|intros []; by apply triple_bail].
      apply triple_modify. by intros h [Hc _]. }
  destruct (records_recovered hist s id Hr Hid) as [Hr' Hpos].
  set (s' := set_session id (set_inflight None s)) in *.
  eapply (triple_bind _ _ _ _ (fun _ h => reset hist h /\ h_session_id h = id)); [by apply triple_modify|intros []].
  eapply (triple_bind _ _ _ _ (fun _ h => reset hist h /\ h_session_id h = id /\
    load from_slice (h_store h) = Ok (Some s'))).
  - eapply persist_triple; [intros _ _; constructor; simpl; [done|done|lia|done]|].
    intros h store (([Hh _] & Hp & Ho) & Hi) Hl. split; [|done]. split; [|done]. split; [done|].
    unfold store_records. simpl. by rewrite Hl.
  - intros []. apply triple_modify. intros h (([Hh _] & Hp & Ho) & Hi & Hl).
    by eapply (adopt_session hist s' (h_store h)).
Qed.

Lemma reject_dead hist h : core_ok hist h -> dead hist (reject_checkpoint h).
Proof. by intros Hc. Qed.

Lemma validate_checkpoint_triple hist :
  triple (reset hist) (validate_checkpoint to_vec from_slice) (fun _ => adopted hist) (fun _ => dead hist).
Proof.
  unfold validate_checkpoint.
  eapply triple_bind; [apply fail_point_triple; intros h [Hc _]; auto with brain|intros []].
  eapply triple_bind; [by apply take_fault_triple|]. intros injected. destruct injected; cbv beta.
  { eapply (triple_bind _ _ _ _ (fun _ => dead hist)); [|intros []; by apply triple_bail].
    apply triple_modify. intros h [[Hh _] _]. split; [|done]. by split. }
  eapply (triple_bind _ _ _ _ (fun h0 h => reset hist h /\ h0 = h)); [by intros h Hh|].
  intros h0. destruct (load from_slice (h_store h0)) as [[s|]|e] eqn:Hload.
  - destruct (_ =? _).
    + eapply (triple_bind _ _ _ _ (fun _ => dead hist)); [|intros []; by apply triple_bail].
      apply triple_modify. intros h [[Hc _] _]. by apply reject_dead.
    + intros h [Hr ->]. destruct (Hr) as ([_ Hs] & _). unfold store_records in Hs. rewrite Hload in Hs.
      apply (recover_triple hist s); [by eapply load_ok|done|done].
  - intros h [Hr ->]. destruct (Hr) as ([_ Hs] & _). unfold store_records in Hs. rewrite Hload in Hs.
    by apply (fresh_triple hist).
  - eapply (triple_bind _ _ _ _ (fun _ => dead hist)); [|intros []; by apply triple_bail].
    apply triple_modify. intros h [[Hc _] _]. by apply reject_dead.
Qed.

Lemma boot_triple hist :
  triple (core_ok hist) (boot to_vec from_slice) (fun _ h => pending (h_session_id h) hist [] h) (fun _ => dead hist).
Proof.
  unfold boot. eapply (triple_bind _ _ _ _ (fun _ => core_ok hist)); [by apply triple_modify|intros []].
  eapply triple_bind; [apply initialize_triple|intros []].
  eapply triple_bind; [apply validate_checkpoint_triple|intros []].
  eapply triple_bind.
  - apply fail_point_triple. intros h [Hs _]. by eapply crashed_dead, session_crashed, session_armed.
  - intros []. apply triple_modify. intros h [[] ?]. split; [by constructor|done].
Qed.

Lemma shutdown_triple hist :
  triple (core_ok hist) shutdown (fun _ => dead hist) (fun _ => dead hist).
Proof.
  unfold shutdown. eapply (triple_bind _ _ _ _ (fun _ => core_ok hist)); [by apply triple_modify|intros []].
  eapply triple_bind; [apply fail_point_triple; auto with brain|intros []].
  eapply triple_bind; [by apply take_fault_triple|]. intros interrupted. destruct interrupted; cbv beta.
  { eapply (triple_bind _ _ _ _ (fun _ => dead hist)); [|intros []; by apply triple_bail].
    apply triple_modify. intros h Hc. split; [done|apply apply_fault_live]. }
  eapply (triple_bind _ _ _ _ (fun _ => dead hist)); [by apply triple_modify|intros []].
  eapply triple_bind; [apply fail_point_triple; intros h [Hc _]; auto with brain|intros []].
  by apply triple_modify.
Qed.
End HarnessTriples.

(** ** Executions across restarts *)

Inductive HarnessOp :=
| OpBoot
| OpTick
| OpShutdown
| OpArm (point : FaultPoint)
| OpPush (packet : SequencedIngress)
| OpPushFront (packet : SequencedIngress)
| OpRestart (seed : Z) (armed : option FaultPoint) (packets : list SequencedIngress).

Section Executions.
Variable to_vec : DurableState -> option bytes.
Variable from_slice : bytes -> option DurableState.

(** A restart builds a new harness on [into_store]'s store. *)
Definition harness_op (op : HarnessOp) (h : RuntimeHarness) : RuntimeHarness :=
  match op with
  | OpBoot => (boot to_vec from_slice h).1
  | OpTick => (run_tick to_vec h).1
  | OpShutdown => (shutdown h).1
  | OpArm point => arm_fault point h
  | OpPush packet => push_ingress packet h
  | OpPushFront packet => push_ingress_front packet h
  | OpRestart seed armed packets => build seed (h_store h) armed packets
  end.

(** What a tick appended to the published outputs. *)
Definition outputs_of (op : HarnessOp) (h : RuntimeHarness) : list CommittedOutput :=
  match op with
  | OpTick => drop (length (h_published h)) (h_published (harness_op op h))
  | _ => []
  end.

(** A run, with everything ever published, whatever buffers were reset since. *)
Definition run_ops (ops : list HarnessOp) (h : RuntimeHarness) : RuntimeHarness * list CommittedOutput :=
  fold_left (fun '(h, hist) op => (harness_op op h, hist ++ outputs_of op h)) ops (h, []).
End Executions.

Section ExactlyOnce.
Variable to_vec : DurableState -> option bytes.
Variable from_slice : bytes -> option DurableState.
Hypothesis Hjson : json_roundtrips to_vec from_slice.

Abbreviation ok := (harness_ok from_slice).

Lemma tick_dead hist h :
  ok hist h -> h_live h = false -> run_tick to_vec h = (h, Err NotStarted).
Proof. intros _ Hl. unfold run_tick, begin_tick, mbind, stateful_bind, get. by rewrite Hl. Qed.

Lemma tick_ok hist h :
  ok hist h ->
  let new := outputs_of to_vec from_slice OpTick h in
  ok (hist ++ new) (run_tick to_vec h).1 /\ added (head (h_source h)) new.
Proof.
  intros Hok. cbv zeta. unfold outputs_of. simpl. destruct (h_live h) eqn:Hl.
  - destruct Hok as [_ Hp]. specialize (Hp Hl).
    pose proof (run_tick_triple to_vec from_slice Hjson (h_session_id h) hist (h_published h) _ h (conj Hp eq_refl)) as Ht.
    assert (ticked from_slice (h_session_id h) hist (h_published h) (head (h_source h)) (run_tick to_vec h).1) as (new & Ha & Hc)
      by by destruct (run_tick to_vec h) as [h' [r|e]].
    assert (h_published (run_tick to_vec h).1 = h_published h ++ new) as ->
      by (destruct Hc as [(_ & H & _)|([] & _)]; congruence).
    rewrite drop_app_length. split; [|done].
    destruct Hc as [Hc|Hc]; [by eapply dead_ok, crashed_dead|by eapply pending_ok].
  - rewrite (tick_dead hist) by done. simpl. rewrite drop_all, app_nil_r. split; [done|by left].
Qed.

Lemma op_ok op hist h :
  ok hist h -> ok (hist ++ outputs_of to_vec from_slice op h) (harness_op to_vec from_slice op h).
Proof.
  intros Hok. destruct op as [| | |point|packet|packet|seed armed packets].
  - simpl. rewrite app_nil_r. destruct Hok as [Hc _].
    pose proof (boot_triple to_vec from_slice Hjson hist h Hc) as Hb.
    destruct (boot to_vec from_slice h) as [h' [u|e]]; [by eapply pending_ok|by apply dead_ok].
  - by apply tick_ok.
  - simpl. rewrite app_nil_r. destruct Hok as [Hc _].
    pose proof (shutdown_triple from_slice hist h Hc) as Hb.
    destruct (shutdown h) as [h' [u|e]]; by apply dead_ok.
  - simpl. rewrite app_nil_r. destruct Hok as [Hc Hp]. split; [done|]. intros Hl.
    destruct (Hp Hl) as ([] & ? & ?). split; [by constructor|done].
  - simpl. rewrite app_nil_r. destruct Hok as [Hc Hp]. split; [done|]. intros Hl.
    destruct (Hp Hl) as ([] & ? & ?). split; [by constructor|done].
  - simpl. rewrite app_nil_r. destruct Hok as [Hc Hp]. split; [done|]. intros Hl.
    destruct (Hp Hl) as ([] & ? & ?). split; [by constructor|done].
  - simpl. rewrite app_nil_r. destruct Hok as [Hc _]. by split.
Qed.

Lemma run_ops_ok ops h hist :
  ok hist h ->
  let r := fold_left (fun '(h, hist) op => (harness_op to_vec from_slice op h,
                                            hist ++ outputs_of to_vec from_slice op h)) ops (h, hist) in
  ok r.2 r.1.
Proof. revert h hist. induction ops as [|op ops IH]; intros h hist Hok; [done|]. simpl. by apply IH, op_ok. Qed.

Lemma build_empty_ok seed armed packets : ok [] (build seed store_empty armed packets).
Proof. split; [|done]. split; [apply history_nil|done]. Qed.

(** C2: exactly once across restarts.  Whatever is booted, ticked, shut down,
    fed - replays and reordered packets included - and killed at whatever fault
    points over any number of restarts on one store, everything ever published
    is numbered 1, 2, 3, ... without gap or repeat, on strictly increasing
    ingress sequences and in sessions that never go back; and the store, unless
    it was poisoned, has committed exactly that. *)
Theorem published_exactly_once seed armed packets ops :
  let '(h, hist) := run_ops to_vec from_slice ops (build seed store_empty armed packets) in
  co_tick_seq <$> hist = seqZ 1 (len hist) /\
  StronglySorted Z.lt (co_ingress_seq <$> hist) /\
  StronglySorted Z.le (co_session_id <$> hist) /\
  match load from_slice (h_store h) with
  | Ok None => hist = []
  | Ok (Some s) => ds_committed_tick_seq s = len hist /\
                   ds_committed_ingress_seq s = default 0 (last (co_ingress_seq <$> hist)) /\
                   (h_live h = true -> h_durable h = s)
  | Err _ => h_live h = false
  end.
Proof.
  pose proof (run_ops_ok ops _ _ (build_empty_ok seed armed packets)) as Hok. unfold run_ops. simpl in Hok.
  destruct (fold_left _ ops _) as [h hist]. simpl in Hok. destruct Hok as [[[H1 H2 H3 _] Hs] Hp].
  split; [done|]. split; [done|]. split; [done|]. unfold store_records in Hs.
  destruct (load from_slice (h_store h)) as [[s|]|e] eqn:Hl; [|done|].
  - destruct Hs as [R1 R2 _ _]. split; [done|]. split; [done|]. intros Hlive.
    destruct (Hp Hlive) as ([_ Hl' _ _ _ _ _] & _). rewrite Hl in Hl'. by injection Hl'.
  - destruct (h_live h); [|done]. destruct (Hp eq_refl) as ([_ Hl' _ _ _ _ _] & _). by rewrite Hl in Hl'.
Qed.

(** ** Recovery *)

Local Opaque load persist.

Lemma persist_bind s h :
  durable_ok s -> exists store, load from_slice store = Ok (Some s) /\
    forall A (f : unit -> stateful RuntimeHarness HarnessError A),
      (persist_state to_vec s ≫= f) h = f tt (set_store store h).
Proof.
  intros Hs. destruct (persist_load to_vec from_slice Hjson s (h_store h) Hs) as (store & Hp & Hl).
  exists store. split; [done|]. intros A f. unfold mbind, stateful_bind, persist_state. by rewrite Hp.
Qed.

(** Without a fault, a store that holds a state boots. *)
Lemma boot_recovers h s :
  h_armed h = None -> load from_slice (h_store h) = Ok (Some s) ->
  0 <= ds_last_session_id s < u64_max -> ds_committed_tick_seq s <> u64_max ->
  exists h', boot to_vec from_slice h = (h', Ok tt) /\ h_armed h' = None /\ h_live h' = true /\
    h_source h' = h_source h /\ h_steps_taken h' = h_steps_taken h /\
    h_durable h' = set_session (ds_last_session_id s + 1) (set_inflight None s).
Proof.
  intros Ha Hl Hid Ht. pose proof (load_ok from_slice _ _ Hl) as [D1 D2 _ _].
  unfold boot, initialize, validate_checkpoint. advance. cbn [h_store set_volatile set_status set_outputs set_health].
  rewrite Hl. destruct (Z.eqb_spec (ds_committed_tick_seq s) u64_max); [done|].
  unfold recover_session. advance. cbn [ds_last_session_id set_inflight]. unfold checked_add64.
  destruct (Z.leb_spec (ds_last_session_id s + 1) u64_max); [|lia]. advance.
  set (s' := set_session _ _). match goal with |- context [(persist_state to_vec s' ≫= _) ?h] => set (h1 := h) end.
  assert (durable_ok s') as Hs' by (constructor; simpl; [done|done|lia|done]).
  destruct (persist_bind s' h1 Hs') as (store & _ & ->). advance.
  eexists. split; [reflexivity|]. done.
Qed.

Lemma begin_tick_live h :
  h_live h = true -> 0 <= h_steps_taken h < MAX_STEPS ->
  begin_tick h = (set_volatile (clock_advance (h_clock h) TICK_PERIOD_NS) (h_core h) (h_source h)
    (set_counts (h_skipped_replays h) (h_steps_taken h + 1) h), Ok tt).
Proof.
  intros Hl Hs. unfold begin_tick. advance. rewrite Hl. simpl. unfold MAX_STEPS, u32_max in *. advance.
  rewrite Z.min_l by lia. replace (64 <? h_steps_taken h + 1) with false by (symmetry; apply Z.ltb_ge; lia). done.
Qed.

Lemma ingress_unarmed h :
  h_armed h = None -> h_channel_open h = true ->
  ingress h = (set_volatile (h_clock h) (h_core h) (tail (h_source h)) h, Ok (head (h_source h))).
Proof. intros Ha Ho. unfold ingress. advance. rewrite Ho. simpl. by advance. Qed.

(** An unarmed tick on fresh work publishes it. *)
Lemma work_commits hist h packet :
  pending from_slice (h_session_id h) hist (h_published h) h -> h_armed h = None ->
  ds_committed_tick_seq (h_durable h) < u64_max -> last_seq hist < si_seq packet ->
  exists o, co_ingress_seq o = si_seq packet /\
    h_published ((execute_tick to_vec packet ≫= fun '(tick, spikes) =>
       publish_metrics to_vec tick (si_seq packet) spikes ≫= fun _ => mret Committed) h).1 =
    h_published h ++ [o].
Proof.
  intros Hp Ha Ht Hseq. destruct (Hp) as ([_ Hst [_ Rl Rs _] _ _ _ Ho] & _ & _). unfold execute_tick. advance.
  destruct (checked_add64 (ds_committed_tick_seq (h_durable h)) 1) as [tick|] eqn:Hc.
  2:{ unfold checked_add64 in Hc. destruct (Z.leb_spec (ds_committed_tick_seq (h_durable h) + 1) u64_max); [done|lia]. }
  advance. set (next := set_inflight _ _).
  assert (durable_ok next) as Hn by (eapply inflight_ok; [exact Hp|lia|done]).
  destruct (persist_bind next h Hn) as (store & _ & ->). advance.
  unfold core_step. advance.
  unfold publish_metrics. advance.
  match goal with |- context [h_channel_open ?h1] => change (h_channel_open h1) with (h_channel_open h) end.
  rewrite Ho. cbn [negb]. advance.
  match goal with |- context [(persist_state to_vec ?s ≫= _) ?h1] => set (next' := s); set (h2 := h1) end.
  assert (durable_ok next') as Hn'.
  { apply load_ok in Hst as [D1 D2 _ _]. constructor; simpl; [done|done|lia|done]. }
  destruct (persist_bind next' h2 Hn') as (store' & _ & ->). advance.
  eexists. split; [|reflexivity]. done.
Qed.

(** An unarmed tick publishes a fresh packet and skips a committed one. *)
Lemma tick_unarmed hist p rest h :
  ok hist h -> h_live h = true -> h_armed h = None -> 0 <= h_steps_taken h < MAX_STEPS ->
  h_source h = p :: rest -> ds_committed_tick_seq (h_durable h) < u64_max ->
  if si_seq p <=? last_seq hist then outputs_of to_vec from_slice OpTick h = []
  else exists o, outputs_of to_vec from_slice OpTick h = [o] /\ co_ingress_seq o = si_seq p.
Proof.
  intros [_ Hp] Hl Ha Hs Hsrc Ht. specialize (Hp Hl). destruct (Hp) as ([Hh Hst Hr Hid _ Hpub Ho] & Hi & _).
  unfold outputs_of, harness_op, run_tick.
  set (h1 := set_volatile (clock_advance (h_clock h) TICK_PERIOD_NS) (h_core h) rest
    (set_counts (h_skipped_replays h) (h_steps_taken h + 1) h)).
  assert (forall A (f : option SequencedIngress -> stateful RuntimeHarness HarnessError A),
    (begin_tick ≫= fun _ => ingress ≫= f) h = f (Some p) h1) as Hrun.
  { intros A f. unfold mbind at 1, stateful_bind at 1. rewrite begin_tick_live by done.
    unfold mbind, stateful_bind. rewrite ingress_unarmed by done. simpl. by rewrite Hsrc. }
  rewrite Hrun. advance. destruct (Hr) as [_ Ri _ _].
  change (h_durable h1) with (h_durable h). rewrite Ri.
  destruct (Z.leb_spec (si_seq p) (last_seq hist)) as [Hle|Hlt]; [simpl; by rewrite drop_all|].
  assert (pending from_slice (h_session_id h1) hist (h_published h1) h1) as Hp1
    by (split; [apply session_volatile, session_counts; exact (proj1 Hp)|done]).
  destruct (work_commits hist h1 p Hp1 Ha Ht Hlt) as (o & Ho' & Hpub'). exists o. split; [|done].
  etrans; [|apply (drop_app_length (h_published h))]. f_equal. exact Hpub'.
Qed.
(** Interrupted or not, a tick leaves a store that records what it published. *)
Lemma tick_store hist h :
  ok hist h -> h_live h = true ->
  exists s, load from_slice (h_store (run_tick to_vec h).1) = Ok (Some s) /\
    records (hist ++ outputs_of to_vec from_slice OpTick h) s /\ ds_last_session_id s = h_session_id h.
Proof.
  intros [_ Hp] Hl. specialize (Hp Hl). unfold outputs_of. simpl.
  pose proof (run_tick_triple to_vec from_slice Hjson (h_session_id h) hist (h_published h) _ h (conj Hp eq_refl)) as Ht.
  assert (ticked from_slice (h_session_id h) hist (h_published h) (head (h_source h)) (run_tick to_vec h).1)
    as (new & _ & Hc) by by destruct (run_tick to_vec h) as [h' [r|e]].
  assert (h_published (run_tick to_vec h).1 = h_published h ++ new) as ->
    by (destruct Hc as [(_ & H & _)|([] & _)]; congruence).
  rewrite drop_app_length. destruct Hc as [(_ & _ & _ & s & ? & ? & ?)|([_ Hs Hr _ Hd _ _] & _)]; [by exists s|].
  by exists (h_durable (run_tick to_vec h).1).
Qed.

Lemma history_below hist n : history_ok hist -> last_seq hist < n -> count (fun o => co_ingress_seq o =? n) hist = 0.
Proof.
  intros [_ _ _ H4] Hn. apply count_zero. eapply Forall_impl; [exact H4|]. simpl. intros o Ho.
  apply Z.eqb_neq. lia.
Qed.

(** The crash and the retry: [p] is offered to a live harness armed with any
    fault, which is then killed; a new process is given [p] again. *)
Definition crash_and_retry (p : SequencedIngress) (point : FaultPoint) (seed' : Z) : list HarnessOp :=
  [OpPushFront p; OpArm point; OpTick; OpRestart seed' None [p]; OpBoot; OpTick].

Lemma retry_outputs hist h p point seed' :
  ok hist h -> h_live h = true -> last_seq hist < si_seq p -> len hist + 1 < u64_max ->
  h_session_id h < u64_max ->
  count (fun o => co_ingress_seq o =? si_seq p)
    (fold_left (fun '(h, hist) op => (harness_op to_vec from_slice op h, hist ++ outputs_of to_vec from_slice op h))
       (crash_and_retry p point seed') (h, hist)).2 = 1.
Proof.
  intros Hok Hl Hseq Hroom Hsess.
  set (h0 := arm_fault point (push_ingress_front p h)).
  assert (ok hist h0) as Hok0.
  { pose proof (op_ok (OpPushFront p) hist h Hok) as H1. simpl in H1. rewrite app_nil_r in H1.
    pose proof (op_ok (OpArm point) hist _ H1) as H2. simpl in H2. by rewrite app_nil_r in H2. }
  destruct (tick_ok hist h0 Hok0) as [Hok1 Ha]. destruct (tick_store hist h0 Hok0 Hl) as (s & Hs & Hr & Hd).
  set (new := outputs_of to_vec from_slice OpTick h0) in *.
  set (h1 := build seed' (h_store (run_tick to_vec h0).1) None [p]).
  assert (ok (hist ++ new) h1) as Hokb by (destruct Hok1 as [Hc _]; by split).
  assert (len new <= 1) as Hnew by (destruct Ha as [->|(o & ? & _ & -> & _)]; by vm_compute).
  destruct (Hr) as [R1 R2 R3 _]. rewrite len_app in R1.
  destruct (boot_recovers h1 s eq_refl Hs) as (h2 & Hb & A2 & L2 & S2 & T2 & D2); [|lia|].
  { rewrite Hd. split; [|exact Hsess]. rewrite <- Hd. lia. }
  pose proof (op_ok OpBoot (hist ++ new) h1 Hokb) as Hok2. simpl in Hok2. rewrite Hb, app_nil_r in Hok2.
  assert (ds_committed_tick_seq (h_durable h2) < u64_max) as Ht2 by (rewrite D2; simpl; lia).
  pose proof (tick_unarmed (hist ++ new) p [] h2 Hok2 L2 A2 ltac:(rewrite T2; done) S2 Ht2) as Hlast.
  assert (count (fun o => co_ingress_seq o =? si_seq p) hist = 0) as Hz
    by (destruct Hok as [[Hh _] _]; by apply history_below).
  assert ((fold_left (fun '(h, hist) op => (harness_op to_vec from_slice op h,
     hist ++ outputs_of to_vec from_slice op h)) (crash_and_retry p point seed') (h, hist)).2 =
     hist ++ new ++ outputs_of to_vec from_slice OpTick h2) as ->.
  { unfold crash_and_retry. cbn [fold_left snd].
    replace (harness_op to_vec from_slice OpBoot _) with h2 by (simpl; fold h0; fold h1; by rewrite Hb).
    trans ((((((hist ++ []) ++ []) ++ new) ++ []) ++ []) ++ outputs_of to_vec from_slice OpTick h2);
      [reflexivity|]. by rewrite !app_nil_r, <- app_assoc. }
  rewrite !count_app, Hz. destruct Ha as [->|(o & q & [= <-] & -> & Ho)].
  - rewrite app_nil_r in Hlast. destruct (Z.leb_spec (si_seq p) (last_seq hist)); [lia|].
    destruct Hlast as (o & -> & Ho). simpl. by rewrite Ho, Z.eqb_refl.
  - rewrite last_seq_snoc, Ho, Z.leb_refl in Hlast. rewrite Hlast. simpl. by rewrite Ho, Z.eqb_refl.
Qed.

(** C19: no work is lost or doubled by a crash.  Take any live harness however it
    was reached, give it a packet newer than everything it committed with any
    fault armed, kill it after that tick and let an at-least-once upstream send
    the packet again to the next process: the packet is published exactly once
    over the whole history, as long as the sequence and session counters have
    room. *)
Theorem crash_retry_exactly_once seed armed packets ops p point seed' :
  let '(h, hist) := run_ops to_vec from_slice ops (build seed store_empty armed packets) in
  h_live h = true -> ds_committed_ingress_seq (h_durable h) < si_seq p ->
  ds_committed_tick_seq (h_durable h) + 1 < u64_max -> h_session_id h < u64_max ->
  let '(_, hist') := run_ops to_vec from_slice (ops ++ crash_and_retry p point seed')
                       (build seed store_empty armed packets) in
  count (fun o => co_ingress_seq o =? si_seq p) hist' = 1.
Proof.
  pose proof (run_ops_ok ops _ _ (build_empty_ok seed armed packets)) as Hok. unfold run_ops.
  rewrite fold_left_app. simpl in Hok. destruct (fold_left _ ops _) as [h hist]. simpl in Hok.
  intros Hl Hseq Hroom Hsess. destruct (Hok) as [_ Hp].
  destruct (Hp Hl) as ([_ _ [R1 R2 _ _] _ _ _ _] & _).
  pose proof (retry_outputs hist h p point seed' Hok Hl ltac:(lia) ltac:(lia) Hsess) as Hc.
  destruct (fold_left _ (crash_and_retry p point seed') (h, hist)). exact Hc.
Qed.
End ExactlyOnce.

(** ** Witnesses *)

(** A session that publishes twice, the second time crashing after its commit,
    and a second process that is offered the second packet again. *)
Definition demo_ops : list HarnessOp :=
  [OpBoot; OpTick; OpArm (After MetricPublish); OpTick;
   OpRestart 7 None (tail (packets_for_seed 7)); OpBoot; OpTick; OpTick; OpShutdown].

Definition demo_run (ops : list HarnessOp) : RuntimeHarness * list CommittedOutput :=
  run_ops demo_to_vec demo_from_slice ops (build 7 store_empty None (packets_for_seed 7)).

Example demo_history : co_ingress_seq <$> (demo_run demo_ops).2 = [1; 2; 3].
Proof. vm_compute. reflexivity. Qed.

Lemma published_exactly_once_witness : co_tick_seq <$> (demo_run demo_ops).2 = [1; 2; 3].
Proof.
  pose proof (published_exactly_once demo_to_vec demo_from_slice demo_json_roundtrips 7 None
    (packets_for_seed 7) demo_ops) as H.
  assert (len (demo_run demo_ops).2 = 3) as Hlen
    by (unfold len; rewrite <- (length_fmap co_ingress_seq), demo_history; reflexivity).
  unfold demo_run in *. destruct (run_ops _ _ _ _) as [h hist]. cbn [snd] in *.
  rewrite (proj1 H), Hlen. reflexivity.
Defined.

Example demo_live : let '(h, _) := demo_run [OpBoot; OpTick] in
  h_live h = true /\ ds_committed_ingress_seq (h_durable h) = 1 /\
  ds_committed_tick_seq (h_durable h) = 1 /\ h_session_id h = 1.
Proof. vm_compute. repeat split. Qed.

Lemma crash_retry_exactly_once_witness :
  let '(_, hist) := demo_run ([OpBoot; OpTick] ++ crash_and_retry (MkSequenced 2 []) CoreStepError 9) in
  count (fun o => co_ingress_seq o =? 2) hist = 1.
Proof.
  pose proof (crash_retry_exactly_once demo_to_vec demo_from_slice demo_json_roundtrips 7 None
    (packets_for_seed 7) [OpBoot; OpTick] (MkSequenced 2 []) CoreStepError 9) as H.
  pose proof demo_live as Hd. unfold demo_run in *.
  destruct (run_ops _ _ [OpBoot; OpTick] _) as [h hist]. destruct Hd as (Hl & Hi & Ht & Hs).
  rewrite Hi, Ht, Hs in H. exact (H Hl eq_refl eq_refl eq_refl).
Defined.

(** Before anything is committed the high-water mark is 0: a first packet that
    carries sequence 0 is counted as a replay and never published. *)
Lemma sequence_zero_skipped :
  let '(h, hist) := run_ops demo_to_vec demo_from_slice [OpBoot; OpTick]
                      (build 7 store_empty None [MkSequenced 0 []]) in
  hist = [] /\ h_skipped_replays h = 1 /\ ds_committed_tick_seq (h_durable h) = 0.
Proof. vm_compute. done. Qed.
