(* ===== verification/FaultMatrix.v ===== *)
(** * The fault matrix

    Every fault point against the oracle of src/runtime/mod.rs: a session that
    meets the fault, the process that follows it, and the outcome both must
    have. *)

From S2P Require Import Prelude NetAddr Floats Durable Harness.
Local Open Scope Z_scope.

Local Opaque load persist.

Section FaultMatrix.
Variable to_vec : DurableState -> option bytes.
Variable from_slice : bytes -> option DurableState.
Hypothesis Hjson : json_roundtrips to_vec from_slice.

Definition is_shutdown_fault (point : FaultPoint) : bool :=
  match point with Before Shutdown | After Shutdown | InterruptedShutdown => true | _ => false end.

(** One session that meets [point]: the shutdown faults after one committed
    tick, the others from boot on. *)
Definition injected_session (seed : Z) (point : FaultPoint) : RuntimeHarness :=
  let packets := packets_for_seed seed in
  if is_shutdown_fault point then
    let h := (run_tick to_vec (boot to_vec from_slice (build seed store_empty None packets)).1).1 in
    (shutdown (arm_fault point h)).1
  else
    let store := match point with
                 | MalformedCheckpoint => store_malformed (as_bytes "{not-a-checkpoint")
                 | _ => store_empty
                 end in
    match boot to_vec from_slice (build seed store (Some point) packets) with
    | (h, Ok _) => (run_tick to_vec h).1
    | (h, Err _) => h
    end.

Definition restarted (seed : Z) (h : RuntimeHarness) : RuntimeHarness :=
  (boot to_vec from_slice (build seed (h_store h) None (packets_for_seed seed))).1.

(** Symbolic execution of a concrete session held in an equation
    [m h = (h', r)]: the state is kept evaluated, the rest of the program is
    not looked at before it runs. *)
Lemma run_persist s h :
  durable_ok s -> exists store, load from_slice store = Ok (Some s) /\
    persist_state to_vec s h = (set_store store h, Ok tt).
Proof.
  intros Hs. destruct (persist_load to_vec from_slice Hjson s (h_store h) Hs) as (store & Hp & Hl).
  exists store. split; [done|]. unfold persist_state. by rewrite Hp.
Qed.

Ltac run_cbv t := eval cbv -[sat_add64 wmul64 spikes_from stimuli_for len load from_slice] in t.
Ltac run_head t := eval lazy head beta match fix zeta delta -[mbind modify get mret bail fail_point
  take_fault persist_state load sat_add64 wmul64 spikes_from stimuli_for len] in t.

Ltac run_load E st :=
  match goal with
  | H : load from_slice ?st' = _ |- _ =>
    change (load from_slice st) with (load from_slice st') in E; rewrite H in E
  | _ => change (load from_slice st) with (@Ok DurableError (option DurableState) None) in E
  | _ => change (load from_slice st) with (@Err DurableError (option DurableState) MissingMagic) in E
  end.

Ltac run_step E :=
  lazymatch type of E with
  | ?c ?h = ?r =>
    let c' := run_head c in
    change (c' h = r) in E;
    lazymatch c' with
    | mbind ?f ?m =>
      let m' := run_head m in
      change (mbind f m' h = r) in E;
      lazymatch m' with
      | mbind _ _ => rewrite bind_assoc in E
      | persist_state to_vec ?s =>
        let s' := run_cbv s in
        let st := fresh "store" in let Hl := fresh "Hl" in let Hp := fresh "Hp" in
        destruct (run_persist s' h) as (st & Hl & Hp);
        [apply durable_validate_iff; vm_compute; reflexivity
        |change (persist_state to_vec s' h) with (persist_state to_vec s h) in Hp;
         let h' := run_cbv (set_store st h) in
         rewrite (run_bind (persist_state to_vec s) f h h' tt Hp) in E; clear Hp]
      | context [load from_slice ?st] => run_load E st
      | _ =>
        let v := run_cbv (m' h) in
        lazymatch v with
        | (?h', Ok ?a) => rewrite (run_bind m' f h h' a eq_refl) in E
        | (?h', Err ?e) => rewrite (run_stop m' f h h' e eq_refl) in E
        end
      end
    | context [load from_slice ?st] => run_load E st
    | _ => let v := run_cbv (c' h) in change (v = r) in E
    end
  end.

(** Runs the first of the goal's boots, ticks and shutdowns that is on a
    concrete state. *)
Ltac run_call c h :=
  let h' := run_cbv h in
  change (c h) with (c h');
  let E := fresh "E" in
  destruct (c h') as [? ?] eqn:E; repeat (progress (run_step E));
  apply pair_equal_spec in E as [<- <-]; cbv beta match zeta delta [fst].

Ltac run_all :=
  repeat match goal with
  | |- context [boot to_vec from_slice ?h] => run_call (boot to_vec from_slice) h
  | |- context [run_tick to_vec ?h] => run_call (run_tick to_vec) h
  | |- context [shutdown ?h] => run_call shutdown h
  end.

(** The kernel compares the programs, and looks inside a call only when it must. *)
Local Strategy 100 [mbind stateful_bind modify get mret bail fail_point take_fault persist_state load].

(** C21: the fault matrix.  For every fault point and every seed, a session that
    meets the fault ends in the health the oracle lists, having entered the live
    loop and published exactly as often as it lists, with as many metrics; the
    next process recovers as listed, and finds incomplete work exactly when the
    session died with a tick in flight. *)
Theorem fault_matrix seed point :
  let e := expected_outcome point in
  let first := injected_session seed point in
  let second := restarted seed first in
  In point ALL_FAULT_POINTS /\
  h_health first = eo_terminal_health e /\
  h_live_loop_entered first = eo_live_loop_entered e /\
  len (h_published first) = eo_published_before_crash e /\
  len (h_metrics first) = eo_published_before_crash e /\
  h_restart_outcome second = Some (eo_restart e) /\
  h_incomplete_prior second = is_some (ds_inflight (h_durable first)) /\
  h_live second = negb (bool_decide (eo_restart e = RejectedInvalid)).
Proof.
  cbv zeta. split; [destruct point as [[]|[]| | | | |]; simpl; auto 20|].
  remember (injected_session seed point) as first eqn:Hfirst. revert Hfirst.
  destruct point as [[]|[]| | | | |]; unfold injected_session; cbv beta match zeta delta [is_shutdown_fault];
    run_all; intros ->; unfold restarted; run_all; repeat split.
Qed.
End FaultMatrix.

(** ** Witness *)

Lemma fault_matrix_witness :
  h_restart_outcome (restarted demo_to_vec demo_from_slice 7
    (injected_session demo_to_vec demo_from_slice 7 (After TickExecute))) = Some RecoveredIncomplete.
Proof.
  exact (proj1 (proj2 (proj2 (proj2 (proj2 (proj2
    (fault_matrix demo_to_vec demo_from_slice demo_json_roundtrips 7 (After TickExecute)))))))).
Defined.
