(* ===== verification/Replay.v ===== *)
(** * The daemon as its engine

    What a run of ticks amounts to when the source delivers a known sequence of
    packets, no other producer holds the ingress, and the sink records what it
    is given: the network stepped directly on the decoded packets
    ([engine_run]), with one record a tick.  [delivers] and [Recorder] are the
    interface a driver's source and sink have to meet; Inprocess.v and
    Secondary.v discharge it for the usefulness drivers. *)

From S2P Require Import Prelude Floats Packet NetAddr Queue QueueConc Ingress Health Config Backend Checkpoint Diagnostics Tick Daemon.
Local Open Scope Z_scope.

(** ** The direct engine *)

Section Engine.
Context {N : Type}.
Variable net_step : N -> list f32 -> NeuroModulators -> N * result string (list Z).

(** Steps until one fails, keeping the ids each step spiked. *)
Fixpoint engine_run (inputs : list (list f32 * NeuroModulators)) (net : N) :
    N * result string (list (list Z)) :=
  match inputs with
  | [] => (net, Ok [])
  | (stim, mods) :: rest =>
    match net_step net stim mods with
    | (net, Err e) => (net, Err e)
    | (net, Ok ids) => let '(net, r) := engine_run rest net in (net, r ≫= fun out => Ok (ids :: out))
    end
  end.

(** The daemon's loop does not stop at a failed step. *)
Fixpoint engine_replay (inputs : list (list f32 * NeuroModulators)) (net : N) :
    N * list (result string (list Z)) :=
  match inputs with
  | [] => (net, [])
  | (stim, mods) :: rest =>
    let '(net, r) := net_step net stim mods in
    let '(net, out) := engine_replay rest net in (net, r :: out)
  end.

Lemma engine_replay_length inputs net : length (engine_replay inputs net).2 = length inputs.
Proof.
  revert net. induction inputs as [|[stim mods] inputs IH]; intros net; simpl; [done|].
  destruct (net_step net stim mods) as [net' r]. specialize (IH net').
  destruct (engine_replay inputs net'). simpl in *. by rewrite IH.
Qed.

(** The two agree on runs without a failure, and see the same first failure. *)
Lemma engine_run_replay inputs net :
  match engine_run inputs net with
  | (net', Ok outs) => engine_replay inputs net = (net', Ok <$> outs)
  | (_, Err e) => Err e ∈ (engine_replay inputs net).2
  end.
Proof.
  revert net. induction inputs as [|[stim mods] inputs IH]; intros net; simpl; [done|].
  destruct (net_step net stim mods) as [net' [ids|e]].
  - specialize (IH net'). destruct (engine_run inputs net') as [net'' [outs|e]]; simpl.
    + by rewrite IH.
    + destruct (engine_replay inputs net'). simpl in *. by apply list_elem_of_further.
  - destruct (engine_replay inputs net'). by apply list_elem_of_here.
Qed.
End Engine.

(** ** What a driver's backend promises *)

(** The source returns these packets, one a poll. *)
Fixpoint delivers {S} `{StimulusSource S} (packets : list (option IngressPacket)) (src src' : S) : Prop :=
  match packets with
  | [] => src' = src
  | p :: rest => exists mid, next_ingress src = (mid, Ok p) /\ delivers rest mid src'
  end.

(** What a tick's [push_spikes] makes of the ids it keeps. *)
Definition spikes_at (time : Z) (ids : list Z) : list SpikeEvent :=
  (fun id => MkSpikeEvent id time f_one32) <$> ids.

Lemma channel_spikes_at time ids : channel <$> spikes_at time ids = ids.
Proof. unfold spikes_at. rewrite <- list_fmap_compose. apply list_fmap_id. Qed.

(** As long as it is in order, the sink accepts a tick's batch, appends a view
    of its channels and stays in order. *)
Class Recorder (K : Type) `{SpikeSink K} := {
  recorded : K -> list (list Z);
  record_view : list Z -> list Z;
  in_order : K -> Prop;
  emit_records : forall time ids t k, in_order k -> exists k',
    emit (spikes_at time ids) t k = (k', Ok tt) /\ in_order k' /\ recorded k' = recorded k ++ [record_view ids];
  flush_records : forall k, in_order k -> exists k',
    flush k = (k', Ok tt) /\ in_order k' /\ recorded k' = recorded k;
}.

(** No other producer on the ingress between a tick's admission and its drain. *)
Definition undisturbed (env : TickEnv) : Prop := forall i, te_arrivals env i = i.

(** A packet that reaches the network: finite, live and within the payload limit. *)
Definition deliverable (cfg : IngressConfig) (packet : option IngressPacket) : Prop :=
  forall p, packet = Some p -> packet_finite p = true /\ rejected p = false /\ payload_fits cfg p.

(** What the network is stepped on for it, [n] channels wide. *)
Definition engine_input (mods_default : NeuroModulators) (n : nat) (packet : option IngressPacket) :
    list f32 * NeuroModulators :=
  decode_inputs mods_default (admitted (default IngressPacket_default packet)) (replicate n f_zero).

(** ** One tick *)

(** The buffer decides only the width. *)
Lemma decode_stimuli_width p buf : decode_stimuli p buf = decode_stimuli p (replicate (length buf) f_zero).
Proof.
  unfold decode_stimuli. rewrite length_replicate.
  destruct (Nat.ltb_spec (length (stimuli p)) (length buf)); [done|].
  rewrite !drop_ge; rewrite ?length_replicate; [done|lia..].
Qed.

Lemma admitted_finite p : packet_finite p = true -> packet_finite (admitted p) = true.
Proof.
  unfold packet_finite, admitted, into_packet, sensory_part, reward_part, nonempty_modulators.
  intros H. destruct (stimuli p), (modulators p) as [[|m ms]|]; simpl in *; try done.
Qed.

Section Replay.
Context {S N K : Type} `{StimulusSource S} `{SpikeSink K} `{!Recorder K}.
Variable net_step : N -> list f32 -> NeuroModulators -> N * result string (list Z).
Variable mods_default : NeuroModulators.
Variable cfg : IngressConfig.
Implicit Types (st : TickState S N K) (env : TickEnv).

(** The counters a replay moves: ticks, accepted, rejected, receive and emit errors. *)
Definition vitals (s : RuntimeStats) : Z * Z * Z * Z * Z :=
  (rs_ticks s, rs_accepted_batches s, rs_rejected_batches s, rs_receive_errors s, rs_emit_errors s).

Lemma vitals_note out s : vitals (note_diagnostic out s) = vitals s.
Proof. by destruct out. Qed.

Lemma admitted_default : admitted IngressPacket_default = IngressPacket_default.
Proof. done. Qed.

(** Receiving, gating, admitting and draining one delivered packet. *)
Lemma take_and_drain env st src packet :
  undisturbed env -> holding cfg (ts_ingress st) [] [] -> deliverable cfg packet ->
  next_ingress (ts_source st) = (src, Ok packet) ->
  let '(st', p) := drain_tick env (take_in env st) in
  p = admitted (default IngressPacket_default packet) /\
  ts_source st' = src /\ core st' = core st /\ holding cfg (ts_ingress st') [] [] /\
  vitals (ts_stats st') =
    vitals (if is_some (packet ≫= batch_id) then bump_accepted (ts_stats st) else ts_stats st).
Proof.
  intros He Hh Hd Hn. pose proof (drain_core env (take_in env st)) as Hc. rewrite take_in_core in Hc.
  unfold take_in, receive in *. rewrite Hn in *.
  destruct packet as [p|]; simpl in *.
  - destruct (Hd p eq_refl) as (Hf & Hr & Hfit). unfold gate_backend in *. simpl in *.
    unfold backend_non_finite in *. rewrite Hr, (proj2 (first_non_finite_None p) Hf) in *.
    unfold observe_and_admit, account_and_admit_backend_packet in *. rewrite Hr in *.
    set (st1 := if observes_ingress p then _ else _) in *.
    assert (ts_source st1 = src /\ ts_ingress st1 = ts_ingress st /\ ts_stats st1 = ts_stats st) as (E1 & E2 & E3)
      by (unfold st1; by destruct (observes_ingress p)).
    unfold drain_tick in *. simpl in *. rewrite He, E2 in *.
    destruct (admit_drain cfg (ts_ingress st) p Hh Hfit) as [Hh' Hp].
    destruct (drain_for_tick (admit_backend_packet (ts_ingress st) p)) as [i d]. simpl in *.
    rewrite E1, E3. do 4 (split; [done|]). by destruct (is_some (batch_id p)).
  - unfold drain_tick in *. simpl in *. rewrite He in *.
    destruct (drain_holding _ _ _ _ Hh) as (Hh' & Hs & Hr).
    destruct (drain_for_tick (ts_ingress st)) as [i d]. simpl in *.
    unfold into_packet. by rewrite Hs, Hr.
Qed.

(** Every id the step returned was dropped: the sink is not called. *)
Definition all_dropped (ids : list Z) : bool :=
  bool_decide (base.filter (fun id => id <= u16_max) ids = []) && negb (bool_decide (ids = [])).

(** What a tick's step leaves in the record. *)
Definition record_of (r : result string (list Z)) : option (list Z) :=
  match r with
  | Ok ids => if all_dropped ids then None
              else Some (record_view (base.filter (fun id => id <= u16_max) ids))
  | Err _ => None
  end.

Lemma publish_records env ids st :
  in_order (ts_sink st) ->
  let st' := publish_spikes env ids st in
  ts_source st' = ts_source st /\ ts_network st' = ts_network st /\ ts_ingress st' = ts_ingress st /\
  vitals (ts_stats st') = vitals (bump_ticks (ts_stats st)) /\ in_order (ts_sink st') /\
  recorded (ts_sink st') = recorded (ts_sink st) ++ option_list (record_of (Ok ids)).
Proof.
  intros Hk. cbv zeta. unfold publish_spikes. rewrite push_spikes_spec. simpl.
  set (buf := _ <$> _). set (st1 := with_buffers _ buf _).
  assert (forall n st1, let st2 := note_dropped env n st1 in
    ts_source st2 = ts_source st1 /\ ts_network st2 = ts_network st1 /\ ts_ingress st2 = ts_ingress st1 /\
    ts_spike_buf st2 = ts_spike_buf st1 /\ ts_sink st2 = ts_sink st1 /\
    vitals (ts_stats st2) = vitals (ts_stats st1)) as Hnote.
  { intros n st'. cbv zeta. unfold note_dropped. destruct (0 <? n); [|done].
    destruct (limiter_record _ _ _) as [l out]. simpl. by rewrite vitals_note. }
  destruct (Hnote (count (fun id => u16_max <? id) ids) st1) as (N1 & N2 & N3 & N4 & N5 & N6).
  set (st2 := note_dropped env _ st1) in *.
  assert (bool_decide (buf = []) = bool_decide (base.filter (fun id => id <= u16_max) ids = [])) as Hbuf
    by (apply bool_decide_ext; unfold buf; by destruct (base.filter _ ids)).
  unfold all_dropped. rewrite Hbuf. destruct (_ && _).
  - simpl. rewrite N1, N2, N3, N5, N6, app_nil_r. done.
  - unfold emit_batch. rewrite N4, N5.
    change (ts_spike_buf st1) with buf. unfold buf.
    match goal with |- context [emit ((fun id => MkSpikeEvent id ?time f_one32) <$> ?l) ?t ?k] =>
      change ((fun id => MkSpikeEvent id time f_one32) <$> l) with (spikes_at time l);
      destruct (emit_records time l t k Hk) as (k' & -> & Hk' & Hrec) end.
    simpl. rewrite N1, N2, N3, N6. by do 5 (split; [done|]).
Qed.

Lemma consume_replay env p st :
  first_non_finite p = None -> in_order (ts_sink st) ->
  let '(net, r) := net_step (ts_network st) (decode_stimuli p (ts_stimuli st)) (decode_modulators mods_default p) in
  let st' := consume net_step mods_default env p st in
  ts_source st' = ts_source st /\ ts_network st' = net /\ ts_ingress st' = ts_ingress st /\
  in_order (ts_sink st') /\
  recorded (ts_sink st') = recorded (ts_sink st) ++ option_list (record_of r) /\
  vitals (ts_stats st') = vitals (if is_ok r then bump_ticks (ts_stats st) else ts_stats st).
Proof.
  intros Hp Hk. unfold consume. rewrite Hp. simpl.
  destruct (net_step _ _ _) as [net [ids|e]]; cbv zeta; simpl; [|by rewrite app_nil_r].
  match goal with |- context [publish_spikes env ids ?x] =>
    destruct (publish_records env ids x Hk) as (P1 & P2 & P3 & P4 & P5 & P6) end.
  by rewrite P1, P2, P3, P4, P6.
Qed.

(** One tick over a delivered packet. *)
Lemma tick_replay env st src packet :
  undisturbed env -> holding cfg (ts_ingress st) [] [] -> deliverable cfg packet ->
  next_ingress (ts_source st) = (src, Ok packet) -> in_order (ts_sink st) ->
  let '(stim, mods) := engine_input mods_default (length (ts_stimuli st)) packet in
  let '(net, r) := net_step (ts_network st) stim mods in
  let st' := run_tick_published net_step mods_default env st in
  let s1 := if is_some (packet ≫= batch_id) then bump_accepted (ts_stats st) else ts_stats st in
  ts_source st' = src /\ ts_network st' = net /\ holding cfg (ts_ingress st') [] [] /\
  length (ts_stimuli st') = length (ts_stimuli st) /\ in_order (ts_sink st') /\
  recorded (ts_sink st') = recorded (ts_sink st) ++ option_list (record_of r) /\
  vitals (ts_stats st') = vitals (if is_ok r then bump_ticks s1 else s1).
Proof.
  intros He Hh Hd Hn Hk. unfold engine_input, decode_inputs. cbv zeta.
  pose proof (run_tick_length net_step mods_default env st) as Hlen.
  unfold run_tick_published, run_tick in *.
  pose proof (take_and_drain env st src packet He Hh Hd Hn) as Ht.
  destruct (drain_tick env (take_in env st)) as [st1 p]. destruct Ht as (-> & Hs & Hc & Hh1 & Hv).
  unfold core in Hc. injection Hc as Hc1 Hc2 Hc3.
  assert (first_non_finite (admitted (default IngressPacket_default packet)) = None) as Hfin.
  { apply first_non_finite_None, admitted_finite. destruct packet as [p|]; [|done]. by apply (Hd p). }
  rewrite <- Hc3 in Hk.
  pose proof (consume_replay env _ st1 Hfin Hk) as Hr. rewrite Hc1, Hc2, Hc3 in Hr.
  rewrite (decode_stimuli_width _ (ts_stimuli st)) in Hr.
  destruct (net_step (ts_network st) _ _) as [net r]. destruct Hr as (R1 & R2 & R3 & R4 & R5 & R6).
  unfold report. simpl. rewrite Hlen, R1, R2, R3, R5, R6. do 6 (split; [done|]).
  revert Hv. unfold vitals. destruct (is_ok r); simpl; by intros [= -> -> -> -> ->].
Qed.

(** ** A run of ticks *)

Definition accepted_of (packets : list (option IngressPacket)) : Z :=
  count (fun p : option IngressPacket => is_some (p ≫= batch_id)) packets.

Lemma drive_replay envs packets st src' :
  length envs = length packets -> Forall undisturbed envs ->
  holding cfg (ts_ingress st) [] [] -> Forall (deliverable cfg) packets ->
  delivers packets (ts_source st) src' -> in_order (ts_sink st) ->
  is_u64 (rs_ticks (ts_stats st)) -> is_u64 (rs_accepted_batches (ts_stats st)) ->
  let st' := drive_ticks net_step mods_default envs st in
  let '(net, rs) := engine_replay net_step
    (engine_input mods_default (length (ts_stimuli st)) <$> packets) (ts_network st) in
  ts_source st' = src' /\ ts_network st' = net /\ in_order (ts_sink st') /\
  recorded (ts_sink st') = recorded (ts_sink st) ++ omap record_of rs /\
  rs_ticks (ts_stats st') = wrap64 (rs_ticks (ts_stats st) + count is_ok rs) /\
  rs_accepted_batches (ts_stats st') =
    wrap64 (rs_accepted_batches (ts_stats st) + accepted_of packets) /\
  rs_rejected_batches (ts_stats st') = rs_rejected_batches (ts_stats st) /\
  rs_receive_errors (ts_stats st') = rs_receive_errors (ts_stats st) /\
  rs_emit_errors (ts_stats st') = rs_emit_errors (ts_stats st).
Proof.
  revert st envs. induction packets as [|packet packets IH]; intros st [|env envs] Hlen He Hh Hd Hs Hk Ut Ua; try done.
  - simpl in *. subst src'. rewrite app_nil_r. unfold accepted_of. simpl. by rewrite !Z.add_0_r, !wrap64_small.
  - apply Forall_cons in He as [He Hes]. apply Forall_cons in Hd as [Hd Hds].
    destruct Hs as (mid & Hn & Hs). cbn [fmap list_fmap engine_replay].
    pose proof (tick_replay env st mid packet He Hh Hd Hn Hk) as Ht.
    destruct (engine_input mods_default (length (ts_stimuli st)) packet) as [stim mods].
    destruct (net_step (ts_network st) stim mods) as [net r]. destruct Ht as (T1 & T2 & T3 & T4 & Tk & T5 & T6).
    set (st1 := run_tick_published net_step mods_default env st) in *.
    change (drive_ticks net_step mods_default (env :: envs) st) with (drive_ticks net_step mods_default envs st1).
    specialize (IH st1 envs ltac:(simpl in Hlen; lia) Hes T3 Hds). rewrite T1, T2, T4 in IH.
    assert (is_u64 (rs_ticks (ts_stats st1)) /\ is_u64 (rs_accepted_batches (ts_stats st1))) as [Ut1 Ua1].
    { revert T6. unfold vitals. destruct (is_ok r), (is_some (packet ≫= batch_id)); simpl;
        intros [= -> -> _ _ _]; auto with brain. }
    specialize (IH Hs Tk Ut1 Ua1). cbv zeta in *.
    destruct (engine_replay net_step _ net) as [net' rs]. destruct IH as (I1 & I2 & Ik & I3 & I4 & I5 & I6 & I7 & I8).
    unfold accepted_of in *. simpl.
    rewrite I1, I2, I3, I4, I5, I6, I7, I8, T5, <- app_assoc.
    revert T6. unfold vitals. destruct (is_ok r), (is_some (packet ≫= batch_id)); simpl; intros [= -> -> -> -> ->];
      (do 3 (split; [done|])); (split; [by destruct (record_of r)|]);
      repeat split; unfold wadd64, wrap64; rewrite ?Zplus_mod_idemp_l; f_equal; lia.
Qed.
End Replay.

Lemma filter_representable (ids : list Z) :
  Forall (fun id => id <= u16_max) ids -> base.filter (fun id => id <= u16_max) ids = ids.
Proof. induction 1 as [|id ids Hid _ IH]; [done|]. by rewrite filter_cons_True, IH. Qed.

(** Where no id is dropped, every tick is recorded. *)
Lemma records_all {K} `{SpikeSink K} `{!Recorder K} (outs : list (list Z)) :
  Forall (Forall (fun id => id <= u16_max)) outs ->
  omap record_of (Ok <$> outs) = record_view <$> outs.
Proof.
  induction 1 as [|ids outs Hids _ IH]; [done|]. rewrite fmap_cons. cbn [omap list_omap].
  assert (record_of (Ok ids) = Some (record_view ids)) as ->
    by (unfold record_of, all_dropped; rewrite filter_representable by done; by destruct ids).
  csimpl. f_equal. exact IH.
Qed.

Lemma omap_length_short {A B} (f : A -> option B) l x :
  x ∈ l -> f x = None -> (length (omap f l) < length l)%nat.
Proof.
  assert (forall k, (length (omap f k) <= length k)%nat) as Hle
    by (induction k as [|y k IH]; csimpl; [done|]; destruct (f y); simpl; lia).
  intros Hx Hf. induction l as [|y l IH]; [by apply elem_of_nil in Hx|]. csimpl.
  apply elem_of_cons in Hx as [->|Hx]; [rewrite Hf; specialize (Hle l); lia|].
  specialize (IH Hx). destruct (f y); simpl; lia.
Qed.

(** ** Construction *)

Lemma construct_ok {S K} c (source : S) (sink : K) now :
  daemon_unsigned c -> daemon_validate c = Ok tt ->
  exists d, try_with_backend c source sink now = Ok d /\ bd_config d = (take_services c).1 /\
    bd_source d = source /\ bd_sink d = sink /\ holding (ingress c) (bd_ingress d) [] [] /\
    1 <= channels c <= max_payload_len (ingress c) /\ lif_count c + izh_count c <= u16_max.
Proof.
  intros Hu Hv. pose proof (proj1 (daemon_validate_ok c Hu) Hv) as [_ [Hd1 _] Hi Hch _ _ _ _ _ _].
  pose proof Hu as (_ & _ & _ & Hiu).
  assert (ingress_validate (ingress c) = Ok tt) as Hiv by (by apply validate_ok_bounds).
  destruct (BoundedIngress_new (ingress c)) as [i|e] eqn:Hnew; [|unfold BoundedIngress_new in Hnew; by rewrite Hiv in Hnew].
  destruct (BoundedIngress_new_ok _ _ Hiu Hnew) as (Hok & Hcfg & Hdown).
  unfold try_with_backend. rewrite Hv. simpl. rewrite Hnew. simpl. eexists. split; [reflexivity|].
  do 3 (split; [done|]). split; [|split; [done|apply Hd1]].
  split; [done|]. split; [done|]. split; [done|]. unfold BoundedIngress_new in Hnew. rewrite Hiv in Hnew.
  injection Hnew as <-. done.
Qed.

(** ** A bounded run *)

Section Run.
Context {LifRest NetRest StdpRest : Type}.
Abbreviation Network := (@SpikingNetwork LifRest NetRest StdpRest).
Context {S K : Type} `{StimulusSource S} `{SpikeSink K} `{!Recorder K}.
Variable fs : Fs.
Variable parse_document : string -> result unit SidecarDocument.
Variable parse_hub : string -> result unit HubConfig.
Variable sha256 : list Z -> list Z.
Variable with_dimensions : Z -> Z -> Z -> Network.
Variable set_rm_stdp_config : @RmStdpConfig StdpRest -> Network -> Network.
Variable components : string -> path.
Variable display : path -> string.
Variable net_step : Network -> list f32 -> NeuroModulators -> Network * result string (list Z).
Variable mods_default : NeuroModulators.

Abbreviation bounded_run := (run_for_ticks fs parse_document parse_hub sha256
  with_dimensions set_rm_stdp_config components display net_step mods_default).
Abbreviation restored := (restore fs parse_document parse_hub sha256
  with_dimensions set_rm_stdp_config components display).

(** What a run over these packets reports, given what the steps returned. *)
Definition replay_report (packets : list (option IngressPacket)) (rs : list (result string (list Z)))
    (p : ModelProvenance) (stats : RuntimeStats) : Prop :=
  rs_ticks stats = wrap64 (count is_ok rs) /\ rs_accepted_batches stats = wrap64 (accepted_of packets) /\
  rs_rejected_batches stats = 0 /\ rs_receive_errors stats = 0 /\ rs_emit_errors stats = 0 /\
  rs_loaded_checkpoint stats = Some p.

Lemma run_replay (d : BrainstemDaemon S K) init_at check_at packets envs src0 src1 src2 net p :
  let c := bd_config d in
  initialize (Some (model_path c)) (bd_source d) = (src0, Ok tt) ->
  restored c = Ok (net, p) -> validate_restored_pair c net p = Ok tt ->
  delivers packets src0 src1 -> source_shutdown src1 = (src2, Ok tt) ->
  length envs = length packets -> Forall undisturbed envs -> in_order (bd_sink d) ->
  holding (ingress c) (bd_ingress d) [] [] -> Forall (deliverable (ingress c)) packets ->
  let rs := (engine_replay net_step (engine_input mods_default (Z.to_nat (channels c)) <$> packets) net).2 in
  exists w stats, bounded_run d init_at check_at envs = (w, Ok stats) /\ w_source w = src2 /\
    recorded (w_sink w) = recorded (bd_sink d) ++ omap record_of rs /\ replay_report packets rs p stats.
Proof.
  cbv zeta. intros Hinit Hres Hval Hdel Hsh Hlen He Hk Hh Hd. unfold run_for_ticks, boot_network, initialize_source.
  rewrite Hinit. unfold take_restored_network. rewrite Hres. simpl. rewrite Hval. simpl.
  match goal with |- context [first_tick ?c ?s ?k ?n ?i ?h (set_loaded (Some p) ?s0)] =>
    pose proof (drive_loaded net_step mods_default (Some p) envs (first_tick c s k n i h s0)) as Hl;
    pose proof (drive_replay net_step mods_default (ingress c) envs packets (first_tick c s k n i h s0) src1
      Hlen He Hh Hd Hdel Hk) as Hr;
    change (first_tick c s k n i h (set_loaded (Some p) s0)) with (with_loaded (Some p) (first_tick c s k n i h s0));
    set (st0 := first_tick c s k n i h s0) in * end.
  rewrite Hl. unfold st0 in Hr at 1 2. simpl in Hr.
  specialize (Hr ltac:(by vm_compute) ltac:(by vm_compute)). rewrite length_replicate in Hr.
  set (st := drive_ticks net_step mods_default envs st0) in *. cbv zeta in Hr. simpl.
  destruct (engine_replay net_step _ net) as [net' rs]. destruct Hr as (R1 & R2 & Rk & R3 & R4 & R5 & R6 & R7 & R8).
  unfold finish_bounded_run. simpl. rewrite R1, Hsh.
  destruct (flush_records (ts_sink st) Rk) as (k' & -> & _ & Hrec).
  eexists _, _. split; [reflexivity|]. simpl. split; [done|]. rewrite Hrec, R3. split; [done|].
  unfold replay_report. simpl. by rewrite R4, R5, R6, R7, R8.
Qed.

Variable tcp_bind : SocketAddr -> result string unit.
Abbreviation live_run := (run_loop fs parse_document parse_hub sha256
  with_dimensions set_rm_stdp_config components display net_step mods_default tcp_bind).

(** The live loop over the same ticks, until a signal: it records the same. *)
Lemma live_replay (d : BrainstemDaemon S K) given init_at check_at packets pre now rest src0 src1 net p :
  let c := bd_config d in
  Forall (fun e => forall t, e <> LoopShutdown t) pre ->
  is_ok (start_control tcp_bind (control_bind c)) = true ->
  initialize (Some (model_path c)) (bd_source d) = (src0, Ok tt) ->
  take_restored_network fs parse_document parse_hub sha256 with_dimensions set_rm_stdp_config
    components display c given = Ok (net, p) ->
  delivers packets src0 src1 ->
  length (ticks_of pre) = length packets -> Forall undisturbed (ticks_of pre) -> in_order (bd_sink d) ->
  holding (ingress c) (bd_ingress d) [] [] -> Forall (deliverable (ingress c)) packets ->
  let rs := (engine_replay net_step (engine_input mods_default (Z.to_nat (channels c)) <$> packets) net).2 in
  exists w, live_run d given init_at check_at (pre ++ LoopShutdown now :: rest) = Some (w, Ok tt) /\
    in_order (w_sink w) /\ recorded (w_sink w) = recorded (bd_sink d) ++ omap record_of rs /\
    is_shutdown (w_ingress w) = true.
Proof.
  cbv zeta. intros Hpre Hc Hinit Hres Hdel Hlen He Hk Hh Hd. unfold run_loop, boot_network, initialize_source.
  destruct (start_control _ _) as [spawned|e]; [|done]. rewrite Hinit, Hres, event_loop_ticks by done.
  match goal with |- context [first_tick ?c ?s ?k ?n ?i ?h ?s0] =>
    pose proof (drive_replay net_step mods_default (ingress c) (ticks_of pre) packets (first_tick c s k n i h s0) src1
      Hlen He Hh Hd Hdel Hk ltac:(by vm_compute) ltac:(by vm_compute)) as Hr;
    set (st0 := first_tick c s k n i h s0) in * end.
  unfold st0 in Hr at 2 3. cbn [ts_stimuli ts_network first_tick] in Hr. rewrite length_replicate in Hr.
  set (st := drive_ticks net_step mods_default (ticks_of pre) st0) in *. cbv zeta in Hr |- *.
  destruct (engine_replay net_step _ net) as [net' rs]. destruct Hr as (R1 & R2 & Rk & R3 & _).
  unfold shutdown_backend. simpl. destruct (flush_records (ts_sink st) Rk) as (k' & -> & Hk' & Hrec).
  eexists. split; [reflexivity|]. simpl. by rewrite Hrec, R3.
Qed.

Definition neurons_of (net : Network) : Z := len (sn_neurons net) + sn_iz_neurons net.

(** neuromod's [step] spikes neurons of the network, and keeps their number. *)
Definition step_ids_in_range : Prop := forall net stim mods net' ids,
  net_step net stim mods = (net', Ok ids) ->
  neurons_of net' = neurons_of net /\ Forall (fun id => 0 <= id < neurons_of net) ids.

Lemma engine_run_ids inputs net net' outs :
  step_ids_in_range -> neurons_of net <= u16_max -> engine_run net_step inputs net = (net', Ok outs) ->
  Forall (Forall (fun id => id <= u16_max)) outs.
Proof.
  intros Hstep. revert net outs. induction inputs as [|[stim mods] inputs IH]; intros net outs Hn; simpl.
  - by intros [= _ <-].
  - destruct (net_step net stim mods) as [net1 [ids|e]] eqn:Hs; [|done].
    destruct (Hstep _ _ _ _ _ Hs) as [Hn1 Hids]. destruct (engine_run net_step inputs net1) as [net2 [out|e]] eqn:Hr; [|done].
    simpl. intros [= -> <-]. constructor; [|by apply (IH net1 out); [rewrite Hn1|]].
    eapply Forall_impl; [exact Hids|]. simpl. lia.
Qed.

(** A replay's records against the direct engine: the engine's steps when none
    failed, and too few otherwise. *)
Lemma engine_records inputs net :
  step_ids_in_range -> neurons_of net <= u16_max ->
  match (engine_run net_step inputs net).2 with
  | Ok outs => omap record_of (engine_replay net_step inputs net).2 = record_view <$> outs /\
               length outs = length inputs /\ Forall (Forall (fun id => id <= u16_max)) outs /\
               count is_ok (engine_replay net_step inputs net).2 = len inputs
  | Err _ => (length (omap record_of (engine_replay net_step inputs net).2) < length inputs)%nat
  end.
Proof.
  intros Hrange Hn. pose proof (engine_replay_length net_step inputs net) as Hl.
  pose proof (engine_run_replay net_step inputs net) as Heng.
  destruct (engine_run net_step inputs net) as [net' [outs|e]] eqn:Her; cbn [snd].
  - assert (Forall (Forall (fun id => id <= u16_max)) outs) as Hids by (by eapply engine_run_ids).
    rewrite Heng in *. cbn [snd] in *. rewrite length_fmap in Hl. rewrite records_all by done.
    do 3 (split; [done|]). unfold len. rewrite <- Hl.
    clear. induction outs as [|x l IHl]; csimpl; [done|]. rewrite IHl. lia.
  - pose proof (omap_length_short (record_of (K := K)) _ _ Heng eq_refl). lia.
Qed.

(** The service list plays no part in a restore. *)
Lemma restored_services c : restored (take_services c).1 = restored c.
Proof. by destruct c. Qed.

(** What a restore returns passes the daemon's check of the pair. *)
Lemma restored_pair_valid c net p :
  with_dimensions_sized with_dimensions -> set_config_sets set_rm_stdp_config -> daemon_unsigned c ->
  restored c = Ok (net, p) -> validate_restored_pair c net p = Ok tt /\ neurons_of net = lif_count c + izh_count c.
Proof.
  intros Hdim Hset (Hl & Hz & _) Hr.
  destruct (restore_sound _ _ _ _ _ _ _ _ _ _ _ Hdim Hset Hr) as [_ Hmode].
  assert (mp_schema_id p = match runtime_mode c with Live => SCHEMA_ID | Simulation => SIMULATION_SCHEMA_ID end /\
          len (sn_neurons net) = lif_count c /\ sn_iz_neurons net = izh_count c /\
          sn_num_channels net = channels c) as (Hs & H1 & H2 & H3).
  { destruct (runtime_mode c); [by destruct Hmode as [[] ?]|]. destruct Hmode as [-> ?].
    split; [done|]. by apply Hdim. }
  unfold neurons_of, validate_restored_pair. rewrite Hs, H1, H2, H3, !Z.eqb_refl.
  by destruct (runtime_mode c).
Qed.

(** The daemon's bounded run, from its construction, against the direct engine:
    when no step fails the records are the engine's, and when one does fewer
    ticks are recorded than polled. *)
Lemma run_engine c (source : S) (sink : K) now init_at check_at packets envs src0 src1 src2 net p :
  daemon_unsigned c -> daemon_validate c = Ok tt -> restored c = Ok (net, p) ->
  with_dimensions_sized with_dimensions -> set_config_sets set_rm_stdp_config -> step_ids_in_range ->
  initialize (Some (model_path c)) source = (src0, Ok tt) -> delivers packets src0 src1 ->
  source_shutdown src1 = (src2, Ok tt) -> length envs = length packets -> Forall undisturbed envs ->
  Forall (deliverable (ingress c)) packets -> in_order sink -> len packets <= u64_max ->
  exists d w stats, try_with_backend c source sink now = Ok d /\
    bounded_run d init_at check_at envs = (w, Ok stats) /\ w_source w = src2 /\
    rs_accepted_batches stats = wrap64 (accepted_of packets) /\ rs_rejected_batches stats = 0 /\
    rs_receive_errors stats = 0 /\ rs_emit_errors stats = 0 /\ rs_loaded_checkpoint stats = Some p /\
    match (engine_run net_step (engine_input mods_default (Z.to_nat (channels c)) <$> packets) net).2 with
    | Ok outs => recorded (w_sink w) = recorded sink ++ (record_view <$> outs) /\
                 length outs = length packets /\ Forall (Forall (fun id => id <= u16_max)) outs /\
                 rs_ticks stats = len packets
    | Err _ => (length (recorded (w_sink w)) < length (recorded sink) + length packets)%nat
    end.
Proof.
  intros Hu Hv Hr Hsized Hsets Hrange Hinit Hdel Hsh Hlen He Hd Hk Hmax.
  destruct (construct_ok c source sink now Hu Hv) as (d & Hnew & Hcfg & Hsrc & Hsink & Hhold & Hch & Hn16).
  destruct (restored_pair_valid c net p Hsized Hsets Hu Hr) as [Hval Hneu].
  pose proof (run_replay d init_at check_at packets envs src0 src1 src2 net p) as Hrun.
  cbv zeta in Hrun. rewrite Hcfg, Hsrc, Hsink, restored_services in Hrun.
  destruct Hrun as (w & stats & Hran & Hws & Hwk & Htk & Hacc & Hrej & Hrec & Hem & Hck); try done.
  change (channels (take_services c).1) with (channels c) in *.
  set (inputs := engine_input _ _ <$> packets) in *.
  exists d, w, stats. do 8 (split; [done|]).
  assert (length inputs = length packets) as Hil by apply length_fmap.
  pose proof (engine_records inputs net Hrange ltac:(by rewrite Hneu)) as Hrecs.
  destruct (engine_run net_step inputs net) as [net' [outs|e]]; cbn [snd] in *.
  - destruct Hrecs as (Hout & Hol & Hids & Hcount). rewrite Hout in Hwk. rewrite Htk, Hcount.
    split; [done|]. split; [congruence|]. split; [done|].
    unfold len in *. rewrite Hil, wrap64_small by (unfold is_u64; lia). done.
  - rewrite Hwk, length_app. lia.
Qed.

(** Without a network there is no run, and no baseline either. *)
Lemma run_unrestored c (source : S) (sink : K) now init_at check_at envs e :
  restored c = Err e ->
  match try_with_backend c source sink now with
  | Ok d => is_ok (bounded_run d init_at check_at envs).2 = false
  | Err _ => True
  end.
Proof.
  intros Hr. destruct (try_with_backend c source sink now) as [d|] eqn:Hd; [|done].
  unfold try_with_backend in Hd. apply result_bind_ok in Hd as (_ & _ & Hd).
  apply result_bind_ok in Hd as (i & _ & Hd). assert (bd_config d = (take_services c).1) as Hcfg
    by (injection Hd as <-; done).
  unfold run_for_ticks, boot_network, initialize_source, take_restored_network. rewrite Hcfg, restored_services, Hr.
  destruct (initialize _ (bd_source d)) as [src [u|e']]; cbn; done.
Qed.

Lemma restored_invalid c e : daemon_validate c = Err e -> is_ok (restored c) = false.
Proof. unfold restore, restore_network. by intros ->. Qed.
End Run.
