(* ===== verification/Workload.v ===== *)
(** * The experiment workload (examples/usefulness_common/mod.rs)

    The workload file's data, its load checks, its expansion to one event per
    tick and the stimulus frame a driver encodes.  Reading the file, the JSON
    decoder and encoder and the wall clock are arguments. *)

From Stdlib Require Import Ascii.
From S2P Require Import Prelude Floats Corpus.
Local Open Scope Z_scope.

(** ** The fixture *)

Record Modulators := MkMods {
  md_dopamine : f32;
  md_cortisol : f32;
  md_acetylcholine : f32;
  md_tempo : f32;
}.

Record Event := MkEvent {
  ev_offset : Z;
  ev_values : list f32;
  ev_valid_mask : option (list bool);
  ev_modulators : option Modulators;
}.

Record Transport := MkTransport {
  tr_pulse_spacing_ticks : Z;
  tr_pulses : Z;
  tr_amplitude : f32;
  tr_expected_by_channel : gmap string (list Z);
}.

Record Workload := MkWorkload {
  wl_fixture_sha256 : string;
  wl_channels : Z;
  wl_ticks_per_cycle : Z;
  wl_cycles : Z;
  wl_ticks : Z;
  wl_warmup_ticks : Z;
  wl_cycle_events : list Event;
  wl_transport : Transport;
}.

Inductive WorkloadError :=
| ReadJson (what path e : string)
| ParseJson (what path e : string)
| TicksMismatch
| ChannelsMismatch (config workload : Z).

(** ** Loading *)

Definition read_json {A} (read_to_string : string -> result string string)
    (from_str : string -> result string A) (path what : string) : result WorkloadError A :=
  map_err (ReadJson what path) (read_to_string path) ≫= fun text =>
  map_err (ParseJson what path) (from_str text).

Definition workload_load (read_to_string : string -> result string string)
    (from_str : string -> result string Workload) (path : string) : result WorkloadError Workload :=
  read_json read_to_string from_str path "workload" ≫= fun workload =>
  require (wl_ticks workload =? wmul64 (wl_ticks_per_cycle workload) (wl_cycles workload))
    TicksMismatch ≫= fun _ =>
  Ok workload.

Definition check_channels (w : Workload) (channels : Z) : result WorkloadError unit :=
  require (channels =? wl_channels w) (ChannelsMismatch channels (wl_channels w)).

(** ** Expansion *)

(** The tick an event falls on in a cycle. *)
Definition event_tick (w : Workload) (cycle : Z) (event : Event) : Z :=
  wadd64 (wmul64 cycle (wl_ticks_per_cycle w)) (ev_offset event).

(** [HashMap::insert]: a later event on the same tick wins. *)
Definition expand_cycle (w : Workload) (events : gmap Z Event) (cycle : Z) : gmap Z Event :=
  fold_left (fun events event => <[event_tick w cycle event := event]> events) (wl_cycle_events w) events.

Definition expand (w : Workload) : gmap Z Event :=
  fold_left (expand_cycle w) (seqZ 0 (wl_cycles w)) ∅.

Definition sends_stimuli (event : Event) : bool := negb (bool_decide (ev_values event = [])).
Definition sends_modulators (event : Event) : bool := is_some (ev_modulators event).

(** Stimulus and modulator frames of a full run. *)
Definition frame_counts (w : Workload) : Z * Z :=
  (wmul64 (count sends_stimuli (wl_cycle_events w)) (wl_cycles w),
   wmul64 (count sends_modulators (wl_cycle_events w)) (wl_cycles w)).

(** ** Frames *)

Definition stimulus_batch (session : string) (batch_id now_ns : Z) (values : list f32)
    (valid_mask : option (list bool)) : StimulusBatch := {|
  sb_session_id := Some session;
  sb_batch_id := batch_id;
  sb_timestamp := now_ns;
  sb_values := values;
  sb_valid_mask := valid_mask;
  sb_metadata := Some {|
    bm_processing_latency_ns := None;
    bm_source := Some (session +:+ "-driver");
    bm_custom := {["schema" := STIMULUS_SCHEMA]};
  |};
|}.

Definition stimulus_frame (to_vec : IpcMessage -> result string string) (session : string)
    (batch_id now_ns : Z) (values : list f32) (valid_mask : option (list bool)) : result string string :=
  to_vec (Stimuli (stimulus_batch session batch_id now_ns values valid_mask)).

(** ** The JSON codec

    What a driver relies on of corpus-ipc's messages.  A batch of finite values,
    with a mask of their length if any, is encoded and decodes to itself (JSON
    has no infinities or NaN).  A modulator snapshot is checked when it is
    decoded: its values must be finite and in corpus-ipc's ranges, so only such
    a snapshot decodes to itself.  The ranges are corpus-ipc's, and a parameter
    [mods_in_range]; the one the repository documents is that of the tempo,
    0.5 to 2.0. *)

Definition modulator_values (m : NeuromodulatorSnapshot) : list f32 :=
  [nm_dopamine m; nm_cortisol m; nm_acetylcholine m; nm_tempo m].

Definition stimuli_roundtrip (to_vec : IpcMessage -> result string string)
    (from_slice : string -> result string IpcMessage) : Prop :=
  forall batch, all_finite (sb_values batch) = true ->
    (forall mask, sb_valid_mask batch = Some mask -> length mask = length (sb_values batch)) ->
    exists bytes, to_vec (Stimuli batch) = Ok bytes /\ from_slice bytes = Ok (Stimuli batch).

Definition snapshots_roundtrip (mods_in_range : list f32 -> bool) (to_vec : IpcMessage -> result string string)
    (from_slice : string -> result string IpcMessage) : Prop :=
  forall snapshot, all_finite (modulator_values snapshot) = true -> mods_in_range (modulator_values snapshot) = true ->
    exists bytes, to_vec (Neuromodulators snapshot) = Ok bytes /\ from_slice bytes = Ok (Neuromodulators snapshot).

(** corpus-ipc's [validate]: finite values and a mask of their length pass. *)
Definition validates_wellformed (validate : StimulusBatch -> result string unit) : Prop :=
  forall batch, all_finite (sb_values batch) = true ->
    (forall mask, sb_valid_mask batch = Some mask -> length mask = length (sb_values batch)) ->
    validate batch = Ok tt.

(** An encoded batch is accepted by the daemon's ingress as what was encoded. *)
Lemma batch_frame_accepted to_vec from_slice validate batch meta now age :
  stimuli_roundtrip to_vec from_slice -> validates_wellformed validate ->
  sb_metadata batch = Some meta -> bm_custom meta !! "schema" = Some STIMULUS_SCHEMA ->
  all_finite (sb_values batch) = true ->
  (forall m, sb_valid_mask batch = Some m -> length m = length (sb_values batch)) ->
  is_u64 age -> 0 <= now - sb_timestamp batch <= age ->
  exists bytes, to_vec (Stimuli batch) = Ok bytes /\
    accept_ipc_json validate from_slice bytes (MkIngressPolicy (len (sb_values batch)) (Some age)) now =
    Ok (Packet.MkPacket (sb_values batch) None (sb_valid_mask batch) (Some (sb_batch_id batch))
          (Some (sb_timestamp batch)) (sb_session_id batch) false).
Proof.
  intros Hc Hv Hmeta Hschema Hf Hm Ha Hn.
  destruct (Hc batch Hf Hm) as (bytes & Hto & Hfrom).
  exists bytes. split; [done|]. unfold accept_ipc_json. rewrite Hfrom. apply accept_stimulus_iff.
  split; [by apply Hv|]. split; [by exists meta|].
  split; [by right|]. split; [|done]. intros a [= <-]. by rewrite wrap64_small.
Qed.

Lemma stimulus_frame_accepted to_vec from_slice validate session batch_id sent now values mask channels age :
  stimuli_roundtrip to_vec from_slice -> validates_wellformed validate ->
  all_finite values = true -> (forall m, mask = Some m -> length m = length values) ->
  len values = channels -> is_u64 age -> 0 <= now - sent <= age ->
  exists bytes, stimulus_frame to_vec session batch_id sent values mask = Ok bytes /\
    accept_ipc_json validate from_slice bytes (MkIngressPolicy channels (Some age)) now =
    Ok (Packet.MkPacket values None mask (Some batch_id) (Some sent) (Some session) false).
Proof.
  intros Hc Hv Hf Hm <- Ha Hn.
  by apply (batch_frame_accepted _ _ _ (stimulus_batch session batch_id sent values mask)
    (MkBatchMetadata None (Some (session +:+ "-driver")%string) {["schema" := STIMULUS_SCHEMA]})).
Qed.

Lemma modulator_frame_accepted mods_in_range to_vec from_slice validate snapshot policy now :
  snapshots_roundtrip mods_in_range to_vec from_slice ->
  all_finite (modulator_values snapshot) = true -> mods_in_range (modulator_values snapshot) = true ->
  exists bytes, to_vec (Neuromodulators snapshot) = Ok bytes /\
    accept_ipc_json validate from_slice bytes policy now =
    Ok (Packet.MkPacket [] (Some (modulator_values snapshot)) None None None None false).
Proof.
  intros Hc Hf Hr. destruct (Hc snapshot Hf Hr) as (bytes & Hto & Hfrom).
  exists bytes. split; [done|]. unfold accept_ipc_json. by rewrite Hfrom.
Qed.

(** ** Expansion loses no frame *)

(** Distinct offsets within the cycle, and a run that fits a [u64]. *)
Definition disjoint_offsets (w : Workload) : Prop :=
  NoDup (ev_offset <$> wl_cycle_events w) /\
  Forall (fun e => 0 <= ev_offset e < wl_ticks_per_cycle w) (wl_cycle_events w) /\
  0 <= wl_cycles w /\ wl_ticks_per_cycle w * wl_cycles w <= u64_max.

(** What [expand] inserts, in order. *)
Definition cycle_inserts (w : Workload) (cycle : Z) : list (Z * Event) :=
  (fun e => (event_tick w cycle e, e)) <$> wl_cycle_events w.

Definition inserts (w : Workload) : list (Z * Event) := seqZ 0 (wl_cycles w) ≫= cycle_inserts w.

Definition insert_all (events : gmap Z Event) (l : list (Z * Event)) : gmap Z Event :=
  fold_left (fun events '(t, e) => <[t := e]> events) l events.

Lemma expand_cycle_inserts w events cycle :
  expand_cycle w events cycle = insert_all events (cycle_inserts w cycle).
Proof.
  unfold expand_cycle, insert_all, cycle_inserts. revert events.
  induction (wl_cycle_events w) as [|e l IH]; intros events; [done|]. apply IH.
Qed.

Lemma insert_all_app events l k : insert_all events (l ++ k) = insert_all (insert_all events l) k.
Proof. apply fold_left_app. Qed.

Lemma expand_inserts w : expand w = insert_all ∅ (inserts w).
Proof.
  unfold expand, inserts. generalize (∅ : gmap Z Event). induction (seqZ 0 (wl_cycles w)) as [|c cs IH];
    intros events; [done|]. simpl. by rewrite insert_all_app, IH, expand_cycle_inserts.
Qed.

Lemma fmap_of_bind {A B C} (g : B -> C) (f : A -> list B) l : g <$> (l ≫= f) = l ≫= fun x => g <$> f x.
Proof. induction l as [|x l IH]; csimpl; [done|]. by rewrite fmap_app, IH. Qed.

(** The event of a tick, if it passes a test. *)
Definition on_tick (p : Event -> bool) (events : gmap Z Event) (t : Z) : bool :=
  match events !! t with Some e => p e | None => false end.

(** Two tests that differ at one element, which only the second passes or not. *)
Lemma count_at (f g : Z -> bool) k l :
  NoDup l -> k ∈ l -> f k = false -> (forall x, x <> k -> f x = g x) ->
  count g l = count f l + Z.b2z (g k).
Proof.
  intros Hn Hk Hf Hfg. induction Hn as [|x l Hx _ IH]; [by apply elem_of_nil in Hk|]. simpl.
  destruct (decide (x = k)) as [->|Hne].
  - rewrite Hf. rewrite (count_ext f g l); [simpl; lia|]. intros y Hy. apply Hfg. by intros ->.
  - apply elem_of_cons in Hk as [->|Hk]; [done|]. rewrite IH, (Hfg x) by done. lia.
Qed.

Lemma count_inserted p n l events :
  NoDup l.*1 -> Forall (fun k => 0 <= k < n) l.*1 -> (forall k, k ∈ l.*1 -> events !! k = None) ->
  count (on_tick p (insert_all events l)) (seqZ 0 n) =
  count (on_tick p events) (seqZ 0 n) + count (fun ke => p ke.2) l.
Proof.
  revert events. induction l as [|[k e] l IH]; intros events Hn Hf He; simpl in *; [lia|].
  apply NoDup_cons in Hn as [Hk Hn]. apply Forall_cons in Hf as [Hk0 Hf].
  unfold insert_all in *. simpl. rewrite IH; [|done..|].
  - rewrite (count_at (on_tick p events) (on_tick p (<[k := e]> events)) k).
    + unfold on_tick at 2. rewrite lookup_insert_eq. lia.
    + apply NoDup_seqZ.
    + apply elem_of_seqZ. lia.
    + unfold on_tick. by rewrite (He k) by apply list_elem_of_here.
    + intros x Hx. unfold on_tick. by rewrite lookup_insert_ne.
  - intros j Hj. rewrite lookup_insert_ne; [by apply He, list_elem_of_further|]. by intros ->.
Qed.

Lemma event_tick_exact w cycle e :
  disjoint_offsets w -> 0 <= cycle < wl_cycles w -> e ∈ wl_cycle_events w ->
  event_tick w cycle e = cycle * wl_ticks_per_cycle w + ev_offset e /\
  0 <= event_tick w cycle e < wl_ticks_per_cycle w * wl_cycles w.
Proof.
  intros (_ & Ho & _ & Hm) Hc He. rewrite Forall_forall in Ho. specialize (Ho e He).
  assert (0 <= cycle * wl_ticks_per_cycle w /\
          cycle * wl_ticks_per_cycle w + wl_ticks_per_cycle w <= wl_ticks_per_cycle w * wl_cycles w) by nia.
  unfold event_tick, wmul64, wadd64. rewrite !wrap64_small; unfold is_u64; rewrite ?wrap64_small;
    unfold is_u64; lia.
Qed.

Lemma inserts_distinct w :
  disjoint_offsets w ->
  NoDup (inserts w).*1 /\ Forall (fun k => 0 <= k < wl_ticks_per_cycle w * wl_cycles w) (inserts w).*1.
Proof.
  intros Hd. pose proof Hd as (Hn & Ho & _ & _). rewrite Forall_forall in Ho.
  unfold inserts. rewrite fmap_of_bind. split.
  - apply NoDup_bind; [|intros c Hc|apply NoDup_seqZ].
    + intros c1 c2 t H1 H2. rewrite elem_of_seqZ in H1, H2. unfold cycle_inserts.
      rewrite <- !list_fmap_compose. intros (e1 & -> & He1)%list_elem_of_fmap (e2 & E & He2)%list_elem_of_fmap.
      unfold compose in E. simpl in E.
      rewrite (proj1 (event_tick_exact w c1 e1 Hd ltac:(lia) He1)), (proj1 (event_tick_exact w c2 e2 Hd ltac:(lia) He2)) in E.
      pose proof (Ho _ He1). pose proof (Ho _ He2). nia.
    + rewrite elem_of_seqZ in Hc. unfold cycle_inserts. rewrite <- list_fmap_compose.
      replace (((fst ∘ (fun e => (event_tick w c e, e))) <$> wl_cycle_events w))
        with ((fun o => c * wl_ticks_per_cycle w + o) <$> (ev_offset <$> wl_cycle_events w)).
      * apply NoDup_fmap_2; [|done]. intros x y. lia.
      * rewrite <- list_fmap_compose. apply list_fmap_ext. intros i e He%list_elem_of_lookup_2. unfold compose. simpl.
        symmetry. apply event_tick_exact; [done|lia|done].
  - apply Forall_bind, Forall_forall. intros c Hc%elem_of_seqZ. unfold cycle_inserts.
    apply Forall_fmap, Forall_fmap, Forall_forall. intros e He. apply event_tick_exact; [done|lia|done].
Qed.

Lemma count_inserts p w :
  0 <= wl_cycles w ->
  count (fun ke : Z * Event => p ke.2) (inserts w) = count p (wl_cycle_events w) * wl_cycles w.
Proof.
  intros Hc. unfold inserts.
  assert (forall c, count (fun ke : Z * Event => p ke.2) (cycle_inserts w c) = count p (wl_cycle_events w)) as Hone.
  { intros c. unfold cycle_inserts. induction (wl_cycle_events w) as [|e l IH]; csimpl; [done|]. by rewrite IH. }
  assert (forall cs, count (fun ke : Z * Event => p ke.2) (cs ≫= cycle_inserts w) =
                     count p (wl_cycle_events w) * len cs) as Hall.
  { induction cs as [|c cs IH]; csimpl; [unfold len; simpl; lia|]. rewrite count_app, Hone, len_cons, IH. lia. }
  rewrite Hall. unfold len. rewrite length_seqZ, Z2Nat.id by done. done.
Qed.

(** The ticks of a run whose event passes a test. *)
Lemma ticks_with_event p w :
  disjoint_offsets w -> wl_ticks w = wmul64 (wl_ticks_per_cycle w) (wl_cycles w) ->
  count (on_tick p (expand w)) (seqZ 0 (wl_ticks w)) = count p (wl_cycle_events w) * wl_cycles w.
Proof.
  intros Hd Ht. pose proof Hd as (_ & Ho & Hc & Hm). destruct (inserts_distinct w Hd) as [Hn Hf].
  destruct (decide (wl_cycle_events w = [])) as [He|He].
  { assert (expand w = ∅) as ->.
    { rewrite expand_inserts. unfold inserts. assert (forall cs, cs ≫= cycle_inserts w = []) as ->; [|done].
      induction cs as [|c cs IH]; csimpl; [done|]. rewrite IH. unfold cycle_inserts. by rewrite He. }
    rewrite He. simpl. apply count_zero, Forall_forall. intros t _. unfold on_tick. by rewrite lookup_empty. }
  assert (0 <= wl_ticks_per_cycle w) as Htp.
  { destruct (wl_cycle_events w) as [|e l]; [done|]. apply Forall_cons in Ho as [? _]. lia. }
  rewrite Ht. unfold wmul64. rewrite wrap64_small by (unfold is_u64; nia).
  rewrite expand_inserts, count_inserted, count_inserts; [|done..|intros; apply lookup_empty].
  rewrite count_zero; [lia|]. apply Forall_forall. intros t _. unfold on_tick. by rewrite lookup_empty.
Qed.

(** Every event of the expansion is one of the workload's. *)
Lemma expand_events w t e : expand w !! t = Some e -> e ∈ wl_cycle_events w.
Proof.
  rewrite expand_inserts. intros Ht.
  assert (forall l events, (forall t e, events !! t = Some e -> e ∈ wl_cycle_events w) ->
    (forall t e, (t, e) ∈ l -> e ∈ wl_cycle_events w) ->
    forall t e, insert_all events l !! t = Some e -> e ∈ wl_cycle_events w) as Hall.
  { clear. induction l as [|[k x] l IH]; intros events He Hl t e; [apply He|]. apply IH.
    - intros u y. destruct (decide (k = u)) as [->|]; [|rewrite lookup_insert_ne by done; apply He].
      rewrite lookup_insert_eq. intros [= <-]. eapply Hl, list_elem_of_here.
    - intros u y Hy. eapply Hl, list_elem_of_further, Hy. }
  refine (Hall _ _ _ _ _ _ Ht); [by intros ? ? ?%lookup_empty_Some|].
  intros u x (c & Hx & _)%list_elem_of_bind. unfold cycle_inserts in Hx.
  apply list_elem_of_fmap in Hx as (y & [= -> ->] & Hy). done.
Qed.

(** ** Witnesses *)

(** A codec with the round trip: stdpp's encoding, in bits. *)
#[export] Instance spec_float_countable : Countable SpecFloat.spec_float.
Proof.
  apply (inj_countable'
    (fun x => match x with
              | SpecFloat.S754_zero s => inl (inl s)
              | SpecFloat.S754_infinity s => inl (inr s)
              | SpecFloat.S754_nan => inr (inl tt)
              | SpecFloat.S754_finite s m e => inr (inr (s, m, e))
              end)
    (fun x => match x with
              | inl (inl s) => SpecFloat.S754_zero s
              | inl (inr s) => SpecFloat.S754_infinity s
              | inr (inl tt) => SpecFloat.S754_nan
              | inr (inr (s, m, e)) => SpecFloat.S754_finite s m e
              end)).
  by intros [].
Defined.

#[local] Instance BatchMetadata_countable : Countable BatchMetadata.
Proof.
  apply (inj_countable' (fun m => (bm_processing_latency_ns m, bm_source m, bm_custom m))
    (fun '(l, s, c) => MkBatchMetadata l s c)). by intros [].
Defined.

#[local] Instance StimulusBatch_countable : Countable StimulusBatch.
Proof.
  apply (inj_countable' (fun b => (sb_session_id b, sb_batch_id b, sb_timestamp b, sb_values b, sb_valid_mask b, sb_metadata b))
    (fun '(i, b, t, v, m, d) => MkStimulusBatch i b t v m d)). by intros [].
Defined.

#[local] Instance NeuromodulatorSnapshot_countable : Countable NeuromodulatorSnapshot.
Proof.
  apply (inj_countable' (fun m => (nm_tick m, nm_dopamine m, nm_cortisol m, nm_acetylcholine m, nm_tempo m))
    (fun '(t, d, c, a, p) => MkNeuromodulatorSnapshot t d c a p)). by intros [].
Defined.

Fixpoint bits_of (p : positive) : string :=
  match p with
  | xH => ""
  | xO p => String "0"%char (bits_of p)
  | xI p => String "1"%char (bits_of p)
  end.

Fixpoint of_bits (s : string) : positive :=
  match s with
  | EmptyString => xH
  | String c s => if Ascii.eqb c "0"%char then xO (of_bits s) else xI (of_bits s)
  end.

Lemma of_bits_of p : of_bits (bits_of p) = p.
Proof. induction p as [p IH|p IH|]; simpl; by rewrite ?IH. Qed.

Definition demo_to_vec (m : IpcMessage) : result string string :=
  match m with
  | Stimuli batch => Ok (bits_of (encode (inl batch : StimulusBatch + NeuromodulatorSnapshot)))
  | Neuromodulators snapshot => Ok (bits_of (encode (inr snapshot : StimulusBatch + NeuromodulatorSnapshot)))
  | MsgSpikes => Ok "spikes" | MsgEmbeddings => Ok "embeddings" | MsgLoss => Ok "loss"
  | MsgConfigUpdate => Ok "config" | MsgGradientUpdate => Ok "gradient"
  | MsgEligibilityTraces => Ok "traces" | MsgTrainingComplete => Ok "complete"
  | MsgShutdown => Ok "shutdown" | MsgPing => Ok "ping"
  end%string.

(** The documented range: a tempo of 0.5 to 2.0, after three other modulators. *)
Definition demo_mods_in_range (values : list f32) : bool :=
  match values with
  | [_; _; _; tempo] => f_le f_half32 tempo && f_le tempo (f32_of_int 2)
  | _ => false
  end.

(** A snapshot is checked as it is decoded. *)
Definition demo_decode (s : string) : result string IpcMessage :=
  match decode (of_bits s) : option (StimulusBatch + NeuromodulatorSnapshot) with
  | Some (inl batch) => Ok (Stimuli batch)
  | Some (inr snapshot) =>
    if all_finite (modulator_values snapshot) && demo_mods_in_range (modulator_values snapshot)
    then Ok (Neuromodulators snapshot) else Err "out of range"%string
  | None => Err "syntax"%string
  end.

Definition demo_unit_messages : list (string * IpcMessage) :=
  [("spikes", MsgSpikes); ("embeddings", MsgEmbeddings); ("loss", MsgLoss); ("config", MsgConfigUpdate);
   ("gradient", MsgGradientUpdate); ("traces", MsgEligibilityTraces); ("complete", MsgTrainingComplete);
   ("shutdown", MsgShutdown); ("ping", MsgPing)]%string.

Definition demo_codec_slice (s : string) : result string IpcMessage :=
  match base.filter (fun sm => sm.1 = s) demo_unit_messages with
  | (_, m) :: _ => Ok m
  | [] => demo_decode s
  end.

Lemma bits_not_message p : base.filter (fun sm => sm.1 = bits_of p) demo_unit_messages = [].
Proof.
  assert (forall c s, bits_of p = String c s -> c = "0"%char \/ c = "1"%char) as Hc
    by (intros c s; destruct p; simpl; intros [= <- _]; auto).
  unfold demo_unit_messages. repeat (rewrite filter_cons_False; [|intros E; symmetry in E; by destruct (Hc _ _ E)]).
  done.
Qed.

Lemma demo_codec_decodes x : demo_codec_slice (bits_of (encode (x : StimulusBatch + NeuromodulatorSnapshot))) =
  match x with
  | inl batch => Ok (Stimuli batch)
  | inr snapshot =>
    if all_finite (modulator_values snapshot) && demo_mods_in_range (modulator_values snapshot)
    then Ok (Neuromodulators snapshot) else Err "out of range"%string
  end.
Proof. unfold demo_codec_slice. rewrite bits_not_message. unfold demo_decode. by rewrite of_bits_of, decode_encode. Qed.

Lemma demo_stimuli_roundtrip : stimuli_roundtrip demo_to_vec demo_codec_slice.
Proof. intros batch _ _. eexists. split; [reflexivity|]. apply (demo_codec_decodes (inl batch)). Qed.

Lemma demo_snapshots_roundtrip : snapshots_roundtrip demo_mods_in_range demo_to_vec demo_codec_slice.
Proof.
  intros snapshot Hf Hr. eexists. split; [reflexivity|].
  rewrite (demo_codec_decodes (inr snapshot)). cbv beta iota. by rewrite Hf, Hr.
Qed.

(** A finite snapshot out of range is encoded, and refused when decoded. *)
Example demo_tempo_refused :
  (demo_to_vec (Neuromodulators (MkNeuromodulatorSnapshot 0 f_one32 f_zero f_half32 f_zero)) ≫= demo_codec_slice) =
  Err "out of range"%string.
Proof. vm_compute. reflexivity. Qed.

Lemma demo_validates_wellformed : validates_wellformed demo_validate.
Proof. intros batch Hf _. unfold demo_validate. by rewrite Hf. Qed.

(** Two cycles of four ticks: a masked stimulus with modulators, then modulators. *)
Definition demo_mod_event : Modulators := MkMods f_one32 f_zero f_half32 f_half32.

Definition demo_workload : Workload := {|
  wl_fixture_sha256 := "7b7d";
  wl_channels := 8;
  wl_ticks_per_cycle := 4;
  wl_cycles := 2;
  wl_ticks := 8;
  wl_warmup_ticks := 1;
  wl_cycle_events :=
    [MkEvent 0 (replicate 8 f_one32) (Some (false :: replicate 7 true)) (Some demo_mod_event);
     MkEvent 2 [] None (Some demo_mod_event)];
  wl_transport := MkTransport 10 2 f_one32 ∅;
|}.

Lemma demo_workload_disjoint : disjoint_offsets demo_workload.
Proof.
  split; [apply (bool_decide_unpack _); vm_compute; exact I|].
  split; [repeat constructor; simpl; lia|]. split; [simpl; lia|vm_compute; discriminate].
Qed.
