(* ===== verification/Inprocess.v ===== *)
(** * The in-process driver (examples/usefulness_inprocess.rs)

    The driver runs one workload twice: through the daemon's library path, with
    a source that encodes and decodes every event as wire frames and a sink that
    records the spikes, and through the restored network directly
    ([run_baseline]).  The theorems say the two agree.

    The source and the sink share a recorder behind a mutex; each writes its own
    fields of it, so each carries its half.  Clock readings are in the states
    ([ws_reads], [rk_reads]) or arguments.  JSON, SHA-256 and file contents are
    arguments, as everywhere. *)

From stdpp Require Import pretty sorting.
From S2P Require Import Prelude Floats Packet NetAddr Queue QueueConc Ingress Health HealthView Config Corpus.
From S2P Require Import Backend Checkpoint Diagnostics Tick Daemon Replay Workload.
Local Open Scope Z_scope.

Definition SESSION_ID : string := "usefulness".

Record TickRecord := MkTickRecord {
  tk_channels : list Z;
  tk_latency_ns : Z;
  tk_decode_ns : option Z;
}.

Inductive DriverError :=
| ConstructDaemon (e : DaemonError)
| RunForTicks (e : DaemonError)
| CountMismatch (polls emits : Z)
| RestoreBaseline (e : CheckpointError)
| StepFailed (tick : Z) (e : string)
| LoadConfig (e : LoadError string string)
| WorkloadRejected (e : WorkloadError)
| ModeMismatch
| DigestRead (e : string)
| DigestMismatch (digest expected : string).

(** [later.duration_since(earlier).as_nanos() as u64]. *)
Definition duration_since (later earlier : Z) : Z := wrap64 (sat_sub later earlier).

(** ** The source *)

(** What one poll reads from the clocks. *)
Record PollClock := MkPollClock {
  pc_encode_ns : Z;       (** [now_ns] while encoding *)
  pc_decode_start : Z;
  pc_decode_ns : Z;       (** [now_ns] while decoding *)
  pc_poll : Z;
}.

(** [polls], [stimulus_frames] and [modulator_frames] of [Shared]. *)
Record SharedSource := MkSharedSource {
  sh_polls : list (Z * option Z);
  sh_stimulus_frames : Z;
  sh_modulator_frames : Z;
}.

Record WorkloadSource := MkWorkloadSource {
  ws_events : gmap Z Event;
  ws_tick : Z;
  ws_next_batch_id : Z;
  ws_policy : IngressPolicy;
  ws_shared : SharedSource;
  ws_stimulus_frames : Z;
  ws_modulator_frames : Z;
  ws_reads : list PollClock;
}.

Definition ws_start_poll (s : WorkloadSource) : WorkloadSource :=
  MkWorkloadSource (ws_events s) (wadd64 (ws_tick s) 1) (ws_next_batch_id s) (ws_policy s) (ws_shared s)
    (ws_stimulus_frames s) (ws_modulator_frames s) (tail (ws_reads s)).
Definition ws_count_frames (batch stim mods : Z) (s : WorkloadSource) : WorkloadSource :=
  MkWorkloadSource (ws_events s) (ws_tick s) batch (ws_policy s) (ws_shared s) stim mods (ws_reads s).
Definition ws_set_shared (sh : SharedSource) (s : WorkloadSource) : WorkloadSource :=
  MkWorkloadSource (ws_events s) (ws_tick s) (ws_next_batch_id s) (ws_policy s) sh
    (ws_stimulus_frames s) (ws_modulator_frames s) (ws_reads s).

Definition record_poll (at_ : Z) (decode_ns : option Z) (s : WorkloadSource) : WorkloadSource :=
  let sh := ws_shared s in
  ws_set_shared (MkSharedSource (sh_polls sh ++ [(at_, decode_ns)]) (sh_stimulus_frames sh)
                   (sh_modulator_frames sh)) s.

Definition i64_max : Z := 9223372036854775807.

(** [i64::try_from] of an unsigned value. *)
Definition i64_try_from (n : Z) : result string Z :=
  require (n <=? i64_max) "out of range integral type conversion attempted"%string ≫= fun _ => Ok n.

Section Source.
Variable to_vec : IpcMessage -> result string string.
Variable from_slice : string -> result string IpcMessage.
Variable validate : StimulusBatch -> result string unit.

Definition encode_modulators (mods : Modulators) (tick : Z) : result string string :=
  i64_try_from tick ≫= fun tick =>
  to_vec (Neuromodulators {|
    nm_tick := tick;
    nm_dopamine := md_dopamine mods;
    nm_cortisol := md_cortisol mods;
    nm_acetylcholine := md_acetylcholine mods;
    nm_tempo := md_tempo mods;
  |}).

Definition accept_frame (bytes : string) (policy : IngressPolicy) (now : Z) : result string IngressPacket :=
  map_err ingress_error_to_string (accept_ipc_json validate from_slice bytes policy now).

Definition decode_frames (policy : IngressPolicy) (stimuli modulators : option string) (now : Z) :
    result string IngressPacket :=
  match stimuli with
  | Some bytes => accept_frame bytes policy now
  | None => Ok IngressPacket_default
  end ≫= fun packet =>
  match modulators with
  | Some bytes =>
    accept_frame bytes policy now ≫= fun held => Ok (with_modulators (Packet.modulators held) packet)
  | None => Ok packet
  end.

(** [WorkloadSource::stimulus_frame]. *)
Definition ws_stimulus_frame (now : Z) (event : Event) : stateful WorkloadSource string (option string) := fun s =>
  if negb (sends_stimuli event) then (s, Ok None)
  else
    let batch_id := ws_next_batch_id s in
    let s := ws_count_frames (wadd64 batch_id 1) (wadd64 (ws_stimulus_frames s) 1) (ws_modulator_frames s) s in
    (s, stimulus_frame to_vec SESSION_ID batch_id now (ev_values event) (ev_valid_mask event) ≫= fun frame =>
        Ok (Some frame)).

(** [WorkloadSource::modulator_frame]. *)
Definition ws_modulator_frame (event : Event) (tick : Z) : stateful WorkloadSource string (option string) := fun s =>
  match ev_modulators event with
  | None => (s, Ok None)
  | Some mods =>
    let s := ws_count_frames (ws_next_batch_id s) (ws_stimulus_frames s) (wadd64 (ws_modulator_frames s) 1) s in
    (s, encode_modulators mods tick ≫= fun frame => Ok (Some frame))
  end.

Definition workload_next : stateful WorkloadSource string (option IngressPacket) := fun s =>
  let tick := ws_tick s in
  let clock := default (MkPollClock 0 0 0 0) (head (ws_reads s)) in
  let s := ws_start_poll s in
  match ws_events s !! tick with
  | None => (record_poll (pc_poll clock) None s, Ok None)
  | Some event =>
    (ws_stimulus_frame (pc_encode_ns clock) event ≫= fun stimuli =>
     ws_modulator_frame event tick ≫= fun modulators =>
     lift_result (decode_frames (ws_policy s) stimuli modulators (pc_decode_ns clock)) ≫= fun packet =>
     modify (record_poll (pc_poll clock)
               (Some (duration_since (pc_poll clock) (pc_decode_start clock)))) ≫= fun _ =>
     mret (Some packet)) s
  end.

(** The frame counts are copied to the recorder. *)
Definition workload_shutdown : stateful WorkloadSource string unit :=
  modify (fun s => ws_set_shared (MkSharedSource (sh_polls (ws_shared s)) (ws_stimulus_frames s)
                                    (ws_modulator_frames s)) s).

#[export] Instance workload_source : StimulusSource WorkloadSource := {
  next_ingress := workload_next;
  initialize := fun _ => mret tt;
  source_shutdown := workload_shutdown;
}.
End Source.

(** ** The sink *)

Record RecordingSink := MkRecordingSink {
  rk_emits : list (Z * list Z);   (** [emits] of [Shared] *)
  rk_reads : list Z;              (** the instants of the next emissions *)
}.

(** [sort_unstable] on [u16]s: equal elements are indistinguishable. *)
Definition sort_unstable (l : list Z) : list Z := merge_sort Z.le l.

#[export] Instance recording_sink : SpikeSink RecordingSink := {
  emit := fun spikes _ => modify (fun k =>
    let at_ := default 0 (head (rk_reads k)) in
    MkRecordingSink (rk_emits k ++ [(at_, sort_unstable (channel <$> spikes))]) (tail (rk_reads k)));
  flush := default_flush;
}.

Lemma recording_emit time ids t (k : RecordingSink) : True -> exists k',
  emit (spikes_at time ids) t k = (k', Ok tt) /\ True /\ (rk_emits k').*2 = (rk_emits k).*2 ++ [sort_unstable ids].
Proof. intros _. eexists. split; [reflexivity|]. simpl. by rewrite fmap_app, channel_spikes_at. Qed.

Lemma recording_flush (k : RecordingSink) : True -> exists k',
  flush k = (k', Ok tt) /\ True /\ (rk_emits k').*2 = (rk_emits k).*2.
Proof. by exists k. Qed.

#[export] Instance recording_recorder : Recorder RecordingSink := {
  recorded := fun k => (rk_emits k).*2;
  record_view := sort_unstable;
  in_order := fun _ => True;
  emit_records := recording_emit;
  flush_records := recording_flush;
}.

(** ** Records *)

Definition tick_record (pe : (Z * option Z) * (Z * list Z)) : TickRecord :=
  let '((poll, decode_ns), (emit, channels)) := pe in
  MkTickRecord channels (duration_since emit poll) decode_ns.

Definition tick_records (polls : list (Z * option Z)) (emits : list (Z * list Z)) :
    result DriverError (list TickRecord) :=
  require (len polls =? len emits) (CountMismatch (len polls) (len emits)) ≫= fun _ =>
  Ok (tick_record <$> zip polls emits).

(** One line of the record file, and the file. *)
Definition record_line (tick : Z) (r : TickRecord) : string :=
  "{" +:+ quote +:+ "tick" +:+ quote +:+ ":" +:+ pretty tick +:+ "," +:+ quote +:+ "channels" +:+ quote
  +:+ ":[" +:+ String.concat "," (pretty <$> tk_channels r) +:+ "]," +:+ quote +:+ "latency_ns" +:+ quote
  +:+ ":" +:+ pretty (tk_latency_ns r)
  +:+ match tk_decode_ns r with
      | Some decode_ns => "," +:+ quote +:+ "decode_ns" +:+ quote +:+ ":" +:+ pretty decode_ns
      | None => ""
      end +:+ "}" +:+ newline.

Fixpoint write_records (tick : Z) (records : list TickRecord) : string :=
  match records with
  | [] => ""
  | r :: rest => record_line tick r +:+ write_records (tick + 1) rest
  end.

(** ** The two runs *)

(** The values of the summary, by which run wrote it. *)
Inductive Summary :=
| DaemonSummary (run_wall_ns : Z) (stats : RuntimeStats) (checkpoint : option ModelProvenance)
    (stimulus_frames_sent modulator_frames_sent : Z) (health : HealthSnapshot) (ingress : IngressMetrics)
| BaselineSummary (run_wall_ns : Z) (checkpoint : ModelProvenance)
    (stimulus_frames_sent modulator_frames_sent : Z).

Definition frames_sent (s : Summary) : Z * Z :=
  match s with
  | DaemonSummary _ _ _ stim mods _ _ => (stim, mods)
  | BaselineSummary _ _ stim mods => (stim, mods)
  end.

Record Run := MkRun {
  run_records : list TickRecord;
  run_first_measured_start : Z;
  run_last_end : Z;
  run_summary : Summary;
}.

(** [build_backend]. *)
Definition build_backend (c : DaemonConfig) (w : Workload) (reads : list PollClock) (emit_reads : list Z) :
    WorkloadSource * RecordingSink :=
  (MkWorkloadSource (expand w) 0 1 (MkIngressPolicy (channels c) (Some 1000000000))
     (MkSharedSource [] 0 0) 0 0 reads,
   MkRecordingSink [] emit_reads).

(** The instants of a run that are not a tick's. *)
Record RunClock := MkRunClock {
  dc_constructed : Z;
  dc_init : Z;
  dc_check : Z;
  dc_started : Z;
  dc_finished : Z;
  dc_snapshot : Z;
}.

(** Mirror of the daemon's decoding, as the driver writes it. *)
Definition decode_event (mods_default : NeuroModulators) (event : option Event) (stimuli : list f32) :
    list f32 * NeuroModulators :=
  let zeros := replicate (length stimuli) f_zero in
  match event with
  | None => (zeros, mods_default)
  | Some event =>
    let upto := Nat.min (length (ev_values event)) (length stimuli) in
    let copied := take upto (ev_values event) ++ drop upto zeros in
    let masked := match ev_valid_mask event with
                  | Some mask =>
                    fold_left (fun out iv => if iv.2 : bool then out else <[iv.1 := f_zero]> out)
                      (zip (seq 0 (length stimuli)) mask) copied
                  | None => copied
                  end in
    (masked,
     match ev_modulators event with
     | Some m => MkModulators (md_dopamine m) (md_cortisol m) (md_acetylcholine m) (md_tempo m)
     | None => mods_default
     end)
  end.

(** [u16::try_from(i).ok()]. *)
Definition u16_try_from (i : Z) : option Z := if i <=? u16_max then Some i else None.

Section Driver.
Context {LifRest NetRest StdpRest : Type}.
Abbreviation Network := (@SpikingNetwork LifRest NetRest StdpRest).
Variable fs : Fs.
Variable parse_document : string -> result unit SidecarDocument.
Variable parse_hub : string -> result unit HubConfig.
Variable sha256 : list Z -> list Z.
Variable with_dimensions : Z -> Z -> Z -> Network.
Variable set_rm_stdp_config : @RmStdpConfig StdpRest -> Network -> Network.
Variable components : string -> path.
Variable display : path -> string.
Variable net_step : Network -> list f32 -> NeuroModulators -> Network * result string (list Z).
Variable mods_default : NeuroModulators.
Variable to_vec : IpcMessage -> result string string.
Variable from_slice : string -> result string IpcMessage.
Variable validate : StimulusBatch -> result string unit.

(** [env] gives each tick its clock readings. *)
Definition run_daemon (c : DaemonConfig) (w : Workload) (reads : list PollClock) (emit_reads : list Z)
    (env : Z -> TickEnv) (clock : RunClock) : result DriverError Run :=
  let '(source, sink) := build_backend c w reads emit_reads in
  map_err ConstructDaemon (try_with_backend c source sink (dc_constructed clock)) ≫= fun daemon =>
  let '(world, ran) := run_for_ticks (H := workload_source to_vec from_slice validate)
    fs parse_document parse_hub sha256 with_dimensions set_rm_stdp_config components display
    net_step mods_default daemon (dc_init clock) (dc_check clock) (env <$> seqZ 0 (wl_ticks w)) in
  map_err RunForTicks ran ≫= fun stats =>
  let shared := ws_shared (w_source world) in
  let emits := rk_emits (w_sink world) in
  tick_records (sh_polls shared) emits ≫= fun records =>
  Ok {|
    run_records := records;
    run_first_measured_start :=
      default (dc_finished clock) (fst <$> sh_polls shared !! Z.to_nat (wl_warmup_ticks w));
    run_last_end := default (dc_finished clock) (fst <$> last emits);
    run_summary := DaemonSummary (duration_since (dc_finished clock) (dc_started clock)) stats
      (rs_loaded_checkpoint stats) (sh_stimulus_frames shared) (sh_modulator_frames shared)
      (snapshot (w_health world) (dc_snapshot clock)) (ingress_metrics (w_ingress world));
  |}.

(** The local variables of the baseline's loop. *)
Record BaselineState := MkBaseline {
  bs_network : Network;
  bs_stimuli : list f32;
  bs_records : list TickRecord;
  bs_first_measured_start : Z;
  bs_last_end : Z;
}.

(** One iteration; [tick_clock] is the start and the end of a tick. *)
Definition baseline_tick (events : gmap Z Event) (warmup : Z) (tick_clock : Z -> Z * Z) (tick : Z)
    (b : BaselineState) : result DriverError BaselineState :=
  let '(stimuli, modulators) := decode_event mods_default (events !! tick) (bs_stimuli b) in
  let '(start, end_) := tick_clock tick in
  let '(network, stepped) := net_step (bs_network b) stimuli modulators in
  map_err (StepFailed tick) stepped ≫= fun ids =>
  let channels := sort_unstable (omap u16_try_from ids) in
  Ok {|
    bs_network := network;
    bs_stimuli := stimuli;
    bs_records := bs_records b ++ [MkTickRecord channels (duration_since end_ start) None];
    bs_first_measured_start := if tick =? warmup then start else bs_first_measured_start b;
    bs_last_end := end_;
  |}.

Fixpoint baseline_loop (events : gmap Z Event) (warmup : Z) (tick_clock : Z -> Z * Z) (ticks : list Z)
    (b : BaselineState) : result DriverError BaselineState :=
  match ticks with
  | [] => Ok b
  | tick :: rest =>
    baseline_tick events warmup tick_clock tick b ≫= fun b => baseline_loop events warmup tick_clock rest b
  end.

Definition run_baseline (c : DaemonConfig) (w : Workload) (tick_clock : Z -> Z * Z) (clock : RunClock) :
    result DriverError Run :=
  map_err RestoreBaseline (restore fs parse_document parse_hub sha256 with_dimensions
    set_rm_stdp_config components display c) ≫= fun '(network, provenance) =>
  baseline_loop (expand w) (wl_warmup_ticks w) tick_clock (seqZ 0 (wl_ticks w)) {|
    bs_network := network;
    bs_stimuli := replicate (Z.to_nat (channels c)) f_zero;
    bs_records := [];
    bs_first_measured_start := dc_started clock;
    bs_last_end := dc_started clock;
  |} ≫= fun b =>
  let '(stimulus_frames, modulator_frames) := frame_counts w in
  Ok {|
    run_records := bs_records b;
    run_first_measured_start := bs_first_measured_start b;
    run_last_end := bs_last_end b;
    run_summary := BaselineSummary (duration_since (dc_finished clock) (dc_started clock)) provenance
      stimulus_frames modulator_frames;
  |}.

(** ** The program *)

Inductive Mode := DaemonLive | DaemonSimulation | Baseline.

Definition mode_as_str (m : Mode) : string :=
  match m with
  | DaemonLive => "daemon-live"
  | DaemonSimulation => "daemon-simulation"
  | Baseline => "baseline"
  end.

Definition mode_runtime (m : Mode) : RuntimeMode :=
  match m with
  | DaemonLive | Baseline => Live
  | DaemonSimulation => Simulation
  end.

Definition fixture_digest (read : string -> result string (list Z)) (c : DaemonConfig) (w : Workload) :
    result DriverError (option string) :=
  match runtime_mode c with
  | Simulation => Ok None
  | Live =>
    map_err DigestRead (read (model_path c)) ≫= fun bytes =>
    let digest := hex_sha256 sha256 bytes in
    require (bool_decide (digest = wl_fixture_sha256 w))
      (DigestMismatch digest (wl_fixture_sha256 w)) ≫= fun _ =>
    Ok (Some digest)
  end.

(** [main], up to the files it writes: the records' contents, the run and the
    fixture digest of the summary. *)
Definition inprocess_main (read_to_string : string -> result string string)
    (read : string -> result string (list Z)) (toml_from_str : string -> result string DaemonConfig)
    (workload_from_str : string -> result string Workload) (mode : Mode) (config workload : string)
    (reads : list PollClock) (emit_reads : list Z) (env : Z -> TickEnv) (tick_clock : Z -> Z * Z)
    (clock : RunClock) : result DriverError (string * Run * option string) :=
  map_err LoadConfig (load read_to_string toml_from_str config) ≫= fun c =>
  map_err WorkloadRejected (workload_load read_to_string workload_from_str workload) ≫= fun w =>
  map_err WorkloadRejected (check_channels w (channels c)) ≫= fun _ =>
  require (bool_decide (runtime_mode c = mode_runtime mode)) ModeMismatch ≫= fun _ =>
  fixture_digest read c w ≫= fun digest =>
  match mode with
  | Baseline => run_baseline c w tick_clock clock
  | DaemonLive | DaemonSimulation => run_daemon c w reads emit_reads env clock
  end ≫= fun run =>
  Ok (write_records 0 (run_records run), run, digest).
End Driver.

(** ** What the source delivers *)

Definition mod_values (m : Modulators) : list f32 :=
  [md_dopamine m; md_cortisol m; md_acetylcholine m; md_tempo m].

(** An event the wire and the ingress take: finite, as wide as the daemon, with a
    mask of its width, its modulators in corpus-ipc's ranges. *)
Definition event_ok (mods_in_range : list f32 -> bool) (channels : Z) (e : Event) : Prop :=
  all_finite (ev_values e) = true /\
  (sends_stimuli e = true -> len (ev_values e) = channels /\
     forall mask, ev_valid_mask e = Some mask -> length mask = length (ev_values e)) /\
  (forall m, ev_modulators e = Some m -> all_finite (mod_values m) = true /\ mods_in_range (mod_values m) = true).

Definition workload_ok (mods_in_range : list f32 -> bool) (w : Workload) (channels : Z) : Prop :=
  0 <= wl_ticks w <= i64_max /\ Forall (event_ok mods_in_range channels) (wl_cycle_events w).

(** Encoding and decoding one frame take at most the freshness window, by a clock
    that does not step back. *)
Definition poll_fresh (clock : PollClock) : Prop :=
  0 <= pc_decode_ns clock - pc_encode_ns clock <= 1000000000.

(** The packet of an event. *)
Definition event_packet (batch sent : Z) (e : Event) : IngressPacket :=
  with_modulators (mod_values <$> ev_modulators e)
    (if sends_stimuli e
     then MkPacket (ev_values e) None (ev_valid_mask e) (Some batch) (Some sent) (Some SESSION_ID) false
     else IngressPacket_default).

Inductive carries : option Event -> option IngressPacket -> Prop :=
| carries_nothing : carries None None
| carries_event e batch sent : carries (Some e) (Some (event_packet batch sent e)).

Lemma carries_deliverable mods_in_range cfg channels event packet :
  carries event packet -> (forall e, event = Some e -> event_ok mods_in_range channels e) ->
  0 <= channels <= max_payload_len cfg -> 4 <= max_payload_len cfg -> deliverable cfg packet.
Proof.
  intros [|e batch sent] He Hc H4 p [= <-]. destruct (He e eq_refl) as (Hf & Hs & Hm).
  unfold event_packet, packet_finite, payload_fits. destruct (sends_stimuli e); simpl.
  - rewrite Hf. destruct (Hs eq_refl) as [-> _]. simpl. split; [|split; [done|]].
    + destruct (ev_modulators e) as [m|]; simpl; [|done]. by apply Hm.
    + split; [lia|]. by destruct (ev_modulators e).
  - split; [|split; [done|]].
    + destruct (ev_modulators e) as [m|]; simpl; [|done]. by apply Hm.
    + split; [change (len []) with 0; lia|]. by destruct (ev_modulators e).
Qed.

Lemma carries_batch event packet :
  carries event packet ->
  is_some (packet ≫= batch_id) = match event with Some e => sends_stimuli e | None => false end.
Proof. intros [|e batch sent]; [done|]. simpl. unfold event_packet. by destruct (sends_stimuli e). Qed.

(** The driver's masking loop is the daemon's. *)
Lemma mask_loop mask : forall i out,
  fold_left (fun out iv => if iv.2 : bool then out else <[iv.1 := f_zero]> out)
    (zip (seq i (length (drop i out))) mask) out =
  take i out ++ apply_mask mask (drop i out).
Proof.
  induction mask as [|v mask IH]; intros i out.
  - destruct (seq i _); simpl; by rewrite take_drop.
  - destruct (drop i out) as [|x rest] eqn:Hd; simpl; [by rewrite <- Hd, take_drop|].
    assert (out !! i = Some x) as Hx by (rewrite <- (Nat.add_0_r i), <- lookup_drop, Hd; done).
    assert (i < length out)%nat as Hi by (by eapply lookup_lt_Some).
    assert (forall y, take (Datatypes.S i) (<[i := y]> out) = take i out ++ [y] /\
                      drop (Datatypes.S i) (<[i := y]> out) = rest) as Hy.
    { intros y. split.
      - rewrite (take_S_r _ _ y) by (by apply list_lookup_insert_eq). f_equal. apply take_insert_ge. lia.
      - rewrite drop_insert_lt by lia. pose proof (drop_S out x i Hx) as E. rewrite Hd in E. by injection E. }
    assert (<[i := if v : bool then x else f_zero]> out = if v then out else <[i := f_zero]> out) as Eo.
    { destruct v; [|done]. by apply list_insert_id. }
    destruct (Hy (if v then x else f_zero)) as [Et Ed]. rewrite Eo in Et, Ed.
    set (out' := if v then out else _) in *. specialize (IH (Datatypes.S i) out'). rewrite Ed, Et in IH.
    rewrite IH, <- app_assoc. done.
Qed.

Lemma mask_loop_start mask out :
  fold_left (fun out iv => if iv.2 : bool then out else <[iv.1 := f_zero]> out)
    (zip (seq 0 (length out)) mask) out = apply_mask mask out.
Proof. exact (mask_loop mask 0 out). Qed.

Lemma apply_mask_zeros mask n : apply_mask mask (replicate n f_zero) = replicate n f_zero.
Proof. revert n. induction mask as [|v mask IH]; intros [|n]; simpl; try done. rewrite IH. by destruct v. Qed.

(** Width adjustment, as either writes it. *)
Lemma fit_width (values : list f32) n :
  take (Nat.min (length values) n) values ++ drop (Nat.min (length values) n) (replicate n f_zero) =
  take (Nat.min (length values) n) values ++
  (if (length values <? n)%nat then replicate (n - Nat.min (length values) n) f_zero
   else drop (Nat.min (length values) n) (replicate n f_zero)).
Proof. f_equal. destruct (Nat.ltb_spec (length values) n); [|done]. by rewrite drop_replicate. Qed.

(** [decode_event] is the daemon's decoding of the packet the event travels as. *)
Lemma decode_carries mods_default event packet stimuli :
  carries event packet ->
  engine_input mods_default (length stimuli) packet = decode_event mods_default event stimuli.
Proof.
  intros [|e batch sent]; unfold engine_input, decode_inputs, decode_event; simpl; f_equal.
  - unfold decode_stimuli. simpl. rewrite length_replicate.
    destruct (length stimuli) as [|n]; [done|]. simpl. done.
  - set (n := length stimuli). set (copied := take _ (ev_values e) ++ _).
    assert (length copied = n) as Hlen.
    { unfold copied. rewrite length_app, length_take, length_drop, length_replicate. fold n. lia. }
    assert (match ev_valid_mask e with Some mask => fold_left _ (zip (seq 0 n) mask) copied | None => copied end =
            match ev_valid_mask e with Some mask => apply_mask mask copied | None => copied end) as ->.
    { destruct (ev_valid_mask e) as [mask|]; [|done]. by rewrite <- mask_loop_start, Hlen. }
    unfold decode_stimuli, admitted, into_packet, sensory_part, event_packet, sends_stimuli, copied.
    rewrite length_replicate. fold n. rewrite fit_width.
    destruct (ev_values e) as [|x xs]; simpl; [|done].
    assert ((if (0 <? n)%nat then replicate (n - 0) f_zero else drop 0 (replicate n f_zero)) = replicate n f_zero) as ->
      by (destruct (0 <? n)%nat; by rewrite ?Nat.sub_0_r).
    destruct (ev_valid_mask e); by rewrite ?apply_mask_zeros.
  - unfold admitted, into_packet, reward_part, decode_modulators, event_packet. simpl.
    unfold nonempty_modulators. simpl. by destruct (ev_modulators e).
Qed.

Section Deliver.
Variable to_vec : IpcMessage -> result string string.
Variable from_slice : string -> result string IpcMessage.
Variable validate : StimulusBatch -> result string unit.
Variable mods_in_range : list f32 -> bool.
Hypothesis stimuli_codec : stimuli_roundtrip to_vec from_slice.
Hypothesis snapshots_codec : snapshots_roundtrip mods_in_range to_vec from_slice.
Hypothesis validates : validates_wellformed validate.

(** A source whose policy is the driver's. *)
Definition source_ready (channels : Z) (s : WorkloadSource) : Prop :=
  ws_policy s = MkIngressPolicy channels (Some 1000000000) /\ Forall poll_fresh (ws_reads s) /\
  is_u64 (ws_stimulus_frames s) /\ is_u64 (ws_modulator_frames s) /\
  0 <= ws_tick s <= i64_max + 1.

Lemma decode_frames_event event tick batch sent now channels :
  event_ok mods_in_range channels event -> 0 <= tick <= i64_max -> 0 <= now - sent <= 1000000000 ->
  exists stim mods,
    (if sends_stimuli event
     then stimulus_frame to_vec SESSION_ID batch sent (ev_values event) (ev_valid_mask event) ≫= fun f => Ok (Some f)
     else Ok None) = Ok stim /\
    match ev_modulators event with
    | Some m => encode_modulators to_vec m tick ≫= fun f => Ok (Some f)
    | None => Ok None
    end = Ok mods /\
    decode_frames from_slice validate (MkIngressPolicy channels (Some 1000000000)) stim mods now =
      Ok (event_packet batch sent event).
Proof.
  intros (Hf & Hs & Hm) Ht Hn. unfold decode_frames, accept_frame, event_packet.
  assert (exists mods, match ev_modulators event with
    | Some m => encode_modulators to_vec m tick ≫= fun f => Ok (Some f)
    | None => Ok None
    end = Ok mods /\ forall packet,
    match mods with
    | Some bytes =>
      map_err ingress_error_to_string
        (accept_ipc_json validate from_slice bytes (MkIngressPolicy channels (Some 1000000000)) now) ≫= fun held =>
      Ok (with_modulators (Packet.modulators held) packet)
    | None => Ok packet
    end = (Ok (match ev_modulators event with Some m => with_modulators (Some (mod_values m)) packet | None => packet end)
           : result string IngressPacket))
    as (mods & Hmods & Hatt).
  { destruct (ev_modulators event) as [m|]; [|by exists None]. destruct (Hm m eq_refl) as [Hmf Hmr].
    unfold encode_modulators, i64_try_from, require. rewrite (proj2 (Z.leb_le _ _)) by lia. simpl.
    destruct (modulator_frame_accepted mods_in_range to_vec from_slice validate
      (MkNeuromodulatorSnapshot tick (md_dopamine m) (md_cortisol m) (md_acetylcholine m) (md_tempo m))
      (MkIngressPolicy channels (Some 1000000000)) now snapshots_codec Hmf Hmr) as (bytes & Hto & Hacc).
    rewrite Hto. exists (Some bytes). split; [done|]. intros packet. by rewrite Hacc. }
  destruct (sends_stimuli event).
  - destruct (Hs eq_refl) as [Hl Hmask].
    destruct (stimulus_frame_accepted to_vec from_slice validate SESSION_ID batch sent now (ev_values event)
      (ev_valid_mask event) channels 1000000000 stimuli_codec validates Hf Hmask Hl) as (bytes & Hto & Hacc);
      [split; vm_compute; discriminate|done|].
    exists (Some bytes), mods. split; [by rewrite Hto|]. split; [done|]. rewrite Hacc. simpl. rewrite Hatt.
    by destruct (ev_modulators event).
  - exists None, mods. split; [done|]. split; [done|]. simpl. rewrite Hatt. by destruct (ev_modulators event).
Qed.

(** One poll. *)
Lemma workload_poll channels s :
  source_ready channels s -> ws_tick s <= i64_max ->
  (forall e, ws_events s !! ws_tick s = Some e -> event_ok mods_in_range channels e) ->
  exists s' packet, workload_next to_vec from_slice validate s = (s', Ok packet) /\
    carries (ws_events s !! ws_tick s) packet /\ source_ready channels s' /\
    ws_events s' = ws_events s /\ ws_tick s' = ws_tick s + 1 /\
    len (sh_polls (ws_shared s')) = len (sh_polls (ws_shared s)) + 1 /\
    ws_stimulus_frames s' = wrap64 (ws_stimulus_frames s + Z.b2z (on_tick sends_stimuli (ws_events s) (ws_tick s))) /\
    ws_modulator_frames s' = wrap64 (ws_modulator_frames s + Z.b2z (on_tick sends_modulators (ws_events s) (ws_tick s))).
Proof.
  intros (Hp & Hr & Hus & Hum & Ht) Hlt He. unfold workload_next, on_tick.
  assert (wadd64 (ws_tick s) 1 = ws_tick s + 1) as Hinc
    by (unfold i64_max in *; apply wadd64_small; unfold u64_max; lia).
  set (clock := default _ (head (ws_reads s))).
  assert (poll_fresh clock /\ Forall poll_fresh (tail (ws_reads s))) as [Hclock Hr'].
  { unfold clock. destruct Hr as [|r rs ? ?]; simpl; [|done]. split; [|constructor]. unfold poll_fresh. simpl. lia. }
  simpl. destruct (ws_events s !! ws_tick s) as [e|] eqn:Hev; simpl; rewrite ?Hev.
  - destruct (decode_frames_event e (ws_tick s) (ws_next_batch_id s) (pc_encode_ns clock) (pc_decode_ns clock)
      channels (He e eq_refl) ltac:(lia) Hclock) as (stim & mods & Es & Em & Ed).
    set (s0 := ws_start_poll s).
    set (s1 := if sends_stimuli e then ws_count_frames (wadd64 (ws_next_batch_id s0) 1)
                 (wadd64 (ws_stimulus_frames s0) 1) (ws_modulator_frames s0) s0 else s0).
    set (s2 := if sends_modulators e then ws_count_frames (ws_next_batch_id s1)
                 (ws_stimulus_frames s1) (wadd64 (ws_modulator_frames s1) 1) s1 else s1).
    assert (ws_stimulus_frame to_vec (pc_encode_ns clock) e s0 = (s1, Ok stim)) as E1.
    { unfold ws_stimulus_frame, s1. rewrite <- Es. by destruct (sends_stimuli e). }
    assert (ws_modulator_frame to_vec e (ws_tick s) s1 = (s2, Ok mods)) as E2.
    { unfold ws_modulator_frame, s2, sends_modulators. rewrite <- Em. by destruct (ev_modulators e). }
    cbv [mbind stateful_bind modify lift_result mret stateful_ret].
    rewrite E1, E2. change (ws_policy s0) with (ws_policy s). rewrite Hp, Ed.
    eexists _, _. split; [reflexivity|]. split; [constructor|].
    assert (forall a, is_u64 a -> is_u64 (wrap64 (a + 0)) /\ wrap64 (a + 0) = a) as Hz
      by (intros a Ha; rewrite Z.add_0_r, wrap64_small by done; done).
    unfold s2, s1, s0, source_ready.
    destruct (sends_stimuli e), (sends_modulators e); simpl; rewrite Hinc, len_app;
      rewrite ?(proj2 (Hz _ Hus)), ?(proj2 (Hz _ Hum)); repeat split; auto with brain; try lia;
      try apply wadd64_range; try apply Hus; apply Hum.
  - eexists _, _. split; [reflexivity|]. rewrite !Z.add_0_r, !wrap64_small by done.
    split; [constructor|]. unfold source_ready. simpl. rewrite Hinc, len_app.
    repeat split; try lia; try done; try apply Hus; apply Hum.
Qed.

(** A run of polls. *)
Lemma workload_delivers channels (n : nat) s :
  source_ready channels s -> ws_tick s + Z.of_nat n <= i64_max + 1 ->
  (forall t e, ws_events s !! t = Some e -> event_ok mods_in_range channels e) ->
  exists packets s', delivers (H := workload_source to_vec from_slice validate) packets s s' /\
    Forall2 (fun t p => carries (ws_events s !! t) p) (seqZ (ws_tick s) (Z.of_nat n)) packets /\
    len (sh_polls (ws_shared s')) = len (sh_polls (ws_shared s)) + Z.of_nat n /\
    ws_stimulus_frames s' =
      wrap64 (ws_stimulus_frames s + count (on_tick sends_stimuli (ws_events s)) (seqZ (ws_tick s) (Z.of_nat n))) /\
    ws_modulator_frames s' =
      wrap64 (ws_modulator_frames s + count (on_tick sends_modulators (ws_events s)) (seqZ (ws_tick s) (Z.of_nat n))).
Proof.
  revert s. induction n as [|n IH]; intros s Hs Ht He.
  - destruct Hs as (_ & _ & Hus & Hum & _). exists [], s. simpl. rewrite !Z.add_0_r, !wrap64_small by done.
    repeat split. constructor.
  - destruct (workload_poll channels s Hs ltac:(lia) (He _)) as (s1 & packet & Hn & Hc & Hs1 & Hev & Htk & Hp & Hst & Hmd).
    destruct (IH s1 Hs1) as (packets & s' & Hd & Hcs & Hp' & Hst' & Hmd'); [lia|by rewrite Hev|].
    rewrite Hev, Htk in *. exists (packet :: packets), s'.
    rewrite (seqZ_cons (ws_tick s)) by lia. replace (Z.pred (Z.of_nat (Datatypes.S n))) with (Z.of_nat n) by lia.
    change (Z.succ (ws_tick s)) with (ws_tick s + 1). simpl.
    split; [by exists s1|]. split; [by constructor|]. split; [lia|].
    rewrite Hst', Hmd', Hst, Hmd. unfold wrap64. rewrite !Zplus_mod_idemp_l. split; f_equal; lia.
Qed.
End Deliver.

Lemma carries_accepted (events : gmap Z Event) ticks packets :
  Forall2 (fun t p => carries (events !! t) p) ticks packets ->
  accepted_of packets = count (on_tick sends_stimuli events) ticks.
Proof.
  unfold accepted_of. induction 1 as [|t p ticks packets Hc _ IH]; simpl; [done|].
  rewrite IH, (carries_batch _ _ Hc). done.
Qed.

Lemma carries_inputs mods_default (events : gmap Z Event) n ticks packets :
  Forall2 (fun t p => carries (events !! t) p) ticks packets ->
  engine_input mods_default n <$> packets =
  (fun t => decode_event mods_default (events !! t) (replicate n f_zero)) <$> ticks.
Proof.
  induction 1 as [|t p ticks packets Hc _ IH]; csimpl; [done|]. rewrite IH. f_equal.
  rewrite <- (decode_carries _ _ _ _ Hc). by rewrite length_replicate.
Qed.

(** ** The baseline's loop *)

Lemma decode_event_length mods_default event stimuli :
  length (decode_event mods_default event stimuli).1 = length stimuli.
Proof.
  unfold decode_event. destruct event as [e|]; simpl; [|apply length_replicate].
  set (copied := take _ _ ++ _). assert (length copied = length stimuli) as Hc.
  { unfold copied. rewrite length_app, length_take, length_drop, length_replicate. lia. }
  clearbody copied. rewrite <- Hc. destruct (ev_valid_mask e) as [mask|]; [|done].
  by rewrite mask_loop_start, apply_mask_length.
Qed.

Lemma decode_event_width mods_default event stimuli :
  decode_event mods_default event stimuli =
  decode_event mods_default event (replicate (length stimuli) f_zero).
Proof. unfold decode_event. by rewrite length_replicate. Qed.

(** The representable ids of a step, sorted. *)
Definition sorted_channels (ids : list Z) : list Z := sort_unstable (omap u16_try_from ids).

Lemma omap_u16 (ids : list Z) : omap u16_try_from ids = base.filter (fun id => id <= u16_max) ids.
Proof.
  induction ids as [|id ids IH]; [done|]. rewrite filter_cons. csimpl. rewrite IH. unfold u16_try_from.
  destruct (Z.leb_spec id u16_max); [by rewrite decide_True|by rewrite decide_False by lia].
Qed.

Lemma sorted_representable ids :
  Forall (fun id => id <= u16_max) ids -> sorted_channels ids = sort_unstable ids.
Proof. intros Hids. unfold sorted_channels. by rewrite omap_u16, filter_representable. Qed.

Section Loop.
Context {LifRest NetRest StdpRest : Type}.
Abbreviation Network := (@SpikingNetwork LifRest NetRest StdpRest).
Variable net_step : Network -> list f32 -> NeuroModulators -> Network * result string (list Z).
Variable mods_default : NeuroModulators.

(** The loop is [engine_run] on the decoded events. *)
Lemma baseline_loop_engine (events : gmap Z Event) warmup tick_clock n ticks b :
  length (bs_stimuli b) = n ->
  match engine_run net_step ((fun t => decode_event mods_default (events !! t) (replicate n f_zero)) <$> ticks)
          (bs_network b) with
  | (net, Ok outs) => exists b',
      baseline_loop net_step mods_default events warmup tick_clock ticks b = Ok b' /\ bs_network b' = net /\
      tk_channels <$> bs_records b' = (tk_channels <$> bs_records b) ++ (sorted_channels <$> outs)
  | (_, Err e) => exists t, baseline_loop net_step mods_default events warmup tick_clock ticks b = Err (StepFailed t e)
  end.
Proof.
  revert b. induction ticks as [|t ticks IH]; intros b Hb; csimpl.
  - exists b. by rewrite app_nil_r.
  - unfold baseline_tick. rewrite (decode_event_width _ _ (bs_stimuli b)), Hb.
    pose proof (decode_event_length mods_default (events !! t) (replicate n f_zero)) as Hlen.
    rewrite length_replicate in Hlen.
    destruct (decode_event mods_default (events !! t) (replicate n f_zero)) as [stim mods]. simpl in Hlen.
    destruct (tick_clock t) as [start end_]. destruct (net_step (bs_network b) stim mods) as [net [ids|e]]; [|by exists t].
    simpl. match goal with |- context [baseline_loop _ _ _ _ _ ticks ?x] => specialize (IH x Hlen) end.
    simpl in IH. destruct (engine_run net_step _ net) as [net' [outs|e]]; [|done].
    destruct IH as (b' & Hl & Hnet & Hch). exists b'. split; [done|]. split; [done|]. rewrite Hch, fmap_app.
    csimpl. by rewrite <- app_assoc.
Qed.
End Loop.

Lemma zip_channels polls emits :
  length polls = length emits -> tk_channels <$> (tick_record <$> zip polls emits) = emits.*2.
Proof.
  revert emits. induction polls as [|[poll decode] polls IH]; intros [|[emit channels] emits] Hl; try done.
  csimpl. f_equal. apply IH. simpl in Hl. lia.
Qed.

