(* ===== verification/Agreement.v ===== *)
(** * The daemon and the direct engine agree

    The in-process driver's two runs of one workload ([run_daemon] and
    [run_baseline] of Inprocess.v): they succeed together, and then they record
    the same spike channels tick by tick; the daemon's counters and the frames
    it was sent are exactly the workload's.  Assumed of the crates underneath
    are that a finite batch survives JSON, that a modulator snapshot does when it
    is finite and in the ranges corpus-ipc decodes ([mods_in_range]), that
    [validate] passes well-formed batches, and that a step spikes only neurons
    the network has. *)

From S2P Require Import Prelude Floats Packet NetAddr Queue QueueConc Ingress Health Config Corpus.
From S2P Require Import Backend Checkpoint Diagnostics Tick Daemon Replay Workload Inprocess.
Local Open Scope Z_scope.

Section Agreement.
Context {LifRest NetRest StdpRest : Type}.
Abbreviation Network := (@SpikingNetwork LifRest NetRest StdpRest).
Variable fs : Fs.
Variable parse_document : string -> result unit SidecarDocument.
Variable parse_hub : string -> result unit HubConfig.
Variable sha256 : list Z -> list Z.
Variable with_dimensions : Z -> Z -> Z -> Network.
Variable set_rm_stdp_config : @RmStdpConfig StdpRest -> Network -> Network.
Variable components : string -> path.
Variable display : path -> string.
Variable net_step : Network -> list f32 -> NeuroModulators -> Network * result string (list Z).
Variable mods_default : NeuroModulators.
Variable to_vec : IpcMessage -> result string string.
Variable from_slice : string -> result string IpcMessage.
Variable validate : StimulusBatch -> result string unit.
Variable mods_in_range : list f32 -> bool.

Abbreviation daemon_run := (run_daemon fs parse_document parse_hub sha256 with_dimensions
  set_rm_stdp_config components display net_step mods_default to_vec from_slice validate).
Abbreviation baseline_run := (run_baseline fs parse_document parse_hub sha256 with_dimensions
  set_rm_stdp_config components display net_step mods_default).
Abbreviation restored := (restore fs parse_document parse_hub sha256
  with_dimensions set_rm_stdp_config components display).

(** ** The run *)

Hypothesis stimuli_codec : stimuli_roundtrip to_vec from_slice.
Hypothesis snapshots_codec : snapshots_roundtrip mods_in_range to_vec from_slice.
Hypothesis validates : validates_wellformed validate.
Hypothesis sized : with_dimensions_sized with_dimensions.
Hypothesis sets : set_config_sets set_rm_stdp_config.
Hypothesis in_range : step_ids_in_range net_step.

(** A configuration, a workload and clocks the experiment runs under: a payload
    limit that admits the four modulators, events as wide as the daemon with
    finite values and modulators in corpus-ipc's ranges, no other producer,
    fresh frames. *)
Record setting_ok (c : DaemonConfig) (w : Workload) (reads : list PollClock) (env : Z -> TickEnv) : Prop := {
  so_unsigned : daemon_unsigned c;
  so_payload : 4 <= max_payload_len (Config.ingress c);
  so_workload : workload_ok mods_in_range w (channels c);
  so_fresh : Forall poll_fresh reads;
  so_quiet : forall t, undisturbed (env t);
}.

(** What the daemon's run returns, in terms of the engine's. *)
Lemma run_daemon_engine c w reads emit_reads env clock net p :
  setting_ok c w reads env -> daemon_validate c = Ok tt -> restored c = Ok (net, p) ->
  match engine_run net_step ((fun t => decode_event mods_default (expand w !! t)
          (replicate (Z.to_nat (channels c)) f_zero)) <$> seqZ 0 (wl_ticks w)) net with
  | (_, Ok outs) => exists run stats health ingress,
      daemon_run c w reads emit_reads env clock = Ok run /\
      tk_channels <$> run_records run = sorted_channels <$> outs /\
      run_summary run = DaemonSummary (duration_since (dc_finished clock) (dc_started clock)) stats (Some p)
        (wrap64 (count (on_tick sends_stimuli (expand w)) (seqZ 0 (wl_ticks w))))
        (wrap64 (count (on_tick sends_modulators (expand w)) (seqZ 0 (wl_ticks w)))) health ingress /\
      rs_ticks stats = wl_ticks w /\
      rs_accepted_batches stats = wrap64 (count (on_tick sends_stimuli (expand w)) (seqZ 0 (wl_ticks w))) /\
      rs_rejected_batches stats = 0 /\ rs_receive_errors stats = 0 /\ rs_emit_errors stats = 0
  | (_, Err _) => exists polls emits,
      daemon_run c w reads emit_reads env clock = Err (CountMismatch polls emits) /\ emits < polls
  end.
Proof.
  intros [Hu Hpay [Ht Hev] Hfr Hq] Hv Hr. unfold run_daemon, build_backend.
  set (src0 := MkWorkloadSource _ _ _ _ _ _ _ _). set (sink0 := MkRecordingSink _ _).
  rewrite Forall_forall in Hev.
  assert (source_ready (channels c) src0) as Hready
    by (unfold source_ready; simpl; repeat split; try done; unfold i64_max; lia).
  destruct (workload_delivers to_vec from_slice validate mods_in_range stimuli_codec snapshots_codec validates (channels c) (Z.to_nat (wl_ticks w)) src0
    Hready) as (packets & src1 & Hdel & Hcar & Hpolls & Hstim & Hmods);
    [simpl; lia|intros t e He; apply Hev; by eapply expand_events|].
  simpl in Hcar, Hstim, Hmods. rewrite Z2Nat.id in Hcar, Hstim, Hmods by lia.
  assert (length packets = Z.to_nat (wl_ticks w)) as Hpn
    by (rewrite <- (Forall2_length _ _ _ Hcar); apply length_seqZ).
  pose proof (proj1 (daemon_validate_ok c Hu) Hv) as [_ _ _ Hch _ _ _ _ _ _].
  destruct (run_engine (H := workload_source to_vec from_slice validate) fs parse_document parse_hub sha256
    with_dimensions set_rm_stdp_config components display net_step mods_default c src0 sink0
    (dc_constructed clock) (dc_init clock) (dc_check clock) packets (env <$> seqZ 0 (wl_ticks w)) src0 src1
    (workload_shutdown src1).1 net p)
    as (d & world & stats & -> & Hran & Hws & Hacc & Hrej & Hrec & Hem & Hck & Heng); try done.
  { by rewrite length_fmap, length_seqZ. }
  { apply Forall_fmap, Forall_forall. intros t _. apply Hq. }
  { clear - Hcar Hev Hch Hpay. apply Forall_forall. intros packet Hp.
    apply list_elem_of_lookup in Hp as [k Hk].
    destruct (Forall2_lookup_r _ _ _ _ _ Hcar Hk) as (t & _ & Hc).
    eapply (carries_deliverable mods_in_range _ (channels c)); [exact Hc| |lia|done].
    intros e He. apply Hev. by eapply expand_events. }
  { unfold len, i64_max, u64_max in *. lia. }
  rewrite (carries_inputs mods_default _ _ _ _ Hcar) in Heng. cbn [map_err mbind result_bind]. rewrite Hran.
  assert (ws_shared (w_source world) =
    MkSharedSource (sh_polls (ws_shared src1)) (ws_stimulus_frames src1) (ws_modulator_frames src1)) as Hsh
    by (by rewrite Hws).
  cbn [map_err]. rewrite Hsh. cbn [sh_polls sh_stimulus_frames sh_modulator_frames].
  assert (len (sh_polls (ws_shared src1)) = wl_ticks w) as Hpl by (rewrite Hpolls; simpl; rewrite len_nil; lia).
  rewrite (carries_accepted _ _ _ Hcar) in Hacc.
  destruct (engine_run net_step _ net) as [net' [outs|e]]; cbn [snd] in Heng; unfold tick_records.
  - destruct Heng as (Hwk & Hol & Hids & Htk). simpl in Hwk.
    assert (length (rk_emits (w_sink world)) = Z.to_nat (wl_ticks w)) as Hel
      by (rewrite <- (length_fmap snd), Hwk, length_fmap; lia).
    rewrite (proj2 (Z.eqb_eq _ _)) by (rewrite Hpl; unfold len; rewrite Hel; lia). simpl.
    eexists _, stats, _, _. split; [reflexivity|]. simpl. rewrite Hck, Hstim, Hmods.
    split; [|split; [done|]; split; [rewrite Htk; unfold len; lia|done]].
    rewrite zip_channels, Hwk by (unfold len in Hpl; lia). apply list_fmap_ext. intros k ids Hk.
    symmetry. apply sorted_representable. by eapply Forall_lookup_1 in Hids.
  - simpl in Heng. rewrite length_fmap in Heng.
    assert (len (rk_emits (w_sink world)) < wl_ticks w) as Hlt by (unfold len; lia).
    rewrite Hpl, (proj2 (Z.eqb_neq _ _)) by lia. simpl. by eexists _, _.
Qed.

Definition sums_agree (d b : Summary) : Prop :=
  match d, b with
  | DaemonSummary _ stats checkpoint _ _ _ _, BaselineSummary _ provenance _ _ =>
    checkpoint = Some provenance /\ rs_accepted_batches stats = (frames_sent d).1 /\
    rs_rejected_batches stats = 0 /\ rs_receive_errors stats = 0 /\ rs_emit_errors stats = 0
  | _, _ => False
  end.

(** The two runs of one workload. *)
Lemma runs_agree c w reads emit_reads env tick_clock clock clock' :
  setting_ok c w reads env ->
  match daemon_run c w reads emit_reads env clock, baseline_run c w tick_clock clock' with
  | Ok d, Ok b =>
    tk_channels <$> run_records d = tk_channels <$> run_records b /\
    len (run_records b) = wl_ticks w /\ sums_agree (run_summary d) (run_summary b)
  | Err _, Err _ => True
  | _, _ => False
  end.
Proof.
  intros Hok. destruct (daemon_validate c) as [[]|e] eqn:Hv.
  2: { pose proof (restored_invalid fs parse_document parse_hub sha256 with_dimensions set_rm_stdp_config
         components display c e Hv) as Hr. unfold run_daemon, run_baseline, build_backend, try_with_backend.
       rewrite Hv. simpl. by destruct (restored c). }
  unfold run_baseline. destruct (restored c) as [[net p]|e] eqn:Hr.
  - pose proof (run_daemon_engine c w reads emit_reads env clock net p Hok Hv Hr) as Hd.
    set (b0 := MkBaseline net (replicate (Z.to_nat (channels c)) f_zero) [] (dc_started clock') (dc_started clock')).
    pose proof (baseline_loop_engine net_step mods_default (expand w) (wl_warmup_ticks w) tick_clock
      (Z.to_nat (channels c)) (seqZ 0 (wl_ticks w)) b0 (length_replicate _ _)) as Hb.
    pose proof (engine_run_replay net_step ((fun t => decode_event mods_default (expand w !! t)
      (replicate (Z.to_nat (channels c)) f_zero)) <$> seqZ 0 (wl_ticks w)) net) as He.
    pose proof (engine_replay_length net_step ((fun t => decode_event mods_default (expand w !! t)
      (replicate (Z.to_nat (channels c)) f_zero)) <$> seqZ 0 (wl_ticks w)) net) as Hl.
    change (bs_network b0) with net in Hb.
    destruct (engine_run net_step _ net) as [net' [outs|e]].
    + destruct Hd as (run & stats & health & ing & -> & Hch & Hsum & _ & Hacc & Hrej & Hrec & Hem).
      destruct Hb as (b & Hloop & _ & Hbch). simpl. fold b0. rewrite Hloop. simpl.
      rewrite He in Hl. simpl in Hl. rewrite !length_fmap, length_seqZ in Hl. simpl in Hbch.
      split; [by rewrite Hch, Hbch|]. rewrite Hsum. unfold sums_agree. simpl.
      split; [|by rewrite Hacc]. destruct (so_workload _ _ _ _ Hok) as [Ht _].
      unfold len. rewrite <- (length_fmap tk_channels), Hbch, length_fmap, Hl. lia.
    + destruct Hd as (polls & emits & -> & _). destruct Hb as (t & Hb). simpl. fold b0. by rewrite Hb.
  - unfold run_daemon, build_backend. set (src0 := MkWorkloadSource _ _ _ _ _ _ _ _). set (sink0 := MkRecordingSink _ _).
    pose proof (run_unrestored (H := workload_source to_vec from_slice validate) fs parse_document parse_hub sha256
      with_dimensions set_rm_stdp_config components display net_step mods_default c src0 sink0
      (dc_constructed clock) (dc_init clock) (dc_check clock) (env <$> seqZ 0 (wl_ticks w)) e Hr) as Hrun.
    destruct (try_with_backend c src0 sink0 _) as [d|e']; [|done]. simpl.
    by destruct (run_for_ticks _ _ _ _ _ _ _ _ _ _ _ _ _ _) as [world [stats|e']].
Qed.

(** C3: the daemon adds nothing to and loses nothing of its engine.  The driver's
    daemon and baseline modes, started on the same configuration and workload
    files, fail together or succeed together, and then every tick recorded the
    same spike channels and the fixture digests agree; the daemon accepted one
    batch for each stimulus frame it was sent, rejected none and saw no error,
    and ran the checkpoint the baseline restored.  It is stated for the settings
    of [setting_ok]: the events are as wide as the daemon, their values finite
    and their modulators in the ranges corpus-ipc accepts ([mods_in_range]; the
    daemon refuses others, the baseline would not), a payload of four fits the
    ingress, frames are decoded within the freshness window, and nothing else
    feeds the ingress. *)
Theorem modes_agree read_to_string read toml_from_str workload_from_str config workload
    reads emit_reads env tick_clock clock clock' :
  (forall c w, load read_to_string toml_from_str config = Ok c ->
     workload_load read_to_string workload_from_str workload = Ok w -> wl_channels w = channels c ->
     setting_ok c w reads env) ->
  let main mode clock := inprocess_main fs parse_document parse_hub sha256 with_dimensions
    set_rm_stdp_config components display net_step mods_default to_vec from_slice validate
    read_to_string read toml_from_str workload_from_str mode config workload reads emit_reads env
    tick_clock clock in
  match main DaemonLive clock, main Baseline clock' with
  | Ok (_, d, digest), Ok (_, b, digest') =>
    tk_channels <$> run_records d = tk_channels <$> run_records b /\ digest = digest' /\
    sums_agree (run_summary d) (run_summary b)
  | Err _, Err _ => True
  | _, _ => False
  end.
Proof.
  intros Hset. cbv zeta. unfold inprocess_main.
  destruct (load _ _ config) as [c|e]; [|done]. simpl.
  destruct (workload_load _ _ workload) as [w|e]; [|done]. simpl. unfold check_channels, require.
  destruct (Z.eqb_spec (channels c) (wl_channels w)) as [Hch|]; [|done]. simpl.
  destruct (bool_decide (runtime_mode c = Live)); [|done]. simpl.
  destruct (fixture_digest sha256 read c w) as [digest|e]; [|done]. simpl.
  pose proof (runs_agree c w reads emit_reads env tick_clock clock clock' (Hset c w eq_refl eq_refl (eq_sym Hch))) as H.
  destruct (daemon_run _ _ _ _ _ _) as [d|e], (baseline_run _ _ _ _) as [b|e']; simpl; try done.
  by destruct H as (H1 & _ & H2).
Qed.

(** The daemon is sent exactly the workload's frames: when the events of a
    cycle fall on distinct ticks, a run that succeeds counted as many stimulus
    and modulator frames as [frame_counts] promises (what the baseline
    reports), and recorded every tick. *)
Theorem frames_sent_exact c w reads emit_reads env clock run :
  setting_ok c w reads env -> disjoint_offsets w ->
  wl_ticks w = wmul64 (wl_ticks_per_cycle w) (wl_cycles w) ->
  daemon_run c w reads emit_reads env clock = Ok run ->
  frames_sent (run_summary run) = frame_counts w /\ len (run_records run) = wl_ticks w.
Proof.
  intros Hok Hd Ht Hrun. destruct (daemon_validate c) as [[]|e] eqn:Hv.
  2: { revert Hrun. unfold run_daemon, build_backend, try_with_backend. by rewrite Hv. }
  pose proof (runs_agree c w reads emit_reads env (fun _ => (0, 0)) clock clock Hok) as Hag. rewrite Hrun in Hag.
  destruct (restored c) as [[net p]|e] eqn:Hr; [|unfold run_baseline in Hag; by rewrite Hr in Hag].
  pose proof (run_daemon_engine c w reads emit_reads env clock net p Hok Hv Hr) as He. rewrite Hrun in He.
  destruct (engine_run net_step _ net) as [net' [outs|e]]; [|by destruct He as (? & ? & ? & _)].
  destruct He as (run' & stats & health & ing & [= <-] & Hch & Hsum & _).
  split.
  - rewrite Hsum. simpl. rewrite !ticks_with_event by done. done.
  - destruct (baseline_run _ _ _ _) as [b|e]; [|done]. destruct Hag as (Heq & Hl & _). rewrite <- Hl.
    unfold len. by rewrite <- (length_fmap tk_channels), Heq, length_fmap.
Qed.
End Agreement.

(** ** Witnesses *)

(** Spikes neuron 3, when there is one, on any input. *)
Definition demo_engine_step (net : @SpikingNetwork unit Z unit) (_ : list f32) (_ : NeuroModulators) :
    @SpikingNetwork unit Z unit * result string (list Z) :=
  (net, Ok (if 3 <? neurons_of net then [3] else [])).

Lemma demo_engine_in_range : step_ids_in_range demo_engine_step.
Proof.
  intros net stim mods net' ids. unfold demo_engine_step. intros [= <- <-]. split; [done|].
  destruct (Z.ltb_spec 3 (neurons_of net)); repeat constructor; lia.
Qed.

Definition demo_tick_env (t : Z) : TickEnv := demo_env.
Definition demo_clock : RunClock := MkRunClock 0 1 2 3 100 101.

Lemma demo_setting_ok : setting_ok demo_mods_in_range demo_config demo_workload [] demo_tick_env.
Proof.
  split; [exact demo_config_unsigned|vm_compute; discriminate| |constructor|by intros t i].
  split; [vm_compute; split; discriminate|].
  constructor; [|constructor; [|constructor]].
  - split; [reflexivity|]. split; [|intros m [= <-]; split; vm_compute; reflexivity].
    intros _. split; [reflexivity|]. intros mask [= <-]. reflexivity.
  - split; [reflexivity|]. split; [discriminate|]. intros m [= <-]. split; vm_compute; reflexivity.
Qed.

Abbreviation demo_main := (inprocess_main demo_fs (fun _ => Ok demo_document) (fun _ => Err tt) (fun b => b)
  demo_with_dimensions demo_set_config (fun s => [s]) (fun _ => "p"%string) demo_engine_step demo_mods
  demo_to_vec demo_codec_slice demo_validate (fun path => Ok path) (fun _ => Ok [123; 125])
  (fun _ => Ok demo_config) (fun _ => Ok demo_workload)).

Lemma demo_main_runs :
  is_ok (demo_main Baseline "config.toml"%string "workload.json"%string [] [] demo_tick_env (fun t => (t, t + 1)) demo_clock) = true.
Proof. vm_compute. reflexivity. Qed.

Lemma modes_agree_witness :
  is_ok (demo_main DaemonLive "config.toml"%string "workload.json"%string [] [] demo_tick_env (fun t => (t, t + 1)) demo_clock) = true.
Proof.
  pose proof (modes_agree demo_fs (fun _ => Ok demo_document) (fun _ => Err tt) (fun b => b)
    demo_with_dimensions demo_set_config (fun s => [s]) (fun _ => "p"%string) demo_engine_step demo_mods
    demo_to_vec demo_codec_slice demo_validate demo_mods_in_range demo_stimuli_roundtrip demo_snapshots_roundtrip demo_validates_wellformed
    demo_dimensions_sized demo_config_sets demo_engine_in_range
    (fun path => Ok path) (fun _ => Ok [123; 125]) (fun _ => Ok demo_config) (fun _ => Ok demo_workload)
    "config.toml"%string "workload.json"%string [] [] demo_tick_env (fun t => (t, t + 1)) demo_clock demo_clock) as H.
  cbv zeta in H.
  match type of H with ?P -> _ => assert P as Hset end.
  { intros c w [= <-] [= <-] _. exact demo_setting_ok. }
  specialize (H Hset). cbv beta in H. pose proof demo_main_runs as Hb.
  destruct (demo_main Baseline _ _ _ _ _ _ _) as [[[rb b] db]|e]; [|discriminate Hb].
  destruct (demo_main DaemonLive _ _ _ _ _ _ _) as [[[rd d] dd]|e]; [reflexivity|destruct H].
Defined.

Abbreviation demo_run := (run_daemon demo_fs (fun _ => Ok demo_document) (fun _ => Err tt) (fun b => b)
  demo_with_dimensions demo_set_config (fun s => [s]) (fun _ => "p"%string) demo_engine_step demo_mods
  demo_to_vec demo_codec_slice demo_validate demo_config demo_workload [] [] demo_tick_env demo_clock).

Lemma demo_daemon_runs : is_ok demo_run = true.
Proof. vm_compute. reflexivity. Qed.

Lemma frames_sent_exact_witness : exists run, demo_run = Ok run /\ frames_sent (run_summary run) = (2, 4).
Proof.
  pose proof demo_daemon_runs as Hok. destruct demo_run as [run|e] eqn:Hrun; [|discriminate Hok].
  exists run. split; [reflexivity|].
  exact (proj1 (frames_sent_exact demo_fs (fun _ => Ok demo_document) (fun _ => Err tt) (fun b => b)
    demo_with_dimensions demo_set_config (fun s => [s]) (fun _ => "p"%string) demo_engine_step demo_mods
    demo_to_vec demo_codec_slice demo_validate demo_mods_in_range demo_stimuli_roundtrip demo_snapshots_roundtrip demo_validates_wellformed
    demo_dimensions_sized demo_config_sets demo_engine_in_range demo_config demo_workload [] [] demo_tick_env
    demo_clock run demo_setting_ok demo_workload_disjoint eq_refl Hrun)).
Defined.
