(* ===== verification/Secondary.v ===== *)
(** * The secondary experiment's in-process driver
      (examples/usefulness_secondary_common/mod.rs and
      examples/usefulness_secondary_inprocess.rs)

    Another driver of the same two paths, over a workload of segments instead of
    events, with ablation variants: [Zeroed] sends the masked channels as zeros
    under a full mask, [Unmasked] drops the mask.  [Modulators] is the same struct as the
    workload's; the source and the sink each carry their half of the shared
    [Trace].  Ablation.v has the theorems. *)

From stdpp Require Import pretty.
From S2P Require Import Prelude Floats Packet NetAddr Queue QueueConc Ingress Health Config Corpus.
From S2P Require Import Backend Checkpoint Diagnostics Tick Daemon Replay Workload Inprocess.
Local Open Scope Z_scope.

Definition SECONDARY_SESSION_ID : string := "usefulness-experiment".
Definition WORKLOAD_PATH : string := "experiments/usefulness-secondary/fixtures/workload.json".
Definition LIVE_CONFIG : string := "experiments/usefulness-secondary/config/live.toml".
Definition SIMULATION_CONFIG : string := "experiments/usefulness-secondary/config/simulation.toml".

(** [Mode::config_path]; the modes are Inprocess.v's. *)
Definition config_path (m : Mode) : string :=
  match m with
  | DaemonSimulation => SIMULATION_CONFIG
  | DaemonLive | Baseline => LIVE_CONFIG
  end.

(** ** The segment workload *)

Record Segment := MkSegment {
  sg_name : string;
  sg_ticks : Z;
  sg_values : list f32;
  sg_valid_mask : option (list bool);
  sg_neuromodulators : option Modulators;
}.

Record TransportSpec := MkTransportSpec {
  tp_tick_rate_hz : Z;
  tp_probes : Z;
  tp_probe_interval_ms : Z;
  tp_probe_value : f32;
  tp_priming_channel : Z;
  tp_priming_interval_ms : Z;
  tp_priming_timeout_ms : Z;
  tp_settle_ms : Z;
}.

Record SegmentWorkload := MkSegmentWorkload {
  sw_version : string;
  sw_channels : Z;
  sw_cycles : Z;
  sw_warmup_cycles : Z;
  sw_segments : list Segment;
  sw_transport : TransportSpec;
}.

Inductive SecondaryError :=
| SecondaryRead (e : string)
| SecondaryParse (e : string)
| SegmentWidth (name : string) (channels : Z)
| SecondaryConfig (e : LoadError string string)
| SecondaryChannels (config workload : Z)
| SecondaryConstruct (e : DaemonError)
| SecondaryRun (e : DaemonError)
| SecondaryRestore (e : CheckpointError)
| SecondaryStep (e : string)
| TraceMismatch (polls emits : Z).

Definition check_width (segment : Segment) (channels : Z) : result SecondaryError unit :=
  let mask_len := match sg_valid_mask segment with Some mask => len mask | None => channels end in
  require (negb (negb (len (sg_values segment) =? channels) || negb (mask_len =? channels)))
    (SegmentWidth (sg_name segment) channels).

Fixpoint check_segments (segments : list Segment) (channels : Z) : result SecondaryError unit :=
  match segments with
  | [] => Ok tt
  | segment :: rest => check_width segment channels ≫= fun _ => check_segments rest channels
  end.

Definition segments_load (read_to_string : string -> result string string)
    (from_str : string -> result string SegmentWorkload) : result SecondaryError SegmentWorkload :=
  map_err SecondaryRead (read_to_string WORKLOAD_PATH) ≫= fun text =>
  map_err SecondaryParse (from_str text) ≫= fun workload =>
  check_segments (sw_segments workload) (sw_channels workload) ≫= fun _ => Ok workload.

Definition cycle_len (w : SegmentWorkload) : Z :=
  fold_left (fun acc s => wadd64 acc (sg_ticks s)) (sw_segments w) 0.

Definition warmup_ticks (w : SegmentWorkload) : Z := wmul64 (sw_warmup_cycles w) (cycle_len w).

Inductive Variant := MainVariant | Zeroed | Unmasked.

Definition variant_as_str (v : Variant) : string :=
  match v with MainVariant => "main" | Zeroed => "zeroed" | Unmasked => "unmasked" end.

(** [Args::stem]: the name of a run's output files. *)
Definition args_stem (m : Mode) (v : Variant) (rep : Z) : string :=
  mode_as_str m +:+ "-" +:+ variant_as_str v +:+ "-r" +:+ pretty rep.

(** [Variant::apply]: the values and the mask a segment is sent with. *)
Definition variant_apply (v : Variant) (segment : Segment) : list f32 * option (list bool) :=
  match v, sg_valid_mask segment with
  | MainVariant, mask => (sg_values segment, mask)
  | Zeroed, Some mask =>
    (zip_with (fun x (ok : bool) => if ok then x else f_zero) (sg_values segment) mask,
     Some (replicate (length mask) true))
  | Zeroed, None => (sg_values segment, None)
  | Unmasked, _ => (sg_values segment, None)
  end.

Record TickInput := MkTickInput {
  ti_segment : string;
  ti_values : list f32;
  ti_valid_mask : option (list bool);
  ti_modulators : option Modulators;
}.

Definition segment_inputs (v : Variant) (segment : Segment) : list TickInput :=
  let '(values, valid_mask) := variant_apply v segment in
  replicate (Z.to_nat (sg_ticks segment))
    (MkTickInput (sg_name segment) values valid_mask (sg_neuromodulators segment)).

Definition expand_segments (w : SegmentWorkload) (v : Variant) : list TickInput :=
  seqZ 0 (sw_cycles w) ≫= fun _ => sw_segments w ≫= segment_inputs v.

(** ** Frames *)

(** [tick as i64]. *)
Definition as_i64 (n : Z) : Z := if n <=? i64_max then n else n - (u64_max + 1).

Section Frames.
Variable to_vec : IpcMessage -> result string string.
Variable from_slice : string -> result string IpcMessage.
Variable validate : StimulusBatch -> result string unit.
Variable validate_snapshot : NeuromodulatorSnapshot -> result string unit.

Definition secondary_batch (batch_id now_ns : Z) (values : list f32) (valid_mask : option (list bool)) :
    StimulusBatch := {|
  sb_session_id := Some SECONDARY_SESSION_ID;
  sb_batch_id := batch_id;
  sb_timestamp := now_ns;
  sb_values := values;
  sb_valid_mask := valid_mask;
  sb_metadata := Some {|
    bm_processing_latency_ns := None;
    bm_source := Some "usefulness-driver"%string;
    bm_custom := {["schema" := STIMULUS_SCHEMA]};
  |};
|}.

Definition secondary_stimulus_frame (batch_id now_ns : Z) (values : list f32)
    (valid_mask : option (list bool)) : result string string :=
  let batch := secondary_batch batch_id now_ns values valid_mask in
  map_err (fun e => "driver built an invalid StimulusBatch: " +:+ e)%string (validate batch) ≫= fun _ =>
  to_vec (Stimuli batch).

Definition secondary_modulator_frame (tick : Z) (mods : Modulators) : result string string :=
  let snapshot := MkNeuromodulatorSnapshot tick (md_dopamine mods) (md_cortisol mods)
                    (md_acetylcholine mods) (md_tempo mods) in
  map_err (fun e => "driver built an invalid NeuromodulatorSnapshot: " +:+ e)%string
    (validate_snapshot snapshot) ≫= fun _ =>
  to_vec (Neuromodulators snapshot).

Record Frames := MkFrames {
  fr_stimulus : string;
  fr_modulators : option string;
}.

Definition encode_frames (now_ns tick : Z) (input : TickInput) : result string Frames :=
  secondary_stimulus_frame tick now_ns (ti_values input) (ti_valid_mask input) ≫= fun stimulus =>
  match ti_modulators input with
  | Some m => secondary_modulator_frame (as_i64 tick) m ≫= fun frame => Ok (Some frame)
  | None => Ok None
  end ≫= fun modulators =>
  Ok (MkFrames stimulus modulators).

Definition decode_pair (frames : Frames) (policy : IngressPolicy) (now : Z) : result string IngressPacket :=
  map_err (fun e => "stimulus frame rejected: " +:+ ingress_error_to_string e)%string
    (accept_ipc_json validate from_slice (fr_stimulus frames) policy now) ≫= fun packet =>
  match fr_modulators frames with
  | Some frame =>
    map_err (fun e => "modulator frame rejected: " +:+ ingress_error_to_string e)%string
      (accept_ipc_json validate from_slice frame policy now) ≫= fun mod_packet =>
    Ok (with_modulators (Packet.modulators mod_packet) packet)
  | None => Ok packet
  end.

(** ** The backend *)

Record SecondarySource := MkSecondarySource {
  ss_inputs : list TickInput;
  ss_next : Z;
  ss_policy : IngressPolicy;
  ss_polls : list Z;          (** [polls] of [Trace] *)
  ss_reads : list PollClock;
}.

(** The frames are encoded first; only then does the source move on. *)
Definition secondary_next : stateful SecondarySource string (option IngressPacket) := fun s =>
  let clock := default (MkPollClock 0 0 0 0) (head (ss_reads s)) in
  match ss_inputs s !! Z.to_nat (ss_next s) with
  | None => (s, Err ("workload exhausted at tick " +:+ pretty (ss_next s))%string)
  | Some input =>
    match encode_frames (pc_encode_ns clock) (ss_next s) input with
    | Err e => (s, Err e)
    | Ok frames =>
      (MkSecondarySource (ss_inputs s) (wadd64 (ss_next s) 1) (ss_policy s)
         (ss_polls s ++ [pc_poll clock]) (tail (ss_reads s)),
       decode_pair frames (ss_policy s) (pc_decode_ns clock) ≫= fun packet => Ok (Some packet))
    end
  end.

#[export] Instance secondary_source : StimulusSource SecondarySource := {
  next_ingress := secondary_next;
  initialize := fun _ => mret tt;
  source_shutdown := default_shutdown;
}.
End Frames.

Record TraceSink := MkTraceSink {
  tsk_emits : list (Z * list Z);
  tsk_reads : list Z;
}.

#[export] Instance trace_sink : SpikeSink TraceSink := {
  emit := fun spikes _ => modify (fun k =>
    MkTraceSink (tsk_emits k ++ [(default 0 (head (tsk_reads k)), channel <$> spikes)]) (tail (tsk_reads k)));
  flush := default_flush;
}.

Lemma trace_emit time ids t (k : TraceSink) : True -> exists k',
  emit (spikes_at time ids) t k = (k', Ok tt) /\ True /\ (tsk_emits k').*2 = (tsk_emits k).*2 ++ [ids].
Proof. intros _. eexists. split; [reflexivity|]. simpl. by rewrite fmap_app, channel_spikes_at. Qed.

Lemma trace_flush (k : TraceSink) : True -> exists k',
  flush k = (k', Ok tt) /\ True /\ (tsk_emits k').*2 = (tsk_emits k).*2.
Proof. by exists k. Qed.

#[export] Instance trace_recorder : Recorder TraceSink := {
  recorded := fun k => (tsk_emits k).*2;
  record_view := fun channels => channels;
  in_order := fun _ => True;
  emit_records := trace_emit;
  flush_records := trace_flush;
}.

(** ** The two runs *)

Record Trace := MkTrace {
  tr_polls : list Z;
  tr_emits : list (Z * list Z);
}.

(** What a run leaves beside its trace. *)
Inductive Details :=
| DaemonDetails (stats : RuntimeStats) (health : HealthSnapshot) (ingress : IngressMetrics)
| BaselineDetails (steps dropped_spikes : Z) (checkpoint : ModelProvenance).

Record RunOutput := MkRunOutput {
  ro_trace : Trace;
  ro_details : Details;
}.

Definition baseline_inputs (mods_default : NeuroModulators) (input : TickInput) (channels : Z) :
    list f32 * NeuroModulators :=
  let zeros := replicate (Z.to_nat channels) f_zero in
  let upto := Nat.min (length (ti_values input)) (length zeros) in
  let copied := take upto (ti_values input) ++ drop upto zeros in
  let mask := default [] (ti_valid_mask input) in
  let stimuli := zip_with (fun slot (valid : bool) => if valid then slot else f_zero) copied mask
                 ++ drop (length mask) copied in
  (stimuli,
   match ti_modulators input with
   | Some m => MkModulators (md_dopamine m) (md_cortisol m) (md_acetylcholine m) (md_tempo m)
   | None => mods_default
   end).

(** The channels of a step and the dropped count it leads to. *)
Definition spike_channels (spikes : list Z) (dropped : Z) : list Z * Z :=
  let channels := omap u16_try_from spikes in
  (channels, wadd64 dropped (len spikes - len channels)).

Section SecondaryDriver.
Context {LifRest NetRest StdpRest : Type}.
Abbreviation Network := (@SpikingNetwork LifRest NetRest StdpRest).
Variable fs : Fs.
Variable parse_document : string -> result unit SidecarDocument.
Variable parse_hub : string -> result unit HubConfig.
Variable sha256 : list Z -> list Z.
Variable with_dimensions : Z -> Z -> Z -> Network.
Variable set_rm_stdp_config : @RmStdpConfig StdpRest -> Network -> Network.
Variable components : string -> path.
Variable display : path -> string.
Variable net_step : Network -> list f32 -> NeuroModulators -> Network * result string (list Z).
Variable mods_default : NeuroModulators.
Variable to_vec : IpcMessage -> result string string.
Variable from_slice : string -> result string IpcMessage.
Variable validate : StimulusBatch -> result string unit.
Variable validate_snapshot : NeuromodulatorSnapshot -> result string unit.

(** [trace_backend]. *)
Definition trace_backend (c : DaemonConfig) (inputs : list TickInput) (reads : list PollClock)
    (emit_reads : list Z) : SecondarySource * TraceSink :=
  (MkSecondarySource inputs 0 (MkIngressPolicy (channels c) (Some 1000000000)) [] reads,
   MkTraceSink [] emit_reads).

Definition secondary_run_daemon (c : DaemonConfig) (inputs : list TickInput) (reads : list PollClock)
    (emit_reads : list Z) (env : Z -> TickEnv) (clock : RunClock) : result SecondaryError RunOutput :=
  let ticks := len inputs in
  let '(source, sink) := trace_backend c inputs reads emit_reads in
  map_err SecondaryConstruct (try_with_backend c source sink (dc_constructed clock)) ≫= fun daemon =>
  let '(world, ran) := run_for_ticks (H := secondary_source to_vec from_slice validate validate_snapshot)
    fs parse_document parse_hub sha256 with_dimensions set_rm_stdp_config components display
    net_step mods_default daemon (dc_init clock) (dc_check clock) (env <$> seqZ 0 ticks) in
  map_err SecondaryRun ran ≫= fun stats =>
  Ok (MkRunOutput (MkTrace (ss_polls (w_source world)) (tsk_emits (w_sink world)))
        (DaemonDetails stats (snapshot (w_health world) (dc_snapshot clock)) (ingress_metrics (w_ingress world)))).

(** The loop over the decoded inputs; [tick_clock] is [poll] and [at]. *)
Fixpoint secondary_loop (tick_clock : Z -> Z * Z) (tick : Z) (decoded : list (list f32 * NeuroModulators))
    (network : Network) (trace : Trace) (dropped : Z) : result SecondaryError (Trace * Z) :=
  match decoded with
  | [] => Ok (trace, dropped)
  | (stimuli, modulators) :: rest =>
    let '(poll, at_) := tick_clock tick in
    let '(network, stepped) := net_step network stimuli modulators in
    map_err SecondaryStep stepped ≫= fun spikes =>
    let '(channels, dropped) := spike_channels spikes dropped in
    secondary_loop tick_clock (tick + 1) rest network
      (MkTrace (tr_polls trace ++ [poll]) (tr_emits trace ++ [(at_, channels)])) dropped
  end.

Definition secondary_run_baseline (c : DaemonConfig) (inputs : list TickInput) (tick_clock : Z -> Z * Z) :
    result SecondaryError RunOutput :=
  map_err SecondaryRestore (restore fs parse_document parse_hub sha256 with_dimensions
    set_rm_stdp_config components display c) ≫= fun '(network, provenance) =>
  let decoded := (fun i => baseline_inputs mods_default i (channels c)) <$> inputs in
  secondary_loop tick_clock 0 decoded network (MkTrace [] []) 0 ≫= fun '(trace, dropped) =>
  Ok (MkRunOutput trace (BaselineDetails (len decoded) dropped provenance)).

(** ** The trace file *)

Record TraceRecord := MkTraceRecord {
  tx_tick : Z;
  tx_segment : string;
  tx_channels : list Z;
  tx_latency_ns : Z;
}.

Fixpoint trace_records (tick : Z) (polls : list Z) (emits : list (Z * list Z)) (inputs : list TickInput) :
    list TraceRecord :=
  match polls, emits, inputs with
  | poll :: polls, (emit, channels) :: emits, input :: inputs =>
    MkTraceRecord tick (ti_segment input) channels (duration_since emit poll)
      :: trace_records (tick + 1) polls emits inputs
  | _, _, _ => []
  end.

Definition write_trace (trace : Trace) (inputs : list TickInput) : result SecondaryError (list TraceRecord) :=
  require (len (tr_polls trace) =? len (tr_emits trace))
    (TraceMismatch (len (tr_polls trace)) (len (tr_emits trace))) ≫= fun _ =>
  Ok (trace_records 0 (tr_polls trace) (tr_emits trace) inputs).

Definition measured_span_ns (trace : Trace) (warm : Z) : Z :=
  match tr_polls trace !! Z.to_nat warm, last (tr_emits trace) with
  | Some start, Some (end_, _) => duration_since end_ start
  | _, _ => 0
  end.

(** [main] up to the output directory: the run, the records it writes. *)
Definition secondary_main (read_to_string : string -> result string string)
    (toml_from_str : string -> result string DaemonConfig)
    (from_str : string -> result string SegmentWorkload)
    (mode : Mode) (variant : Variant) (reads : list PollClock) (emit_reads : list Z) (env : Z -> TickEnv)
    (tick_clock : Z -> Z * Z) (clock : RunClock) : result SecondaryError (RunOutput * list TraceRecord) :=
  segments_load read_to_string from_str ≫= fun workload =>
  map_err SecondaryConfig (load read_to_string toml_from_str (config_path mode)) ≫= fun c =>
  require (channels c =? sw_channels workload)
    (SecondaryChannels (channels c) (sw_channels workload)) ≫= fun _ =>
  let inputs := expand_segments workload variant in
  match mode with
  | DaemonLive | DaemonSimulation => secondary_run_daemon c inputs reads emit_reads env clock
  | Baseline => secondary_run_baseline c inputs tick_clock
  end ≫= fun output =>
  write_trace (ro_trace output) inputs ≫= fun records =>
  Ok (output, records).
End SecondaryDriver.

(** ** What the source delivers *)

(** An input as wide as the daemon, finite, with a mask of its width, its
    modulators in corpus-ipc's ranges. *)
Definition tick_input_ok (mods_in_range : list f32 -> bool) (channels : Z) (i : TickInput) : Prop :=
  all_finite (ti_values i) = true /\ len (ti_values i) = channels /\
  (forall mask, ti_valid_mask i = Some mask -> length mask = length (ti_values i)) /\
  (forall m, ti_modulators i = Some m -> all_finite (mod_values m) = true /\ mods_in_range (mod_values m) = true).

Inductive carries_input (i : TickInput) : option IngressPacket -> Prop :=
| carries_input_intro batch sent : carries_input i (Some (with_modulators (mod_values <$> ti_modulators i)
    (MkPacket (ti_values i) None (ti_valid_mask i) (Some batch) (Some sent) (Some SECONDARY_SESSION_ID) false))).

Lemma input_deliverable mods_in_range cfg channels i packet :
  carries_input i packet -> tick_input_ok mods_in_range channels i -> channels <= max_payload_len cfg ->
  4 <= max_payload_len cfg -> deliverable cfg packet.
Proof.
  intros [batch sent] (Hf & Hl & _ & Hm) Hc H4 p [= <-]. unfold packet_finite, payload_fits. simpl.
  rewrite Hf, Hl. simpl. split; [|split; [done|split; [done|by destruct (ti_modulators i)]]].
  destruct (ti_modulators i) as [m|]; simpl; [|done]. by apply Hm.
Qed.

Lemma input_accepted inputs packets : Forall2 carries_input inputs packets -> accepted_of packets = len inputs.
Proof.
  unfold accepted_of. induction 1 as [|i p inputs packets [batch sent] _ IH]; [done|].
  rewrite len_cons. cbn [count]. rewrite IH. simpl. lia.
Qed.

(** The slot loop over the mask is the daemon's masking. *)
Lemma zip_mask mask xs :
  zip_with (fun slot (valid : bool) => if valid then slot else f_zero) xs mask ++ drop (length mask) xs =
  apply_mask mask xs.
Proof. revert xs. induction mask as [|v mask IH]; intros [|x xs]; simpl; try done. by rewrite IH. Qed.

Lemma apply_mask_nil xs : apply_mask [] xs = xs.
Proof. by destruct xs. Qed.

Lemma baseline_inputs_stimuli mods_default i channels :
  (baseline_inputs mods_default i channels).1 =
  apply_mask (default [] (ti_valid_mask i))
    (take (Nat.min (length (ti_values i)) (Z.to_nat channels)) (ti_values i) ++
     drop (Nat.min (length (ti_values i)) (Z.to_nat channels)) (replicate (Z.to_nat channels) f_zero)).
Proof. unfold baseline_inputs. cbn [fst]. by rewrite zip_mask, length_replicate. Qed.

(** [baseline_inputs] is the daemon's decoding of the packet the input travels as. *)
Lemma input_decoded mods_in_range mods_default i packet channels :
  carries_input i packet -> tick_input_ok mods_in_range channels i -> 1 <= channels ->
  engine_input mods_default (Z.to_nat channels) packet = baseline_inputs mods_default i channels.
Proof.
  intros [batch sent] (_ & Hl & _ & _) Hc. unfold engine_input. simpl.
  rewrite admitted_self; [|simpl; intros E; rewrite E in Hl; change (len []) with 0 in Hl; lia
                          |simpl; by destruct (ti_modulators i)].
  unfold decode_inputs. rewrite (surjective_pairing (baseline_inputs _ _ _)), baseline_inputs_stimuli. f_equal.
  - unfold decode_stimuli. simpl. rewrite length_replicate, fit_width.
    by destruct (ti_valid_mask i) as [mask|]; [|rewrite apply_mask_nil].
  - unfold decode_modulators. simpl. by destruct (ti_modulators i).
Qed.

(** corpus-ipc's [validate] of a snapshot: finite values in its ranges pass. *)
Definition validates_snapshots (mods_in_range : list f32 -> bool)
    (validate_snapshot : NeuromodulatorSnapshot -> result string unit) : Prop :=
  forall snapshot, all_finite (modulator_values snapshot) = true -> mods_in_range (modulator_values snapshot) = true ->
    validate_snapshot snapshot = Ok tt.

Section Deliver.
Variable to_vec : IpcMessage -> result string string.
Variable from_slice : string -> result string IpcMessage.
Variable validate : StimulusBatch -> result string unit.
Variable validate_snapshot : NeuromodulatorSnapshot -> result string unit.
Variable mods_in_range : list f32 -> bool.
Hypothesis stimuli_codec : stimuli_roundtrip to_vec from_slice.
Hypothesis snapshots_codec : snapshots_roundtrip mods_in_range to_vec from_slice.
Hypothesis validates : validates_wellformed validate.
Hypothesis validates_mods : validates_snapshots mods_in_range validate_snapshot.

Lemma frames_decoded i tick sent now channels :
  tick_input_ok mods_in_range channels i -> 0 <= now - sent <= 1000000000 ->
  exists frames packet, encode_frames to_vec validate validate_snapshot sent tick i = Ok frames /\
    decode_pair from_slice validate frames (MkIngressPolicy channels (Some 1000000000)) now = Ok packet /\
    carries_input i (Some packet).
Proof.
  intros (Hf & Hl & Hmask & Hm) Hn. unfold encode_frames, secondary_stimulus_frame.
  set (batch := secondary_batch tick sent (ti_values i) (ti_valid_mask i)).
  rewrite (validates batch Hf Hmask).
  destruct (batch_frame_accepted to_vec from_slice validate batch
    (MkBatchMetadata None (Some "usefulness-driver"%string) {["schema" := STIMULUS_SCHEMA]}) now 1000000000
    stimuli_codec validates eq_refl (lookup_singleton_eq _ _) Hf Hmask) as (bytes & Hto & Hacc);
    [split; vm_compute; discriminate|done|].
  cbn [map_err mbind result_bind]. rewrite Hto. change (len (sb_values batch)) with (len (ti_values i)) in Hacc.
  rewrite Hl in Hacc. destruct (ti_modulators i) as [m|] eqn:Hmods.
  - destruct (Hm m eq_refl) as [Hmf Hmr]. unfold secondary_modulator_frame.
    set (snapshot := MkNeuromodulatorSnapshot _ _ _ _ _). rewrite (validates_mods snapshot Hmf Hmr).
    destruct (modulator_frame_accepted mods_in_range to_vec from_slice validate snapshot
      (MkIngressPolicy channels (Some 1000000000)) now snapshots_codec Hmf Hmr) as (mbytes & Hmto & Hmacc).
    cbn [map_err mbind result_bind]. rewrite Hmto. eexists _, _. split; [reflexivity|].
    unfold decode_pair. cbn [fr_stimulus fr_modulators]. rewrite Hacc. cbn [map_err mbind result_bind].
    rewrite Hmacc. split; [reflexivity|]. pose proof (carries_input_intro i tick sent) as Hc.
    rewrite Hmods in Hc. exact Hc.
  - eexists _, _. split; [reflexivity|]. unfold decode_pair. cbn [fr_stimulus fr_modulators]. rewrite Hacc.
    split; [reflexivity|]. pose proof (carries_input_intro i tick sent) as Hc. rewrite Hmods in Hc. exact Hc.
Qed.

(** The polls that remain. *)
Lemma secondary_delivers channels n s :
  ss_policy s = MkIngressPolicy channels (Some 1000000000) -> Forall poll_fresh (ss_reads s) ->
  Forall (tick_input_ok mods_in_range channels) (ss_inputs s) -> 0 <= ss_next s -> len (ss_inputs s) <= u64_max ->
  length (ss_inputs s) = (Z.to_nat (ss_next s) + n)%nat ->
  exists packets s', delivers (H := secondary_source to_vec from_slice validate validate_snapshot) packets s s' /\
    Forall2 carries_input (drop (Z.to_nat (ss_next s)) (ss_inputs s)) packets /\
    len (ss_polls s') = len (ss_polls s) + Z.of_nat n.
Proof.
  revert s. induction n as [|n IH]; intros s Hp Hr Hi Hn Hu Hl.
  - exists [], s. rewrite drop_ge by lia. split; [done|]. split; [constructor|lia].
  - assert (is_Some (ss_inputs s !! Z.to_nat (ss_next s))) as [i Hlook] by (apply lookup_lt_is_Some; lia).
    set (clock := default (MkPollClock 0 0 0 0) (head (ss_reads s))).
    assert (poll_fresh clock /\ Forall poll_fresh (tail (ss_reads s))) as [Hclock Hr'].
    { unfold clock. destruct Hr as [|r rs ? ?]; simpl; [|done]. split; [|constructor]. unfold poll_fresh. simpl. lia. }
    pose proof (Forall_lookup_1 _ _ _ _ Hi Hlook) as Hiok.
    destruct (frames_decoded i (ss_next s) (pc_encode_ns clock) (pc_decode_ns clock) channels Hiok Hclock)
      as (frames & packet & He & Hd & Hc).
    assert (wadd64 (ss_next s) 1 = ss_next s + 1) as Hinc
      by (apply wadd64_small; unfold len in Hu; lia).
    set (s1 := MkSecondarySource (ss_inputs s) (wadd64 (ss_next s) 1) (ss_policy s)
                 (ss_polls s ++ [pc_poll clock]) (tail (ss_reads s))).
    destruct (IH s1) as (packets & s' & Hdel & Hcs & Hpl); simpl; rewrite ?Hinc; try done; try lia.
    exists (Some packet :: packets), s'. split; [|split].
    + exists s1. split; [|done]. simpl. unfold secondary_next. fold clock. rewrite Hlook, He, Hp, Hd. simpl.
      unfold s1. by rewrite Hp.
    + rewrite (drop_S _ _ _ Hlook). constructor; [done|]. simpl in Hcs. rewrite Hinc in Hcs.
      by replace (Z.to_nat (ss_next s + 1)) with (Datatypes.S (Z.to_nat (ss_next s))) in Hcs by lia.
    + rewrite Hpl. simpl. rewrite len_app. change (len [pc_poll clock]) with 1. lia.
Qed.
End Deliver.

(** ** The baseline's loop *)

Definition representable (ids : list Z) : list Z := omap u16_try_from ids.

Section SecondaryLoop.
Context {LifRest NetRest StdpRest : Type}.
Abbreviation Network := (@SpikingNetwork LifRest NetRest StdpRest).
Variable net_step : Network -> list f32 -> NeuroModulators -> Network * result string (list Z).

Lemma secondary_loop_engine tick_clock tick decoded net trace dropped :
  match (engine_run net_step decoded net).2 with
  | Ok outs => exists trace' dropped',
      secondary_loop net_step tick_clock tick decoded net trace dropped = Ok (trace', dropped') /\
      (tr_emits trace').*2 = (tr_emits trace).*2 ++ (representable <$> outs) /\
      len (tr_polls trace') = len (tr_polls trace) + len outs /\
      len (tr_emits trace') = len (tr_emits trace) + len outs
  | Err e => secondary_loop net_step tick_clock tick decoded net trace dropped = Err (SecondaryStep e)
  end.
Proof.
  revert tick net trace dropped. induction decoded as [|[stim mods] decoded IH]; intros tick net trace dropped; simpl.
  - exists trace, dropped. rewrite app_nil_r. change (len []) with 0. repeat split; lia.
  - destruct (tick_clock tick) as [poll at_]. destruct (net_step net stim mods) as [net1 [ids|e]]; [|done]. simpl.
    match goal with |- context [secondary_loop _ _ _ decoded ?n ?t ?d] => specialize (IH (tick + 1) n t d) end.
    destruct (engine_run net_step decoded net1) as [net' [outs|e]]; [|done]. simpl in *.
    destruct IH as (trace' & dropped' & Hl & He & Hp & Hn). exists trace', dropped'. split; [done|].
    rewrite He, Hp, Hn, fmap_app, !len_app, len_cons. csimpl. rewrite <- app_assoc. csimpl.
    split; [done|]. unfold len. simpl. lia.
Qed.
End SecondaryLoop.

(** A trace file's columns but for the latencies. *)
Definition trace_view (r : TraceRecord) : Z * string * list Z := (tx_tick r, tx_segment r, tx_channels r).

Lemma trace_records_view inputs polls polls' emits emits' tick :
  length polls = length inputs -> length polls' = length inputs -> emits.*2 = emits'.*2 ->
  length emits = length inputs ->
  trace_view <$> trace_records tick polls emits inputs = trace_view <$> trace_records tick polls' emits' inputs.
Proof.
  revert tick polls polls' emits emits'. induction inputs as [|i inputs IH];
    intros tick [|p polls] [|p' polls'] [|[t ch] emits] [|[t' ch'] emits'] H1 H2 H3 H4; try done.
  csimpl. injection H3 as -> H3. f_equal. apply IH; simpl in *; lia || done.
Qed.

Lemma inputs_decoded mods_in_range mods_default channels inputs packets :
  Forall2 carries_input inputs packets -> Forall (tick_input_ok mods_in_range channels) inputs -> 1 <= channels ->
  engine_input mods_default (Z.to_nat channels) <$> packets =
  (fun i => baseline_inputs mods_default i channels) <$> inputs.
Proof.
  intros Hc Hi H1. induction Hc as [|i p inputs packets Hc _ IH]; [done|]. apply Forall_cons in Hi as [Hi His].
  csimpl. rewrite (IH His). f_equal. by eapply input_decoded.
Qed.

Lemma inputs_deliverable mods_in_range cfg channels inputs packets :
  Forall2 carries_input inputs packets -> Forall (tick_input_ok mods_in_range channels) inputs ->
  channels <= max_payload_len cfg -> 4 <= max_payload_len cfg -> Forall (deliverable cfg) packets.
Proof.
  intros Hc Hi H1 H4. induction Hc as [|i p inputs packets Hc _ IH]; [constructor|].
  apply Forall_cons in Hi as [Hi His]. constructor; [by eapply input_deliverable|by apply IH].
Qed.

Lemma representable_all outs :
  Forall (Forall (fun id => id <= u16_max)) outs -> representable <$> outs = outs.
Proof.
  induction 1 as [|ids outs Hids _ IH]; [done|]. csimpl. rewrite IH. f_equal.
  unfold representable. by rewrite omap_u16, filter_representable.
Qed.

(** ** Segments *)

(** A segment that loads, with finite values and modulators in range. *)
Definition segment_ok (mods_in_range : list f32 -> bool) (channels : Z) (s : Segment) : Prop :=
  check_width s channels = Ok tt /\ all_finite (sg_values s) = true /\
  (forall m, sg_neuromodulators s = Some m ->
     all_finite (mod_values m) = true /\ mods_in_range (mod_values m) = true).

Lemma check_width_ok s channels :
  check_width s channels = Ok tt ->
  len (sg_values s) = channels /\ forall mask, sg_valid_mask s = Some mask -> length mask = length (sg_values s).
Proof.
  unfold check_width. rewrite require_ok, negb_true_iff, orb_false_iff, !negb_false_iff, !Z.eqb_eq.
  intros [Hv Hm]. split; [done|]. intros mask E. rewrite E in Hm. unfold len in *. lia.
Qed.

Lemma check_segments_ok segments channels :
  check_segments segments channels = Ok tt <-> Forall (fun s => check_width s channels = Ok tt) segments.
Proof.
  induction segments as [|s segments IH]; simpl; [by split; [constructor|]|].
  rewrite result_unit_bind_ok, Forall_cons, IH. done.
Qed.

Lemma zeroed_values mask xs :
  length mask = length xs ->
  zip_with (fun x (ok : bool) => if ok then x else f_zero) xs mask = apply_mask mask xs.
Proof. intros Hl. rewrite <- zip_mask, drop_ge by lia. by rewrite app_nil_r. Qed.

Lemma variant_input_ok mods_in_range v channels s :
  segment_ok mods_in_range channels s -> Forall (tick_input_ok mods_in_range channels) (segment_inputs v s).
Proof.
  intros (Hw & Hf & Hm). apply check_width_ok in Hw as [Hl Hmask]. unfold segment_inputs, variant_apply.
  destruct v; [|destruct (sg_valid_mask s) as [mask|] eqn:E|]; apply Forall_replicate; (split; [|split; [|split]]);
    simpl; try done.
  - rewrite zeroed_values by (by apply Hmask). by apply apply_mask_finite.
  - rewrite zeroed_values by (by apply Hmask). unfold len. by rewrite apply_mask_length.
  - intros m [= <-]. rewrite zeroed_values, apply_mask_length, length_replicate by (by apply Hmask). by apply Hmask.
Qed.

Lemma expanded_inputs_ok mods_in_range v w channels :
  Forall (segment_ok mods_in_range channels) (sw_segments w) -> Forall (tick_input_ok mods_in_range channels) (expand_segments w v).
Proof.
  intros Hs. unfold expand_segments. apply Forall_bind, Forall_forall. intros cycle _. simpl.
  apply Forall_bind. eapply Forall_impl; [exact Hs|]. intros s. apply variant_input_ok.
Qed.

(** What the baseline sees of an input. *)
Definition input_view (mods_default : NeuroModulators) (channels : Z) (i : TickInput) :
    string * (list f32 * NeuroModulators) :=
  (ti_segment i, baseline_inputs mods_default i channels).

(** Zeroing a masked channel is masking it. *)
Lemma zeroed_view mods_in_range mods_default channels s :
  segment_ok mods_in_range channels s ->
  input_view mods_default channels <$> segment_inputs Zeroed s =
  input_view mods_default channels <$> segment_inputs MainVariant s.
Proof.
  intros (Hw & _ & _). apply check_width_ok in Hw as [Hl Hmask]. unfold segment_inputs, variant_apply.
  destruct (sg_valid_mask s) as [mask|] eqn:E; [|done]. specialize (Hmask mask eq_refl).
  rewrite !fmap_replicate. f_equal. unfold input_view. f_equal.
  rewrite (surjective_pairing (baseline_inputs _ _ _)), (surjective_pairing (baseline_inputs _ (MkTickInput _ (sg_values s) _ _) _)).
  f_equal. rewrite !baseline_inputs_stimuli. simpl. rewrite zeroed_values, apply_mask_true, apply_mask_length by done.
  assert (length (sg_values s) = Z.to_nat channels) as Hn by (unfold len in Hl; lia).
  rewrite !take_ge, drop_ge, !app_nil_r; rewrite ?length_replicate, ?apply_mask_length; try lia. done.
Qed.

Lemma zeroed_expansion mods_in_range mods_default channels w :
  Forall (segment_ok mods_in_range channels) (sw_segments w) ->
  input_view mods_default channels <$> expand_segments w Zeroed =
  input_view mods_default channels <$> expand_segments w MainVariant.
Proof.
  intros Hs. unfold expand_segments. rewrite !fmap_of_bind. apply list_bind_ext; [|done]. intros _.
  apply Forall_bind_ext. eapply Forall_impl; [exact Hs|]. intros s. apply zeroed_view.
Qed.

(** The records a run writes. *)
Definition written (ran : result SecondaryError RunOutput) (inputs : list TickInput) :
    result SecondaryError (list TraceRecord) :=
  ran ≫= fun output => write_trace (ro_trace output) inputs.
