(* ===== verification/Ablation.v ===== *)
(** * Masking by zeroing (the secondary driver's ablation)

    The daemon and the baseline of the secondary driver (Secondary.v) write the
    same trace, and the daemon cannot tell a workload whose masked channels were
    zeroed by the sender from the masked one. *)

From S2P Require Import Prelude Floats Packet NetAddr Queue QueueConc Ingress Health Config Corpus.
From S2P Require Import Backend Checkpoint Diagnostics Tick Daemon Replay Workload Inprocess Agreement Secondary.
Local Open Scope Z_scope.

(** ** The guarantees of the driver *)

Section SecondaryAgreement.
Context {LifRest NetRest StdpRest : Type}.
Abbreviation Network := (@SpikingNetwork LifRest NetRest StdpRest).
Variable fs : Fs.
Variable parse_document : string -> result unit SidecarDocument.
Variable parse_hub : string -> result unit HubConfig.
Variable sha256 : list Z -> list Z.
Variable with_dimensions : Z -> Z -> Z -> Network.
Variable set_rm_stdp_config : @RmStdpConfig StdpRest -> Network -> Network.
Variable components : string -> path.
Variable display : path -> string.
Variable net_step : Network -> list f32 -> NeuroModulators -> Network * result string (list Z).
Variable mods_default : NeuroModulators.
Variable to_vec : IpcMessage -> result string string.
Variable from_slice : string -> result string IpcMessage.
Variable validate : StimulusBatch -> result string unit.
Variable validate_snapshot : NeuromodulatorSnapshot -> result string unit.
Variable mods_in_range : list f32 -> bool.

Abbreviation daemon_run := (secondary_run_daemon fs parse_document parse_hub sha256 with_dimensions
  set_rm_stdp_config components display net_step mods_default to_vec from_slice validate validate_snapshot).
Abbreviation baseline_run := (secondary_run_baseline fs parse_document parse_hub sha256 with_dimensions
  set_rm_stdp_config components display net_step mods_default).

Hypothesis stimuli_codec : stimuli_roundtrip to_vec from_slice.
Hypothesis snapshots_codec : snapshots_roundtrip mods_in_range to_vec from_slice.
Hypothesis validates : validates_wellformed validate.
Hypothesis validates_mods : validates_snapshots mods_in_range validate_snapshot.
Hypothesis sized : with_dimensions_sized with_dimensions.
Hypothesis sets : set_config_sets set_rm_stdp_config.
Hypothesis in_range : step_ids_in_range net_step.

Record segments_setting_ok (c : DaemonConfig) (w : SegmentWorkload) (variant : Variant)
    (reads : list PollClock) (env : Z -> TickEnv) : Prop := {
  si_unsigned : daemon_unsigned c;
  si_payload : 4 <= max_payload_len (Config.ingress c);
  si_segments : Forall (segment_ok mods_in_range (channels c)) (sw_segments w);
  si_length : len (expand_segments w variant) <= u64_max;
  si_fresh : Forall poll_fresh reads;
  si_quiet : forall t, undisturbed (env t);
}.

(** The segment driver's daemon and baseline write the same trace: for one
    configuration, workload and variant both fail, or both write a record for
    every tick, with the same segment and the same spike channels in the order
    the engine spiked them. *)
Lemma secondary_runs_agree c w variant reads emit_reads env tick_clock clock :
  let inputs := expand_segments w variant in
  segments_setting_ok c w variant reads env ->
  match written (daemon_run c inputs reads emit_reads env clock) inputs,
        written (baseline_run c inputs tick_clock) inputs with
  | Ok d, Ok b => trace_view <$> d = trace_view <$> b
  | Err _, Err _ => True
  | _, _ => False
  end.
Proof.
  intros inputs [Hu Hpay Hseg Hmax Hfr Hq].
  pose proof (expanded_inputs_ok mods_in_range variant w (channels c) Hseg) as Hin. fold inputs in Hmax, Hin.
  clearbody inputs. unfold secondary_run_daemon, secondary_run_baseline, trace_backend.
  set (src0 := MkSecondarySource _ _ _ _ _). set (sink0 := MkTraceSink _ _).
  destruct (restore _ _ _ _ _ _ _ _ c) as [[net p]|e] eqn:Hr.
  - destruct (daemon_validate c) as [[]|e] eqn:Hv.
    2: { pose proof (restored_invalid fs parse_document parse_hub sha256 with_dimensions set_rm_stdp_config
           components display c e Hv) as Hinv. by rewrite Hr in Hinv. }
    pose proof (proj1 (daemon_validate_ok c Hu) Hv) as [_ _ _ Hch _ _ _ _ _ _].
    destruct (secondary_delivers to_vec from_slice validate validate_snapshot mods_in_range stimuli_codec snapshots_codec validates validates_mods
      (channels c) (length inputs) src0) as (packets & src1 & Hdel & Hcar & Hpolls); try done.
    rewrite drop_0 in Hcar.
    pose proof (Forall2_length _ _ _ Hcar) as Hpn.
    destruct (run_engine (H := secondary_source to_vec from_slice validate validate_snapshot) fs parse_document
      parse_hub sha256 with_dimensions set_rm_stdp_config components display net_step mods_default c src0 sink0
      (dc_constructed clock) (dc_init clock) (dc_check clock) packets (env <$> seqZ 0 (len inputs)) src0 src1
      src1 net p) as (d & world & stats & -> & Hran & Hws & _ & _ & _ & _ & _ & Heng); try done.
    { rewrite length_fmap, length_seqZ. simpl in Hpn. unfold len. lia. }
    { apply Forall_fmap, Forall_forall. intros t _. apply Hq. }
    { by apply (inputs_deliverable mods_in_range _ (channels c) inputs); [..|lia|]. }
    { simpl in Hpn. unfold len in *. by rewrite <- Hpn. }
    rewrite (inputs_decoded mods_in_range mods_default (channels c) inputs packets Hcar Hin) in Heng by lia.
    cbn [map_err mbind result_bind]. rewrite Hran. cbn [map_err mbind result_bind].
    pose proof (secondary_loop_engine net_step tick_clock 0
      ((fun i => baseline_inputs mods_default i (channels c)) <$> inputs) net (MkTrace [] []) 0) as Hb.
    rewrite Hws. simpl in Hpn, Hpolls.
    destruct (engine_run net_step _ net) as [net' [outs|e]]; cbn [snd] in Heng, Hb.
    + destruct Heng as (Hwk & Hol & Hids & _). destruct Hb as (trace' & dropped' & -> & He & Hp & Hn).
      simpl in Hwk, He, Hp, Hn. rewrite representable_all in He by done. rewrite list_fmap_id in Hwk.
      assert (len (tsk_emits (w_sink world)) = len inputs) as Hel
        by (unfold len; rewrite <- (length_fmap snd), Hwk, Hol; by rewrite Hpn).
      assert (len outs = len inputs) as Hoi by (unfold len; rewrite Hol; by rewrite Hpn).
      unfold written, write_trace. cbn [mbind result_bind ro_trace tr_polls tr_emits].
      rewrite Hpolls, Hel, Hp, Hn, Hoi. rewrite !(proj2 (Z.eqb_eq _ _)) by (unfold len; simpl; lia).
      cbn [require mbind result_bind]. unfold len in *. cbn [length Z.of_nat] in Hpolls, Hp.
      apply trace_records_view; [lia|lia|by rewrite Hwk, He|lia].
    + rewrite Hb. unfold written, write_trace. cbn [mbind result_bind ro_trace tr_polls tr_emits].
      simpl in Heng. rewrite length_fmap in Heng. rewrite Hpolls, (proj2 (Z.eqb_neq _ _)); [done|].
      unfold len in *. simpl. lia.
  - pose proof (run_unrestored (H := secondary_source to_vec from_slice validate validate_snapshot) fs parse_document
      parse_hub sha256 with_dimensions set_rm_stdp_config components display net_step mods_default c src0 sink0
      (dc_constructed clock) (dc_init clock) (dc_check clock) (env <$> seqZ 0 (len inputs)) e Hr) as Hrun.
    destruct (try_with_backend c src0 sink0 _) as [d|e']; [|done]. simpl.
    by destruct (run_for_ticks _ _ _ _ _ _ _ _ _ _ _ _ _ _) as [world [stats|e']].
Qed.
(** The baseline's file depends only on what it sees of the inputs. *)
Lemma trace_records_names tick polls emits inputs inputs' :
  ti_segment <$> inputs = ti_segment <$> inputs' ->
  trace_records tick polls emits inputs = trace_records tick polls emits inputs'.
Proof.
  revert tick polls emits inputs'. induction inputs as [|i inputs IH];
    intros tick polls emits [|i' inputs'] Hn; try done.
  injection Hn as Hi Hn. destruct polls as [|p polls], emits as [|[t ch] emits]; try done.
  csimpl. rewrite Hi. f_equal. by apply IH.
Qed.

Lemma baseline_sees c inputs inputs' tick_clock :
  input_view mods_default (channels c) <$> inputs = input_view mods_default (channels c) <$> inputs' ->
  written (baseline_run c inputs tick_clock) inputs = written (baseline_run c inputs' tick_clock) inputs'.
Proof.
  intros Hv. assert (ti_segment <$> inputs = ti_segment <$> inputs' /\
    (fun i => baseline_inputs mods_default i (channels c)) <$> inputs =
    (fun i => baseline_inputs mods_default i (channels c)) <$> inputs') as [Hn Hd].
  { split; [pose proof (f_equal (fmap fst) Hv) as E|pose proof (f_equal (fmap snd) Hv) as E];
      rewrite <- !list_fmap_compose in E; exact E. }
  unfold secondary_run_baseline. rewrite Hd. destruct (restore _ _ _ _ _ _ _ _ c) as [[net p]|e]; [|done].
  cbn [map_err mbind result_bind]. destruct (secondary_loop _ _ _ _ _ _ _) as [[trace dropped]|e]; [|done].
  unfold written, write_trace. cbn [mbind result_bind ro_trace].
  destruct (require _ _); [|done]. cbn [mbind result_bind]. f_equal. by apply trace_records_names.
Qed.

(** C20: zeroing is masking.  The daemon run on the [Zeroed] variant of a workload,
    with its all-true masks, and the daemon run on the [MainVariant], at any
    times, write the same trace: the same segments and spike channels tick by
    tick, or neither writes one.  It is stated for the settings of
    [segments_setting_ok]: segments that load, with finite values and modulators
    in the ranges corpus-ipc accepts ([mods_in_range]), a payload of four fits
    the ingress, fresh frames, and no other producer. *)
Theorem zeroed_is_masked c w reads reads' emit_reads emit_reads' env env' clock clock' :
  segments_setting_ok c w Zeroed reads env -> segments_setting_ok c w MainVariant reads' env' ->
  match written (daemon_run c (expand_segments w Zeroed) reads emit_reads env clock) (expand_segments w Zeroed),
        written (daemon_run c (expand_segments w MainVariant) reads' emit_reads' env' clock')
          (expand_segments w MainVariant) with
  | Ok z, Ok m => trace_view <$> z = trace_view <$> m
  | Err _, Err _ => True
  | _, _ => False
  end.
Proof.
  intros Hz Hm. pose proof (secondary_runs_agree c w Zeroed reads emit_reads env (fun t => (t, t)) clock Hz) as Az.
  pose proof (secondary_runs_agree c w MainVariant reads' emit_reads' env' (fun t => (t, t)) clock' Hm) as Am.
  cbv zeta in Az, Am.
  rewrite (baseline_sees c _ _ _ (zeroed_expansion mods_in_range mods_default (channels c) w (si_segments _ _ _ _ _ Hz))) in Az.
  destruct (written (daemon_run c (expand_segments w Zeroed) _ _ _ _) _),
    (written (daemon_run c (expand_segments w MainVariant) _ _ _ _) _),
    (written (baseline_run _ _ _) _); try done. by rewrite Az, Am.
Qed.
End SecondaryAgreement.

(** ** Witnesses *)

Definition demo_segments : SegmentWorkload := {|
  sw_version := "demo";
  sw_channels := 8;
  sw_cycles := 1;
  sw_warmup_cycles := 0;
  sw_segments :=
    [MkSegment "masked" 2 (replicate 8 f_one32) (Some (false :: replicate 7 true)) (Some demo_mod_event);
     MkSegment "idle" 1 (replicate 8 f_zero) None None];
  sw_transport := MkTransportSpec 1000 10 5 f_one32 0 5 1000 100;
|}.

Lemma demo_segments_setting v : segments_setting_ok demo_mods_in_range demo_config demo_segments v [] demo_tick_env.
Proof.
  split; [exact demo_config_unsigned|vm_compute; discriminate| | |constructor|by intros t i].
  - apply Forall_cons_2; [|apply Forall_cons_2; [|constructor]]; (split; [reflexivity|split; [reflexivity|]]);
      intros m E; [injection E as <-|discriminate E]; split; vm_compute; reflexivity.
  - destruct v; vm_compute; discriminate.
Qed.

Definition demo_validate_snapshot (snapshot : NeuromodulatorSnapshot) : result string unit :=
  if all_finite (modulator_values snapshot) && demo_mods_in_range (modulator_values snapshot)
  then Ok tt else Err "out of range"%string.

Lemma demo_validates_snapshots : validates_snapshots demo_mods_in_range demo_validate_snapshot.
Proof. intros snapshot Hf Hr. unfold demo_validate_snapshot. by rewrite Hf, Hr. Qed.

Abbreviation demo_segment_run := (fun v => written (secondary_run_daemon demo_fs (fun _ => Ok demo_document)
  (fun _ => Err tt) (fun b => b) demo_with_dimensions demo_set_config (fun s => [s]) (fun _ => "p"%string)
  demo_engine_step demo_mods demo_to_vec demo_codec_slice demo_validate demo_validate_snapshot
  demo_config (expand_segments demo_segments v) [] [] demo_tick_env demo_clock) (expand_segments demo_segments v)).

Lemma demo_segment_runs : is_ok (demo_segment_run MainVariant) = true.
Proof. vm_compute. reflexivity. Qed.

Lemma zeroed_is_masked_witness : is_ok (demo_segment_run Zeroed) = true.
Proof.
  pose proof (zeroed_is_masked demo_fs (fun _ => Ok demo_document) (fun _ => Err tt) (fun b => b)
    demo_with_dimensions demo_set_config (fun s => [s]) (fun _ => "p"%string) demo_engine_step demo_mods
    demo_to_vec demo_codec_slice demo_validate demo_validate_snapshot demo_mods_in_range
    demo_stimuli_roundtrip demo_snapshots_roundtrip demo_validates_wellformed
    demo_validates_snapshots demo_dimensions_sized demo_config_sets demo_engine_in_range demo_config demo_segments
    [] [] [] [] demo_tick_env demo_tick_env demo_clock demo_clock
    (demo_segments_setting Zeroed) (demo_segments_setting MainVariant)) as H.
  pose proof demo_segment_runs as Hm. cbv beta in *.
  destruct (written _ (expand_segments demo_segments Zeroed)) as [z|e]; [reflexivity|].
  destruct (written _ (expand_segments demo_segments MainVariant)) as [m|e']; [destruct H|discriminate Hm].
Defined.
