(* ===== verification/Process.v ===== *)
(** * The daemon as a child process (examples/usefulness_common/process.rs, [vm_status_kb] of mod.rs)

    What the transport driver does to the process it measures: waiting until it
    answers [/readyz], reading its pages and its memory, stopping it.  What the
    operating system answers - whether the child has exited, how an HTTP exchange
    ends, the instants read - is listed poll by poll; a wait whose list runs out
    is [StillWaiting], which is no outcome of the code. *)

From Stdlib Require Import Ascii.
From stdpp Require Import pretty.
From S2P Require Import Prelude NetAddr Text Health HealthView Control Probe.
Local Open Scope Z_scope.

(** ** Text *)

(** [str::parse] of an unsigned type: an optional plus sign and digits. *)
Definition parse_unsigned (max : Z) (s : bytes) : option Z :=
  let digits := match s with c :: rest => if Ascii.eqb c "+"%char then rest else s | [] => s end in
  match leading_number max digits with
  | Some (n, []) => if bool_decide (digits = []) then None else Some n
  | _ => None
  end.

(** [str::lines]; [line] is the line being read. *)
Fixpoint lines_from (s line : bytes) : list bytes :=
  match s with
  | [] => flush_word line
  | c :: s' => if Ascii.eqb c lf then strip_cr line :: lines_from s' [] else lines_from s' (line ++ [c])
  end.

Definition lines (s : bytes) : list bytes := lines_from s [].

(** [String::from_utf8_lossy]: whether the text starts with a character, and the
    bytes of it or of what is replaced. *)
Definition utf8_chunk (s : list Z) : bool * nat :=
  let b i := default 0 (s !! i) in
  let at_least i (ok : bool) (more : bool * nat) := if ok then more else (false, i) in
  if b 0%nat <? 128 then (true, 1%nat)
  else if (194 <=? b 0%nat) && (b 0%nat <=? 223) then at_least 1%nat (is_cont (b 1%nat)) (true, 2%nat)
  else if (224 <=? b 0%nat) && (b 0%nat <=? 239) then
    at_least 1%nat (second_of_3 (b 0%nat) (b 1%nat)) (at_least 2%nat (is_cont (b 2%nat)) (true, 3%nat))
  else if (240 <=? b 0%nat) && (b 0%nat <=? 244) then
    at_least 1%nat (second_of_4 (b 0%nat) (b 1%nat))
      (at_least 2%nat (is_cont (b 2%nat)) (at_least 3%nat (is_cont (b 3%nat)) (true, 4%nat)))
  else (false, 1%nat).

Definition replacement : bytes := [chr 239; chr 191; chr 189].

(** [keep] says whether the next [todo] bytes are a character's. *)
Fixpoint lossy (s : bytes) (keep : bool) (todo : nat) : bytes :=
  match s with
  | [] => []
  | c :: s' =>
    match todo with
    | S k => (if keep then [c] else []) ++ lossy s' keep k
    | O => let '(ok, n) := utf8_chunk (code <$> s) in
           (if ok then [c] else replacement) ++ lossy s' ok (pred n)
    end
  end.

Definition from_utf8_lossy (raw : bytes) : bytes := lossy raw true 0.

(** [str::contains]. *)
Fixpoint contains (pat s : bytes) : bool :=
  bool_decide (is_Some (strip_bytes pat s)) || match s with [] => false | _ :: s' => contains pat s' end.

(** ** HTTP *)

(** [split_once] at the first empty line: what follows it. *)
Fixpoint after_blank_line (s : bytes) : option bytes :=
  match strip_bytes (crlf ++ crlf) s with
  | Some rest => Some rest
  | None => match s with [] => None | _ :: s' => after_blank_line s' end
  end.

Definition parse_http (response : bytes) : Z * bytes :=
  (default 0 (split_whitespace response !! 1%nat ≫= parse_unsigned u16_max), default [] (after_blank_line response)).

(** [http_get]'s request. *)
Definition get_request (path : bytes) : bytes :=
  client_request (as_bytes "GET") path (as_bytes "Host: localhost" ++ crlf ++ as_bytes "Connection: close" ++ crlf ++ crlf).

Inductive ProcessError :=
| AlreadyReaped
| TryWait (e : string)
| ExitedEarly
| SocketTimeout (e : string)
| NeverReady
| SigtermFailed (e : string)
| NotExited
| Wait (e : string)
| StillWaiting.

#[export] Instance ProcessError_eq_dec : EqDecision ProcessError.
Proof. solve_decision. Defined.

(** How an exchange with the control surface ends: no connection, a timeout that
    cannot be set, a failed write or read, or the bytes read. *)
Inductive Exchange :=
| NoConnection
| NoTimeout (e : string)
| Broken
| Answered (raw : bytes).

Definition http_get (x : Exchange) : result ProcessError (option (Z * bytes)) :=
  match x with
  | NoConnection => Ok None
  | NoTimeout e => Err (SocketTimeout e)
  | Broken => Ok None
  | Answered raw => Ok (Some (parse_http (from_utf8_lossy raw)))
  end.

(** ** The child *)

Definition READY_DEADLINE : Z := 10000000000.
Definition EXIT_DEADLINE : Z := 10000000000.

(** [child] by its pid. *)
Record DaemonProcess := MkDaemonProcess {
  dp_child : option Z;
  dp_spawned_at : Z;
}.

Definition pid (d : DaemonProcess) : Z := default 0 (dp_child d).

Definition exited (d : DaemonProcess) (try_wait : result string bool) : result ProcessError bool :=
  ok_or (dp_child d) AlreadyReaped ≫= fun _ => map_err TryWait try_wait.

(** One round of [wait_ready], and the instant read after its check. *)
Record ReadyPoll := MkReadyPoll {
  rp_try_wait : result string bool;
  rp_exchange : Exchange;
  rp_now : Z;
}.

Definition ready (d : DaemonProcess) (p : ReadyPoll) : result ProcessError bool :=
  exited d (rp_try_wait p) ≫= fun gone =>
  if gone : bool then Err ExitedEarly
  else http_get (rp_exchange p) ≫= fun reply =>
  Ok (match reply with Some (status, _) => status =? 200 | None => false end).

Fixpoint ready_loop (d : DaemonProcess) (deadline : Z) (polls : list ReadyPoll) : result ProcessError Z :=
  match polls with
  | [] => Err StillWaiting
  | p :: polls' =>
    ready d p ≫= fun ok =>
    if ok : bool then Ok (sat_sub (rp_now p) (dp_spawned_at d))
    else if deadline <? rp_now p then Err NeverReady
    else ready_loop d deadline polls'
  end.

Definition wait_ready (d : DaemonProcess) (now : Z) (polls : list ReadyPoll) : result ProcessError Z :=
  ready_loop d (now + READY_DEADLINE) polls.

(** The shell's exit status, or why it did not run. *)
Definition send_sigterm (kill : result string bool) : result ProcessError unit :=
  map_err SigtermFailed kill ≫= fun success => require success (SigtermFailed "kill -TERM").

(** What stopping the child meets: the instant SIGTERM is sent, the signal, the
    polls with the instant read after each, the instant the exit is noted and the
    exit code. *)
Record StopEnv := MkStopEnv {
  se_sent : Z;
  se_kill : result string bool;
  se_polls : list (result string bool * Z);
  se_wait : result string (option Z);
}.

(** The instant the exit is seen. *)
Fixpoint exit_loop (d : DaemonProcess) (deadline : Z) (polls : list (result string bool * Z)) : result ProcessError Z :=
  match polls with
  | [] => Err StillWaiting
  | (try_wait, now) :: polls' =>
    exited d try_wait ≫= fun gone =>
    if gone : bool then Ok now
    else if deadline <? now then Err NotExited
    else exit_loop d deadline polls'
  end.

(** The child is taken before it is waited for. *)
Definition terminate (env : StopEnv) : stateful DaemonProcess ProcessError (Z * option Z) :=
  get ≫= fun d =>
  lift_result (send_sigterm (se_kill env)) ≫= fun _ =>
  lift_result (exit_loop d (se_sent env + EXIT_DEADLINE) (se_polls env)) ≫= fun now =>
  lift_result (ok_or (dp_child d) AlreadyReaped) ≫= fun _ =>
  modify (fun d => MkDaemonProcess None (dp_spawned_at d)) ≫= fun _ =>
  lift_result (map_err Wait (se_wait env)) ≫= fun status =>
  mret (sat_sub now (se_sent env), status).

(** [Drop]: whether the child is killed and reaped. *)
Definition drop_kills (d : DaemonProcess) : bool := bool_decide (is_Some (dp_child d)).

(** The number after [key] on the first line that starts with it. *)
Definition status_field (status : bytes) (key : string) : option Z :=
  line ← find (fun line => bool_decide (is_Some (strip_bytes (as_bytes key) line))) (lines status);
  split_whitespace line !! 1%nat ≫= parse_unsigned u64_max.

(** [/proc/<pid>/status] as [read] gives it. *)
Definition vm_status_kb (read : string -> option bytes) (p : option Z) (key : string) : option Z :=
  let path := match p with None => "/proc/self/status" | Some p => "/proc/" +:+ pretty p +:+ "/status" end in
  status ← read path; status_field status key.

(** ** What the client reads *)

(** Skipping a header line: what comes before an empty line is not one. *)
Definition no_cr (s : bytes) : bool := forallb (fun c => negb (Ascii.eqb c cr)) s.

Lemma after_blank_no_cr a s : no_cr a = true -> after_blank_line (a ++ s) = after_blank_line s.
Proof.
  unfold no_cr. induction a as [|c a IH]; [done|]. cbn [forallb]. intros [Hc Ha]%andb_true_iff.
  apply negb_true_iff in Hc. rewrite Ascii.eqb_sym in Hc. cbn [app after_blank_line strip_bytes crlf].
  rewrite Hc. by apply IH.
Qed.

Lemma after_blank_line_header a s :
  no_cr a = true -> strip_bytes crlf s = None ->
  after_blank_line (a ++ crlf ++ s) = after_blank_line s.
Proof. intros Ha Hs. rewrite after_blank_no_cr by done. cbn [app after_blank_line strip_bytes crlf] in *.
  rewrite !Ascii.eqb_refl. cbn. by rewrite Hs. Qed.

Lemma parse_unsigned_show max n : 0 <= n <= max -> parse_unsigned max (show_dec n) = Some n.
Proof.
  intros Hn. unfold parse_unsigned. pose proof (show_dec_nonempty n) as Hne.
  assert (forallb (fun c => negb (Ascii.eqb c "+"%char)) (show_dec n) = true) as Hp by (by apply show_dec_forallb; [lia|]).
  pose proof (show_dec_number n max [] Hn ltac:(done)) as Hs. rewrite app_nil_r in Hs.
  destruct (show_dec n) as [|c rest]; [done|]. cbn [forallb] in Hp. apply andb_true_iff in Hp as [Hp _].
  apply negb_true_iff in Hp. rewrite Hp, Hs. by rewrite bool_decide_false.
Qed.

(** The driver reads back every reply of the control surface. *)
Lemma parse_http_response status ct body :
  0 <= status <= u16_max -> no_cr (as_bytes ct) = true ->
  parse_http (http_response status ct body) = (status, body).
Proof.
  intros Hst Hct. unfold parse_http. f_equal.
  - unfold http_response.
    change (as_bytes "HTTP/1.1 ") with (as_bytes "HTTP/1.1" ++ [" "%char]). change (as_bytes " ") with [" "%char].
    rewrite <- !(assoc_L app). cbn [app]. rewrite split_whitespace_word by done. cbn [lookup list_lookup].
    rewrite split_whitespace_word; [|apply show_dec_nonempty|by apply show_dec_forallb; [lia|]].
    change (default 0 (parse_unsigned u16_max (show_dec status)) = status). by rewrite parse_unsigned_show.
  - unfold http_response.
    rewrite (assoc_L app (as_bytes " ")), (assoc_L app (show_dec status)), (assoc_L app (as_bytes "HTTP/1.1 ")).
    assert (no_cr (show_dec status) = true) as Hs by (apply show_dec_forallb; [lia|done]).
    assert (no_cr (as_bytes (reason status)) = true) as Hr by (unfold reason; by repeat case_match).
    assert (no_cr (show_dec (len body)) = true) as Hb by (apply show_dec_forallb; [apply len_nonneg|done]).
    rewrite after_blank_line_header; [|unfold no_cr in *; by rewrite !forallb_app, Hs, Hr|done].
    rewrite (assoc_L app (as_bytes "Content-Type: ")).
    rewrite after_blank_line_header; [|unfold no_cr in *; by rewrite forallb_app, Hct|done].
    rewrite (assoc_L app (as_bytes "Content-Length: ")).
    rewrite after_blank_line_header; [|unfold no_cr in *; by rewrite forallb_app, Hb|done].
    rewrite after_blank_no_cr by done. by destruct body.
Qed.

Lemma lossy_ascii s : ascii_only s = true -> from_utf8_lossy s = s.
Proof.
  unfold from_utf8_lossy. induction s as [|c s IH]; [done|]. unfold ascii_only. cbn [forallb].
  intros [Hc Hs]%andb_true_iff. cbn [lossy]. unfold utf8_chunk at 1. csimpl. rewrite Hc. csimpl. by rewrite IH.
Qed.

Lemma http_response_ascii status ct body :
  0 <= status -> ascii_only (as_bytes ct) = true -> ascii_only body = true ->
  ascii_only (http_response status ct body) = true.
Proof.
  intros Hs Hc Hb. unfold ascii_only, http_response in *. rewrite !forallb_app, Hc, Hb.
  rewrite !show_dec_forallb by (done || apply len_nonneg). unfold reason. by repeat case_match.
Qed.

(** What the driver reads off [/readyz]: 200 exactly when the machine's lock is
    free and its snapshot ready. *)
Lemma driver_reads_readyz to_vec locked m t :
  exists body, http_get (Answered (control_response to_vec (get_request (as_bytes "/readyz")) locked m t)) =
    Ok (Some (if negb locked && hs_ready (snapshot m t) then 200 else 503, body)).
Proof.
  assert (forall status s, 0 <= status <= u16_max -> ascii_only (as_bytes s) = true ->
    http_get (Answered (http_response status text_plain (line_body s))) = Ok (Some (status, line_body s))) as Hget.
  { intros status s Hs Ha. simpl. rewrite lossy_ascii.
    - by rewrite parse_http_response.
    - apply http_response_ascii; [lia|done|]. unfold ascii_only, line_body in *. by rewrite forallb_app, Ha. }
  unfold control_response, try_snapshot. destruct locked; [by eexists; apply Hget|].
  unfold render_http. replace (parse_get_path (get_request (as_bytes "/readyz"))) with (Get (as_bytes "/readyz"))
    by (by vm_compute).
  replace (route to_vec (as_bytes "/readyz") (snapshot m t))
    with (probe (hs_ready (snapshot m t)) (line_body "ready") (line_body "not ready")) by reflexivity.
  unfold probe. destruct (hs_ready (snapshot m t)); eexists; by apply Hget.
Qed.

(** ** The waits *)

Section Waits.
Variable to_vec : HealthSnapshot -> option bytes.

(** A poll of a daemon whose control surface serves [/readyz], and whether it
    finds it ready. *)
Definition polls_daemon (p : ReadyPoll) (ok : bool) : Prop :=
  match rp_exchange p with
  | NoConnection | Broken => ok = false
  | NoTimeout _ => False
  | Answered raw => exists locked m t,
      raw = control_response to_vec (get_request (as_bytes "/readyz")) locked m t /\
      ok = negb locked && hs_ready (snapshot m t)
  end.

Lemma ready_poll d p ok :
  is_Some (dp_child d) -> polls_daemon p ok ->
  ready d p = map_err TryWait (rp_try_wait p) ≫= fun gone : bool => if gone then Err ExitedEarly else Ok ok.
Proof.
  intros [c Hc] Hp. unfold ready, exited. rewrite Hc. cbn [ok_or mbind result_bind].
  destruct (rp_try_wait p) as [[]|]; [done| |done]. cbn [map_err mbind result_bind]. unfold polls_daemon in Hp.
  destruct (rp_exchange p) as [| | |raw]; [by rewrite Hp|done|by rewrite Hp|].
  destruct Hp as (locked & m & t & -> & ->). destruct (driver_reads_readyz to_vec locked m t) as [body ->].
  cbn [mbind result_bind]. by destruct (negb locked && hs_ready (snapshot m t)).
Qed.

(** [wait_ready] returns at the first poll that finds the daemon ready, if it is
    alive until then and no earlier poll read an instant past the deadline. *)
Lemma ready_loop_iff d deadline polls oks elapsed :
  is_Some (dp_child d) -> Forall2 polls_daemon polls oks ->
  ready_loop d deadline polls = Ok elapsed <->
  exists k p, polls !! k = Some p /\ oks !! k = Some true /\ elapsed = sat_sub (rp_now p) (dp_spawned_at d) /\
    (forall j q, (j <= k)%nat -> polls !! j = Some q -> rp_try_wait q = Ok false) /\
    (forall j q, (j < k)%nat -> polls !! j = Some q -> oks !! j = Some false /\ rp_now q <= deadline).
Proof.
  intros Hc Hp. induction Hp as [|p ok polls oks Hp _ IH]; [by split; [|intros (k & p & Hk & _)]|].
  cbn [ready_loop]. rewrite (ready_poll d p ok Hc Hp). destruct (rp_try_wait p) as [gone|e] eqn:Hw.
  - destruct gone; cbn [map_err mbind result_bind].
    + split; [done|]. intros (k & q & _ & _ & _ & Ha & _). specialize (Ha 0%nat p ltac:(lia) eq_refl). congruence.
    + destruct ok.
      * split.
        -- intros [= <-]. exists 0%nat, p. split; [done|]. split; [done|]. split; [done|].
           split; [|lia]. by intros [|j] q Hj; [intros [= <-]|lia].
        -- intros (k & q & Hk & _ & -> & _ & Hb). destruct k as [|k]; [by injection Hk as <-|].
           destruct (Hb 0%nat p ltac:(lia) eq_refl) as [H _]. discriminate H.
      * destruct (Z.ltb_spec deadline (rp_now p)) as [Hd|Hd].
        -- split; [done|]. intros (k & q & Hk & Ht & _ & _ & Hb). destruct k as [|k]; [done|].
           destruct (Hb 0%nat p ltac:(lia) eq_refl) as [_ H]. lia.
        -- rewrite IH. split.
           ++ intros (k & q & Hk & Ht & He & Ha & Hb). exists (S k), q. split; [done|]. split; [done|]. split; [done|].
              split; intros [|j] r Hj; [by intros [= <-]|apply Ha; lia|by intros [= <-]|apply Hb; lia].
           ++ intros (k & q & Hk & Ht & He & Ha & Hb). destruct k as [|k]; [done|]. exists k, q.
              split; [done|]. split; [done|]. split; [done|].
              split; intros j r Hj; [apply (Ha (S j)); lia|apply (Hb (S j)); lia].
  - cbn [map_err mbind result_bind]. split; [done|]. intros (k & q & _ & _ & _ & Ha & _).
    specialize (Ha 0%nat p ltac:(lia) eq_refl). congruence.
Qed.
End Waits.

(** Neither wait outlives its deadline. *)
Lemma ready_loop_ends d deadline polls :
  Exists (fun p => deadline < rp_now p) polls -> ready_loop d deadline polls <> Err StillWaiting.
Proof.
  assert (forall p e, ready d p = Err e -> e <> StillWaiting) as Hr.
  { intros p err. unfold ready, exited. destruct (dp_child d), (rp_try_wait p) as [[]|], (rp_exchange p); by intros [= <-]. }
  induction 1 as [p polls Hp|p polls _ IH]; cbn [ready_loop]; destruct (ready d p) as [[]|e] eqn:Er;
    cbn [mbind result_bind]; try done; try (intros [= ->]; by apply Hr in Er).
  - by rewrite (proj2 (Z.ltb_lt _ _) Hp).
  - by destruct (deadline <? rp_now p).
Qed.

Lemma exit_loop_ends d deadline polls :
  Exists (fun p => deadline < p.2) polls -> exit_loop d deadline polls <> Err StillWaiting.
Proof.
  assert (forall w e, exited d w = Err e -> e <> StillWaiting) as Hr
    by (intros [[]|] err; unfold exited; destruct (dp_child d); by intros [= <-]).
  induction 1 as [[w now] polls Hp|[w now] polls _ IH]; cbn [exit_loop]; destruct (exited d w) as [[]|e] eqn:Er;
    cbn [mbind result_bind]; try done; try (intros [= ->]; by apply Hr in Er).
  - simpl in Hp. by rewrite (proj2 (Z.ltb_lt _ _) Hp).
  - by destruct (deadline <? now).
Qed.

(** A child is reaped exactly once: by [terminate] when it has seen it exit, and
    by the drop otherwise. *)
Lemma terminate_drop env d d' r :
  is_Some (dp_child d) -> terminate env d = (d', r) ->
  (drop_kills d' = false <-> exists now, send_sigterm (se_kill env) = Ok tt /\
     exit_loop d (se_sent env + EXIT_DEADLINE) (se_polls env) = Ok now) /\
  (forall a, r = Ok a -> drop_kills d' = false /\ se_wait env = Ok a.2).
Proof.
  intros [c Hc]. unfold terminate, get, modify, lift_result, mbind, stateful_bind, mret, stateful_ret. rewrite Hc.
  assert (drop_kills d = true) as Hk by (unfold drop_kills; rewrite Hc; by apply bool_decide_eq_true).
  destruct (send_sigterm _) as [[]|e]; [|intros [= <- <-]; split; [|done]; split; [congruence|by intros (now & H & _)]].
  destruct (exit_loop _ _ _) as [now|e]; [|intros [= <- <-]; split; [|done]; split; [congruence|by intros (now & _ & H)]].
  cbn [ok_or]. destruct (se_wait env) as [status|e]; intros [= <- <-].
  - split; [by split; eauto|]. by intros a [= <-].
  - split; [by split; eauto|done].
Qed.

Lemma terminate_spawned env d d' r : terminate env d = (d', r) -> dp_spawned_at d' = dp_spawned_at d.
Proof.
  unfold terminate, get, modify, lift_result, mbind, stateful_bind, mret, stateful_ret.
  destruct (send_sigterm _); [|by intros [= <- _]]. destruct (exit_loop _ _ _); [|by intros [= <- _]].
  destruct (dp_child d), (se_wait env); by intros [= <- _].
Qed.
