(* ===== verification/Pulses.v ===== *)
(** * The transport driver (examples/usefulness_transport.rs, usefulness_common/frames.rs, process.rs)

    The driver that runs the daemon binary and talks to it over ZeroMQ and HTTP:
    the pulses it sends, the frames it collects, and the report it makes of
    them.  The sockets, the clocks and the JSON codec are the environment: the
    n-th send has an outcome, the n-th collection a list of polls - those up to
    the silence that ends it - with the instants they read.  The process itself
    is Process.v's.  Of the summary the values are modelled that the run computes,
    not the paths and the digest it copies. *)

From Stdlib Require Import Ascii.
From stdpp Require Import pretty.
From S2P Require Import Prelude Floats Packet NetAddr Text Health HealthView Control Config Corpus Backend Startup Process Workload Inprocess.
Local Open Scope Z_scope.

(** ** Frames (frames.rs) *)

Inductive FramePhase := Subscribe | Prime | Measure | Tail.

#[export] Instance FramePhase_eq_dec : EqDecision FramePhase.
Proof. solve_decision. Defined.

Definition frame_phase_as_str (p : FramePhase) : string :=
  match p with
  | Subscribe => "subscribe"
  | Prime => "prime"
  | Measure => "measure"
  | Tail => "tail"
  end.

Definition measured (p : FramePhase) : bool :=
  match p with Measure | Tail => true | Subscribe | Prime => false end.

Record PubFrame := MkPubFrame {
  pf_phase : FramePhase;
  pf_recv : Z;
  pf_channels : list Z;
  pf_batch_id : Z;
  pf_timestamp : Z;
}.

Definition measured_nonempty (f : PubFrame) : bool :=
  measured (pf_phase f) && negb (bool_decide (pf_channels f = [])).

(** A decoded PUB message: a spike batch, or another variant by name. *)
Inductive PubMessage := PubSpikes (batch : SpikeBatch) | PubOther (name : string).

Inductive TransportError :=
| LoadConfig (e : LoadError string string)
| NoControlBind
| ControlAddress (s : string)
| Spawn (e : string)
| Process (e : ProcessError)
| WriteFailed (e : string)
| WorkloadRejected (e : WorkloadError)
| SpacingZero (hz : Z)
| ExpectedMissing (channel : Z)
| EncodeFailed (e : string)
| DecodeFailed (e : string)
| UnexpectedFrame (name : string)
| Zmq (e : string)
| NotSubscribed
| PrimingFailed
| OutOfRange
| Panicked.

(** One trip of the collection loop: the instant read for the remaining time,
    what [poll] and [recv_bytes] return, and the instant read afterwards. *)
Record Poll := MkPoll {
  po_now : Z;
  po_ready : result string bool;
  po_bytes : result string string;
  po_recv : Z;
}.

Definition recv_until (deadline : Z) (p : Poll) : result TransportError (option string) :=
  let remaining := sat_sub deadline (po_now p) in
  if remaining =? 0 then Ok None
  else
    map_err (fun _ => OutOfRange) (i64_try_from (Z.max (remaining / 1000000) 1)) ≫= fun _ =>
    map_err Zmq (po_ready p) ≫= fun ready =>
    if negb ready then Ok None
    else map_err Zmq (po_bytes p) ≫= fun bytes => Ok (Some bytes).

Section Frames.
Variable decode_pub : string -> result string PubMessage.

Definition parse_spikes (bytes : string) : result TransportError (list Z * Z * Z) :=
  map_err DecodeFailed (decode_pub bytes) ≫= fun message =>
  match message with
  | PubSpikes batch =>
    Ok (sort_unstable (channel <$> pb_spikes batch), pb_batch_id batch, pb_timestamp batch)
  | PubOther name => Err (UnexpectedFrame name)
  end.

(** The frames pushed before an error stay pushed. *)
Fixpoint collect_loop (polls : list Poll) (deadline : Z) (phase : FramePhase) (frames : list PubFrame) :
    list PubFrame * result TransportError unit :=
  match polls with
  | [] => (frames, Ok tt)
  | p :: polls' =>
    match recv_until deadline p with
    | Err e => (frames, Err e)
    | Ok None => (frames, Ok tt)
    | Ok (Some bytes) =>
      match parse_spikes bytes with
      | Err e => (frames, Err e)
      | Ok (channels, batch_id, timestamp) =>
        collect_loop polls' deadline phase
          (frames ++ [MkPubFrame phase (po_recv p) channels batch_id timestamp])
      end
    end
  end.
End Frames.

(** ** The session *)

Definition SUBSCRIBE_DEADLINE : Z := 5000000000.
Definition PRIME_ATTEMPTS : nat := 200.
Definition PRIME_WAIT : Z := 100000000.
Definition TAIL_WAIT : Z := 250000000.
Definition TRANSPORT_SESSION_ID : string := "usefulness-transport".

Record Session := MkSession {
  ss_channels : Z;
  ss_amplitude : f32;
  ss_pulses : Z;
  ss_spacing : Z;
  ss_expected : list (list Z);
}.

(** [collect::<Result<_>>]: the first missing channel is the error. *)
Fixpoint collect_expected (by_channel : gmap string (list Z)) (channels : list Z) :
    result TransportError (list (list Z)) :=
  match channels with
  | [] => Ok []
  | c :: rest =>
    ok_or (by_channel !! pretty c) (ExpectedMissing c) ≫= fun e =>
    collect_expected by_channel rest ≫= fun es => Ok (e :: es)
  end.

Definition Session_new (cfg : DaemonConfig) (w : Workload) : result TransportError Session :=
  map_err WorkloadRejected (check_channels w (channels cfg)) ≫= fun _ =>
  let transport := wl_transport w in
  let spacing := wmul64 1000000000 (tr_pulse_spacing_ticks transport) / tick_rate_hz cfg in
  require (negb (spacing =? 0)) (SpacingZero (tick_rate_hz cfg)) ≫= fun _ =>
  collect_expected (tr_expected_by_channel transport) (seqZ 0 (channels cfg)) ≫= fun expected =>
  Ok {| ss_channels := channels cfg;
        ss_amplitude := tr_amplitude transport;
        ss_pulses := tr_pulses transport;
        ss_spacing := spacing;
        ss_expected := expected |}.

Record Pulse := MkPulse {
  pu_index : nat;
  pu_channel : nat;
  pu_sent_at : Z;
}.

(** The environment, by how many of each call came before. *)
Record WireEnv := MkWireEnv {
  we_now_ns : nat -> Z;                      (** the wall clock of the n-th frame *)
  we_send : nat -> result string unit;       (** the n-th [send] *)
  we_collect_at : nat -> Z;                  (** [Instant::now] of the n-th collection *)
  we_polls : nat -> list Poll;
  we_start : Z;                              (** [measure]'s start *)
  we_sent_at : nat -> Z;                     (** read before the n-th pulse's send *)
  we_wait_at : nat -> Z;                     (** read after it *)
}.

Record Driver := MkDriver {
  dr_frames : list PubFrame;
  dr_batch_id : Z;
  dr_sent : list string;
  dr_collects : nat;
}.

Definition set_sent (batch_id : Z) (sent : list string) (d : Driver) : Driver :=
  MkDriver (dr_frames d) batch_id sent (dr_collects d).

Section Driver.
Variable to_vec : IpcMessage -> result string string.
Variable decode_pub : string -> result string PubMessage.
Variable env : WireEnv.
Variable session : Session.

(** [values[channel] = amplitude] panics out of range. *)
Definition session_values (channel : nat) : result TransportError (list f32) :=
  let values := replicate (Z.to_nat (ss_channels session)) f_zero in
  require (channel <? length values)%nat Panicked ≫= fun _ =>
  Ok (<[channel := ss_amplitude session]> values).

Definition session_frame (channel : nat) (batch_id now_ns : Z) : result TransportError string :=
  session_values channel ≫= fun values =>
  map_err EncodeFailed
    (stimulus_frame to_vec TRANSPORT_SESSION_ID batch_id now_ns values
       (Some (replicate (Z.to_nat (ss_channels session)) true))).

Definition encode_frame (channel : nat) : stateful Driver TransportError string := fun d =>
  (d, session_frame channel (dr_batch_id d) (we_now_ns env (length (dr_sent d)))).

Definition send (payload : string) : stateful Driver TransportError unit := fun d =>
  match we_send env (length (dr_sent d)) with
  | Err e => (d, Err (Zmq e))
  | Ok _ => (set_sent (dr_batch_id d) (dr_sent d ++ [payload]) d, Ok tt)
  end.

Definition next_batch : stateful Driver TransportError unit :=
  modify (fun d => set_sent (wadd64 (dr_batch_id d) 1) (dr_sent d) d).

Definition collect_frames (wait : Z) (phase : FramePhase) : stateful Driver TransportError unit := fun d =>
  let n := dr_collects d in
  let '(frames, r) := collect_loop decode_pub (we_polls env n) (we_collect_at env n + wait) phase (dr_frames d) in
  (MkDriver frames (dr_batch_id d) (dr_sent d) (S n), r).

Definition confirm_subscription : stateful Driver TransportError unit :=
  collect_frames SUBSCRIBE_DEADLINE Subscribe ≫= fun _ =>
  get ≫= fun d =>
  if bool_decide (dr_frames d = []) then bail NotSubscribed else mret tt.

(** [expected[0]] is there: [frame(0, _)] has panicked were there no channel. *)
Fixpoint prime_loop (attempts : list nat) : stateful Driver TransportError nat :=
  match attempts with
  | [] => bail PrimingFailed
  | attempt :: rest =>
    encode_frame 0 ≫= fun payload =>
    send payload ≫= fun _ =>
    next_batch ≫= fun _ =>
    get ≫= fun before =>
    collect_frames PRIME_WAIT Prime ≫= fun _ =>
    get ≫= fun d =>
    if existsb (fun f => bool_decide (pf_channels f = default [] (head (ss_expected session))))
         (drop (length (dr_frames before)) (dr_frames d))
    then collect_frames (ss_spacing session * 2) Prime ≫= fun _ => mret attempt
    else prime_loop rest
  end.

Definition prime : stateful Driver TransportError nat := prime_loop (seq 1 PRIME_ATTEMPTS).

Fixpoint measure_loop (indices : list nat) (pulses : list Pulse) : stateful Driver TransportError (list Pulse) :=
  match indices with
  | [] => mret pulses
  | index :: rest =>
    let channel := (index mod Z.to_nat (ss_channels session))%nat in
    encode_frame channel ≫= fun payload =>
    next_batch ≫= fun _ =>
    send payload ≫= fun _ =>
    let pulses := pulses ++ [MkPulse index channel (we_sent_at env index)] in
    if u32_max <? Z.of_nat (S index) then bail OutOfRange
    else
      let next := we_start env + ss_spacing session * Z.of_nat (S index) in
      collect_frames (sat_sub next (we_wait_at env index)) Measure ≫= fun _ =>
      measure_loop rest pulses
  end.

Definition measure : stateful Driver TransportError (list Pulse) :=
  measure_loop (seq 0 (Z.to_nat (ss_pulses session))) [] ≫= fun pulses =>
  collect_frames TAIL_WAIT Tail ≫= fun _ =>
  mret pulses.

(** [capture] up to the last frame collected. *)
Definition send_and_collect : Driver * result TransportError (nat * list Pulse) :=
  (confirm_subscription ≫= fun _ =>
   prime ≫= fun attempts =>
   measure ≫= fun pulses =>
   mret (attempts, pulses)) (MkDriver [] 1 [] 0).
End Driver.

(** ** The report *)

Record PulseReport := MkPulseReport {
  pr_pulse : nat;
  pr_channel : nat;
  pr_matched : bool;
  pr_latency_ns : option Z;
  pr_received : option (list Z);
}.

Record Outcome := MkOutcome {
  oc_latencies_ns : list Z;
  oc_matched : Z;
  oc_mismatched : Z;
  oc_per_pulse : list PulseReport;
}.

Definition Outcome_default : Outcome := MkOutcome [] 0 0 [].

Definition answered (pulse : Pulse) (frame : PubFrame) (want : list Z) (o : Outcome) : Outcome :=
  let matched := bool_decide (pf_channels frame = want) in
  let latency := wrap64 (sat_sub (pf_recv frame) (pu_sent_at pulse)) in {|
    oc_latencies_ns := oc_latencies_ns o ++ [latency];
    oc_matched := if matched then wadd64 (oc_matched o) 1 else oc_matched o;
    oc_mismatched := if matched then oc_mismatched o else wadd64 (oc_mismatched o) 1;
    oc_per_pulse := oc_per_pulse o ++
      [MkPulseReport (pu_index pulse) (pu_channel pulse) matched (Some latency) (Some (pf_channels frame))] |}.

Definition unanswered (pulse : Pulse) (o : Outcome) : Outcome := {|
  oc_latencies_ns := oc_latencies_ns o;
  oc_matched := oc_matched o;
  oc_mismatched := oc_mismatched o;
  oc_per_pulse := oc_per_pulse o ++ [MkPulseReport (pu_index pulse) (pu_channel pulse) false None None] |}.

(** [expected[pulse.channel]] is in range: one entry per channel. *)
Definition correlate_pulse (nonempty : list PubFrame) (expected : list (list Z)) (o : Outcome) (pulse : Pulse) :
    Outcome :=
  match nonempty !! pu_index pulse with
  | Some frame => answered pulse frame (default [] (expected !! pu_channel pulse)) o
  | None => unanswered pulse o
  end.

Definition nonempty_frames (frames : list PubFrame) : list PubFrame :=
  base.filter (fun f => measured_nonempty f = true) frames.

Definition correlate (pulses : list Pulse) (frames : list PubFrame) (expected : list (list Z)) : Outcome * nat :=
  let nonempty := nonempty_frames frames in
  (fold_left (correlate_pulse nonempty expected) pulses Outcome_default, length nonempty).

(** The [map] closure with its counter. *)
Fixpoint assign_from (seen pulses : nat) (frames : list PubFrame) : list (option nat) :=
  match frames with
  | [] => []
  | frame :: rest =>
    if negb (measured_nonempty frame) then None :: assign_from seen pulses rest
    else (if (seen <? pulses)%nat then Some seen else None) :: assign_from (S seen) pulses rest
  end.

Definition pulse_assignment (frames : list PubFrame) (pulses : nat) : list (option nat) :=
  assign_from 0 pulses frames.

Record FrameRecord := MkFrameRecord {
  fc_seq : nat;
  fc_phase : string;
  fc_recv_ns : Z;
  fc_channels : list Z;
  fc_batch_id : Z;
  fc_timestamp : Z;
  fc_pulse : option nat;
  fc_send_ns : option Z;
}.

(** The lines of [write_frames]. *)
Definition frame_record (pulses : list Pulse) (started : Z) (seq : nat) (fa : PubFrame * option nat) : FrameRecord :=
  let '(frame, pulse) := fa in {|
    fc_seq := seq;
    fc_phase := frame_phase_as_str (pf_phase frame);
    fc_recv_ns := wrap64 (sat_sub (pf_recv frame) started);
    fc_channels := pf_channels frame;
    fc_batch_id := pf_batch_id frame;
    fc_timestamp := pf_timestamp frame;
    fc_pulse := pulse;
    fc_send_ns := i ← pulse; (fun p => wrap64 (sat_sub (pu_sent_at p) started)) <$> pulses !! i |}.

Definition frame_records (frames : list PubFrame) (pulses : list Pulse) (started : Z) : list FrameRecord :=
  imap (frame_record pulses started) (zip frames (pulse_assignment frames (length pulses))).

(** [lost] and [extra_nonempty] of the summary. *)
Definition lost (pulses : list Pulse) (o : Outcome) : Z :=
  wrap64 (wrap64 (len pulses - oc_matched o) - oc_mismatched o).
Definition extra_nonempty (nonempty : nat) (pulses : list Pulse) : Z :=
  sat_sub (Z.of_nat nonempty) (len pulses).

Definition count_frames (frames : list PubFrame) (pred : PubFrame -> bool) : Z := count pred frames.

(** ** Probes, setup and the whole run *)

Record Probes := MkProbes {
  pb_metrics : option (Z * bytes);
  pb_health : option (Z * bytes);
  pb_rss_kb : option Z;
  pb_peak_rss_kb : option Z;
}.

(** What capturing meets besides the wire: the two exchanges, the status file at
    each reading, the stop, and the log if it can be read. *)
Record CaptureEnv := MkCaptureEnv {
  ce_metrics : Exchange;
  ce_health : Exchange;
  ce_rss : string -> option bytes;
  ce_peak : string -> option bytes;
  ce_stop : StopEnv;
  ce_log : option bytes;
}.

Definition probe_daemon (env : CaptureEnv) (p : Z) : result ProcessError Probes :=
  http_get (ce_metrics env) ≫= fun metrics =>
  http_get (ce_health env) ≫= fun health =>
  Ok (MkProbes metrics health (vm_status_kb (ce_rss env) (Some p) "VmRSS:")
        (vm_status_kb (ce_peak env) (Some p) "VmHWM:")).

Record Capture := MkCapture {
  cp_pid : Z;
  cp_frames : list PubFrame;
  cp_pulses : list Pulse;
  cp_prime_attempts : nat;
  cp_probes : Probes;
  cp_exit : Z * option Z;
  cp_termination_logged : bool;
}.

Definition stop (env : CaptureEnv) : stateful DaemonProcess TransportError (Z * option Z) := fun daemon =>
  let '(daemon', r) := terminate (ce_stop env) daemon in (daemon', map_err Process r).

(** The sockets' half of the run is [wire]; the process is stopped at its end. *)
Definition capture (wire : Driver * result TransportError (nat * list Pulse)) (env : CaptureEnv) :
    stateful DaemonProcess TransportError Capture := fun daemon =>
  let p := pid daemon in
  (lift_result wire.2 ≫= fun '(attempts, pulses) =>
   lift_result (map_err Process (probe_daemon env p)) ≫= fun probes =>
   stop env ≫= fun exit =>
   mret (MkCapture p (dr_frames wire.1) pulses attempts probes exit
           (contains (as_bytes "Termination signal received") (default [] (ce_log env))))) daemon.

Inductive SocketCall :=
| Producer (call : PubCall)
| Consumer (call : ZmqCall)
| ConsumerLinger (ms : Z).

(** [open_sockets]: the ports change sides. *)
Definition socket_calls (cfg : DaemonConfig) : list SocketCall :=
  [Producer SocketPub; Producer (SetLinger 0); Producer (SetSndhwm 1000); Producer (BindPub (sub_endpoint cfg));
   Consumer SocketSub; ConsumerLinger 0; Consumer (SetRcvhwm 65536); Consumer (SetSubscribe "");
   Consumer (Connect ("tcp://127.0.0.1:" +:+ pretty (spine_pub_port cfg)))].

Definition open_sockets (call : SocketCall -> result string unit) (cfg : DaemonConfig) : result TransportError unit :=
  mapM (fun c => map_err Zmq (call c)) (socket_calls cfg) ≫= fun _ => Ok tt.

Record SetupEnv := MkSetupEnv {
  su_socket : SocketCall -> result string unit;
  su_spawn : result string Z;
  su_spawned_at : Z;
  su_ready_at : Z;
  su_ready : list ReadyPoll;
}.

(** Configuration, workload and session of a run. *)
Definition inputs (read_to_string : string -> result string string) (toml_from_str : string -> result string DaemonConfig)
    (workload_from_str : string -> result string Workload) (config workload : string) :
    result TransportError (DaemonConfig * Session) :=
  map_err LoadConfig (load read_to_string toml_from_str config) ≫= fun cfg =>
  map_err WorkloadRejected (workload_load read_to_string workload_from_str workload) ≫= fun w =>
  Session_new cfg w ≫= fun session =>
  ok_or (control_bind cfg) NoControlBind ≫= fun bind =>
  ok_or (parse_socket_addr bind) (ControlAddress bind) ≫= fun _ =>
  Ok (cfg, session).

(** Up to the spawn nothing is running. *)
Definition spawn (env : SetupEnv) (cfg : DaemonConfig) : result TransportError DaemonProcess :=
  open_sockets (su_socket env) cfg ≫= fun _ =>
  map_err Spawn (su_spawn env) ≫= fun p => Ok (MkDaemonProcess (Some p) (su_spawned_at env)).

(** [percentile]: nearest rank, in doubles. *)
Definition percentile_rank (n : Z) (p : f64) : Z := f64_round_u64 (f64_mul (f64_sub (f64_of_int n) f_one64) p).

Definition percentile (sorted : list Z) (p : f64) : option Z :=
  if bool_decide (sorted = []) then None else sorted !! Z.to_nat (percentile_rank (len sorted) p).

Record LatencySummary := MkLatencySummary {
  la_count : Z;
  la_p50 : option Z;
  la_p99 : option Z;
  la_max : option Z;
  la_min : option Z;
}.

Definition latency_json (latencies_ns : list Z) : LatencySummary :=
  let sorted := sort_unstable latencies_ns in
  MkLatencySummary (len sorted) (percentile sorted f_050) (percentile sorted f_099) (last sorted) (head sorted).

Record TransportSummary := MkTransportSummary {
  ts_daemon_pid : Z;
  ts_ready_after_ns : Z;
  ts_subscribe_frames : Z;
  ts_prime_attempts : nat;
  ts_prime_frames : Z;
  ts_pulse_spacing_ns : Z;
  ts_pulses_sent : Z;
  ts_frames_received_total : Z;
  ts_measured_frames_total : Z;
  ts_measured_frames_empty : Z;
  ts_measured_frames_nonempty : Z;
  ts_matched : Z;
  ts_mismatched : Z;
  ts_lost : Z;
  ts_extra_nonempty : Z;
  ts_latency_ns : LatencySummary;
  ts_per_pulse : list PulseReport;
  ts_probes : Probes;
  ts_sigterm_exit_ns : Z;
  ts_exit_code : option Z;
  ts_termination_logged : bool;
}.

Definition summary_json (session : Session) (ready_after : Z) (c : Capture) (o : Outcome) (nonempty : nat) :
    TransportSummary :=
  let frames := cp_frames c in {|
    ts_daemon_pid := cp_pid c;
    ts_ready_after_ns := wrap64 ready_after;
    ts_subscribe_frames := count_frames frames (fun f => bool_decide (pf_phase f = Subscribe));
    ts_prime_attempts := cp_prime_attempts c;
    ts_prime_frames := count_frames frames (fun f => bool_decide (pf_phase f = Prime));
    ts_pulse_spacing_ns := wrap64 (ss_spacing session);
    ts_pulses_sent := len (cp_pulses c);
    ts_frames_received_total := len frames;
    ts_measured_frames_total := count_frames frames (fun f => measured (pf_phase f));
    ts_measured_frames_empty :=
      count_frames frames (fun f => measured (pf_phase f) && bool_decide (pf_channels f = []));
    ts_measured_frames_nonempty := Z.of_nat nonempty;
    ts_matched := oc_matched o;
    ts_mismatched := oc_mismatched o;
    ts_lost := lost (cp_pulses c) o;
    ts_extra_nonempty := extra_nonempty nonempty (cp_pulses c);
    ts_latency_ns := latency_json (oc_latencies_ns o);
    ts_per_pulse := oc_per_pulse o;
    ts_probes := cp_probes c;
    ts_sigterm_exit_ns := wrap64 (cp_exit c).1;
    ts_exit_code := (cp_exit c).2;
    ts_termination_logged := cp_termination_logged c |}.

(** What a run with a spawned daemon leaves: the driver's sockets, the process
    as the drop finds it, and the record lines and the summary. *)
Record TransportRun := MkTransportRun {
  tr_driver : Driver;
  tr_daemon : DaemonProcess;
  tr_output : result TransportError (list FrameRecord * TransportSummary);
}.

(** From the spawn on; [write] is how writing the two files ends. *)
Definition run_spawned (session : Session) (wire : Driver * result TransportError (nat * list Pulse))
    (su : SetupEnv) (env : CaptureEnv) (write : result string unit) (daemon : DaemonProcess) : TransportRun :=
  match wait_ready daemon (su_ready_at su) (su_ready su) with
  | Err e => MkTransportRun (MkDriver [] 1 [] 0) daemon (Err (Process e))
  | Ok ready_after =>
    let '(daemon', r) := capture wire env daemon in
    MkTransportRun wire.1 daemon'
      (r ≫= fun c =>
       let '(outcome, nonempty) := correlate (cp_pulses c) (cp_frames c) (ss_expected session) in
       map_err WriteFailed write ≫= fun _ =>
       Ok (frame_records (cp_frames c) (cp_pulses c) (dp_spawned_at daemon'),
           summary_json session ready_after c outcome nonempty))
  end.

Definition transport_main (read_to_string : string -> result string string)
    (toml_from_str : string -> result string DaemonConfig) (workload_from_str : string -> result string Workload)
    (config workload : string) (to_vec : IpcMessage -> result string string)
    (decode_pub : string -> result string PubMessage) (su : SetupEnv) (wire : WireEnv) (env : CaptureEnv)
    (write : result string unit) : result TransportError TransportRun :=
  inputs read_to_string toml_from_str workload_from_str config workload ≫= fun '(cfg, session) =>
  spawn su cfg ≫= fun daemon =>
  Ok (run_spawned session (send_and_collect to_vec decode_pub wire session) su env write daemon).

(** ** What was sent *)

Section Sent.
Variable to_vec : IpcMessage -> result string string.
Variable decode_pub : string -> result string PubMessage.
Variable env : WireEnv.
Variable session : Session.

(** The frames handed to the producer: the k-th carries batch id k + 1 and a
    pulse on the k-th of [chans]. *)
Record sent_as (chans : list nat) (d : Driver) : Prop := {
  sa_length : length (dr_sent d) = length chans;
  sa_batch : dr_batch_id d = wrap64 (len chans + 1);
  sa_frames : forall k payload ch, dr_sent d !! k = Some payload -> chans !! k = Some ch ->
    session_frame to_vec session ch (wrap64 (Z.of_nat k + 1)) (we_now_ns env k) = Ok payload;
}.

Lemma sent_as_snoc chans ch payload d :
  sent_as chans d ->
  session_frame to_vec session ch (dr_batch_id d) (we_now_ns env (length (dr_sent d))) = Ok payload ->
  sent_as (chans ++ [ch]) (set_sent (wadd64 (dr_batch_id d) 1) (dr_sent d ++ [payload]) d).
Proof.
  intros [Hl Hb Hf] He. split; simpl.
  - rewrite !length_app. simpl. lia.
  - rewrite Hb, wadd64_wrap_l, len_app, len_cons, len_nil. f_equal; lia.
  - intros k p c Hp Hc. destruct (decide (k < length (dr_sent d))%nat).
    + rewrite lookup_app_l in Hp by lia. rewrite lookup_app_l in Hc by lia. by apply Hf.
    + rewrite lookup_app_r in Hp by lia. rewrite lookup_app_r in Hc by lia.
      destruct (k - length (dr_sent d))%nat as [|m] eqn:Ek; [|by destruct m].
      replace (k - length chans)%nat with O in Hc by lia. injection Hp as <-. injection Hc as <-.
      replace k with (length (dr_sent d)) by lia. rewrite <- He, Hb. unfold len. by rewrite Hl.
Qed.

Lemma collect_sent chans wait phase d :
  sent_as chans d -> sent_as chans (collect_frames decode_pub env wait phase d).1.
Proof.
  intros [Hl Hb Hf]. unfold collect_frames. destruct (collect_loop _ _ _ _ _) as [frames r]. by split.
Qed.

Lemma encode_ok ch d d' payload :
  encode_frame to_vec env session ch d = (d', Ok payload) ->
  d' = d /\ session_frame to_vec session ch (dr_batch_id d) (we_now_ns env (length (dr_sent d))) = Ok payload.
Proof. unfold encode_frame. by intros [= <- ?]. Qed.

Lemma send_ok payload d d' u :
  send env payload d = (d', Ok u) -> d' = set_sent (dr_batch_id d) (dr_sent d ++ [payload]) d.
Proof. unfold send. destruct (we_send _ _); by intros [=]. Qed.

Lemma collect_ok wait phase chans d d' u :
  collect_frames decode_pub env wait phase d = (d', Ok u) -> sent_as chans d -> sent_as chans d'.
Proof. intros Hc Hs. pose proof (collect_sent chans wait phase d Hs) as H. by rewrite Hc in H. Qed.

Lemma prime_sent n : forall first chans d d' attempt,
  sent_as chans d -> prime_loop to_vec decode_pub env session (seq first n) d = (d', Ok attempt) ->
  (first <= attempt < first + n)%nat /\ sent_as (chans ++ replicate (S attempt - first) 0%nat) d'.
Proof.
  induction n as [|n IH]; intros first chans d d' attempt Hs; [done|]. cbn [seq prime_loop].
  intros (d1 & payload & He & Hr)%stateful_bind_ok. apply encode_ok in He as [-> He].
  apply stateful_bind_ok in Hr as (d2 & u & ->%send_ok & Hr).
  apply stateful_bind_ok in Hr as (d3 & u' & [= <- _] & Hr).
  apply stateful_bind_ok in Hr as (d4 & before & [= <- _] & Hr).
  apply stateful_bind_ok in Hr as (d5 & u'' & Hc & Hr).
  apply stateful_bind_ok in Hr as (d6 & after & [= <- _] & Hr).
  eapply (collect_ok _ _ (chans ++ [0%nat])) in Hc; [|exact (sent_as_snoc chans 0 payload d Hs He)].
  destruct (existsb _ _).
  - apply stateful_bind_ok in Hr as (d7 & u3 & Hc' & [= <- <-]). split; [lia|].
    eapply collect_ok in Hc'; [|exact Hc]. by replace (S first - first)%nat with 1%nat by lia.
  - destruct (IH (S first) _ d5 d' attempt Hc Hr) as [Hb Hs']. split; [lia|].
    rewrite <- (assoc_L app) in Hs'. by replace (S attempt - first)%nat with (S (S attempt - S first)) by lia.
Qed.

Definition pulse_channel (index : nat) : nat := (index mod Z.to_nat (ss_channels session))%nat.

Lemma measure_sent indices : forall pulses chans d d' ps,
  sent_as chans d -> measure_loop to_vec decode_pub env session indices pulses d = (d', Ok ps) ->
  sent_as (chans ++ (pulse_channel <$> indices)) d' /\
  ps = pulses ++ ((fun i => MkPulse i (pulse_channel i) (we_sent_at env i)) <$> indices) /\
  Forall (fun i => Z.of_nat (S i) <= u32_max) indices.
Proof.
  induction indices as [|index rest IH]; intros pulses chans d d' ps Hs.
  - intros [= <- <-]. csimpl. by rewrite !app_nil_r.
  - cbn [measure_loop]. intros (d1 & payload & He & Hr)%stateful_bind_ok. apply encode_ok in He as [-> He].
    apply stateful_bind_ok in Hr as (d2 & u & [= <- _] & Hr).
    apply stateful_bind_ok in Hr as (d3 & u' & ->%send_ok & Hr). cbv zeta in Hr.
    destruct (Z.ltb_spec u32_max (Z.of_nat (S index))); [done|].
    apply stateful_bind_ok in Hr as (d4 & u'' & Hc & Hr).
    eapply (collect_ok _ _ (chans ++ [pulse_channel index])) in Hc; [|exact (sent_as_snoc chans (pulse_channel index) payload d Hs He)].
    destruct (IH _ _ _ _ _ Hc Hr) as (H1 & -> & H3). csimpl. rewrite <- !(assoc_L app) in *. split; [done|].
    split; [done|]. by constructor.
Qed.

Lemma collected_sent d attempts pulses :
  send_and_collect to_vec decode_pub env session = (d, Ok (attempts, pulses)) ->
  let n := Z.to_nat (ss_pulses session) in
  (1 <= attempts <= PRIME_ATTEMPTS)%nat /\
  sent_as (replicate attempts 0%nat ++ (pulse_channel <$> seq 0 n)) d /\
  pulses = (fun i => MkPulse i (pulse_channel i) (we_sent_at env i)) <$> seq 0 n /\
  Z.of_nat n <= u32_max.
Proof.
  unfold send_and_collect. intros (d1 & u & Hsub & Hr)%stateful_bind_ok.
  assert (sent_as [] d1) as H1.
  { apply stateful_bind_ok in Hsub as (d2 & u' & Hc & Hg). apply stateful_bind_ok in Hg as (d3 & x & [= <- _] & Hg).
    assert (sent_as [] d2) by (eapply collect_ok; [exact Hc|by split]). by destruct (bool_decide _); injection Hg as <-. }
  apply stateful_bind_ok in Hr as (d2 & a & Hp & Hr). destruct (prime_sent _ _ _ _ _ _ H1 Hp) as [Hb H2].
  apply stateful_bind_ok in Hr as (d3 & ps & Hm & [= <- <- <-]).
  apply stateful_bind_ok in Hm as (d4 & ps' & Hl & Hm). apply stateful_bind_ok in Hm as (d5 & u2 & Ht & [= <- <-]).
  destruct (measure_sent _ _ _ _ _ _ H2 Hl) as (H3 & H4 & H5). cbv zeta. split; [lia|].
  split; [|split; [exact H4|]].
  - eapply collect_ok in Ht; [|exact H3]. simpl in Ht. by rewrite Nat.sub_0_r in Ht.
  - destruct (Z.to_nat (ss_pulses session)) as [|n] eqn:En; [done|]. rewrite Forall_forall in H5. apply H5, elem_of_seq. lia.
Qed.

(** The channel of the k-th frame: the first until priming is over. *)
Definition frame_channel (attempts k : nat) : nat :=
  if (k <? attempts)%nat then 0%nat else pulse_channel (k - attempts).

Lemma sent_frame attempts n d k payload :
  (attempts <= PRIME_ATTEMPTS)%nat -> Z.of_nat n <= u32_max ->
  sent_as (replicate attempts 0%nat ++ (pulse_channel <$> seq 0 n)) d ->
  dr_sent d !! k = Some payload ->
  session_frame to_vec session (frame_channel attempts k) (Z.of_nat k + 1) (we_now_ns env k) = Ok payload.
Proof.
  unfold frame_channel. intros Ha Hn [Hl _ Hf] Hk. pose proof (lookup_lt_Some _ _ _ Hk) as Hkl.
  rewrite Hl, length_app, length_replicate, length_fmap, length_seq in Hkl.
  assert (wrap64 (Z.of_nat k + 1) = Z.of_nat k + 1) as <-
    by (apply wrap64_small; unfold PRIME_ATTEMPTS, is_u64, u64_max, u32_max in *; lia).
  eapply Hf; [exact Hk|]. destruct (Nat.ltb_spec k attempts).
  - rewrite lookup_app_l by (by rewrite length_replicate). by apply lookup_replicate.
  - rewrite lookup_app_r by (by rewrite length_replicate).
    rewrite length_replicate, list_lookup_fmap, lookup_seq_lt by lia. done.
Qed.

(** The frames collected all came off the socket. *)
Definition polled (d : Driver) : Prop :=
  Forall (fun f => exists n p bytes, p ∈ we_polls env n /\ po_bytes p = Ok bytes /\
    parse_spikes decode_pub bytes = Ok (pf_channels f, pf_batch_id f, pf_timestamp f)) (dr_frames d).

Abbreviation keeps m := (triple (E := TransportError) polled m (fun _ => polled) (fun _ => polled)).

Lemma keeps_collect wait phase : keeps (collect_frames decode_pub env wait phase).
Proof.
  intros d Hd. unfold collect_frames. set (n := dr_collects d).
  assert (forall polls deadline frames, (forall p, p ∈ polls -> p ∈ we_polls env n) ->
    polled (MkDriver frames 0 [] 0) ->
    polled (MkDriver (collect_loop decode_pub polls deadline phase frames).1 0 [] 0)) as Hl.
  { induction polls as [|p polls IH]; intros deadline frames Hin Hf; simpl; [done|].
    unfold recv_until. destruct (_ =? 0); [done|]. destruct (map_err _ (i64_try_from _)); [|done]. simpl.
    destruct (po_ready p) as [[]|]; [|done..]. simpl. destruct (po_bytes p) as [bytes|] eqn:Hb; [|done]. simpl.
    destruct (parse_spikes decode_pub bytes) as [[[channels id] at_]|] eqn:Hp; [|done].
    apply IH; [intros q Hq; by apply Hin, list_elem_of_further|].
    apply Forall_app. split; [exact Hf|]. constructor; [|done]. exists n, p, bytes.
    split; [by apply Hin, list_elem_of_here|]. by split. }
  specialize (Hl (we_polls env n) (we_collect_at env n + wait) (dr_frames d) (fun p Hp => Hp) Hd).
  by destruct (collect_loop _ _ _ _ _) as [frames [u|e]].
Qed.

Lemma keeps_encode ch : keeps (encode_frame to_vec env session ch).
Proof. intros d Hd. unfold encode_frame. by destruct (session_frame _ _ _ _ _). Qed.

Lemma keeps_send payload : keeps (send env payload).
Proof. intros d Hd. unfold send. by destruct (we_send _ _). Qed.

Lemma keeps_next_batch : keeps next_batch.
Proof. by intros d Hd. Qed.

Lemma keeps_get : keeps get.
Proof. by intros d Hd. Qed.

Lemma keeps_ret {A} (a : A) : keeps (mret a).
Proof. by intros d Hd. Qed.

Lemma keeps_bail {A} e : keeps (bail (A := A) e).
Proof. by intros d Hd. Qed.

Ltac keep_by known := repeat first
  [ known | apply keeps_collect | apply keeps_encode | apply keeps_send | apply keeps_next_batch | apply keeps_get
  | apply keeps_ret | apply keeps_bail
  | refine (triple_bind _ _ _ _ (fun _ => polled) _ _ _); [|intros ?] ].

Ltac keep := keep_by fail.

Lemma keeps_prime attempts : keeps (prime_loop to_vec decode_pub env session attempts).
Proof.
  induction attempts as [|a attempts IH]; cbn [prime_loop]; keep. destruct (existsb _ _); keep. exact IH.
Qed.

Lemma keeps_measure indices : forall pulses, keeps (measure_loop to_vec decode_pub env session indices pulses).
Proof.
  induction indices as [|i indices IH]; intros pulses; cbn [measure_loop]; keep.
  cbv zeta. destruct (_ <? _); keep. apply IH.
Qed.

Lemma collected_polled : polled (send_and_collect to_vec decode_pub env session).1.
Proof.
  unfold send_and_collect. match goal with |- polled (?m ?d).1 =>
    assert (keeps m) as Hm; [|specialize (Hm d (Forall_nil_2 _)); by destruct (m d) as [d' [x|e]]] end.
  unfold confirm_subscription, measure, prime. keep_by ltac:(first [apply keeps_prime | apply keeps_measure]).
  by destruct (bool_decide _); keep.
Qed.
End Sent.

Lemma spawn_alive env cfg daemon : spawn env cfg = Ok daemon -> is_Some (dp_child daemon).
Proof. unfold spawn. intros (? & _ & (p & _ & [= <-])%result_bind_ok)%result_bind_ok. by eexists. Qed.

(** ** What was reported *)

Section Report.
Variable expected : list (list Z).

(** The report of one pulse, given the frame that answers it. *)
Definition report_of (nonempty : list PubFrame) (p : Pulse) : PulseReport :=
  match nonempty !! pu_index p with
  | Some f =>
    MkPulseReport (pu_index p) (pu_channel p) (bool_decide (pf_channels f = default [] (expected !! pu_channel p)))
      (Some (wrap64 (sat_sub (pf_recv f) (pu_sent_at p)))) (Some (pf_channels f))
  | None => MkPulseReport (pu_index p) (pu_channel p) false None None
  end.

Definition is_answered (r : PulseReport) : bool := is_some (pr_received r).
Definition is_mismatch (r : PulseReport) : bool := is_answered r && negb (pr_matched r).

Lemma report_cases nonempty p o :
  let r := report_of nonempty p in
  let o' := correlate_pulse nonempty expected o p in
  oc_per_pulse o' = oc_per_pulse o ++ [r] /\
  oc_latencies_ns o' = oc_latencies_ns o ++ option_list (pr_latency_ns r) /\
  oc_matched o' = (if pr_matched r then wadd64 (oc_matched o) 1 else oc_matched o) /\
  oc_mismatched o' = (if is_mismatch r then wadd64 (oc_mismatched o) 1 else oc_mismatched o).
Proof.
  unfold correlate_pulse, report_of, is_mismatch. destruct (nonempty !! pu_index p) as [f|]; simpl.
  - by destruct (bool_decide _).
  - by rewrite app_nil_r.
Qed.


Lemma correlate_fold nonempty pulses : forall o a b,
  oc_matched o = wrap64 a -> oc_mismatched o = wrap64 b ->
  let o' := fold_left (correlate_pulse nonempty expected) pulses o in
  let reports := report_of nonempty <$> pulses in
  oc_per_pulse o' = oc_per_pulse o ++ reports /\
  oc_latencies_ns o' = oc_latencies_ns o ++ omap pr_latency_ns reports /\
  oc_matched o' = wrap64 (a + count pr_matched reports) /\
  oc_mismatched o' = wrap64 (b + count is_mismatch reports).
Proof.
  induction pulses as [|p pulses IH]; intros o a b Ha Hb; cbv zeta; csimpl.
  - rewrite !app_nil_r, !Z.add_0_r. done.
  - destruct (report_cases nonempty p o) as (Hp & Hl & Hm & Hx).
    destruct (IH (correlate_pulse nonempty expected o p) (a + Z.b2z (pr_matched (report_of nonempty p)))
      (b + Z.b2z (is_mismatch (report_of nonempty p)))) as (H1 & H2 & H3 & H4).
    + rewrite Hm, Ha. destruct (pr_matched _); [apply wadd64_wrap_l|by rewrite Z.add_0_r].
    + rewrite Hx, Hb. destruct (is_mismatch _); [apply wadd64_wrap_l|by rewrite Z.add_0_r].
    + rewrite H1, H2, H3, H4, Hp, Hl, <- !(assoc_L app), !Z.add_assoc. split; [done|].
      split; [by destruct (pr_latency_ns (report_of nonempty p))|done].
Qed.

Lemma matched_or_not reports :
  Forall (fun r => pr_matched r = true -> is_answered r = true) reports ->
  count pr_matched reports + count is_mismatch reports = count is_answered reports.
Proof.
  induction 1 as [|r reports Hr _ IH]; [done|]. csimpl. unfold is_mismatch in *.
  destruct (is_answered r) eqn:Ea, (pr_matched r) eqn:Em; simpl; lia.
Qed.

Lemma reports_matched nonempty pulses :
  Forall (fun r => pr_matched r = true -> is_answered r = true) (report_of nonempty <$> pulses).
Proof.
  apply Forall_fmap, Forall_forall. intros p _. unfold report_of, is_answered. simpl.
  by destruct (nonempty !! pu_index p).
Qed.

(** The pulses are answered in order until the frames run out. *)
Lemma count_answered nonempty pulses : forall first,
  pu_index <$> pulses = seq first (length pulses) ->
  count is_answered (report_of nonempty <$> pulses) =
  Z.max 0 (Z.min (len pulses) (len nonempty - Z.of_nat first)).
Proof.
  induction pulses as [|p pulses IH]; intros first Hi; csimpl; [unfold len; simpl; lia|].
  csimpl in Hi. injection Hi as Hp Hi. rewrite (IH _ Hi), len_cons. pose proof (len_nonneg pulses).
  unfold is_answered, report_of at 1. rewrite Hp. unfold len in *.
  destruct (nonempty !! first) as [f|] eqn:Ef; simpl.
  - apply lookup_lt_Some in Ef. lia.
  - apply lookup_ge_None in Ef. lia.
Qed.
End Report.

(** A frame is assigned the pulse it answers. *)
Lemma assigned_iff pulses frames : forall seen i f,
  (exists seq, frames !! seq = Some f /\ assign_from seen pulses frames !! seq = Some (Some i)) <->
  (seen <= i < pulses)%nat /\ nonempty_frames frames !! (i - seen)%nat = Some f.
Proof.
  unfold nonempty_frames. induction frames as [|g frames IH]; intros seen i f; simpl.
  - split; [by intros (s & [=] & _)|by intros [_ [=]]].
  - destruct (measured_nonempty g) eqn:Eg; simpl.
    + rewrite filter_cons_True by done. split.
      * intros ([|s] & Hs & Ha); simpl in *.
        -- injection Hs as ->. destruct (Nat.ltb_spec seen pulses); [|done]. injection Ha as <-.
           rewrite Nat.sub_diag. split; [lia|done].
        -- destruct (proj1 (IH (S seen) i f)) as [Hb Hl]; [by exists s|]. split; [lia|].
           by replace (i - seen)%nat with (S (i - S seen)) by lia.
      * intros [Hb Hl]. destruct (decide (i = seen)) as [->|].
        -- rewrite Nat.sub_diag in Hl. injection Hl as ->. exists 0%nat. split; [done|]. simpl.
           destruct (Nat.ltb_spec seen pulses); [done|lia].
        -- destruct (proj2 (IH (S seen) i f)) as (s & Hs & Ha); [|by exists (S s)].
           split; [lia|]. by replace (i - seen)%nat with (S (i - S seen)) in Hl by lia.
    + rewrite filter_cons_False by congruence. rewrite <- IH. split.
      * intros ([|s] & Hs & Ha); [done|]. by exists s.
      * intros (s & Hs & Ha). by exists (S s).
Qed.

Lemma assign_length seen pulses frames : length (assign_from seen pulses frames) = length frames.
Proof.
  revert seen. induction frames as [|f frames IH]; intros seen; [done|]. simpl.
  destruct (negb _); simpl; by rewrite IH.
Qed.

(** The records that name a pulse. *)
Lemma records_name frames pulses started i channels :
  (exists r, r ∈ frame_records frames pulses started /\ fc_pulse r = Some i /\ fc_channels r = channels) <->
  (i < length pulses)%nat /\ exists f, nonempty_frames frames !! i = Some f /\ pf_channels f = channels.
Proof.
  pose proof (fun f => assigned_iff (length pulses) frames 0 i f) as Ha. setoid_rewrite Nat.sub_0_r in Ha.
  unfold frame_records, pulse_assignment. split.
  - intros (r & Hr & Hp & Hc). apply list_elem_of_lookup in Hr as (s & Hs). rewrite list_lookup_imap in Hs.
    apply fmap_Some in Hs as ([f a] & Hz & ->). simpl in Hp, Hc. apply lookup_zip_with_Some in Hz as (f' & a' & [= <- <-] & Hf & Hz).
    destruct (proj1 (Ha f)) as [Hb Hn]; [exists s; by rewrite Hz, Hp|]. split; [lia|]. by exists f.
  - intros (Hi & f & Hn & Hc). destruct (proj2 (Ha f)) as (s & Hf & Has); [split; [lia|done]|].
    exists (frame_record pulses started s (f, Some i)). split; [|done].
    apply list_elem_of_lookup. exists s. rewrite list_lookup_imap. apply fmap_Some. exists (f, Some i). split; [|done].
    apply lookup_zip_with_Some. by exists f, (Some i).
Qed.

Lemma latency_answered expected nonempty pulses :
  len (omap pr_latency_ns (report_of expected nonempty <$> pulses)) =
  count is_answered (report_of expected nonempty <$> pulses).
Proof.
  induction pulses as [|p pulses IH]; csimpl; [done|]. rewrite <- IH.
  assert (is_some (pr_latency_ns (report_of expected nonempty p)) = is_answered (report_of expected nonempty p)) as <-
    by (unfold is_answered, report_of; by destruct (nonempty !! pu_index p)).
  destruct (pr_latency_ns _); simpl; [rewrite len_cons; lia|done].
Qed.

Lemma received_iff expected nonempty pulses i channels :
  (forall k p, pulses !! k = Some p -> pu_index p = k) ->
  (exists r, (report_of expected nonempty <$> pulses) !! i = Some r /\ pr_received r = Some channels) <->
  (i < length pulses)%nat /\ exists f, nonempty !! i = Some f /\ pf_channels f = channels.
Proof.
  intros Hidx. rewrite list_lookup_fmap. split.
  - intros (r & (p & Hp & ->)%fmap_Some & Hr). rewrite <- (Hidx i p Hp).
    split; [rewrite (Hidx i p Hp); by eapply lookup_lt_Some|]. unfold report_of in Hr.
    destruct (nonempty !! pu_index p) as [f|]; [|done]. injection Hr as <-. by exists f.
  - intros ((p & Hp)%lookup_lt_is_Some & f & Hf & <-). rewrite Hp. csimpl. eexists. split; [reflexivity|].
    unfold report_of. by rewrite (Hidx i p Hp), Hf.
Qed.

(** What a completed run went through. *)
Lemma run_spawned_ok session wire su env write daemon records s :
  is_Some (dp_child daemon) -> tr_output (run_spawned session wire su env write daemon) = Ok (records, s) ->
  exists attempts pulses c ready_after outcome nonempty,
    wire.2 = Ok (attempts, pulses) /\ tr_driver (run_spawned session wire su env write daemon) = wire.1 /\
    drop_kills (tr_daemon (run_spawned session wire su env write daemon)) = false /\
    cp_frames c = dr_frames wire.1 /\ cp_pulses c = pulses /\ cp_prime_attempts c = attempts /\
    correlate pulses (dr_frames wire.1) (ss_expected session) = (outcome, nonempty) /\
    records = frame_records (dr_frames wire.1) pulses (dp_spawned_at daemon) /\
    s = summary_json session ready_after c outcome nonempty.
Proof.
  intros Hc. unfold run_spawned. destruct (wait_ready _ _ _) as [ready_after|]; [|done].
  unfold capture, lift_result, stop, mbind, stateful_bind, mret, stateful_ret.
  destruct wire as [d [[attempts pulses]|]]; [|done]. cbn [fst snd].
  destruct (probe_daemon _ _) as [probes|]; [|done]. cbn [map_err].
  destruct (terminate (ce_stop env) daemon) as [daemon' [exit|e]] eqn:Ht; [|done]. cbn [map_err].
  pose proof (proj2 (terminate_drop _ _ _ _ Hc Ht) _ eq_refl) as [Hk _].
  pose proof (terminate_spawned _ _ _ _ Ht) as Hs. unfold result_bind. cbn [cp_pulses cp_frames tr_output tr_driver tr_daemon].
  destruct (correlate _ _ _) as [outcome nonempty] eqn:Ho. destruct write; [|done]. intros [= <- <-]. rewrite Hs.
  eexists attempts, pulses, (MkCapture _ _ _ _ _ _ _), ready_after, outcome, nonempty.
  do 3 (split; [done|]). do 3 (split; [reflexivity|]). split; [done|]. split; reflexivity.
Qed.

Lemma len_latency_json latencies : la_count (latency_json latencies) = len latencies.
Proof. unfold latency_json, sort_unstable, len. simpl. by rewrite (Permutation_length (sorting.merge_sort_Permutation Z.le latencies)). Qed.

(** The counts of the report. *)
Lemma correlate_counts pulses frames expected o nonempty :
  pu_index <$> pulses = seq 0 (length pulses) -> len pulses <= u32_max ->
  correlate pulses frames expected = (o, nonempty) ->
  nonempty = length (nonempty_frames frames) /\
  oc_per_pulse o = report_of expected (nonempty_frames frames) <$> pulses /\
  oc_matched o + oc_mismatched o + lost pulses o = len pulses /\
  lost pulses o = Z.max 0 (len pulses - Z.of_nat nonempty) /\
  len (oc_latencies_ns o) = oc_matched o + oc_mismatched o.
Proof.
  intros Hidx Hn. unfold correlate. set (frs := nonempty_frames frames).
  destruct (correlate_fold expected frs pulses Outcome_default 0 0 eq_refl eq_refl) as (H1 & H2 & H3 & H4).
  set (o' := fold_left _ _ _) in *. intros [= <- <-]. simpl app in H1, H2.
  pose proof (count_answered expected frs pulses 0 Hidx) as Hcount.
  pose proof (matched_or_not _ (reports_matched expected frs pulses)) as Hsum. rewrite Hcount in Hsum.
  pose proof (count_nonneg pr_matched (report_of expected frs <$> pulses)).
  pose proof (count_nonneg is_mismatch (report_of expected frs <$> pulses)).
  pose proof (len_nonneg frs). pose proof (len_nonneg pulses).
  assert (forall z, 0 <= z <= len pulses -> wrap64 z = z) as Hw
    by (intros z Hz; apply wrap64_small; unfold is_u64, u64_max, u32_max in *; lia).
  rewrite Z.add_0_l, Hw in H3 by lia. rewrite Z.add_0_l, Hw in H4 by lia.
  assert (lost pulses o' = len pulses - oc_matched o' - oc_mismatched o') as Hlost
    by (unfold lost; rewrite H3, H4, (Hw (len pulses - _)) by lia; apply Hw; lia).
  change (Z.of_nat (length frs)) with (len frs).
  split; [done|]. split; [done|]. split; [lia|]. split; [lia|]. rewrite H2, latency_answered, Hcount. lia.
Qed.

(** A pulse on the wire: a batch of the driver's session, with this id and time,
    every channel valid, whose values are the amplitude on one channel and zero
    on each of the others. *)
Definition one_hot_frame (to_vec : IpcMessage -> result string string) (width channel : nat) (amplitude : f32)
    (batch_id sent : Z) (payload : string) : Prop :=
  exists values meta,
    to_vec (Stimuli {| sb_session_id := Some TRANSPORT_SESSION_ID; sb_batch_id := batch_id; sb_timestamp := sent;
      sb_values := values; sb_valid_mask := Some (replicate width true); sb_metadata := Some meta |}) = Ok payload /\
    bm_custom meta !! "schema" = Some STIMULUS_SCHEMA /\
    length values = width /\ values !! channel = Some amplitude /\
    (forall j, (j < width)%nat -> j <> channel -> values !! j = Some f_zero).

Lemma session_frame_one_hot to_vec session channel batch_id sent payload :
  session_frame to_vec session channel batch_id sent = Ok payload ->
  one_hot_frame to_vec (Z.to_nat (ss_channels session)) channel (ss_amplitude session) batch_id sent payload.
Proof.
  unfold session_frame. intros (values & Hv & Hf%map_err_ok)%result_bind_ok.
  unfold session_values in Hv. rewrite require_bind_ok, length_replicate in Hv. destruct Hv as [Hc [= <-]].
  apply Nat.ltb_lt in Hc. eexists _, _. split; [exact Hf|]. split; [apply lookup_singleton_eq|].
  split; [by rewrite length_insert, length_replicate|].
  split; [apply list_lookup_insert_eq; by rewrite length_replicate|].
  intros j Hj Hne. rewrite list_lookup_insert_ne by done. by apply lookup_replicate_2.
Qed.

(** C25: the transport run reports what it did.  Whatever the sockets, the process
    and the clocks do, a run that completes has primed the link in at most 200
    attempts and handed the producer one frame per attempt and per pulse, with
    batch ids 1, 2, 3, ...: each carries the session's amplitude on one channel
    and zero on every other ([one_hot_frame]), the first channel while it primes
    and then the channels in turn, round-robin.  Of the pulses, those matched, mismatched and lost add up, lost are exactly those
    beyond the frames received and extra the frames beyond the pulses, with one
    latency per answer; and the summary and the record file agree: the i-th
    pulse is reported answered by some channels exactly when a recorded frame
    carrying them names it.  The daemon has been stopped and reaped: its drop
    kills nothing. *)
Theorem transport_accounts read toml_from_str workload_from_str config workload to_vec decode_pub su wire env write
    run records s :
  transport_main read toml_from_str workload_from_str config workload to_vec decode_pub su wire env write = Ok run ->
  tr_output run = Ok (records, s) ->
  exists cfg session,
    inputs read toml_from_str workload_from_str config workload = Ok (cfg, session) /\
    let n := Z.to_nat (ss_pulses session) in
    let attempts := ts_prime_attempts s in
    let sent := dr_sent (tr_driver run) in
    (1 <= attempts <= PRIME_ATTEMPTS)%nat /\ length sent = (attempts + n)%nat /\
    (forall k payload, sent !! k = Some payload ->
       one_hot_frame to_vec (Z.to_nat (ss_channels session))
         (if (k <? attempts)%nat then 0%nat else ((k - attempts) mod Z.to_nat (ss_channels session))%nat)
         (ss_amplitude session) (Z.of_nat k + 1) (we_now_ns wire k) payload) /\
    ts_pulses_sent s = Z.of_nat n /\ length (ts_per_pulse s) = n /\
    ts_matched s + ts_mismatched s + ts_lost s = ts_pulses_sent s /\
    ts_lost s = Z.max 0 (ts_pulses_sent s - ts_measured_frames_nonempty s) /\
    ts_extra_nonempty s = Z.max 0 (ts_measured_frames_nonempty s - ts_pulses_sent s) /\
    la_count (ts_latency_ns s) = ts_matched s + ts_mismatched s /\
    (forall i channels,
       (exists r, ts_per_pulse s !! i = Some r /\ pr_received r = Some channels) <->
       (exists r, r ∈ records /\ fc_pulse r = Some i /\ fc_channels r = channels)) /\
    drop_kills (tr_daemon run) = false.
Proof.
  unfold transport_main. intros ([cfg session] & Hin & Hr)%result_bind_ok Ho.
  apply result_bind_ok in Hr as (daemon & Hsp & [= <-]). apply spawn_alive in Hsp.
  destruct (run_spawned_ok _ _ _ _ _ _ _ _ Hsp Ho) as (attempts & pulses & c & ra & o & nonempty & Hw & -> & -> & Hf & Hp & Ha & Hc & -> & ->).
  exists cfg, session. split; [done|]. cbv zeta.
  destruct (send_and_collect _ _ _ _) as [d r] eqn:Hd. simpl in Hw, Hf, Hc |- *. subst r. rewrite Hp, Ha.
  destruct (collected_sent _ _ _ _ _ _ _ Hd) as (Hat & Hs & Hps & Hn). cbv zeta in Hn, Hps. pose proof (sa_length _ _ _ _ _ Hs) as Hl.
  set (n := Z.to_nat (ss_pulses session)) in *.
  assert (length pulses = n) as Hlen by (rewrite Hps, length_fmap; apply length_seq).
  assert (len pulses = Z.of_nat n) as Hlp by (unfold len; by rewrite Hlen).
  assert (pu_index <$> pulses = seq 0 (length pulses)) as Hidx.
  { rewrite Hlen, Hps, <- list_fmap_compose. apply list_fmap_id. }
  destruct (correlate_counts _ _ _ _ _ Hidx ltac:(lia) Hc) as (Hne & Hrep & Hsum & Hlost & Hlat).
  split; [done|]. split; [by rewrite Hl, length_app, length_replicate, length_fmap, length_seq|].
  split; [intros k payload Hk; apply session_frame_one_hot, (sent_frame to_vec wire session attempts n d k payload); [lia|done|exact Hs|exact Hk]|].
  split; [done|]. split; [by rewrite Hrep, length_fmap|]. split; [done|]. split; [done|].
  split; [unfold extra_nonempty, sat_sub; lia|]. split; [exact (eq_trans (len_latency_json _) Hlat)|]. split; [|done].
  intros i channels. rewrite records_name, Hrep. apply received_iff.
  intros k p Hk. apply (f_equal (fmap pu_index)) in Hk. rewrite <- list_lookup_fmap, Hidx in Hk.
  apply lookup_seq in Hk as [-> _]. done.
Qed.

(** ** Witness *)

(** Nearest rank stays in range, at the two levels reported. *)
Lemma percentile_ranks :
  forallb (fun n => (percentile_rank n f_050 =? n / 2) && (percentile_rank n f_099 =? (99 * (n - 1) + 50) / 100)) (seqZ 1 2000) = true.
Proof. by vm_compute. Qed.

Definition demo_transport_workload : Workload := {|
  wl_fixture_sha256 := "";
  wl_channels := 8;
  wl_ticks_per_cycle := 1;
  wl_cycles := 1;
  wl_ticks := 1;
  wl_warmup_ticks := 0;
  wl_cycle_events := [];
  wl_transport := MkTransport 5 2 f_one32 (list_to_map ((fun c => (pretty c, [2 * c; 2 * c + 1])) <$> seqZ 0 8));
|}.

Definition demo_spikes (l : list Z) : PubMessage :=
  PubSpikes (MkSpikeBatch 7 0 ((fun c => MkSpikeEvent c 0 f_one32) <$> l)).

Definition demo_decode_pub (s : string) : result string PubMessage :=
  Ok (demo_spikes (if bool_decide (s = "a"%string) then [1; 0] else [])).

Definition demo_poll (bytes : string) : Poll := MkPoll 0 (Ok true) (Ok bytes) 7.

(** The empty frame confirms, the first priming frame is answered, the first
    pulse is answered and the second is not. *)
Definition demo_wire : WireEnv := {|
  we_now_ns := Z.of_nat;
  we_send := fun _ => Ok tt;
  we_collect_at := fun _ => 0;
  we_polls := fun n => match n with 0%nat => [demo_poll "e"] | 1%nat | 3%nat => [demo_poll "a"] | _ => [] end;
  we_start := 0;
  we_sent_at := fun _ => 0;
  we_wait_at := fun _ => 0;
|}.

Definition demo_ok_reply : Exchange := Answered (http_response 200 text_plain (line_body "ready")).

Definition demo_setup : SetupEnv :=
  MkSetupEnv (fun _ => Ok tt) (Ok 42) 0 0
    [MkReadyPoll (Ok false) NoConnection 1; MkReadyPoll (Ok false) demo_ok_reply 2].

Definition demo_capture : CaptureEnv :=
  MkCaptureEnv demo_ok_reply demo_ok_reply
    (fun _ => Some (as_bytes "Name: d" ++ [lf] ++ as_bytes "VmRSS:  12 kB" ++ [lf])) (fun _ => None)
    (MkStopEnv 0 (Ok true) [(Ok false, 1); (Ok true, 2)] (Ok (Some 0))) (Some (as_bytes "x Termination signal received")).

Definition demo_transport_run : result TransportError TransportRun :=
  transport_main (fun _ => Ok ""%string) (fun _ => Ok demo_config) (fun _ => Ok demo_transport_workload) "c" "w"
    (fun _ => Ok "frame"%string) demo_decode_pub demo_setup demo_wire demo_capture (Ok tt).

Lemma transport_accounts_witness : exists run records s,
  demo_transport_run = Ok run /\ tr_output run = Ok (records, s) /\
  ts_matched s = 1 /\ ts_matched s + ts_mismatched s + ts_lost s = 2 /\
  exists r, r ∈ records /\ fc_pulse r = Some 0%nat /\ fc_channels r = [0; 1].
Proof.
  destruct demo_transport_run as [run|] eqn:Hr; [|by vm_compute in Hr].
  assert (exists records s r, tr_output run = Ok (records, s) /\ ts_matched s = 1 /\ ts_pulses_sent s = 2 /\
    ts_per_pulse s !! 0%nat = Some r /\ pr_received r = Some [0; 1])
    as (records & s & r & Ho & Hm & Hp & Hi & Hc).
  { revert Hr. vm_compute. intros [= <-]. by eexists _, _, _. }
  exists run, records, s. split; [done|]. split; [done|]. split; [done|].
  destruct (transport_accounts (fun _ => Ok ""%string) (fun _ => Ok demo_config) (fun _ => Ok demo_transport_workload)
    "c" "w" (fun _ => Ok "frame"%string) demo_decode_pub demo_setup demo_wire demo_capture (Ok tt) run records s Hr Ho)
    as (cfg & session & _ & H).
  destruct H as (_ & _ & _ & _ & _ & Hsum & _ & _ & _ & Hiff & _). rewrite Hp in Hsum.
  split; [exact Hsum|]. apply Hiff. by exists r.
Defined.
