(* ===== verification/SecondaryLink.v ===== *)
(** * The secondary experiment's transport driver (examples/usefulness_secondary_transport.rs)

    Like the transport driver, with a thread of its own receiving: what it has
    drained when the main thread looks at the shared records is the environment's,
    one list of frames per look, and so is how often a wait looks before its
    deadline.  Instants are nanoseconds since the run's origin.  A wait whose list
    runs out is [Pending], which is no outcome of the code. *)

From Stdlib Require Import Ascii.
From stdpp Require Import pretty.
From S2P Require Import Prelude Floats Packet NetAddr Text Health HealthView Control Config Corpus Backend Startup Process.
From S2P Require Import Workload Inprocess Pulses Secondary.
Local Open Scope Z_scope.

Definition SECONDARY_CONFIG : string := "experiments/usefulness-secondary/config/transport-live.toml".
Definition SECONDARY_READY_DEADLINE : Z := 10000000000.
Definition EXIT_BUDGET : Z := 2000000000.
Definition SECONDARY_EXIT_DEADLINE : Z := 10000000000.

Record Received := MkReceived {
  rc_at_ns : Z;
  rc_batch_id : Z;
  rc_channels : list Z;
}.

Record Sent := MkSent {
  sn_probe : Z;
  sn_channel : Z;
  sn_at_ns : Z;
}.

Inductive LinkError :=
| LinkWorkload (e : SecondaryError)
| LinkConfig (e : LoadError string string)
| TickRateDiffers
| LinkNoControlBind
| LinkZmq (e : string)
| LinkSpawn (e : string)
| LinkTryWait (e : string)
| ExitedDuringStartup
| NotReady
| NoBatch
| PrimingTimedOut (expected : list Z) (frames : Z)
| LinkFrame (e : string)
| LinkKill (e : string)
| ReceiverFailed (e : string)
| LinkWrite (e : string)
| LinkPanicked
| Pending.

(** ** The receiver thread *)

(** What it shares with the main thread, and what the main thread has done: its
    looks at the records, its waits, the frames it sent. *)
Record Link := MkLink {
  lk_records : list Received;
  lk_undecodable : Z;
  lk_looks : nat;
  lk_waits : nat;
  lk_sent : list string;
}.

Record LinkEnv := MkLinkEnv {
  le_arrivals : nat -> list (string * Z);   (** drained before the n-th look, with the instants *)
  le_receiver : result string unit;         (** how the receiver's polls end *)
  le_elapsed : nat -> list Z;               (** the n-th wait, an instant per look *)
  le_now_ns : nat -> Z;                     (** the wall clock of the n-th frame *)
  le_send : nat -> result string unit;
  le_rounds : nat;                          (** of priming *)
  le_prime_elapsed : nat -> Z;              (** read after the n-th failed round *)
  le_start_ns : Z;                          (** of the measurement *)
  le_probe_start : Z;
  le_sleeps : nat -> list Z;                (** the instants the n-th [sleep_until] reads *)
  le_at_ns : nat -> Z;                      (** read before the n-th probe is sent *)
  le_end_ns : Z;
}.

Section Link.
Variable to_vec : IpcMessage -> result string string.
Variable validate : StimulusBatch -> result string unit.
Variable decode_pub : string -> result string PubMessage.
Variable env : LinkEnv.
Variable spec : TransportSpec.
Variable channels : Z.

Definition decode_spikes (bytes : string) : option (Z * list Z) :=
  match decode_pub bytes with
  | Ok (PubSpikes batch) => Some (pb_batch_id batch, sort_unstable (channel <$> pb_spikes batch))
  | _ => None
  end.

Fixpoint drain (frames : list (string * Z)) (records : list Received) (undecodable : Z) : list Received * Z :=
  match frames with
  | [] => (records, undecodable)
  | (bytes, at_ns) :: rest =>
    match decode_spikes bytes with
    | Some (batch_id, channels) => drain rest (records ++ [MkReceived at_ns batch_id channels]) undecodable
    | None => drain rest records (wadd64 undecodable 1)
    end
  end.

(** The receiver up to the main thread's next look. *)
Definition receive (l : Link) : Link :=
  let '(records, undecodable) := drain (le_arrivals env (lk_looks l)) (lk_records l) (lk_undecodable l) in
  MkLink records undecodable (S (lk_looks l)) (lk_waits l) (lk_sent l).

Definition any_batch (pred : Received -> bool) : stateful Link LinkError bool := fun l =>
  let l := receive l in (l, Ok (existsb pred (lk_records l))).

(** [done] is a look at the records. *)
Fixpoint wait_loop (deadline : Z) (elapsed : list Z) (pred : Received -> bool) : stateful Link LinkError bool :=
  match elapsed with
  | [] => bail Pending
  | e :: elapsed' =>
    any_batch pred ≫= fun ok =>
    if ok : bool then mret true
    else if deadline <? e then mret false
    else wait_loop deadline elapsed' pred
  end.

Definition next_wait (l : Link) : Link :=
  MkLink (lk_records l) (lk_undecodable l) (lk_looks l) (S (lk_waits l)) (lk_sent l).

Definition wait_for (deadline : Z) (pred : Received -> bool) : stateful Link LinkError bool :=
  get ≫= fun l => modify next_wait ≫= fun _ => wait_loop deadline (le_elapsed env (lk_waits l)) pred.

(** ** Priming and probing *)

(** [values[channel]] panics out of range. *)
Definition one_hot (channels channel : Z) (value : f32) : result LinkError (list f32) :=
  let values := replicate (Z.to_nat channels) f_zero in
  require (channel <? len values) LinkPanicked ≫= fun _ => Ok (<[Z.to_nat channel := value]> values).

Definition stimulus (batch_id channel now_ns : Z) : result LinkError string :=
  one_hot channels channel (tp_probe_value spec) ≫= fun values =>
  map_err LinkFrame
    (secondary_stimulus_frame to_vec validate batch_id now_ns values (Some (replicate (Z.to_nat channels) true))).

Definition encode (batch_id channel : Z) : stateful Link LinkError string := fun l =>
  (l, stimulus batch_id channel (le_now_ns env (length (lk_sent l)))).

Definition send_link (payload : string) : stateful Link LinkError unit := fun l =>
  match le_send env (length (lk_sent l)) with
  | Err e => (l, Err (LinkZmq e))
  | Ok _ => (MkLink (lk_records l) (lk_undecodable l) (lk_looks l) (lk_waits l) (lk_sent l ++ [payload]), Ok tt)
  end.

Definition ms (n : Z) : Z := n * 1000000.

Definition prime_once (frame : Z) (expected : list Z) : stateful Link LinkError bool :=
  encode (wadd64 1000000 frame) (tp_priming_channel spec) ≫= fun bytes =>
  send_link bytes ≫= fun _ =>
  wait_for (ms (tp_priming_interval_ms spec)) (fun r => bool_decide (rc_channels r = expected)).

(** [2 * c] and [2 * c + 1] in sixteen bits. *)
Definition priming_expected : list Z :=
  let c := tp_priming_channel spec mod (u16_max + 1) in
  [2 * c mod (u16_max + 1); (2 * c mod (u16_max + 1) + 1) mod (u16_max + 1)].

Fixpoint prime_rounds (rounds : nat) (frames : Z) : stateful Link LinkError Z :=
  match rounds with
  | O => bail Pending
  | S rounds =>
    prime_once frames priming_expected ≫= fun ok =>
    let next := wadd64 frames 1 in
    if ok : bool then mret next
    else if ms (tp_priming_timeout_ms spec) <? le_prime_elapsed env (Z.to_nat frames)
    then bail (PrimingTimedOut priming_expected next)
    else prime_rounds rounds next
  end.

Definition prime_link : stateful Link LinkError Z := prime_rounds (le_rounds env) 0.

(** The instant read that is past [target]. *)
Fixpoint sleep_until (target : Z) (reads : list Z) : result LinkError Z :=
  match reads with
  | [] => Err Pending
  | now :: reads' => if target <? now then Ok now else sleep_until target reads'
  end.

(** The slot of a probe: [probe as u32]. *)
Definition slot (probe : Z) : Z :=
  le_probe_start env + ms 5 + ms (tp_probe_interval_ms spec) * (probe mod (u32_max + 1)).

Fixpoint probe_loop (probes : list Z) (sends : list Sent) : stateful Link LinkError (list Sent) :=
  match probes with
  | [] => mret sends
  | probe :: rest =>
    lift_result (sleep_until (slot probe) (le_sleeps env (Z.to_nat probe))) ≫= fun _ =>
    lift_result (require (negb (channels =? 0)) LinkPanicked) ≫= fun _ =>
    let channel := probe mod channels in
    encode probe channel ≫= fun bytes =>
    send_link bytes ≫= fun _ =>
    probe_loop rest (sends ++ [MkSent probe channel (wrap64 (le_at_ns env (Z.to_nat probe)))])
  end.

Definition probes : stateful Link LinkError (list Sent * Z) :=
  probe_loop (seqZ 0 (tp_probes spec)) [] ≫= fun sends =>
  lift_result (sleep_until (slot (tp_probes spec)) (le_sleeps env (Z.to_nat (tp_probes spec)))) ≫= fun _ =>
  mret (sends, wrap64 (le_end_ns env)).
End Link.

(** ** The process *)

(** [http_get] of the secondary drivers: an error unless the reply is text. *)
Definition secondary_http_get (x : Exchange) : option bytes :=
  match x with
  | Answered raw => if utf8_valid (code <$> raw) then Some raw else None
  | _ => None
  end.

Definition readyz_ok (x : Exchange) : bool :=
  match secondary_http_get x with
  | Some reply => bool_decide (is_Some (strip_bytes (as_bytes "HTTP/1.1 200") reply))
  | None => false
  end.

(** The reply is asked for before the child; [rp_now] is [start.elapsed()]. *)
Fixpoint wait_ready_from (polls : list ReadyPoll) : result LinkError Z :=
  match polls with
  | [] => Err Pending
  | p :: polls' =>
    if readyz_ok (rp_exchange p) then Ok (wrap64 (rp_now p / 1000000))
    else map_err LinkTryWait (rp_try_wait p) ≫= fun gone =>
    if gone : bool then Err ExitedDuringStartup
    else if SECONDARY_READY_DEADLINE <? rp_now p then Err NotReady
    else wait_ready_from polls'
  end.

(** [ExitStatus::code]: none when a signal ended it. *)
Definition ExitStatus : Type := option Z.

(** Each round's [elapsed] and [try_wait]. *)
Fixpoint wait_for_exit (polls : list (Z * result string (option ExitStatus))) : result LinkError (option ExitStatus) :=
  match polls with
  | [] => Err Pending
  | (elapsed, try_wait) :: polls' =>
    if SECONDARY_EXIT_DEADLINE <? elapsed then Ok None
    else map_err LinkTryWait try_wait ≫= fun status =>
    match status with Some status => Ok (Some status) | None => wait_for_exit polls' end
  end.

Record ExitInfo := MkExitInfo {
  ei_sigterm_sent : bool;
  ei_status : option ExitStatus;
  ei_exit_ms : f64;
}.

Record ExitJson := MkExitJson {
  ej_sigterm_sent : bool;
  ej_exit_status_code : option Z;
  ej_exit_success : bool;
  ej_exit_ms : f64;
  ej_exit_within_budget : bool;
  ej_logged_termination : bool;
}.

Definition millis (ns : Z) : f64 := f64_mul (as_secs_f64 ns) (f64_of_int 1000).

Definition exit_json (i : ExitInfo) (log : bytes) : ExitJson := {|
  ej_sigterm_sent := ei_sigterm_sent i;
  ej_exit_status_code := ei_status i ≫= id;
  ej_exit_success := bool_decide (ei_status i = Some (Some 0));
  ej_exit_ms := ei_exit_ms i;
  ej_exit_within_budget := bool_decide (is_Some (ei_status i)) && f_le (ei_exit_ms i) (millis EXIT_BUDGET);
  ej_logged_termination := contains (as_bytes "Termination signal received") log |}.

(** The daemon under measurement, by its pid; the drop kills what is there. *)
Record KillEnv := MkKillEnv {
  ke_kill : result string bool;
  ke_polls : list (Z * result string (option ExitStatus));
  ke_elapsed : Z;
}.

Definition terminate_link (env : KillEnv) : stateful (option Z) LinkError ExitInfo :=
  lift_result (map_err LinkKill (ke_kill env)) ≫= fun sigterm_sent =>
  get ≫= fun daemon =>
  lift_result (ok_or daemon LinkPanicked) ≫= fun _ =>
  lift_result (wait_for_exit (ke_polls env)) ≫= fun status =>
  modify (fun daemon => match status with Some _ => None | None => daemon end) ≫= fun _ =>
  mret (MkExitInfo sigterm_sent status (millis (ke_elapsed env))).

(** ** Evidence, window and files *)

Record Window := MkWindow {
  wn_start_ns : Z;
  wn_end_ns : Z;
}.

Definition window_phase (w : Window) (at_ns : Z) : string :=
  if at_ns <? wn_start_ns w then "priming"
  else if at_ns <=? wn_end_ns w then "measure"
  else "tail".

Record Evidence := MkEvidence {
  ev_metrics : option bytes;
  ev_health : option bytes;
  ev_vm_hwm_kb : option Z;
  ev_vm_rss_kb : option Z;
}.

(** [proc_memory_kb], of the file if it can be read. *)
Definition proc_memory_kb (status : option bytes) : option Z * option Z :=
  match status with
  | Some text => (status_field text "VmHWM:", status_field text "VmRSS:")
  | None => (None, None)
  end.

(** The two replies ([None] where the file says "error: ..."), and the memory. *)
Definition capture_evidence (metrics health : Exchange) (status : option bytes) : Evidence :=
  let '(vm_hwm_kb, vm_rss_kb) := proc_memory_kb status in
  MkEvidence (secondary_http_get metrics) (secondary_http_get health) vm_hwm_kb vm_rss_kb.

Record Measured := MkMeasured {
  me_ready_ms : Z;
  me_priming_frames : Z;
  me_sends : list Sent;
  me_window : Window;
  me_records : list Received;
  me_undecodable : Z;
  me_evidence : Evidence;
  me_exit : ExitInfo;
}.

Definition record_line (w : Window) (r : Received) : Z * Z * list Z * string :=
  (rc_at_ns r, rc_batch_id r, rc_channels r, window_phase w (rc_at_ns r)).

Record LinkSummary := MkLinkSummary {
  ls_workload_version : string;
  ls_ready_ms : Z;
  ls_priming_frames : Z;
  ls_probes_sent : Z;
  ls_measure_start_ns : Z;
  ls_measure_end_ns : Z;
  ls_batches_received_total : Z;
  ls_undecodable_frames : Z;
  ls_vm_hwm_kb : option Z;
  ls_vm_rss_kb : option Z;
  ls_exit : ExitJson;
}.

Definition link_summary (workload : SegmentWorkload) (m : Measured) (daemon_log : bytes) : LinkSummary := {|
  ls_workload_version := sw_version workload;
  ls_ready_ms := me_ready_ms m;
  ls_priming_frames := me_priming_frames m;
  ls_probes_sent := len (me_sends m);
  ls_measure_start_ns := wn_start_ns (me_window m);
  ls_measure_end_ns := wn_end_ns (me_window m);
  ls_batches_received_total := len (me_records m);
  ls_undecodable_frames := me_undecodable m;
  ls_vm_hwm_kb := ev_vm_hwm_kb (me_evidence m);
  ls_vm_rss_kb := ev_vm_rss_kb (me_evidence m);
  ls_exit := exit_json (me_exit m) daemon_log |}.

(** ** The run *)

(** What the run meets besides the link. *)
Record RunEnv := MkRunEnv {
  re_socket : SocketCall -> result string unit;
  re_spawn : result string Z;
  re_ready : list ReadyPoll;
  re_metrics : Exchange;
  re_health : Exchange;
  re_status : option bytes;
  re_kill : KillEnv;
  re_log : option bytes;
  re_write : result string unit;
}.

Definition producer_calls (cfg : DaemonConfig) : list SocketCall :=
  [Producer SocketPub; Producer (SetLinger 0); Producer (BindPub (sub_endpoint cfg))].

Definition subscriber_calls (cfg : DaemonConfig) : list SocketCall :=
  [Consumer SocketSub; ConsumerLinger 0; Consumer (SetRcvhwm 100000); Consumer (SetSubscribe "");
   Consumer (Connect ("tcp://127.0.0.1:" +:+ pretty (spine_pub_port cfg)))].

Definition socket_run (env : RunEnv) (calls : list SocketCall) : result LinkError unit :=
  mapM (fun c => map_err LinkZmq (re_socket env c)) calls ≫= fun _ => Ok tt.

(** [start_session] up to the spawn. *)
Definition launch (read_to_string : string -> result string string)
    (toml_from_str : string -> result string DaemonConfig) (env : RunEnv) (spec : TransportSpec) :
    result LinkError (DaemonConfig * Z) :=
  map_err LinkConfig (load read_to_string toml_from_str SECONDARY_CONFIG) ≫= fun cfg =>
  require (tick_rate_hz cfg =? tp_tick_rate_hz spec) TickRateDiffers ≫= fun _ =>
  ok_or (control_bind cfg) LinkNoControlBind ≫= fun _ =>
  socket_run env (producer_calls cfg) ≫= fun _ =>
  map_err LinkSpawn (re_spawn env) ≫= fun p =>
  Ok (cfg, p).

Section Measure.
Variable to_vec : IpcMessage -> result string string.
Variable validate : StimulusBatch -> result string unit.
Variable decode_pub : string -> result string PubMessage.
Variable link : LinkEnv.
Variable spec : TransportSpec.
Variable channels : Z.

(** [measure] between the two ends of the link: the received batch that proves
    the subscription, priming and the probes. *)
Definition exchange : stateful Link LinkError (Z * list Sent * Window) :=
  wait_for decode_pub link SECONDARY_READY_DEADLINE (fun _ => true) ≫= fun subscribed =>
  if negb subscribed then bail NoBatch
  else
    prime_link to_vec validate decode_pub link spec channels ≫= fun priming_frames =>
    let start_ns := wrap64 (le_start_ns link) in
    probes to_vec validate link spec channels ≫= fun '(sends, end_ns) =>
    mret (priming_frames, sends, MkWindow start_ns end_ns).

(** The link when the receiver has been joined. *)
Definition link_end : Link * result LinkError (Z * list Sent * Window) :=
  let '(l, r) := exchange (MkLink [] 0 0 0 []) in
  match r with
  | Ok m => (receive decode_pub link l, Ok m)
  | Err e => (l, Err e)
  end.

(** After the exchange: evidence, termination, and the records as they are when
    the receiver has been joined. *)
Definition measure_link (env : RunEnv) (cfg : DaemonConfig) (ready_ms : Z) : stateful (option Z) LinkError Measured :=
  lift_result (socket_run env (subscriber_calls cfg)) ≫= fun _ =>
  lift_result link_end.2 ≫= fun '(priming_frames, sends, window) =>
  let evidence := capture_evidence (re_metrics env) (re_health env) (re_status env) in
  terminate_link (re_kill env) ≫= fun exit =>
  lift_result (map_err ReceiverFailed (le_receiver link)) ≫= fun _ =>
  mret (MkMeasured ready_ms priming_frames sends window (lk_records link_end.1) (lk_undecodable link_end.1) evidence exit).
End Measure.

(** What a run with a spawned daemon leaves: the sockets' half, the daemon as the
    drop finds it, and the files. *)
Record LinkRun := MkLinkRun {
  lr_link : Link;
  lr_daemon : option Z;
  lr_output : result LinkError (list Sent * list (Z * Z * list Z * string) * LinkSummary);
}.

Definition link_spawned (link : Link * result LinkError (Z * list Sent * Window))
    (measure : Z -> stateful (option Z) LinkError Measured) (env : RunEnv) (workload : SegmentWorkload) (p : Z) :
    LinkRun :=
  match wait_ready_from (re_ready env) with
  | Err e => MkLinkRun (MkLink [] 0 0 0 []) (Some p) (Err e)
  | Ok ready_ms =>
    let '(daemon, r) := measure ready_ms (Some p) in
    MkLinkRun link.1 daemon
      (r ≫= fun m =>
       map_err LinkWrite (re_write env) ≫= fun _ =>
       Ok (me_sends m, record_line (me_window m) <$> me_records m,
           link_summary workload m (default [] (re_log env))))
  end.

Definition secondary_transport_main (read_to_string : string -> result string string)
    (toml_from_str : string -> result string DaemonConfig) (from_str : string -> result string SegmentWorkload)
    (to_vec : IpcMessage -> result string string) (validate : StimulusBatch -> result string unit)
    (decode_pub : string -> result string PubMessage) (link : LinkEnv) (env : RunEnv) : result LinkError LinkRun :=
  map_err LinkWorkload (segments_load read_to_string from_str) ≫= fun w =>
  launch read_to_string toml_from_str env (sw_transport w) ≫= fun '(cfg, p) =>
  let spec := sw_transport w in
  Ok (link_spawned (link_end to_vec validate decode_pub link spec (sw_channels w))
        (measure_link to_vec validate decode_pub link spec (sw_channels w) env cfg) env w p).

(** ** What a run was sent and what it received *)

#[local] Abbreviation hoare P m Q := (triple P m Q (fun _ _ => True)).

Section Facts.
Variable to_vec : IpcMessage -> result string string.
Variable validate : StimulusBatch -> result string unit.
Variable decode_pub : string -> result string PubMessage.
Variable env : LinkEnv.
Variable spec : TransportSpec.
Variable channels : Z.

Definition received_of (frame : string * Z) : option Received :=
  (fun bc => MkReceived frame.2 bc.1 bc.2) <$> decode_spikes decode_pub frame.1.

Definition arrived (looks : nat) : list (string * Z) := concat (le_arrivals env <$> seq 0 looks).

Lemma drain_spec frames records undecodable :
  drain decode_pub frames records (wrap64 undecodable) =
  (records ++ omap received_of frames, wrap64 (undecodable + (len frames - len (omap received_of frames)))).
Proof.
  revert records undecodable. induction frames as [|[bytes at_ns] frames IH]; intros records undecodable.
  - rewrite app_nil_r. simpl. by rewrite Z.sub_diag, Z.add_0_r.
  - cbn [drain]. csimpl.
    change (received_of (bytes, at_ns)) with ((fun bc => MkReceived at_ns bc.1 bc.2) <$> decode_spikes decode_pub bytes).
    destruct (decode_spikes decode_pub bytes) as [[b c]|]; csimpl.
    + rewrite IH, <- (assoc_L app). rewrite !len_cons. apply (f_equal2 pair); [done|f_equal; lia].
    + rewrite wadd64_wrap_l, IH, len_cons. apply (f_equal2 pair); [done|f_equal; lia].
Qed.

(** The state of the link: the k-th frame sent is the k-th of [frames] - its
    batch id and channel - and the records are what decodes of what arrived. *)
Record link_ok (frames : list (Z * Z)) (l : Link) : Prop := {
  lo_length : length (lk_sent l) = length frames;
  lo_frames : forall k payload f, lk_sent l !! k = Some payload -> frames !! k = Some f ->
    stimulus to_vec validate spec channels f.1 f.2 (le_now_ns env k) = Ok payload;
  lo_records : lk_records l = omap received_of (arrived (lk_looks l));
  lo_undecodable : lk_undecodable l = wrap64 (len (arrived (lk_looks l)) - len (lk_records l));
}.

Definition primed (l : Link) : Prop := exists r, r ∈ lk_records l /\ rc_channels r = priming_expected spec.

Lemma arrived_S n : arrived (S n) = arrived n ++ le_arrivals env n.
Proof. unfold arrived. rewrite seq_S, fmap_app, concat_app. simpl. by rewrite app_nil_r. Qed.

Lemma receive_ok frames l : link_ok frames l -> link_ok frames (receive decode_pub env l).
Proof.
  intros [H1 H2 H3 H4]. unfold receive. rewrite H4, drain_spec. split; [done|done| |]; simpl.
  - by rewrite arrived_S, omap_app, H3.
  - rewrite arrived_S, !len_app. f_equal. rewrite H3. lia.
Qed.

Lemma receive_primed l : primed l -> primed (receive decode_pub env l).
Proof.
  intros (r & Hr & He). exists r. split; [|done]. unfold receive. revert Hr. generalize (lk_records l), (lk_undecodable l).
  generalize (le_arrivals env (lk_looks l)) as frames. simpl. induction frames as [|[b a] frames IH]; intros records u Hr; [done|].
  cbn [drain]. destruct (decode_spikes _ _) as [[]|]; apply IH; [|done]. apply elem_of_app. by left.
Qed.

#[local] Abbreviation seen pred l := (exists r, r ∈ lk_records l /\ pred r = true).

Lemma any_batch_ok frames pred :
  hoare (link_ok frames) (any_batch decode_pub env pred) (fun b l => link_ok frames l /\ (b = true -> seen pred l)).
Proof.
  intros l Hl. unfold any_batch. split; [by apply receive_ok|]. intros Hb.
  apply existsb_exists in Hb as (r & Hr & Hp). exists r. split; [by apply list_elem_of_In|done].
Qed.

Lemma wait_loop_ok frames deadline elapsed pred :
  hoare (link_ok frames) (wait_loop decode_pub env deadline elapsed pred)
    (fun b l => link_ok frames l /\ (b = true -> seen pred l)).
Proof.
  induction elapsed as [|e elapsed IH]; cbn [wait_loop]; [by apply triple_bail|].
  eapply triple_bind; [apply any_batch_ok|]. intros [].
  - apply triple_ret. intros l [Hl Hs]. split; [done|]. intros _. by apply Hs.
  - destruct (deadline <? e); [apply triple_ret; by intros l [Hl _]|].
    eapply triple_weaken; [apply IH| |done|done]. by intros l [Hl _].
Qed.

Lemma wait_for_ok frames deadline pred :
  hoare (link_ok frames) (wait_for decode_pub env deadline pred) (fun b l => link_ok frames l /\ (b = true -> seen pred l)).
Proof.
  eapply (triple_bind _ _ _ _ (fun _ => link_ok frames)); [by apply triple_get|]. intros l0.
  eapply (triple_bind _ _ _ _ (fun _ => link_ok frames)); [apply triple_modify; intros l []; by split|].
  intros _. apply wait_loop_ok.
Qed.

(** Encoding and sending a frame. *)
Lemma send_frame_ok {A} (F : list Received -> Prop) frames id ch (k : stateful Link LinkError A) Q :
  hoare (fun l => link_ok (frames ++ [(id, ch)]) l /\ F (lk_records l)) k Q ->
  hoare (fun l => link_ok frames l /\ F (lk_records l)) (encode to_vec validate env spec channels id ch ≫= fun bytes => send_link env bytes ≫= fun _ => k) Q.
Proof.
  intros Hk l [[H1 H2 H3 H4] HF]. unfold encode, send_link, mbind, stateful_bind.
  destruct (stimulus _ _ _ _ _ _ _) as [payload|] eqn:Hs; [|done]. destruct (le_send _ _); [|done]. apply Hk.
  split; [|done]. split; simpl; [by rewrite !length_app, H1| |done|done].
  intros i p f Hp Hf. destruct (decide (i < length frames)%nat).
  - rewrite lookup_app_l in Hp by lia. rewrite lookup_app_l in Hf by lia. by apply H2.
  - rewrite lookup_app_r in Hp by lia. rewrite lookup_app_r in Hf by lia. rewrite H1 in Hp.
    destruct (i - length frames)%nat as [|j] eqn:Ei; [|by destruct j]. injection Hp as <-. injection Hf as <-.
    replace i with (length (lk_sent l)) by lia. done.
Qed.

Definition priming_frame (k : Z) : Z * Z := (wadd64 1000000 (wrap64 k), tp_priming_channel spec).
Definition probe_frame (k : Z) : Z * Z := (k, k mod channels).

Lemma prime_rounds_ok rounds k frames :
  hoare (link_ok frames) (prime_rounds to_vec validate decode_pub env spec channels rounds (wrap64 k))
    (fun p l => exists m, 1 <= m /\ p = wrap64 (k + m) /\ link_ok (frames ++ (priming_frame <$> seqZ k m)) l /\ primed l).
Proof.
  revert k frames. induction rounds as [|rounds IH]; intros k frames; cbn [prime_rounds]; [by apply triple_bail|].
  eapply (triple_bind _ _ _ _ (fun b l => link_ok (frames ++ [priming_frame k]) l /\
    (b = true -> seen (fun r => bool_decide (rc_channels r = priming_expected spec)) l))).
  { intros l Hl. refine (send_frame_ok (fun _ => True) frames (wadd64 1000000 (wrap64 k)) (tp_priming_channel spec) _ _ _
      l (conj Hl I)).
    eapply triple_weaken; [apply wait_for_ok|by intros l' [Hl' _]|intros b l' H; exact H|done]. }
  intros ok.
  rewrite wadd64_wrap_l. destruct ok.
  - apply triple_ret. intros l [Hl Hs]. exists 1. split; [done|]. split; [done|]. split; [done|].
    destruct (Hs eq_refl) as (r & Hr & He). exists r. split; [done|]. by apply bool_decide_eq_true in He.
  - destruct (_ <? _); [by apply triple_bail|]. eapply triple_weaken; [apply (IH (k + 1) (frames ++ [priming_frame k]))| | |done].
    + by intros l [Hl _].
    + intros p l (m & Hm & -> & Hl & Hp). exists (m + 1). split; [lia|]. split; [f_equal; lia|]. split; [|done].
      rewrite (seqZ_cons k) by lia. replace (Z.pred (m + 1)) with m by lia. by rewrite <- (assoc_L app) in Hl.
Qed.

Definition on_time (k : Z) : Prop := Exists (fun now => slot env spec k < now) (le_sleeps env (Z.to_nat k)).

Lemma sleep_until_past target reads now :
  sleep_until target reads = Ok now -> Exists (fun now => target < now) reads.
Proof.
  induction reads as [|r reads IH]; simpl; [done|].
  destruct (Z.ltb_spec target r); [by constructor|]. intros H'. right. by apply IH.
Qed.

Definition sent_probe (k : Z) : Sent := MkSent k (k mod channels) (wrap64 (le_at_ns env (Z.to_nat k))).

Lemma probe_loop_ok ps sends frames :
  hoare (fun l => link_ok frames l /\ primed l) (probe_loop to_vec validate env spec channels ps sends)
    (fun sends' l => (link_ok (frames ++ (probe_frame <$> ps)) l /\ primed l) /\
       sends' = sends ++ (sent_probe <$> ps) /\ Forall on_time ps).
Proof.
  revert sends frames. induction ps as [|k ps IH]; intros sends frames; cbn [probe_loop].
  { apply triple_ret. intros l Hl. csimpl. by rewrite !app_nil_r. }
  intros l [Hl Hp]. unfold lift_result at 1 2. unfold mbind at 1 2, stateful_bind at 1 2.
  destruct (sleep_until _ _) as [now|] eqn:Hs; [|done]. destruct (require _ _); [|done].
  apply sleep_until_past in Hs.
  refine (send_frame_ok (fun records => exists r, r ∈ records /\ rc_channels r = priming_expected spec)
    frames k (k mod channels) _ _ _ l (conj Hl Hp)).
  eapply triple_weaken; [apply (IH (sends ++ [sent_probe k]) (frames ++ [probe_frame k]))|done| |done].
  intros sends' l' (Hl' & -> & Ht). csimpl. rewrite <- !(assoc_L app) in *. split; [done|]. split; [done|]. by constructor.
Qed.

(** A link whose run completed. *)
Record link_done (l : Link) (priming_frames : Z) (sends : list Sent) : Prop := {
  ld_rounds : exists m, 1 <= m /\ priming_frames = wrap64 m /\
    link_ok ((priming_frame <$> seqZ 0 m) ++ (probe_frame <$> seqZ 0 (tp_probes spec))) l;
  ld_primed : primed l;
  ld_sends : sends = sent_probe <$> seqZ 0 (tp_probes spec);
  ld_on_time : Forall on_time (seqZ 0 (tp_probes spec));
}.

Lemma exchange_ok :
  hoare (link_ok []) (exchange to_vec validate decode_pub env spec channels)
    (fun m l => link_done l m.1.1 m.1.2 /\ m.2 = MkWindow (wrap64 (le_start_ns env)) (wrap64 (le_end_ns env))).
Proof.
  unfold exchange. eapply triple_bind; [apply wait_for_ok|]. intros []; [|by apply triple_bail]. cbn [negb].
  eapply (triple_bind _ _ _ _ (fun p l => exists m, 1 <= m /\ p = wrap64 m /\ link_ok (priming_frame <$> seqZ 0 m) l /\ primed l)).
  { eapply triple_weaken; [apply (prime_rounds_ok (le_rounds env) 0 [])|by intros l [Hl _]| |done].
    intros p l (m & Hm & -> & Hl & Hp). by exists m. }
  intros p. eapply (triple_bind _ _ _ _ (fun se l => link_done l p se.1 /\ se.2 = wrap64 (le_end_ns env))).
  - intros l (m & Hm & -> & Hl & Hp). unfold probes, mbind at 1, stateful_bind at 1.
    pose proof (probe_loop_ok (seqZ 0 (tp_probes spec)) [] (priming_frame <$> seqZ 0 m) l (conj Hl Hp)) as Hs.
    destruct (probe_loop _ _ _ _ _ _ _ _) as [l' [sends|]]; [|done]. destruct Hs as ((Hl' & Hp') & -> & Ht).
    unfold lift_result, mbind, stateful_bind. destruct (sleep_until _ _); [|done]. split; [|done]. split; [by exists m|done..].
  - intros [sends end_ns]. apply triple_ret. intros l [Hl He]. simpl in He |- *. by rewrite He.
Qed.

Lemma link_end_ok l m :
  link_end to_vec validate decode_pub env spec channels = (l, Ok m) ->
  link_done l m.1.1 m.1.2 /\ m.2 = MkWindow (wrap64 (le_start_ns env)) (wrap64 (le_end_ns env)).
Proof.
  unfold link_end. pose proof (exchange_ok (MkLink [] 0 0 0 [])) as H. destruct (exchange _ _ _ _ _ _ _) as [l0 [m0|]]; [|done].
  intros [= <- <-]. destruct H as [[(k & Hk & Hp & Hl) H2 H3 H4] Hw]; [by split|]. split; [|done].
  split; [|by apply receive_primed|done|done]. exists k. split; [done|]. split; [done|]. by apply receive_ok.
Qed.
End Facts.

(** The driver of the secondary experiment reports what it did: a run that
    completes has sent the priming frames - batch ids from a million, on the
    priming channel - and then each probe once, numbered from 0, round-robin over
    the channels, none before its slot; the priming answer was received; the
    lines of the received file are what decodes of everything that arrived, in
    order, and the rest is counted as undecodable; and the drop kills the daemon
    exactly when its exit was not seen. *)
Theorem secondary_transport_accounts read toml_from_str from_str to_vec validate decode_pub link env run sends lines s :
  secondary_transport_main read toml_from_str from_str to_vec validate decode_pub link env = Ok run ->
  lr_output run = Ok (sends, lines, s) ->
  exists w m, segments_load read from_str = Ok w /\ 1 <= m /\ ls_priming_frames s = wrap64 m /\
    let spec := sw_transport w in
    let frames := (priming_frame spec <$> seqZ 0 m) ++ (probe_frame (sw_channels w) <$> seqZ 0 (tp_probes spec)) in
    let l := lr_link run in
    length (lk_sent l) = length frames /\
    (forall k payload f, lk_sent l !! k = Some payload -> frames !! k = Some f ->
       stimulus to_vec validate spec (sw_channels w) f.1 f.2 (le_now_ns link k) = Ok payload) /\
    sends = sent_probe link (sw_channels w) <$> seqZ 0 (tp_probes spec) /\ ls_probes_sent s = len sends /\
    Forall (on_time link spec) (seqZ 0 (tp_probes spec)) /\
    (exists line, line ∈ lines /\ line.1.2 = priming_expected spec) /\
    lines = record_line (MkWindow (ls_measure_start_ns s) (ls_measure_end_ns s)) <$>
              omap (received_of decode_pub) (arrived link (lk_looks l)) /\
    ls_batches_received_total s = len lines /\
    ls_undecodable_frames s = wrap64 (len (arrived link (lk_looks l)) - len lines) /\
    (lr_daemon run = None <-> exists status, wait_for_exit (ke_polls (re_kill env)) = Ok (Some status)).
Proof.
  unfold secondary_transport_main. intros (w & Hw & ([cfg p] & _ & [= <-])%result_bind_ok)%result_bind_ok.
  destruct (segments_load read from_str) as [w'|] eqn:Hload; [|done]. injection Hw as ->. unfold link_spawned.
  destruct (wait_ready_from _) as [ready_ms|]; [|done]. unfold measure_link, lift_result, mbind, stateful_bind, mret, stateful_ret.
  destruct (socket_run _ _); [|done]. destruct (link_end _ _ _ _ _ _) as [l [[[pf sd] win]|]] eqn:Hl; [|done].
  apply link_end_ok in Hl as [[(m & Hm & Hpf & [L1 L2 L3 L4]) (r & Hr & He) Hsd Ht] Hwin]. cbn [fst snd] in *.
  unfold terminate_link, lift_result, modify, get, mbind, stateful_bind, mret, stateful_ret.
  destruct (ke_kill _) as [sig|]; [|done]. cbn [map_err ok_or].
  destruct (wait_for_exit _) as [status|]; [|done]. destruct (le_receiver _); [|done]. cbn [map_err]. unfold result_bind.
  destruct (re_write _); [|done]. cbn [map_err lr_output lr_link lr_daemon me_sends me_window me_records].
  intros [= <- <- <-]. subst win. exists w, m. split; [done|]. split; [done|]. split; [done|]. cbv zeta.
  split; [done|]. split; [done|]. split; [done|]. split; [done|]. split; [done|].
  split; [exists (record_line (MkWindow (wrap64 (le_start_ns link)) (wrap64 (le_end_ns link))) r); split; [by apply list_elem_of_fmap_2|done]|].
  split; [by rewrite L3|]. cbn. unfold len in *. rewrite length_fmap. split; [done|]. split; [by rewrite L4|].
  destruct status; [|by split; [|intros []]]. split; [by eexists|done].
Qed.

(** ** Witness *)

Definition demo_link_workload : SegmentWorkload :=
  MkSegmentWorkload "1" 8 1 0 [] (MkTransportSpec 1000 2 5 f_one32 0 10 1000 50).

Definition demo_decode_link (s : string) : result string PubMessage :=
  if bool_decide (s = "x"%string) then Err "not JSON"%string else demo_decode_pub s.

(** An empty batch, a priming frame that goes unanswered and one that is
    answered, two probes, one frame that is no batch. *)
Definition demo_link : LinkEnv := {|
  le_arrivals := fun n => match n with 0%nat => [("e"%string, 1)] | 2%nat => [("a"%string, 7)] | 3%nat => [("x"%string, 9); ("a"%string, 12)] | _ => [] end;
  le_receiver := Ok tt;
  le_elapsed := fun n => match n with 0%nat | 2%nat => [1] | _ => [20000000] end;
  le_now_ns := Z.of_nat;
  le_send := fun _ => Ok tt;
  le_rounds := 5;
  le_prime_elapsed := fun _ => 3;
  le_start_ns := 10;
  le_probe_start := 0;
  le_sleeps := fun _ => [0; 100000000];
  le_at_ns := fun n => 11 + Z.of_nat n;
  le_end_ns := 20;
|}.

Definition demo_link_env : RunEnv :=
  MkRunEnv (fun _ => Ok tt) (Ok 42) [MkReadyPoll (Ok false) demo_ok_reply 5000000] demo_ok_reply Broken
    (Some (as_bytes "VmHWM:  12 kB")) (MkKillEnv (Ok true) [(1, Ok None); (2, Ok (Some (Some 0)))] 3000000) None (Ok tt).

Definition demo_link_run : result LinkError LinkRun :=
  secondary_transport_main (fun _ => Ok ""%string) (fun _ => Ok demo_config) (fun _ => Ok demo_link_workload)
    (fun _ => Ok "frame"%string) (fun _ => Ok tt) demo_decode_link demo_link demo_link_env.

Lemma secondary_transport_accounts_witness : exists run sends lines s,
  demo_link_run = Ok run /\ lr_output run = Ok (sends, lines, s) /\
  ls_batches_received_total s = 3 /\ ls_batches_received_total s = len lines /\
  exists line, line ∈ lines /\ line.1.2 = [0; 1].
Proof.
  destruct demo_link_run as [run|] eqn:Hr; [|by vm_compute in Hr].
  assert (exists sends lines s, lr_output run = Ok (sends, lines, s) /\ ls_batches_received_total s = 3)
    as (sends & lines & s & Ho & Ht) by (revert Hr; vm_compute; intros [= <-]; by eexists _, _, _).
  exists run, sends, lines, s. split; [done|]. split; [done|]. split; [done|].
  destruct (secondary_transport_accounts (fun _ => Ok ""%string) (fun _ => Ok demo_config) (fun _ => Ok demo_link_workload)
    (fun _ => Ok "frame"%string) (fun _ => Ok tt) demo_decode_link demo_link demo_link_env run sends lines s Hr Ho)
    as (w & m & [= <-] & _ & _ & H).
  destruct H as (_ & _ & _ & _ & _ & Hp & _ & Hlen & _). split; [exact Hlen|exact Hp].
Defined.
