(* ===== verification/Report.v ===== *)
(** * The summaries of the in-process drivers
    (examples/usefulness_inprocess.rs, examples/usefulness_secondary_inprocess.rs)

    What each driver writes about a run beside its records: a record per JSON
    object, with a field per member.  The JSON text is serde's, and so is the
    object of the health snapshot, which is the snapshot itself here. *)

From Stdlib Require Import SpecFloat.
From S2P Require Import Prelude Floats NetAddr Queue Ingress Health Config Checkpoint Tick Daemon Workload Inprocess.
From S2P Require Import Secondary Process SecondaryLink.
Local Open Scope Z_scope.

(** ** Counters and provenance *)

Record ClassReport := MkClassReport {
  cr_accepted : Z;
  cr_rejected : Z;
  cr_dropped : Z;
  cr_coalesced : Z;
  cr_shutdown_refused : Z;
  cr_high_water_mark : Z;
}.

Definition class_json (m : ClassMetrics) : ClassReport :=
  MkClassReport (cm_accepted m) (cm_rejected m) (cm_dropped m) (cm_coalesced m) (cm_shutdown_refused m)
    (cm_high_water_mark m).

Record IngressReport {R : Type} := MkIngressReport {
  ir_sensory : R;
  ir_reward : R;
  ir_control : R;
  ir_telemetry : R;
}.
Arguments IngressReport : clear implicits.
Arguments MkIngressReport {R}.

Definition ingress_json (m : IngressMetrics) : IngressReport ClassReport :=
  MkIngressReport (class_json (metrics_class m Sensory)) (class_json (metrics_class m Reward))
    (class_json (metrics_class m Control)) (class_json (metrics_class m Telemetry)).

(** The secondary driver's rows carry one more member. *)
Definition secondary_class_json (m : ClassMetrics) : ClassReport * Z := (class_json m, lost_or_coalesced m).

Definition secondary_ingress_json (m : IngressMetrics) : IngressReport (ClassReport * Z) :=
  MkIngressReport (secondary_class_json (metrics_class m Sensory)) (secondary_class_json (metrics_class m Reward))
    (secondary_class_json (metrics_class m Control)) (secondary_class_json (metrics_class m Telemetry)).

(** The eight counters and the last batch. *)
Definition runtime_stats_json (stats : RuntimeStats) : RuntimeCounters * option Z :=
  (counters_of stats, rs_last_batch_id stats).
Definition stats_json (stats : RuntimeStats) : RuntimeCounters := counters_of stats.

Record CheckpointReport := MkCheckpointReport {
  kr_schema_id : string;
  kr_model_id : string;
  kr_content_sha256 : string;
  kr_source_path : string;
}.

(** Both drivers write the same four members. *)
Definition checkpoint_json (display : path -> string) (p : ModelProvenance) : CheckpointReport :=
  MkCheckpointReport (mp_schema_id p) (mp_model_id p) (mp_content_sha256 p) (display (mp_source_path p)).

(** ** Timing *)

Record TimingSummary := MkTimingSummary {
  tm_ticks_total : Z;
  tm_warmup_ticks_excluded : Z;
  tm_measured_ticks : Z;
  tm_measured_wall_ns : Z;
  tm_ticks_per_s : f64;
}.

(** Ticks per second of [wall] nanoseconds; no time is no rate. *)
Definition ticks_per_s (measured wall : Z) : f64 :=
  if wall =? 0 then f_zero else f64_div (f64_of_int measured) (as_secs_f64 wall).

Definition timing_summary (records : list TickRecord) (warmup first_measured_start last_end : Z) : TimingSummary :=
  let measured := sat_sub (len records) warmup in
  let wall := sat_sub last_end first_measured_start in
  MkTimingSummary (len records) warmup measured (wrap64 wall) (ticks_per_s measured wall).

(** [measured_ticks as f64 * 1e9 / ns as f64]. *)
Definition secondary_rate (measured_ticks measured_ns : Z) : f64 :=
  if measured_ns =? 0 then f_zero
  else f64_div (f64_mul (f64_of_int measured_ticks) (f64_of_int 1000000000)) (f64_of_int measured_ns).

(** ** The files *)

(** [summary.json] of the first driver: what the run put there, then what
    [write_summary] adds. *)
Record InprocessSummary := MkInprocessSummary {
  is_run : Inprocess.Summary;
  is_mode : string;
  is_config : string;
  is_workload : string;
  is_fixture_sha256 : option string;
  is_timing : TimingSummary;
  is_peak_rss_kb : option Z;
  is_rss_kb : option Z;
  is_pid : Z;
}.

Definition write_summary (read : string -> option bytes) (mode : Mode) (config workload : string) (run : Run)
    (fixture_sha256 : option string) (warmup pid : Z) : InprocessSummary := {|
  is_run := run_summary run;
  is_mode := mode_as_str mode;
  is_config := config;
  is_workload := workload;
  is_fixture_sha256 := fixture_sha256;
  is_timing := timing_summary (run_records run) warmup (run_first_measured_start run) (run_last_end run);
  is_peak_rss_kb := vm_status_kb read None "VmHWM:";
  is_rss_kb := vm_status_kb read None "VmRSS:";
  is_pid := pid;
|}.

(** [summary_json] of the second. *)
Record SecondarySummary := MkSecondarySummary {
  es_mode : string;
  es_variant : string;
  es_rep : Z;
  es_config : string;
  es_workload_version : string;
  es_fixture_sha256 : string;
  es_ticks_requested : Z;
  es_ticks_recorded : Z;
  es_warmup_ticks_excluded : Z;
  es_measured_ticks : Z;
  es_measured_span_ns : Z;
  es_ticks_per_s : f64;
  es_process_wall_ns : Z;
  es_vm_hwm_kb : option Z;
  es_vm_rss_kb : option Z;
  es_details : Details;
}.

Definition FIXTURE_PATH : string := "experiments/usefulness-secondary/fixtures/snn_model.json".

(** [file_sha256]: the digest of the file's bytes, two digits a byte. *)
Definition file_sha256 (read : string -> result string (list Z)) (sha256 : list Z -> list Z) (file : string) :
    result string string :=
  read file ≫= fun bytes => Ok (hex_sha256 sha256 bytes).

Definition secondary_summary (read : string -> result string (list Z)) (sha256 : list Z -> list Z)
    (status : option bytes) (mode : Mode) (variant : Variant) (rep : Z) (workload : SegmentWorkload)
    (inputs : list TickInput) (output : RunOutput) (wall_ns : Z) : result string SecondarySummary :=
  let trace := ro_trace output in
  let warm := warmup_ticks workload in
  let measured_ns := measured_span_ns trace warm in
  let measured := sat_sub (len (tr_emits trace)) warm in
  let '(vm_hwm_kb, vm_rss_kb) := proc_memory_kb status in
  file_sha256 read sha256 FIXTURE_PATH ≫= fun sha =>
  Ok {|
    es_mode := mode_as_str mode;
    es_variant := variant_as_str variant;
    es_rep := rep;
    es_config := Secondary.config_path mode;
    es_workload_version := sw_version workload;
    es_fixture_sha256 := sha;
    es_ticks_requested := len inputs;
    es_ticks_recorded := len (tr_emits trace);
    es_warmup_ticks_excluded := warm;
    es_measured_ticks := measured;
    es_measured_span_ns := measured_ns;
    es_ticks_per_s := secondary_rate measured measured_ns;
    es_process_wall_ns := wrap64 wall_ns;
    es_vm_hwm_kb := vm_hwm_kb;
    es_vm_rss_kb := vm_rss_kb;
    es_details := ro_details output;
  |}.

(** ** What the summaries say *)

(** Warm-up and measured ticks make up the run, when the run outlasts its
    warm-up, and nothing is measured otherwise. *)
Lemma timing_partition records warmup first_start last_end :
  let t := timing_summary records warmup first_start last_end in
  0 <= warmup ->
  (warmup <= tm_ticks_total t -> tm_warmup_ticks_excluded t + tm_measured_ticks t = tm_ticks_total t) /\
  (tm_ticks_total t <= warmup -> tm_measured_ticks t = 0).
Proof. simpl. unfold sat_sub. lia. Qed.

(** A clock that did not advance between the first measured poll and the last
    emission gives a rate of zero and never a division by zero. *)
Lemma timing_no_division records warmup start : tm_ticks_per_s (timing_summary records warmup start start) = f_zero.
Proof. unfold timing_summary, ticks_per_s, sat_sub. simpl. by rewrite Z.sub_diag. Qed.

(** The two drivers' rows agree on what they share. *)
Lemma ingress_reports_agree m :
  let s := secondary_ingress_json m in
  ingress_json m = MkIngressReport (ir_sensory s).1 (ir_reward s).1 (ir_control s).1 (ir_telemetry s).1.
Proof. done. Qed.
