(* ===== verification/Wire.v ===== *)
(** * The binary and its driver on one wire

    The daemon as the binary starts it - configuration, checkpoint, PUB and SUB
    sockets, the loop until a signal - with the transport driver of Pulses.v at
    the other end of both sockets.  The ZeroMQ source delivers what the driver
    sent, the ZeroMQ sink is a [Recorder] of what the driver will parse, and so
    what travels back is the spikes of the engine stepped directly on the
    driver's pulses.  Assumed of the crates underneath are the JSON round trips
    of both directions, that [validate] passes well-formed batches, and that a
    step spikes only neurons the network has. *)

From S2P Require Import Prelude Floats Packet NetAddr Queue QueueConc Ingress Health Config Corpus Backend Checkpoint.
From S2P Require Import Diagnostics Tick Daemon Typing Startup Replay Workload Inprocess Agreement Process Pulses.
Local Open Scope Z_scope.

(** ** The sink records *)

Definition strengths_finite (batch : SpikeBatch) : bool := all_finite (strength <$> pb_spikes batch).

(** The codec of the PUB side: what is published decodes to itself. *)
Class PubCodec (to_vec : SpikeBatch -> result string string)
    (decode_pub : string -> result string PubMessage) : Prop :=
  pub_roundtrip : forall batch, strengths_finite batch = true ->
    exists bytes, to_vec batch = Ok bytes /\ decode_pub bytes = Ok (PubSpikes batch).

Section Sink.
Context (to_vec : SpikeBatch -> result string string) (decode_pub : string -> result string PubMessage).
Context `{!PubCodec to_vec decode_pub}.

(** What a subscriber reads of a payload. *)
Definition payload_channels (payload : string) : result TransportError (list Z) :=
  parse_spikes decode_pub payload ≫= fun '(channels, _, _) => Ok channels.

(** A sink whose socket takes every frame, empty batches included, and whose
    frames so far parse. *)
Definition zmq_in_order (k : ZmqSpikeSink) : Prop :=
  zk_poisoned k = false /\ zk_send_empty_batches k = true /\ Forall (fun r => r = Ok tt) (zk_sends k) /\
  Forall (fun payload => is_ok (payload_channels payload) = true) (zk_sent k).

Definition zmq_recorded (k : ZmqSpikeSink) : list (list Z) :=
  (fun payload => match payload_channels payload with Ok channels => channels | Err _ => [] end) <$> zk_sent k.

Lemma spikes_at_finite id t time ids : strengths_finite (MkSpikeBatch id t (spikes_at time ids)) = true.
Proof. unfold strengths_finite, all_finite, spikes_at. simpl. by induction ids as [|i ids IH]. Qed.

Lemma zmq_emit_records time ids t k : zmq_in_order k -> exists k',
  zmq_emit to_vec (spikes_at time ids) t k = (k', Ok tt) /\ zmq_in_order k' /\
  zmq_recorded k' = zmq_recorded k ++ [sort_unstable ids].
Proof.
  intros (Hp & He & Hs & Hw). unfold zmq_emit. rewrite He, andb_false_r.
  destruct (pub_roundtrip (MkSpikeBatch (wrap64 (t / 1000000)) (wrap64 t) (spikes_at time ids))
    (spikes_at_finite _ _ _ _)) as (payload & -> & Hd).
  assert (payload_channels payload = Ok (sort_unstable ids)) as Hc
    by (unfold payload_channels, parse_spikes; rewrite Hd; simpl; by rewrite channel_spikes_at).
  assert (Forall (fun payload => is_ok (payload_channels payload) = true) (zk_sent k ++ [payload])) as Hw'
    by (apply Forall_app; split; [done|]; constructor; [by rewrite Hc|done]).
  rewrite Hp. unfold socket_send, zmq_recorded, zmq_in_order. simpl.
  destruct Hs as [|r sends Hr Hs]; simpl; [|rewrite Hr]; (eexists; split; [reflexivity|]); simpl.
  all: rewrite fmap_app; csimpl; rewrite Hc; (split; [|done]); by do 2 (split; [done|]).
Qed.

Lemma zmq_flush_records k : zmq_in_order k -> exists k',
  default_flush k = (k', Ok tt : result string unit) /\ zmq_in_order k' /\ zmq_recorded k' = zmq_recorded k.
Proof. by exists k. Qed.

Definition zmq_recorder : Recorder (H := zmq_sink to_vec) ZmqSpikeSink :=
  Build_Recorder _ (zmq_sink to_vec) zmq_recorded sort_unstable zmq_in_order zmq_emit_records zmq_flush_records.

(** The payloads a sink in order sent parse to its record. *)
Lemma payloads_parse k outs :
  zmq_in_order k -> zmq_recorded k = outs -> payload_channels <$> zk_sent k = Ok <$> outs.
Proof.
  intros (_ & _ & _ & Hw) <-. unfold zmq_recorded. induction Hw as [|payload sent Hok _ IH]; [done|].
  csimpl. rewrite IH. by destruct (payload_channels payload).
Qed.
End Sink.

(** What a driver collects, when it polls what the sink sent. *)
Lemma collected_from_record decode_pub wire driver (sent : list string) (outs : list (list Z)) :
  polled decode_pub wire driver -> payload_channels decode_pub <$> sent = Ok <$> outs ->
  (forall n poll bytes, poll ∈ we_polls wire n -> po_bytes poll = Ok bytes -> bytes ∈ sent) ->
  Forall (fun f => pf_channels f ∈ outs) (dr_frames driver).
Proof.
  intros Hpol Hpar Hin. eapply Forall_impl; [exact Hpol|]. intros f (n & poll & bytes & Hn & Hb & Hp).
  assert (payload_channels decode_pub bytes ∈ payload_channels decode_pub <$> sent) as He
    by (apply list_elem_of_fmap; eauto).
  rewrite Hpar in He. apply list_elem_of_fmap in He as (channels & Hc & Ho). unfold payload_channels in Hc.
  rewrite Hp in Hc. simpl in Hc. by injection Hc as ->.
Qed.

(** ** The source delivers *)

(** One receive of the SUB socket: nothing, or the k-th frame the driver sent,
    read before it is too old. *)
Inductive arrival (wire : WireEnv) (driver : Driver) : option nat -> Recv -> Prop :=
| arrival_nothing : arrival wire driver None Eagain
| arrival_frame k payload now :
    dr_sent driver !! k = Some payload -> 0 <= now - we_now_ns wire k <= 1000000000 ->
    arrival wire driver (Some k) (Frame payload now).

Section Pulse.
Variable wire : WireEnv.
Variable session : Session.
Variable attempts : nat.

Definition width : nat := Z.to_nat (ss_channels session).

(** The vector of the k-th frame: the amplitude on its channel. *)
Definition pulse_values (k : nat) : list f32 :=
  <[frame_channel session attempts k := ss_amplitude session]> (replicate width f_zero).

Definition pulse_packet (arrived : option nat) : option IngressPacket :=
  k ← arrived;
  Some (MkPacket (pulse_values k) None (Some (replicate width true)) (Some (Z.of_nat k + 1))
          (Some (we_now_ns wire k)) (Some TRANSPORT_SESSION_ID) false).

(** What the engine is stepped on for it. *)
Definition pulse_input (mods_default : NeuroModulators) (arrived : option nat) : list f32 * NeuroModulators :=
  (match arrived with Some k => pulse_values k | None => replicate width f_zero end, mods_default).

Lemma pulse_length k : length (pulse_values k) = width.
Proof. unfold pulse_values. by rewrite length_insert, length_replicate. Qed.

Lemma pulse_finite k : is_finite (ss_amplitude session) = true -> all_finite (pulse_values k) = true.
Proof.
  intros Ha. by apply all_finite_Forall, Forall_insert; [apply Forall_replicate|].
Qed.

Lemma pulse_decoded mods_default arrived :
  (0 < width)%nat -> engine_input mods_default width (pulse_packet arrived) = pulse_input mods_default arrived.
Proof.
  intros Hw. destruct arrived as [k|]; unfold engine_input, decode_inputs, pulse_input; simpl.
  - pose proof (pulse_length k) as Hl. unfold admitted, into_packet, sensory_part, reward_part. simpl.
    destruct (pulse_values k) as [|x xs] eqn:Hx; [simpl in Hl; lia|]. rewrite <- Hx in *.
    unfold decode_stimuli. simpl. rewrite length_replicate, Hl, Nat.ltb_irrefl, Nat.min_id, <- Hl, firstn_all.
    rewrite drop_ge by (rewrite length_replicate; lia). by rewrite app_nil_r, Hl, apply_mask_true.
  - unfold admitted, into_packet, decode_stimuli. simpl. rewrite length_replicate.
    destruct width as [|n]; [done|]. done.
Qed.

Lemma pulse_deliverable cfg arrived :
  is_finite (ss_amplitude session) = true -> 0 <= ss_channels session <= max_payload_len cfg ->
  deliverable cfg (pulse_packet arrived).
Proof.
  intros Ha Hc. destruct arrived as [k|]; intros p; [|done]. intros [= <-].
  unfold packet_finite, payload_fits. simpl. rewrite pulse_finite by done. split; [done|]. split; [done|].
  split; [|done]. unfold len. rewrite pulse_length. unfold width. lia.
Qed.
End Pulse.

(** ** The two processes *)

Section Wire.
Context {LifRest NetRest StdpRest EnvFilter FilterError : Type}.
Abbreviation Network := (@SpikingNetwork LifRest NetRest StdpRest).
Variable fs : Fs.
Variable parse_document : string -> result unit SidecarDocument.
Variable parse_hub : string -> result unit HubConfig.
Variable sha256 : list Z -> list Z.
Variable with_dimensions : Z -> Z -> Z -> Network.
Variable set_rm_stdp_config : @RmStdpConfig StdpRest -> Network -> Network.
Variable components : string -> path.
Variable display : path -> string.
Variable net_step : Network -> list f32 -> NeuroModulators -> Network * result string (list Z).
Variable mods_default : NeuroModulators.
Variable tcp_bind : SocketAddr -> result string unit.
Variable config_dir : option string.
Variable read_to_string : string -> result string string.
Variable toml_from_str : string -> result string DaemonConfig.
Variable workload_from_str : string -> result string Workload.
Variable EnvFilter_new : string -> EnvFilter.
Variable EnvFilter_try_new : string -> result FilterError EnvFilter.
Variable zmq : PubCall -> result string unit.
Variable connect_call : ZmqCall -> result string unit.
Variable validate : StimulusBatch -> result string unit.
Variable to_vec : IpcMessage -> result string string.
Variable from_slice : string -> result string IpcMessage.
Variable pub_to_vec : SpikeBatch -> result string string.
Variable decode_pub : string -> result string PubMessage.

Hypothesis codec : stimuli_roundtrip to_vec from_slice.
Hypothesis validates : validates_wellformed validate.
Context `{!PubCodec pub_to_vec decode_pub}.
Hypothesis sized : with_dimensions_sized with_dimensions.
Hypothesis sets : set_config_sets set_rm_stdp_config.
Hypothesis in_range : step_ids_in_range net_step.

Abbreviation start_binary := (run_zmq fs parse_document parse_hub sha256 with_dimensions set_rm_stdp_config
  components display config_dir read_to_string toml_from_str EnvFilter_new EnvFilter_try_new zmq).

(** The loop of the binary's daemon: its source reads the endpoint from the
    variables the start left, and its socket then receives [recvs]. *)
Definition binary_loop (recvs : list Recv) (d : BrainstemDaemon ZmqStimulusSource ZmqSpikeSink)
    (restored : Network * ModelProvenance) (init_at check_at : Z) (events : list LoopEvent) :
    option (@World ZmqStimulusSource ZmqSpikeSink * result DaemonError unit) :=
  let endpoint := Some (sub_endpoint (bd_config d)) in
  run_with_restored_network (H := zmq_source validate from_slice connect_call recvs endpoint endpoint) (H0 := zmq_sink pub_to_vec)
    fs parse_document parse_hub sha256 with_dimensions set_rm_stdp_config components display net_step mods_default
    tcp_bind d restored.1 restored.2 init_at check_at events.

(** The sockets and the fixture: nothing refuses a bind, a connect or a send,
    empty batches are published, and the pulses are finite. *)
Record wire_ok (c : DaemonConfig) (session : Session) (sends : list (result string unit)) : Prop := {
  wk_unsigned : daemon_unsigned c;
  wk_publishes_empty : spine_pub_send_empty_batches c = true;
  wk_sends : Forall (fun r => r = Ok tt) sends;
  wk_connect : Forall (fun call => connect_call call = Ok tt) (connect_calls (sub_endpoint c));
  wk_control : is_ok (start_control tcp_bind (control_bind c)) = true;
  wk_amplitude : is_finite (ss_amplitude session) = true;
}.

(** A driver's frames cross the SUB socket as its pulses. *)
Lemma pulses_delivered wire session attempts driver n recvs arrived s endpoint endpoint' fresh :
  (attempts <= PRIME_ATTEMPTS)%nat -> Z.of_nat n <= u32_max ->
  sent_as to_vec wire session (replicate attempts 0%nat ++ (pulse_channel session <$> seq 0 n)) driver ->
  is_finite (ss_amplitude session) = true -> 0 <= ss_channels session ->
  Forall2 (arrival wire driver) arrived recvs ->
  zs_socket s = Some recvs -> zs_channels s = ss_channels session -> zs_last_modulators s = None ->
  zs_max_age s = 1000000000 ->
  delivers (H := zmq_source validate from_slice connect_call fresh endpoint endpoint')
    (pulse_packet wire session attempts <$> arrived) s (set_socket (Some []) s).
Proof.
  intros Ha Hn Hs Hamp Hch Harr. revert s. induction Harr as [|o recv arrived recvs Hone _ IH]; intros s Hk Hc Hm Hage.
  - csimpl. by destruct s; simpl in Hk; subst.
  - csimpl. exists (set_socket (Some recvs) s). split; [|by apply (IH (set_socket (Some recvs) s))].
    unfold zmq_next_ingress, MAX_DRAIN_PER_TICK. cbn [drain_frames next_ingress zmq_source]. rewrite Hk.
    destruct Hone as [|k payload now Hp Hnow]; simpl; [unfold skip_ingress; by rewrite Hm|].
    pose proof (sent_frame to_vec wire session attempts n driver k payload Ha Hn Hs Hp) as Hf.
    unfold session_frame in Hf. apply result_bind_ok in Hf as (values & Hv & Hf).
    unfold session_values in Hv. rewrite require_bind_ok in Hv. destruct Hv as [_ [= Hv]].
    change (pulse_values session attempts k = values) in Hv. subst values. apply map_err_ok in Hf.
    destruct (stimulus_frame_accepted to_vec from_slice validate TRANSPORT_SESSION_ID (Z.of_nat k + 1)
      (we_now_ns wire k) now (pulse_values session attempts k) (Some (replicate (width session) true))
      (ss_channels session) 1000000000 codec validates)
      as (bytes & Hb & Hacc); [by apply pulse_finite| | |by split; vm_compute|done|].
    + intros m [= <-]. by rewrite pulse_length, length_replicate.
    + unfold len. rewrite pulse_length. unfold width. lia.
    + change (Z.to_nat (ss_channels session)) with (width session) in Hf. rewrite Hb in Hf. injection Hf as ->.
      simpl. rewrite Hc, Hage, Hacc. simpl. unfold attach_held_modulators. simpl. by rewrite Hm.
Qed.

(** The source connects to the endpoint of the variables. *)
Lemma binary_connects recvs endpoint ch model :
  Forall (fun call => connect_call call = Ok tt) (connect_calls endpoint) ->
  initialize (StimulusSource := zmq_source validate from_slice connect_call recvs (Some endpoint) (Some endpoint))
    model (with_channels ch) = (set_socket (Some recvs) (with_channels ch), Ok tt).
Proof.
  intros Hc. simpl. unfold zmq_initialize, zmq_connect. simpl. unfold readout_endpoint. simpl.
  unfold connect_calls in Hc. repeat (apply Forall_cons in Hc as [-> Hc]). done.
Qed.

(** The daemon and the session a driver and a binary make of one configuration. *)
Lemma one_config config workload rust_log sends now out d restored cfg session :
  inputs read_to_string toml_from_str workload_from_str config workload = Ok (cfg, session) ->
  start_binary (Some config) rust_log sends now [] = (out, Ok (d, restored)) ->
  daemon_unsigned cfg ->
  ss_channels session = channels cfg /\ bd_config d = (take_services cfg).1 /\
  bd_source d = with_channels (channels cfg) /\
  bd_sink d = sink_with_policy sends (spine_pub_send_empty_batches cfg) /\
  holding (ingress cfg) (bd_ingress d) [] [] /\
  1 <= channels cfg <= max_payload_len (ingress cfg) /\ neurons_of restored.1 <= u16_max /\
  take_restored_network fs parse_document parse_hub sha256 with_dimensions set_rm_stdp_config
    components display (bd_config d) (Some restored) = Ok restored.
Proof.
  intros Hin Hst Hu. unfold inputs in Hin.
  apply result_bind_ok in Hin as (c & Hl & Hin). apply map_err_ok in Hl.
  apply result_bind_ok in Hin as (w & _ & Hin). apply result_bind_ok in Hin as (s & Hs & Hin).
  apply result_bind_ok in Hin as (b & _ & Hin). apply result_bind_ok in Hin as (addr & _ & [= -> ->]).
  apply run_zmq_ok in Hst as (c' & Hch & Hd). pose proof Hch as [Hl' Hv _ Hnet]. simpl in Hl'.
  rewrite Hl in Hl'. injection Hl' as <-.
  destruct (construct_ok cfg (with_channels (channels cfg)) (sink_with_policy sends (spine_pub_send_empty_batches cfg))
    now Hu Hv) as (d' & Hd' & Hcfg & Hsrc & Hsink & Hh & Hc & Hn).
  rewrite Hd in Hd'. injection Hd' as <-. rewrite Hcfg.
  assert (ss_channels session = channels cfg) as -> .
  { unfold Session_new in Hs. apply result_bind_ok in Hs as ([] & _ & Hs). rewrite require_bind_ok in Hs.
    destruct Hs as [_ Hs]. by apply result_bind_ok in Hs as (e & _ & [= <-]). }
  do 6 (split; [done|]). split; [|eapply checked_boots; [done|done|apply Hu|exact Hch]].
  destruct restored as [net p].
  destruct (restored_pair_valid fs parse_document parse_hub sha256 with_dimensions set_rm_stdp_config components display
    cfg net p sized sets Hu Hnet) as [_ Hneu]. simpl. by rewrite Hneu.
Qed.

(** C1: end to end, the daemon is its engine.  The binary and the transport
    driver load one configuration; the binary starts and loops until a signal,
    and on each tick its SUB socket has nothing or hands over one of the frames
    the driver sent, in time.  Then the run ends cleanly with its ingress closed,
    and what it published - parsed as the driver parses it, one payload a tick -
    is exactly what the restored network spikes when it is stepped directly on
    the driver's pulses, sorted; if a step fails some tick publishes nothing.
    When the driver polls nothing but what the daemon published, every frame it
    collects is the engine's output of some tick. *)
Theorem wire_carries_engine config workload rust_log sends now out d restored cfg session wire driver attempts pulses
    recvs arrived init_at check_at pre stop rest :
  inputs read_to_string toml_from_str workload_from_str config workload = Ok (cfg, session) ->
  wire_ok cfg session sends ->
  start_binary (Some config) rust_log sends now [] = (out, Ok (d, restored)) ->
  send_and_collect to_vec decode_pub wire session = (driver, Ok (attempts, pulses)) ->
  Forall2 (arrival wire driver) arrived recvs ->
  Forall (fun e => forall t, e <> LoopShutdown t) pre ->
  length (ticks_of pre) = length recvs -> Forall undisturbed (ticks_of pre) ->
  exists w, binary_loop recvs d restored init_at check_at (pre ++ LoopShutdown stop :: rest) = Some (w, Ok tt) /\
    is_shutdown (w_ingress w) = true /\
    match (engine_run net_step (pulse_input session attempts mods_default <$> arrived) restored.1).2 with
    | Ok outs =>
      payload_channels decode_pub <$> zk_sent (w_sink w) = Ok <$> (sort_unstable <$> outs) /\
      ((forall n poll bytes, poll ∈ we_polls wire n -> po_bytes poll = Ok bytes -> bytes ∈ zk_sent (w_sink w)) ->
       Forall (fun f => pf_channels f ∈ sort_unstable <$> outs) (dr_frames driver))
    | Err _ => (length (zk_sent (w_sink w)) < length recvs)%nat
    end.
Proof.
  intros Hin [Hu Hempty Hsends Hconn Hctl Hamp] Hst Hdr Harr Hpre Hlen Hq.
  destruct (one_config _ _ _ _ _ _ _ _ _ _ Hin Hst Hu) as (Hch & Hcfg & Hsrc & Hsink & Hh & Hc & Hn & Hres).
  pose proof (collected_polled to_vec decode_pub wire session) as Hpol. rewrite Hdr in Hpol. simpl in Hpol.
  destruct (collected_sent _ _ _ _ _ _ _ Hdr) as ([_ Ha] & Hs & _ & Hn32). destruct restored as [net p].
  set (src0 := set_socket (Some recvs) (with_channels (channels cfg))).
  pose proof (pulses_delivered wire session attempts driver _ recvs arrived src0 (Some (sub_endpoint (bd_config d)))
    (Some (sub_endpoint (bd_config d))) recvs Ha Hn32 Hs Hamp ltac:(lia) Harr eq_refl (eq_sym Hch) eq_refl eq_refl) as Hdel.
  pose proof (live_replay (H := zmq_source validate from_slice connect_call recvs (Some (sub_endpoint (bd_config d)))
      (Some (sub_endpoint (bd_config d)))) (H0 := zmq_sink pub_to_vec) (Recorder0 := zmq_recorder pub_to_vec decode_pub)
    fs parse_document parse_hub sha256 with_dimensions set_rm_stdp_config components display net_step mods_default
    tcp_bind d (Some (net, p)) init_at check_at (pulse_packet wire session attempts <$> arrived) pre stop rest src0
    (set_socket (Some []) src0) net p) as Hrun.
  cbv zeta in Hrun. rewrite Hcfg in Hrun, Hres, Hdel.
  rewrite Hsrc, Hsink in Hrun. pose proof (Forall2_length _ _ _ Harr) as Hal.
  destruct Hrun as (w & Hrun & Hk & Hrec & Hsd); try done.
  { by apply binary_connects. }
  { by rewrite length_fmap, Hal. }
  { apply Forall_fmap, Forall_forall. intros o _. apply pulse_deliverable; [done|simpl; lia]. }
  exists w. split; [unfold binary_loop; rewrite Hcfg; exact Hrun|]. split; [exact Hsd|].
  assert (engine_input mods_default (Z.to_nat (channels (take_services cfg).1)) <$>
      (pulse_packet wire session attempts <$> arrived) = pulse_input session attempts mods_default <$> arrived) as Hinp.
  { rewrite <- list_fmap_compose. apply list_fmap_ext. intros i o _. unfold compose. simpl. rewrite <- Hch.
    apply pulse_decoded. unfold width. lia. }
  rewrite Hinp in Hrec. clear Hinp. set (ins := pulse_input session attempts mods_default <$> arrived) in *.
  pose proof (engine_records (H0 := zmq_sink pub_to_vec) (Recorder0 := zmq_recorder pub_to_vec decode_pub)
    net_step ins net in_range Hn) as Hrecs.
  simpl in Hrec.
  cbn [fst]. destruct (engine_run net_step ins net) as [net' [outs|e]]; cbn [snd] in *.
  - destruct Hrecs as (Hout & _). rewrite Hout in Hrec. pose proof (payloads_parse _ _ _ Hk Hrec) as Hpar.
    split; [exact Hpar|]. by apply (collected_from_record decode_pub wire driver).
  - unfold zmq_recorded in Hrec. apply (f_equal length) in Hrec. rewrite length_fmap in Hrec.
    unfold ins in Hrecs at 2. rewrite length_fmap in Hrecs. lia.
Qed.
End Wire.

(** ** Witness *)

#[local] Instance SpikeEvent_eq_dec : EqDecision SpikeEvent.
Proof. solve_decision. Defined.

#[local] Instance SpikeEvent_countable : Countable SpikeEvent.
Proof.
  apply (inj_countable' (fun s => (channel s, time s, strength s)) (fun '(c, t, v) => MkSpikeEvent c t v)). by intros [].
Defined.

Definition demo_pub_to_vec (b : SpikeBatch) : result string string :=
  Ok (bits_of (encode (pb_batch_id b, pb_timestamp b, pb_spikes b))).

Definition demo_pub_decode (s : string) : result string PubMessage :=
  match decode (of_bits s) : option (Z * Z * list SpikeEvent) with
  | Some (id, t, spikes) => Ok (PubSpikes (MkSpikeBatch id t spikes))
  | None => Err "syntax"%string
  end.

#[local] Instance demo_pub_codec : PubCodec demo_pub_to_vec demo_pub_decode.
Proof.
  intros [id t spikes] _. eexists. split; [reflexivity|]. unfold demo_pub_decode.
  by rewrite of_bits_of, decode_encode.
Qed.

(** Spikes neurons 2c + 1 and 2c, where there are, for a channel c that is driven. *)
Definition demo_pulse_step (net : @SpikingNetwork unit Z unit) (stim : list f32) (_ : NeuroModulators) :
    @SpikingNetwork unit Z unit * result string (list Z) :=
  (net, Ok (base.filter (fun id => 0 <= id < neurons_of net)
    (imap (fun c x => if bool_decide (x = f_zero) then [] else [2 * Z.of_nat c + 1; 2 * Z.of_nat c]) stim ≫= id))).

Lemma demo_pulse_in_range : step_ids_in_range demo_pulse_step.
Proof.
  intros net stim mods net' ids. unfold demo_pulse_step. intros [= <- <-]. split; [done|].
  apply Forall_forall. by intros i [Hi _]%list_elem_of_filter.
Qed.

Definition demo_published (ids : list Z) : string :=
  match demo_pub_to_vec (MkSpikeBatch 7 7000000 (spikes_at 7 ids)) with Ok payload => payload | Err _ => "" end.

(** An idle tick's payload confirms the subscription; the answers of priming and
    of the two pulses follow. *)
Definition demo_pulse_wire : WireEnv := {|
  we_now_ns := Z.of_nat;
  we_send := fun _ => Ok tt;
  we_collect_at := fun _ => 0;
  we_polls := fun n => match n with
    | 0%nat => [demo_poll (demo_published [])]
    | 1%nat | 3%nat => [demo_poll (demo_published [1; 0])]
    | 4%nat => [demo_poll (demo_published [3; 2])]
    | _ => []
    end;
  we_start := 0;
  we_sent_at := fun _ => 0;
  we_wait_at := fun _ => 0;
|}.

Definition demo_inputs : result TransportError (DaemonConfig * Session) :=
  inputs (fun _ => Ok "toml"%string) (fun _ => Ok demo_config) (fun _ => Ok demo_transport_workload) "c" "w".

Definition demo_session : Session :=
  match demo_inputs with Ok (_, session) => session | Err _ => MkSession 0 f_zero 0 0 [] end.

Definition demo_driver : Driver * result TransportError (nat * list Pulse) :=
  send_and_collect demo_to_vec demo_pub_decode demo_pulse_wire demo_session.

Definition demo_recvs : list Recv := Eagain :: ((fun payload => Frame payload 100) <$> dr_sent demo_driver.1).
Definition demo_arrived : list (option nat) := [None; Some 0%nat; Some 1%nat; Some 2%nat].

Definition demo_start := run_zmq demo_fs (fun _ => Ok demo_document) (fun _ => Err tt) (fun b => b)
  demo_with_dimensions demo_set_config (fun s => [s]) (fun _ => "p"%string) None
  (fun _ => Ok "toml"%string : result string string) (fun _ => Ok demo_config : result string DaemonConfig)
  (fun level => level) (fun v => Ok v : result unit string) (fun _ => Ok tt) (Some "c"%string) None [] 3 [].

Definition demo_events : list LoopEvent := [LoopTick demo_env; LoopTick demo_env; LoopHeartbeat; LoopTick demo_env; LoopTick demo_env].

Definition demo_loop (d : BrainstemDaemon ZmqStimulusSource ZmqSpikeSink)
    (restored : @SpikingNetwork unit Z unit * ModelProvenance) :=
  binary_loop demo_fs (fun _ => Ok demo_document) (fun _ => Err tt) (fun b => b) demo_with_dimensions demo_set_config
    (fun s => [s]) (fun _ => "p"%string) demo_pulse_step demo_mods (fun _ => Ok tt) (fun _ => Ok tt) demo_validate
    demo_codec_slice demo_pub_to_vec demo_recvs d restored 1 2 (demo_events ++ [LoopShutdown 9]).

Lemma demo_loop_publishes :
  match demo_start.2 with
  | Ok (d, restored) => match demo_loop d restored with
    | Some (w, _) => bool_decide (zk_sent (w_sink w) = demo_published <$> [[]; [1; 0]; [1; 0]; [3; 2]])
    | None => false
    end = true /\
    (engine_run demo_pulse_step (pulse_input demo_session 1 demo_mods <$> demo_arrived) restored.1).2 =
      Ok [[]; [1; 0]; [1; 0]; [3; 2]]
  | Err _ => False
  end.
Proof. by vm_compute. Qed.

Lemma demo_driver_sends : exists driver pulses,
  demo_driver = (driver, Ok (1%nat, pulses)) /\ length (dr_sent driver) = 3%nat.
Proof.
  exists demo_driver.1, [MkPulse 0 0 0; MkPulse 1 1 0]. split; [|by vm_compute].
  assert (demo_driver.2 = Ok (1%nat, [MkPulse 0 0 0; MkPulse 1 1 0])) as <- by by vm_compute.
  apply surjective_pairing.
Qed.

Lemma demo_wire_ok : wire_ok (fun _ => Ok tt) (fun _ => Ok tt) demo_config demo_session [].
Proof. split; [exact demo_config_unsigned|done|constructor|by repeat constructor|by vm_compute|by vm_compute]. Qed.

Lemma demo_arrivals : Forall2 (arrival demo_pulse_wire demo_driver.1) demo_arrived demo_recvs.
Proof.
  unfold demo_recvs, demo_arrived. destruct demo_driver_sends as (driver & pulses & -> & Hl). simpl.
  destruct driver as [frames id [|a [|b [|c [|]]]] n]; try done.
  constructor; [constructor|]. repeat (constructor; [constructor; [done|simpl; lia]|]). constructor.
Qed.

Lemma demo_polls_published : forall n poll bytes,
  poll ∈ we_polls demo_pulse_wire n -> po_bytes poll = Ok bytes ->
  bytes ∈ demo_published <$> [[]; [1; 0]; [1; 0]; [3; 2]].
Proof.
  intros n poll bytes Hin Hb. apply list_elem_of_fmap.
  destruct n as [|[|[|[|[|n]]]]]; try by apply elem_of_nil in Hin.
  all: apply list_elem_of_singleton in Hin as ->; injection Hb as <-; (eexists; split; [reflexivity|]); set_solver.
Qed.

Lemma wire_carries_engine_witness : exists out d restored w,
  demo_start = (out, Ok (d, restored)) /\ demo_loop d restored = Some (w, Ok tt) /\
  payload_channels demo_pub_decode <$> zk_sent (w_sink w) = Ok <$> [[]; [0; 1]; [0; 1]; [2; 3]] /\
  Forall (fun f => pf_channels f ∈ [[]; [0; 1]; [0; 1]; [2; 3]]) (dr_frames demo_driver.1).
Proof.
  pose proof demo_loop_publishes as Hpub. destruct demo_start as [out [[d restored]|e]] eqn:Hst; [|destruct Hpub].
  destruct Hpub as [Hsent Hrun]. destruct demo_driver_sends as (driver & pulses & Hdr & _).
  pose proof demo_arrivals as Harr. rewrite Hdr in Harr |- *.
  destruct (wire_carries_engine demo_fs (fun _ => Ok demo_document) (fun _ => Err tt) (fun b => b)
    demo_with_dimensions demo_set_config (fun s => [s]) (fun _ => "p"%string) demo_pulse_step demo_mods (fun _ => Ok tt)
    None (fun _ => Ok "toml"%string) (fun _ => Ok demo_config) (fun _ => Ok demo_transport_workload)
    (fun level => level) (fun v => Ok v : result unit string) (fun _ => Ok tt) (fun _ => Ok tt) demo_validate
    demo_to_vec demo_codec_slice demo_pub_to_vec demo_pub_decode demo_stimuli_roundtrip demo_validates_wellformed
    demo_dimensions_sized demo_config_sets demo_pulse_in_range
    "c" "w" None [] 3 out d restored demo_config demo_session demo_pulse_wire driver 1%nat pulses
    demo_recvs demo_arrived 1 2 demo_events 9 [] ltac:(by vm_compute) demo_wire_ok Hst Hdr Harr
    ltac:(by repeat constructor) ltac:(by vm_compute) ltac:(by repeat constructor)) as (w & Hloop & _ & Hout).
  exists out, d, restored, w. split; [done|]. split; [exact Hloop|]. rewrite Hrun in Hout. destruct Hout as [Hpar Hcol].
  assert (sort_unstable <$> [[]; [1; 0]; [1; 0]; [3; 2]] = [[]; [0; 1]; [0; 1]; [2; 3]]) as Hsorted by by vm_compute.
  rewrite Hsorted in Hpar, Hcol. split; [exact Hpar|]. apply Hcol.
  change (demo_loop d restored = Some (w, Ok tt)) in Hloop. rewrite Hloop in Hsent. apply bool_decide_eq_true in Hsent.
  rewrite Hsent. exact demo_polls_published.
Defined.
