(* ===== verification/TestHealth.v ===== *)
(** * The unit tests of the health machine (src/health/tests.rs, tests_docs.rs)

    Each test is the sequence of events, clock advances and assertions the Rust
    test makes, under its name; [health_tests_pass] runs them all on the model.
    The fake clock starts at an arbitrary instant.  The two tests of serde's
    output are left out: JSON is not modelled. *)

From Stdlib Require Import SpecFloat.
From S2P Require Import Prelude Floats NetAddr Health HealthView Process.
Local Open Scope Z_scope.

Inductive Act :=
| Apply (e : HealthEvent)
| Advance (ms : Z)
| Assert (p : HealthSnapshot -> bool).

Definition origin : Z := 5000000000.

(** The acts from a machine and a clock offset, and whether every assertion held. *)
Fixpoint play (acts : list Act) (m : HealthMachine) (offset : Z) : bool :=
  match acts with
  | [] => true
  | Apply e :: rest => play rest (health_apply e (fake_clock_now origin offset) m) offset
  | Advance ms :: rest => play rest m (fake_clock_advance offset (ms * 1000000))
  | Assert p :: rest => p (snapshot m (fake_clock_now origin offset)) && play rest m offset
  end.

(** 0.5, 0.8, 1.5 and -0.1 as the compiler rounds them. *)
Definition f_050 : f64 := f64_div (f64_of_int 1) (f64_of_int 2).
Definition f_080 : f64 := f64_div (f64_of_int 8) (f64_of_int 10).
Definition f_150 : f64 := f64_div (f64_of_int 3) (f64_of_int 2).
Definition f_m010 : f64 := f64_div (f64_of_int (-1)) (f64_of_int 10).

Definition limits : HealthLimits := MkHealthLimits 100000000 f_090 f_070.

(** A test on [machine()]. *)
Definition test (acts : list Act) : bool := play acts (HealthMachine_new limits) 0.

(** ** Assertions *)

Definition live (s : HealthSnapshot) : bool := hs_live s.
Definition ready (s : HealthSnapshot) : bool := hs_ready s.
Definition stale (s : HealthSnapshot) : bool := if_stale (hs_input_freshness s).
Definition overloaded (s : HealthSnapshot) : bool := qp_overloaded (hs_queue_pressure s).
Definition phase (p : HealthPhase) (s : HealthSnapshot) : bool := bool_decide (hs_phase s = p).
Definition reasons_are (rs : list ReasonCode) (s : HealthSnapshot) : bool := bool_decide (hs_reasons s = rs).
Definition fatal_code (c : option FatalCode) (s : HealthSnapshot) : bool :=
  bool_decide (fs_code <$> hs_fatal s = c).
Definition counters_are (c : RuntimeCounters) (s : HealthSnapshot) : bool := bool_decide (hs_counters s = c).
Definition text_has (t : string) (s : HealthSnapshot) : bool := contains (as_bytes t) (as_bytes (prometheus_text s)).
Definition no (p : HealthSnapshot -> bool) (s : HealthSnapshot) : bool := negb (p s).

(** ** tests.rs *)

Definition ckpt : CheckpointIdentity := MkCheckpointIdentity "soma16" (Some "abc123"%string).

Definition seed_ready (identity : CheckpointIdentity) : list Act :=
  [Apply ProcessStarted; Apply InitializationCompleted; Apply (CheckpointValidated identity);
   Apply IngressObserved; Apply TickSucceeded].

Definition bring_ready : list Act := seed_ready ckpt.
Definition standin_ready : list Act := seed_ready (MkCheckpointIdentity "soma16" None).

Definition process_start_is_live_but_not_ready : bool := test
  [Assert (no live); Assert (no ready); Assert (phase PhStarting);
   Apply ProcessStarted;
   Assert live; Assert (no ready); Assert (phase PhStarting); Assert (reasons_are [RStarting])].

Definition initialization_does_not_imply_readiness : bool := test
  [Apply ProcessStarted; Apply InitializationCompleted;
   Assert live; Assert (no ready); Assert (phase PhLoadingCheckpoint); Assert (reasons_are [RCheckpointPending])].

Definition initialization_before_start_is_ignored : bool := test
  [Apply InitializationCompleted; Apply (CheckpointValidated ckpt); Apply ProcessStarted;
   Assert live; Assert (no ready); Assert (phase PhStarting);
   Assert (fun s => negb (is_some (hs_checkpoint s))); Assert (reasons_are [RStarting])].

Definition initialization_failure_before_start_is_ignored : bool := test
  [Apply (InitializationFailed "too early"); Apply (CheckpointRejected "too early"); Apply ProcessStarted;
   Assert live; Assert (no ready); Assert (phase PhStarting); Assert (fatal_code None)].

Definition checkpoint_validation_makes_ready : bool := test
  [Apply ProcessStarted; Apply InitializationCompleted; Apply (CheckpointValidated ckpt);
   Assert live; Assert ready; Assert (phase PhRunning); Assert (reasons_are []);
   Assert (fun s => bool_decide (ci_id <$> hs_checkpoint s = Some "soma16"%string));
   Assert (fun s => bool_decide (hs_last_successful_tick_ms s = None)); Assert (no stale)].

Definition checkpoint_before_init_is_ignored : bool := test
  [Apply ProcessStarted; Apply (CheckpointValidated ckpt);
   Assert (no ready); Assert (phase PhStarting); Assert (fun s => negb (is_some (hs_checkpoint s)))].

Definition stale_input_degrades_and_recovers_only_after_fresh_ingress : bool := test
  (bring_ready ++
   [Advance 99; Assert (phase PhRunning); Assert ready; Assert (no stale);
    Advance 1; Assert live; Assert ready; Assert (phase PhDegraded); Assert (reasons_are [RStaleInput]); Assert stale;
    Advance 50; Apply TickSucceeded; Assert stale;
    Apply IngressObserved; Assert (phase PhRunning); Assert (no stale); Assert (reasons_are []); Assert ready]).

Definition overload_uses_hysteresis_and_clears_at_or_below_low_watermark : bool := test
  (bring_ready ++
   [Apply (QueuePressureEvent 89 100); Assert (phase PhRunning);
    Apply (QueuePressureEvent 90 100); Assert (phase PhDegraded); Assert ready; Assert (reasons_are [ROverload]);
    Assert overloaded;
    Apply (QueuePressureEvent 80 100); Assert overloaded; Assert (phase PhDegraded);
    Apply (QueuePressureEvent 70 100); Assert (no overloaded); Assert (phase PhRunning); Assert ready]).

Definition zero_capacity_queue_is_not_overload : bool := test
  (bring_ready ++
   [Apply (QueuePressureEvent 0 0); Assert (no overloaded);
    Assert (fun s => negb (is_some (qp_ratio (hs_queue_pressure s)))); Assert (phase PhRunning)]).

Definition combined_degradation_clears_independently : bool := test
  (bring_ready ++
   [Apply (QueuePressureEvent 95 100); Advance 100; Assert (reasons_are [RStaleInput; ROverload]);
    Apply IngressObserved; Assert (reasons_are [ROverload]); Assert (phase PhDegraded);
    Apply (QueuePressureEvent 10 100); Assert (reasons_are []); Assert (phase PhRunning)]).

Definition draining_drops_readiness_and_does_not_return_to_ready : bool := test
  (bring_ready ++
   [Apply BeginDrain; Assert live; Assert (no ready); Assert (phase PhDraining);
    Assert (fun s => bool_decide (RDraining ∈ hs_reasons s));
    Apply TickSucceeded; Apply IngressObserved; Apply (CheckpointValidated ckpt); Apply InitializationCompleted;
    Assert (no ready); Assert (phase PhDraining)]).

Definition initialization_failure_is_sticky_fatal : bool := test
  [Apply ProcessStarted; Apply (InitializationFailed "socket bind exploded with secret=hunter2");
   Assert live; Assert (no ready); Assert (phase PhFatal); Assert (reasons_are [RFatal]);
   Assert (fatal_code (Some InitializationFailedCode));
   Apply InitializationCompleted; Apply (CheckpointValidated ckpt); Apply TickSucceeded;
   Assert (no ready); Assert (phase PhFatal); Assert (fatal_code (Some InitializationFailedCode))].

Definition checkpoint_reject_is_sticky_fatal_from_loading : bool := test
  [Apply ProcessStarted; Apply InitializationCompleted; Apply (CheckpointRejected "digest mismatch");
   Assert (phase PhFatal);
   Apply (CheckpointValidated ckpt); Assert (no ready); Assert (phase PhFatal)].

Definition fatal_from_running_and_degraded_never_returns_to_ready : bool :=
  test (bring_ready ++
    [Apply (FatalEvent UnspecifiedCode "network step invariant broken"); Assert (phase PhFatal);
     Apply (CheckpointValidated ckpt); Assert (no ready)]) &&
  test (bring_ready ++
    [Advance 100; Assert (phase PhDegraded); Apply (FatalEvent UnspecifiedCode "boom"); Apply IngressObserved;
     Apply BeginDrain; Assert (phase PhFatal); Assert (no ready); Assert live]).

Definition fatal_from_draining_stays_fatal : bool := test
  (bring_ready ++
   [Apply BeginDrain; Apply (FatalEvent UnspecifiedCode "flush failed"); Assert (phase PhFatal); Assert (no ready);
    Apply (CheckpointValidated ckpt); Assert (phase PhFatal)]).

Definition second_fatal_does_not_replace_the_first : bool := test
  [Apply ProcessStarted; Apply (InitializationFailed "first"); Apply (FatalEvent UnspecifiedCode "second");
   Assert (fun s => bool_decide (hs_fatal s = Some (MkFatalState InitializationFailedCode "first")))].

Definition prometheus_labels_are_low_cardinality_and_omit_detail : bool := test
  [Apply ProcessStarted; Apply (InitializationFailed "secret token xyzzy should never be a label");
   Assert (text_has "brainstem_live 1"); Assert (text_has "brainstem_ready 0"); Assert (text_has "brainstem_fatal 1");
   Assert (text_has ("phase=" +:+ quote +:+ "fatal" +:+ quote)); Assert (no (text_has "xyzzy"));
   Assert (no (text_has "secret token")); Assert (text_has "brainstem_tick_age_ms");
   Assert (text_has ("reason=" +:+ quote +:+ "stale_input" +:+ quote));
   Assert (text_has ("reason=" +:+ quote +:+ "overload" +:+ quote))].

Definition sample_counters : RuntimeCounters := MkRuntimeCounters 8 7 6 5 4 3 2 1.

Definition counters_start_at_zero_and_publish_into_snapshot : bool := test
  [Apply ProcessStarted; Assert (counters_are RuntimeCounters_default);
   Apply (CountersPublished sample_counters); Assert (counters_are sample_counters)].

Definition counters_never_decrease : bool := test
  [Apply ProcessStarted; Apply (CountersPublished sample_counters);
   Apply (CountersPublished (MkRuntimeCounters 1 0 0 0 9 0 0 0));
   Assert (fun s => rc_ticks (hs_counters s) =? 8); Assert (fun s => rc_emit_errors (hs_counters s) =? 9);
   Assert (fun s => rc_rejected_batches (hs_counters s) =? 6)].

Definition counters_survive_drain : bool := test
  (bring_ready ++ [Apply (CountersPublished sample_counters); Apply BeginDrain; Assert (counters_are sample_counters)]).

Definition prometheus_exposes_every_counter_as_unlabeled_total : bool := test
  ([Apply ProcessStarted; Apply (CountersPublished sample_counters)] ++
   ((fun '(name, value) => Assert (fun s =>
       text_has ("# TYPE " +:+ name +:+ " counter" +:+ nl) s && text_has (nl +:+ name +:+ " " +:+ value +:+ nl) s &&
       negb (text_has (name +:+ "{") s)))
    <$> [("brainstem_ticks_total", "8"); ("brainstem_accepted_batches_total", "7");
         ("brainstem_rejected_batches_total", "6"); ("brainstem_receive_errors_total", "5");
         ("brainstem_emit_errors_total", "4"); ("brainstem_dropped_spikes_total", "3");
         ("brainstem_diagnostic_emissions_total", "2"); ("brainstem_suppressed_diagnostics_total", "1")]%string)).

(** The handle: [try_snapshot] under a held writer, then without. *)
Definition try_snapshot_does_not_block_on_write_lock : bool :=
  let handle := handle_started limits origin in
  negb (is_some (try_snapshot true handle origin)) && is_some (try_snapshot false handle origin) &&
  live (snapshot handle origin) && negb (ready (snapshot handle origin)).

(** ** tests_docs.rs *)

Definition documented_degraded_snapshot_stays_ready : bool := test
  (bring_ready ++
   [Apply (QueuePressureEvent 95 100); Advance 100;
    Assert (phase PhDegraded); Assert (reasons_are [RStaleInput; ROverload]); Assert ready]).

Definition documented_fatal_snapshot_drops_readiness : bool := test
  [Apply ProcessStarted; Apply InitializationCompleted; Apply (CheckpointRejected "blank weights");
   Assert (phase PhFatal); Assert (no ready); Assert live; Assert (fatal_code (Some CheckpointInvalidCode))].

Definition missing_observations_render_as_prometheus_nan : bool := test
  [Apply ProcessStarted; Assert (text_has "brainstem_last_successful_tick_ms NaN");
   Assert (text_has "brainstem_tick_age_ms NaN"); Assert (text_has "brainstem_input_age_ms NaN")].

Definition non_finite_overload_limits_are_sanitized : bool :=
  play (bring_ready ++ [Apply (QueuePressureEvent 95 100); Assert overloaded])
    (HealthMachine_new (MkHealthLimits 100000000 S754_nan S754_nan)) 0.

(** The sanitized limits are the defaults but for [stale_after]. *)
Definition replaced (high low : f64) : bool :=
  let l := sanitized (MkHealthLimits 100000000 high low) in
  (hl_stale_after l =? 100000000) && bool_decide (hl_overload_high l = f_090) && bool_decide (hl_overload_low l = f_070).

Definition inverted_overload_limits_keep_stale_after : bool := replaced f_050 f_090.
Definition equal_overload_watermarks_are_replaced : bool := replaced f_080 f_080.
Definition out_of_range_overload_watermarks_are_replaced : bool := replaced f_150 f_m010.

Definition health_tests : list bool := [
  process_start_is_live_but_not_ready; initialization_does_not_imply_readiness;
  initialization_before_start_is_ignored; initialization_failure_before_start_is_ignored;
  checkpoint_validation_makes_ready; checkpoint_before_init_is_ignored;
  stale_input_degrades_and_recovers_only_after_fresh_ingress;
  overload_uses_hysteresis_and_clears_at_or_below_low_watermark; zero_capacity_queue_is_not_overload;
  combined_degradation_clears_independently; draining_drops_readiness_and_does_not_return_to_ready;
  initialization_failure_is_sticky_fatal; checkpoint_reject_is_sticky_fatal_from_loading;
  fatal_from_running_and_degraded_never_returns_to_ready; fatal_from_draining_stays_fatal;
  second_fatal_does_not_replace_the_first; prometheus_labels_are_low_cardinality_and_omit_detail;
  counters_start_at_zero_and_publish_into_snapshot; counters_never_decrease; counters_survive_drain;
  prometheus_exposes_every_counter_as_unlabeled_total; try_snapshot_does_not_block_on_write_lock;
  documented_degraded_snapshot_stays_ready; documented_fatal_snapshot_drops_readiness;
  missing_observations_render_as_prometheus_nan; non_finite_overload_limits_are_sanitized;
  inverted_overload_limits_keep_stale_after; equal_overload_watermarks_are_replaced;
  out_of_range_overload_watermarks_are_replaced].

(** The model passes the repository's tests of the health machine. *)
Lemma health_tests_pass : forallb (fun passed => passed) health_tests = true.
Proof. by vm_compute. Qed.
