(* ===== verification/TestIngress.v ===== *)
(** * The unit tests of the bounded ingress (src/ingress/tests.rs)

    Each test enqueues, drains and asserts what the Rust test does, under its
    name; [ingress_tests_pass] runs them all on the model.  A producer that
    would sleep shows as [None] in place of its outcome; the test with a second
    thread follows that producer's critical sections around the shutdown. *)

From Stdlib Require Import SpecFloat.
From S2P Require Import Prelude Floats Packet NetAddr Queue QueueConc Ingress Process.
Local Open Scope Z_scope.

(** ** Helpers *)

Definition pkt (tag : f32) : IngressPacket := MkPacket [tag] None None None None None false.
Definition reward_pkt (tag : f32) : IngressPacket :=
  MkPacket [] (Some [tag; f_zero; f_zero; f_zero]) None None None None false.

Abbreviation tag n := (f32_of_int n).

(** [BoundedIngress::new(cfg).unwrap()] then the test. *)
Definition with_ingress (cfg : IngressConfig) (test : BoundedIngress -> bool) : bool :=
  match BoundedIngress_new cfg with Ok i => test i | Err _ => false end.

(** The enqueues in order, with their outcomes; [None] for a producer that sleeps. *)
Fixpoint enqueue_all (l : list (MessageClass * IngressPacket)) (i : BoundedIngress) :
    BoundedIngress * list (option EnqueueOutcome) :=
  match l with
  | [] => (i, [])
  | (class, packet) :: rest =>
    let '(i, next) := enqueue i class packet 0 0 in
    let '(i, outs) := enqueue_all rest i in
    (i, match next with Return outcome => Some outcome | Queue.Wait _ _ => None end :: outs)
  end.

(** Up to [n], without keeping the outcomes. *)
Fixpoint enqueue_each (n : nat) (round : Z -> list (MessageClass * IngressPacket)) (k : Z) (i : BoundedIngress) :
    BoundedIngress :=
  match n with
  | O => i
  | S n => enqueue_each n round (k + 1) (enqueue_all (round k) i).1
  end.

Definition outcomes (cfg : IngressConfig) (l : list (MessageClass * IngressPacket)) : list (option EnqueueOutcome) :=
  match BoundedIngress_new cfg with Ok i => (enqueue_all l i).2 | Err _ => [] end.

Definition all_accepted (l : list (option EnqueueOutcome)) : bool :=
  forallb (fun o => match o with Some o => outcome_accepted o | None => false end) l.

Definition class_metrics (i : BoundedIngress) (class : MessageClass) : ClassMetrics :=
  metrics_class (ingress_metrics i) class.

Definition identity_holds (attempts : Z) (m : ClassMetrics) : bool :=
  (cm_accepted m + cm_rejected m + cm_shutdown_refused m =? attempts) &&
  (cm_depth m + lost_or_coalesced m + cm_shutdown_refused m =? attempts).

(** The first stimulus, or modulator, of what a pop returned. *)
Definition popped_stimulus (p : option IngressPacket) : option f32 := p ≫= fun p => head (Packet.stimuli p).
Definition popped_modulator (p : option IngressPacket) : option f32 :=
  p ≫= fun p => Packet.modulators p ≫= fun mods => head mods.
Definition is_value (x : option f32) (n : Z) : bool := bool_decide (x = Some (tag n)).

Definition rejected_with (cfg : IngressConfig) (what : list string) : bool :=
  match BoundedIngress_new cfg with
  | Ok _ => false
  | Err e => forallb (fun w => contains (as_bytes w) (as_bytes (ingress_config_error_to_string e))) what
  end.

(** ** The tests *)

Definition drop_oldest_bounds_depth_with_stalled_consumer : bool :=
  let n := 50 in
  let l := (fun k => (Sensory, pkt (tag k))) <$> seqZ 0 n in
  all_accepted (outcomes tiny_fixture l) &&
  with_ingress tiny_fixture (fun i =>
    let '(i, _) := enqueue_all l i in
    let m := class_metrics i Sensory in
    (cm_depth m =? 2) && (cm_high_water_mark m =? 2) && (cm_accepted m =? n) && (cm_dropped m =? n - 2) &&
    (cm_rejected m =? 0) && (cm_coalesced m =? 0) && identity_holds n m &&
    let '(i, a) := ingress_pop i Sensory in
    let '(i, b) := ingress_pop i Sensory in
    is_value (popped_stimulus a) (n - 2) && is_value (popped_stimulus b) (n - 1) &&
    negb (is_some (ingress_pop i Sensory).2)).

(** [tiny_fixture] with a sensory, or a control, queue of another kind. *)
Definition tiny_sensory (cap : Z) (p : OverflowPolicy) : IngressConfig :=
  MkIngressConfig cap p (reward_capacity tiny_fixture) (reward_policy tiny_fixture) (control_capacity tiny_fixture)
    (control_policy tiny_fixture) (telemetry_capacity tiny_fixture) (telemetry_policy tiny_fixture)
    (block_timeout_ms tiny_fixture) (max_payload_len tiny_fixture).

Definition blocking_control (cfg : IngressConfig) (timeout : Z) : IngressConfig :=
  MkIngressConfig (sensory_capacity cfg) (sensory_policy cfg) (reward_capacity cfg) (reward_policy cfg) 1 BlockTimeout
    (telemetry_capacity cfg) (telemetry_policy cfg) timeout (max_payload_len cfg).

Definition reject_does_not_grow_past_capacity : bool :=
  with_ingress (tiny_sensory 1 Reject) (fun i =>
    let '(i, outs) := enqueue_all ((fun k => (Sensory, pkt (tag k))) <$> [1; 2; 3]) i in
    bool_decide (outs = [Some (Accepted 1); Some Rejected; Some Rejected]) &&
    let m := class_metrics i Sensory in
    (cm_depth m =? 1) && (cm_accepted m =? 1) && (cm_rejected m =? 2) && identity_holds 3 m &&
    is_value (popped_stimulus (ingress_pop i Sensory).2) 1).

Definition coalesce_keeps_latest_snapshot : bool :=
  with_ingress tiny_fixture (fun i =>
    let '(i, outs) := enqueue_all ((fun k => (Reward, reward_pkt (tag k))) <$> [1; 2; 3]) i in
    all_accepted (take 1 outs) && bool_decide (drop 1 outs = [Some (Coalesced 1); Some (Coalesced 1)]) &&
    let m := class_metrics i Reward in
    (cm_depth m =? 1) && (cm_high_water_mark m =? 1) && (cm_accepted m =? 3) && (cm_coalesced m =? 2) &&
    (cm_dropped m =? 0) && (cm_rejected m =? 0) && identity_holds 3 m &&
    is_value (popped_modulator (ingress_pop i Reward).2) 3).

Definition lost_or_coalesced_increments_exactly_one_counter : bool :=
  with_ingress tiny_fixture (fun i =>
    let i := enqueue_each 10 (fun k => [(Sensory, pkt (tag k)); (Reward, reward_pkt (tag k));
                                        (Control, pkt (tag k)); (Telemetry, pkt (tag k))]) 0 i in
    forallb (fun class =>
      let m := class_metrics i class in
      (Z.b2z (0 <? cm_rejected m) + Z.b2z (0 <? cm_dropped m) + Z.b2z (0 <? cm_coalesced m) <=? 1) &&
      identity_holds 10 m) [Sensory; Reward; Control; Telemetry]).

Definition control_is_not_starved_by_full_telemetry : bool :=
  with_ingress tiny_fixture (fun i =>
    let i := enqueue_each 20 (fun k => [(Telemetry, pkt (tag k))]) 0 i in
    let tel := class_metrics i Telemetry in
    (cm_depth tel =? 2) && (18 <=? cm_dropped tel) &&
    let '(i, outs) := enqueue_all [(Control, pkt (tag 99))] i in
    bool_decide (outs = [Some (Accepted 1)]) &&
    let drained := (drain_for_tick i).2 in
    (len (dt_control drained) =? 1) && is_value (popped_stimulus (head (dt_control drained))) 99 &&
    (dt_telemetry_drained drained =? 2) && negb (is_some (dt_sensory drained))).

Definition drain_for_tick_priority_is_control_then_reward_then_sensory : bool :=
  with_ingress tiny_fixture (fun i =>
    let '(i, _) := enqueue_all [(Telemetry, pkt (tag 1)); (Sensory, pkt (tag 2)); (Reward, reward_pkt (tag 3));
                                (Control, pkt (tag 4))] i in
    let drained := (drain_for_tick i).2 in
    (len (dt_control drained) =? 1) && is_value (popped_stimulus (head (dt_control drained))) 4 &&
    (dt_telemetry_drained drained =? 1) &&
    let packet := into_packet drained in
    bool_decide (Packet.stimuli packet = [tag 2]) && is_value (popped_modulator (Some packet)) 3).

Definition block_timeout_zero_rejects_when_full_without_waiting : bool :=
  with_ingress (blocking_control tiny_fixture 0) (fun i =>
    let '(i, outs) := enqueue_all [(Control, pkt (tag 1)); (Control, pkt (tag 2))] i in
    all_accepted (take 1 outs) && bool_decide (drop 1 outs = [Some Rejected]) &&
    let m := class_metrics i Control in
    (cm_producer_waits m =? 0) && (cm_rejected m =? 1) && (cm_depth m =? 1)).

Definition try_enqueue_never_blocks_block_timeout_class : bool :=
  with_ingress (blocking_control IngressConfig_default 60000) (fun i =>
    let '(i, first) := try_enqueue i Control (pkt (tag 1)) in
    let '(i, second) := try_enqueue i Control (pkt (tag 2)) in
    outcome_accepted first && bool_decide (second = Rejected) && (cm_producer_waits (class_metrics i Control) =? 0)).

(** The second producer sleeps; the shutdown then wakes it, at 1 ms. *)
Definition shutdown_unblocks_waiting_producer : bool :=
  with_ingress (blocking_control tiny_fixture 60000) (fun i =>
    let '(i, outs) := enqueue_all [(Control, pkt (tag 1)); (Control, pkt (tag 2))] i in
    all_accepted (take 1 outs) && bool_decide (drop 1 outs = [None]) &&
    (0 <? cm_producer_waits (class_metrics i Control)) &&
    let i := ingress_shutdown i in
    let '(i, next) := enqueue_wake i Control (pkt (tag 2)) (Some 60000000000) 0 1000000 false 1000000 1000000 in
    match next with Return outcome => bool_decide (outcome = Shutdown) | Queue.Wait _ _ => false end &&
    is_shutdown i &&
    let '(i, outs) := enqueue_all [(Control, pkt (tag 3))] i in
    bool_decide (outs = [Some Shutdown]) && (1 <=? cm_shutdown_refused (class_metrics i Control))).

Definition shutdown_rejects_every_class : bool :=
  with_ingress tiny_fixture (fun i =>
    let '(i, outs) := enqueue_all ((fun class => (class, pkt (tag 1))) <$> MessageClass_ALL) (ingress_shutdown i) in
    forallb (fun o => bool_decide (o = Some Shutdown)) outs && is_shutdown i).

Definition sustained_overload_bounds_memory_and_accounts_every_event : bool :=
  let n := 10000 in
  with_ingress tiny_fixture (fun i =>
    let i := enqueue_each (Z.to_nat n) (fun k =>
      [(Sensory, pkt (tag k)); (Reward, reward_pkt (tag k)); (Telemetry, pkt (tag k))] ++
      (if k mod 100 =? 0 then [(Control, pkt (tag k))] else [])) 0 i in
    let m := ingress_metrics i in
    (cm_depth (im_sensory m) =? 2) && (cm_high_water_mark (im_sensory m) =? 2) && identity_holds n (im_sensory m) &&
    (cm_depth (im_reward m) =? 1) && (cm_high_water_mark (im_reward m) =? 1) && identity_holds n (im_reward m) &&
    (cm_depth (im_telemetry m) =? 2) && identity_holds n (im_telemetry m) &&
    (cm_depth (im_control m) =? 4) && identity_holds (n / 100) (im_control m) && (cm_accepted (im_control m) =? 4) &&
    (cm_rejected (im_control m) =? n / 100 - 4) &&
    forallb (fun row => contains (as_bytes row) (as_bytes (render_snapshot i)))
      ["| sensory | drop_oldest |"; "| control | reject |"; "| reward | coalesce |"]%string).

(** [IngressConfig::default()] with one field changed. *)
Definition default_with (sensory_cap timeout payload : Z) : IngressConfig :=
  let d := IngressConfig_default in
  MkIngressConfig sensory_cap (sensory_policy d) (reward_capacity d) (reward_policy d) (control_capacity d)
    (control_policy d) (telemetry_capacity d) (telemetry_policy d) timeout payload.

Definition zero_capacity_is_rejected_at_construction : bool :=
  let d := IngressConfig_default in
  rejected_with (default_with 0 (block_timeout_ms d) (max_payload_len d)) ["sensory"; "capacity"]%string.

Definition capacity_above_max_is_rejected_at_construction : bool :=
  let d := IngressConfig_default in
  rejected_with (default_with (MAX_QUEUE_CAPACITY + 1) (block_timeout_ms d) (max_payload_len d))
    ["MAX_QUEUE_CAPACITY"%string].

Definition block_timeout_above_max_is_rejected_at_construction : bool :=
  let d := IngressConfig_default in
  rejected_with (default_with (sensory_capacity d) (MAX_BLOCK_TIMEOUT_MS + 1) (max_payload_len d))
    ["MAX_BLOCK_TIMEOUT_MS"%string].

Definition payload_len_above_max_is_rejected_at_construction : bool :=
  let d := IngressConfig_default in
  rejected_with (default_with (sensory_capacity d) (block_timeout_ms d) (MAX_PAYLOAD_LEN + 1))
    ["MAX_PAYLOAD_LEN"%string].

Definition oversize_payload_is_rejected : bool :=
  let t := tiny_fixture in
  with_ingress (MkIngressConfig (sensory_capacity t) (sensory_policy t) (reward_capacity t) (reward_policy t)
      (control_capacity t) (control_policy t) (telemetry_capacity t) (telemetry_policy t) (block_timeout_ms t) 2)
    (fun i =>
      let '(i, outs) := enqueue_all [(Sensory, MkPacket [tag 1; tag 2; tag 3] None None None None None false)] i in
      let m := class_metrics i Sensory in
      bool_decide (outs = [Some Rejected]) && (cm_rejected m =? 1) && (cm_depth m =? 0)).

(** 0.25. *)
Definition f_quarter32 : f32 := f32_div f_one32 (tag 4).

Definition admit_backend_packet_splits_stimuli_and_modulators : bool :=
  with_ingress tiny_fixture (fun i =>
    let i := admit_backend_packet i
      (MkPacket [f_half32; f_quarter32] (Some [tag 1; tag 2; tag 3; tag 4]) None None None None false) in
    let packet := into_packet (drain_for_tick i).2 in
    bool_decide (Packet.stimuli packet = [f_half32; f_quarter32]) && is_value (popped_modulator (Some packet)) 1).

Definition admit_skips_empty_backend_placeholder : bool :=
  with_ingress tiny_fixture (fun i =>
    let '(i, _) := enqueue_all [(Sensory, pkt (tag 7))] i in
    let i := admit_backend_packet i IngressPacket_default in
    (cm_depth (class_metrics i Sensory) =? 1) && (cm_depth (class_metrics i Reward) =? 0) &&
    is_value (popped_stimulus (ingress_pop i Sensory).2) 7).

Definition first_non_finite_is_the_choke_point_for_direct_ingress : bool :=
  bool_decide (first_non_finite (pkt (tag 1)) = None) &&
  bool_decide (first_non_finite (reward_pkt f_half32) = None) &&
  bool_decide (first_non_finite (pkt S754_nan) = Some (Stimulus 0)) &&
  bool_decide (first_non_finite (pkt (S754_infinity false)) = Some (Stimulus 0)) &&
  bool_decide (first_non_finite (reward_pkt (S754_infinity true)) = Some (Modulator 0)).

Definition admit_empty_stimuli_still_enqueues_modulators : bool :=
  with_ingress tiny_fixture (fun i =>
    let i := admit_backend_packet i
      (MkPacket [] (Some [tag 1; tag 2; tag 3; tag 4]) None None None None false) in
    (cm_depth (class_metrics i Sensory) =? 0) && (cm_depth (class_metrics i Reward) =? 1) &&
    is_value (popped_modulator (ingress_pop i Reward).2) 1).

Definition ingress_tests : list bool := [
  drop_oldest_bounds_depth_with_stalled_consumer; reject_does_not_grow_past_capacity; coalesce_keeps_latest_snapshot;
  lost_or_coalesced_increments_exactly_one_counter; control_is_not_starved_by_full_telemetry;
  drain_for_tick_priority_is_control_then_reward_then_sensory; block_timeout_zero_rejects_when_full_without_waiting;
  try_enqueue_never_blocks_block_timeout_class; shutdown_unblocks_waiting_producer; shutdown_rejects_every_class;
  sustained_overload_bounds_memory_and_accounts_every_event; zero_capacity_is_rejected_at_construction;
  capacity_above_max_is_rejected_at_construction; block_timeout_above_max_is_rejected_at_construction;
  payload_len_above_max_is_rejected_at_construction; oversize_payload_is_rejected;
  admit_backend_packet_splits_stimuli_and_modulators; admit_skips_empty_backend_placeholder;
  first_non_finite_is_the_choke_point_for_direct_ingress; admit_empty_stimuli_still_enqueues_modulators].

(** The model passes the repository's tests of the ingress. *)
Lemma ingress_tests_pass : forallb (fun passed => passed) ingress_tests = true.
Proof. by vm_compute. Qed.
