(* ===== verification/TestRuntime.v ===== *)
(** * The unit tests of the restart harness (src/runtime/tests.rs and the tests
    of harness.rs, durable.rs and fakes.rs)

    The tests are scripts in the harness's own monad, under their Rust names:
    a failed assertion ends the script with an error, as an unwrapped error
    does.  The JSON codec is one with the round trip.  [runtime_tests_pass] runs
    them all on the model. *)

From S2P Require Import Prelude Floats NetAddr Durable Harness ExactlyOnce.
Local Open Scope Z_scope.

(** ** Scripts *)

Abbreviation booted := (boot demo_to_vec demo_from_slice).
Abbreviation ticked := (run_tick demo_to_vec).
Abbreviation stopped := shutdown.

(** [assert!]: which error a failed assertion is does not matter. *)
Definition assert (p : RuntimeHarness -> bool) : stateful RuntimeHarness HarnessError unit :=
  get ≫= fun h => if p h then mret tt else bail NotStarted.

(** [assert_eq!(h.run_tick().unwrap(), r)]. *)
Definition tick_is (r : TickResult) : stateful RuntimeHarness HarnessError unit :=
  ticked ≫= fun got => assert (fun _ => bool_decide (got = r)).

(** [assert!(m.is_err())]. *)
Definition fails {A} (m : stateful RuntimeHarness HarnessError A) : stateful RuntimeHarness HarnessError unit :=
  fun h => match m h with
  | (h, Err _) => (h, Ok tt)
  | (h, Ok _) => (h, Err NotStarted)
  end.

(** [let _ = m]. *)
Definition ignore {A} (m : stateful RuntimeHarness HarnessError A) : stateful RuntimeHarness HarnessError unit :=
  fun h => ((m h).1, Ok tt).

(** The rest of a test, on a second harness built from what is left of the first. *)
Definition restart (b : RuntimeHarness -> HarnessBuilder) (rest : RuntimeHarness -> stateful RuntimeHarness HarnessError unit) :
    stateful RuntimeHarness HarnessError unit :=
  fun h => rest h (builder_build (b h)).

Definition passes (b : HarnessBuilder) (script : stateful RuntimeHarness HarnessError unit) : bool :=
  is_ok (script (builder_build b)).2.

Definition on_store (seed : Z) (h : RuntimeHarness) : HarnessBuilder := builder_store (h_store h) (builder_new seed).

Definition outcome_is (r : RestartOutcome) (h : RuntimeHarness) : bool :=
  bool_decide (h_restart_outcome h = Some r).
Definition health_is (x : Health) (h : RuntimeHarness) : bool := bool_decide (h_health h = x).
Definition published (h : RuntimeHarness) : Z := len (h_published h).
Definition first_output (p : CommittedOutput -> bool) (h : RuntimeHarness) : bool :=
  match head (h_published h) with Some o => p o | None => false end.

Definition FAULT_SEEDS : list Z := [0; 1; 7; 42; 1337; 20260915].

Definition every_seed (test : Z -> bool) : bool := forallb test FAULT_SEEDS.

(** ** The fault matrix *)

Definition is_shutdown_fault (point : FaultPoint) : bool :=
  match point with
  | Before Shutdown | After Shutdown | InterruptedShutdown => true
  | _ => false
  end.

Definition injected_session (seed : Z) (point : FaultPoint) : HarnessBuilder :=
  match point with
  | MalformedCheckpoint =>
    builder_fault point (builder_store (store_malformed (as_bytes "{not-a-checkpoint")) (builder_new seed))
  | _ => if is_shutdown_fault point then builder_new seed else builder_fault point (builder_new seed)
  end.

Definition run_injected_session (point : FaultPoint) : stateful RuntimeHarness HarnessError unit :=
  if is_shutdown_fault point then
    booted ≫= fun _ =>
    tick_is Committed ≫= fun _ =>
    modify (arm_fault point) ≫= fun _ =>
    ignore stopped
  else fun h =>
    match booted h with
    | (h, Ok _) => if h_live h then ignore ticked h else (h, Ok tt)
    | (h, Err _) => (h, Ok tt)
    end.

(** The second session, on the first one's store. *)
Definition boot_restart (first : RuntimeHarness) : stateful RuntimeHarness HarnessError unit := fun h =>
  let '(h, boot) := booted h in
  (assert (fun h =>
     if outcome_is RejectedInvalid h then negb (is_ok boot) && negb (h_live h) && negb (h_live_loop_entered h)
     else is_ok boot && h_live h && negb (is_some (fc_last_stimuli (h_core h))) && (published h =? 0) &&
          (len (h_metrics h) =? 0) && (h_session_id h =? ds_last_session_id (h_durable first) + 1) &&
          (ds_committed_tick_seq (h_durable h) =? ds_committed_tick_seq (h_durable first)) &&
          (ds_committed_ingress_seq (h_durable h) =? ds_committed_ingress_seq (h_durable first)))) h.

Definition assert_session_and_inflight (first h : RuntimeHarness) (expected : ExpectedOutcome) : bool :=
  let last := ds_last_session_id (h_durable first) in
  (bool_decide (eo_restart expected = RejectedInvalid) || (h_session_id h =? last + 1)) &&
  if bool_decide (eo_restart expected = RecoveredIncomplete)
  then is_some (ds_inflight (h_durable first)) && (last <? h_session_id h)
  else negb (is_some (ds_inflight (h_durable first))).

Definition assert_report_matches_oracle (first h : RuntimeHarness) (expected : ExpectedOutcome) : bool :=
  health_is (eo_terminal_health expected) first && outcome_is (eo_restart expected) h &&
  (published first =? eo_published_before_crash expected) &&
  (len (h_metrics first) =? eo_published_before_crash expected) &&
  eqb (h_live_loop_entered first) (eo_live_loop_entered expected) &&
  eqb (h_incomplete_prior h) (bool_decide (eo_restart expected = RecoveredIncomplete)) &&
  assert_session_and_inflight first h expected.

Definition drive (seed : Z) (point : FaultPoint) : bool :=
  passes (injected_session seed point)
    (run_injected_session point ≫= fun _ =>
     restart (on_store seed) (fun first =>
       boot_restart first ≫= fun _ =>
       assert (fun h => assert_report_matches_oracle first h (expected_outcome point)))).

Definition fault_matrix_matches_oracle_for_all_seeds : bool :=
  every_seed (fun seed => forallb (drive seed) ALL_FAULT_POINTS).

(** ** Invalid stores *)

(** The magic, then what the codec makes of a state. *)
Definition blob_of (s : DurableState) : bytes := MAGIC ++ default [] (demo_to_vec s).

Definition empty_checkpoint_blob : bytes := blob_of (MkDurable 1 "" 1 0 0 None).
Definition committed_inflight_blob : bytes := blob_of (MkDurable 1 "fake-core-v1" 1 3 7 (Some (MkInflight 1 4 7))).

Definition invalid_store_fixtures : list DurableStore :=
  [store_malformed (as_bytes "{not-json"); store_malformed (as_bytes "BSDK0" ++ [chr 10] ++ as_bytes "{}");
   store_malformed empty_checkpoint_blob; store_malformed committed_inflight_blob].

Definition assert_boot_rejects_invalid (seed : Z) (store : DurableStore) : bool :=
  passes (builder_store store (builder_new seed))
    (fails booted ≫= fun _ =>
     assert (fun h => health_is CheckpointInvalid h && negb (h_live h) && negb (h_live_loop_entered h) &&
                      outcome_is RejectedInvalid h) ≫= fun _ =>
     fails ticked).

Definition invalid_durable_state_fails_before_live_tick_loop : bool :=
  every_seed (fun seed => forallb (assert_boot_rejects_invalid seed) invalid_store_fixtures).

(** ** Restarts *)

Definition restart_after_partial_tick_does_not_publish_false_success_or_duplicate : bool :=
  every_seed (fun seed =>
    passes (builder_fault (After TickExecute) (builder_new seed))
      (booted ≫= fun _ =>
       fails ticked ≫= fun _ =>
       assert (fun h => (published h =? 0) && (len (h_metrics h) =? 0)) ≫= fun _ =>
       restart (on_store seed) (fun first =>
         match ds_inflight (h_durable first) with
         | None => bail NotStarted
         | Some inflight =>
           booted ≫= fun _ =>
           assert (fun h => outcome_is RecoveredIncomplete h && h_incomplete_prior h && (published h =? 0)) ≫= fun _ =>
           tick_is Committed ≫= fun _ =>
           assert (fun h => (published h =? 1) && first_output (fun o =>
             (co_tick_seq o =? if_tick_seq inflight) && (co_ingress_seq o =? if_ingress_seq inflight) &&
             (if_session_id inflight <? co_session_id o)) h) ≫= fun _ =>
           modify (push_ingress_front (MkSequenced (if_ingress_seq inflight)
             [f32_div (f32_of_int 9) (f32_of_int 10); f32_div (f32_of_int 1) (f32_of_int 10)])) ≫= fun _ =>
           tick_is SkippedReplay ≫= fun _ =>
           assert (fun h => (published h =? 1) && (len (h_metrics h) =? 1))
         end))).

Definition replayed_ingress_is_not_counted_as_fresh_work : bool :=
  every_seed (fun seed =>
    passes (builder_new seed)
      (booted ≫= fun _ =>
       tick_is Committed ≫= fun _ =>
       assert (fun h => ds_committed_ingress_seq (h_durable h) =? 1) ≫= fun _ =>
       restart (on_store seed) (fun first =>
         booted ≫= fun _ =>
         assert (fun h => h_session_id first <? h_session_id h) ≫= fun _ =>
         tick_is SkippedReplay ≫= fun _ =>
         assert (fun h => (h_skipped_replays h =? 1) && (published h =? 0)) ≫= fun _ =>
         tick_is Committed ≫= fun _ =>
         assert (fun h => (published h =? 1) &&
           first_output (fun o => (co_ingress_seq o =? 2) && (co_tick_seq o =? 2)) h)))).

Definition session_and_tick_ids_are_monotonic_across_restart : bool :=
  every_seed (fun seed =>
    passes (builder_new seed)
      (booted ≫= fun _ =>
       assert (fun h => h_session_id h =? 1) ≫= fun _ =>
       tick_is Committed ≫= fun _ =>
       tick_is Committed ≫= fun _ =>
       assert (fun h => ds_committed_tick_seq (h_durable h) =? 2) ≫= fun _ =>
       restart (on_store seed) (fun first =>
         booted ≫= fun _ =>
         assert (fun h => h_session_id first <? h_session_id h) ≫= fun _ =>
         tick_is SkippedReplay ≫= fun _ =>
         tick_is SkippedReplay ≫= fun _ =>
         tick_is Committed ≫= fun _ =>
         assert (first_output (fun o => (co_tick_seq o =? ds_committed_tick_seq (h_durable first) + 1) &&
                                        (h_session_id first <? co_session_id o)))))).

Fixpoint ticks (n : nat) : stateful RuntimeHarness HarnessError unit :=
  match n with
  | O => mret tt
  | Datatypes.S n => ticked ≫= fun _ => ticks n
  end.

Definition harness_is_synchronous_step_bounded_and_leaves_no_background_tasks : bool :=
  let start_ns := h_clock (builder_build (builder_new 42)) in
  passes (builder_new 42)
    (booted ≫= fun _ =>
     ticks 8 ≫= fun _ =>
     stopped ≫= fun _ =>
     assert (fun h => (h_steps_taken h <=? MAX_STEPS) && health_is Stopped h && negb (h_channel_open h) &&
                      (h_clock h =? start_ns + TICK_PERIOD_NS * 8))).

(** That the oracle covers every point is its type. *)
Definition expected_outcome_covers_every_injection_point : bool :=
  (length ALL_FAULT_POINTS =? 17)%nat && (length FAULT_SEEDS =? 6)%nat.

(** ** harness.rs *)

Definition on_state (s : DurableState) : HarnessBuilder :=
  match from_state demo_to_vec s with
  | Ok store => builder_store store (builder_new 0)
  | Err _ => builder_new 0
  end.

(** The error of a failed boot. *)
Definition boot_error (b : HarnessBuilder) : option HarnessError :=
  match (booted (builder_build b)).2 with Ok _ => None | Err e => Some e end.

Definition exhausted_session_id_fails_before_live_loop : bool :=
  let b := on_state (set_session u64_max DurableState_fresh) in
  match boot_error b with Some SessionOverflow => true | _ => false end &&
  passes b
    (fails booted ≫= fun _ =>
     assert (fun h => health_is CheckpointInvalid h && negb (h_live_loop_entered h) && outcome_is RejectedInvalid h)).

Definition exhausted_tick_seq_fails_before_live_loop : bool :=
  let b := on_state (set_committed u64_max 0 (set_session 1 DurableState_fresh)) in
  match boot_error b with Some TickSequenceOverflow => true | _ => false end &&
  passes b
    (fails booted ≫= fun _ =>
     assert (fun h => health_is CheckpointInvalid h && negb (h_live h) && negb (h_live_loop_entered h) &&
                      outcome_is RejectedInvalid h) ≫= fun _ =>
     fails ticked).

Definition armed_malformed_checkpoint_poisons_empty_store_for_restart : bool :=
  passes (builder_fault MalformedCheckpoint (builder_new 0))
    (fails booted ≫= fun _ =>
     assert (health_is CheckpointInvalid) ≫= fun _ =>
     restart (on_store 0) (fun _ =>
       fails booted ≫= fun _ =>
       assert (fun h => outcome_is RejectedInvalid h && negb (h_live_loop_entered h)))).

(** ** durable.rs and fakes.rs *)

Definition empty_store_is_first_boot : bool :=
  match load demo_from_slice store_empty with Ok None => true | _ => false end.

Definition round_trip_valid_state : bool :=
  let state := set_session 1 DurableState_fresh in
  match from_state demo_to_vec state with
  | Ok store => match load demo_from_slice store with Ok (Some s) => bool_decide (s = state) | _ => false end
  | Err _ => false
  end.

(** Every cause of a "malformed checkpoint" message. *)
Definition malformed_bytes_fail_before_any_state : bool :=
  match load demo_from_slice (store_malformed (as_bytes "{not-json")) with
  | Err MissingMagic | Err BadJson => true
  | _ => false
  end.

Definition with_inflight (session tick ingress : Z) (r : InflightRecord) : result DurableError unit :=
  durable_validate (MkDurable DURABLE_SCHEMA_VERSION FAKE_CHECKPOINT_ID session tick ingress (Some r)).

Definition inflight_must_be_exactly_next_tick : bool :=
  match with_inflight 1 3 0 (MkInflight 1 3 1) with Err (InflightTick 3 3) => true | _ => false end.

Definition inflight_at_max_committed_tick_is_rejected_without_overflow : bool :=
  match with_inflight 1 u64_max 0 (MkInflight 1 0 1) with Err TickOverflow => true | _ => false end.

Definition stale_inflight_session_is_rejected : bool :=
  match with_inflight 2 3 0 (MkInflight 1 4 1) with Err (InflightSession 1 2) => true | _ => false end.

Definition inflight_ingress_must_exceed_committed_ingress : bool :=
  match with_inflight 1 3 7 (MkInflight 1 4 7) with Err (InflightIngress 7 7) => true | _ => false end.

Definition f_090_32 : f32 := f32_div (f32_of_int 9) (f32_of_int 10).

Definition fake_core_drops_out_of_range_spike_ids : bool :=
  let n := Z.to_nat u16_max in
  let stimuli := <[(n + 1)%nat := f_090_32]> (<[0%nat := f_090_32]> (replicate (n + 2) f_zero)) in
  bool_decide ((core_step stimuli FakeCore_default).2 = [0]).

Definition runtime_tests : list bool := [
  fault_matrix_matches_oracle_for_all_seeds; invalid_durable_state_fails_before_live_tick_loop;
  restart_after_partial_tick_does_not_publish_false_success_or_duplicate;
  replayed_ingress_is_not_counted_as_fresh_work; session_and_tick_ids_are_monotonic_across_restart;
  harness_is_synchronous_step_bounded_and_leaves_no_background_tasks;
  expected_outcome_covers_every_injection_point; exhausted_session_id_fails_before_live_loop;
  exhausted_tick_seq_fails_before_live_loop; armed_malformed_checkpoint_poisons_empty_store_for_restart;
  empty_store_is_first_boot; round_trip_valid_state; malformed_bytes_fail_before_any_state;
  inflight_must_be_exactly_next_tick; inflight_at_max_committed_tick_is_rejected_without_overflow;
  stale_inflight_session_is_rejected; inflight_ingress_must_exceed_committed_ingress;
  fake_core_drops_out_of_range_spike_ids].

(** The model passes the repository's tests of the harness. *)
Lemma runtime_tests_pass : forallb (fun passed => passed) runtime_tests = true.
Proof. by vm_compute. Qed.
