(* ===== verification/TestConfig.v ===== *)
(** * The unit tests of the configuration (src/config.rs, src/registry.rs,
    src/logging.rs)

    A TOML body is the list of the lines a test adds to the base
    configuration: [toml] applies them to the record the base body parses to
    (the TOML parser itself is a library).  Every entry point is tried: the
    loader, both constructors, the bounded run and the restore.
    [config_tests_pass] runs all the tests on the model. *)

From Stdlib Require Import Ascii.
From stdpp Require Import pretty.
From S2P Require Import Prelude Floats Packet NetAddr Text Queue Ingress Health Config Backend Checkpoint Diagnostics.
From S2P Require Import Tick Daemon Process.
Local Open Scope Z_scope.

(** ** Fixtures *)

(** [message.contains(needle)]. *)
Definition says (message needle : string) : bool := contains (as_bytes needle) (as_bytes message).

Inductive TomlLine :=
| TickRateHz (n : Z) | LogLevelIs (s : string) | LifCount (n : Z) | IzhCount (n : Z) | Channels (n : Z)
| Mode (m : RuntimeMode) | PubBindHost (s : string) | PubSndHwm (n : Z) | PubLingerMs (n : Z)
| ControlBindIs (s : string) | SensoryCapacity (n : Z) | MaxPayloadLen (n : Z).

Definition set_line (line : TomlLine) (c : DaemonConfig) : DaemonConfig :=
  let i := Config.ingress c in
  MkDaemonConfig
    (match line with TickRateHz n => n | _ => tick_rate_hz c end)
    (match line with LogLevelIs s => s | _ => log_level c end)
    (spine_sub_port c) (spine_pub_port c)
    (match line with PubBindHost s => s | _ => spine_pub_bind_host c end)
    (match line with PubSndHwm n => n | _ => spine_pub_sndhwm c end)
    (match line with PubLingerMs n => n | _ => spine_pub_linger_ms c end)
    (spine_pub_send_empty_batches c) (model_path c)
    (match line with LifCount n => n | _ => lif_count c end)
    (match line with IzhCount n => n | _ => izh_count c end)
    (match line with Channels n => n | _ => Config.channels c end)
    (match line with Mode m => m | _ => runtime_mode c end)
    (services c)
    (MkIngressConfig (match line with SensoryCapacity n => n | _ => sensory_capacity i end)
       (sensory_policy i) (reward_capacity i) (reward_policy i) (control_capacity i) (control_policy i)
       (telemetry_capacity i) (telemetry_policy i) (block_timeout_ms i)
       (match line with MaxPayloadLen n => n | _ => max_payload_len i end))
    (match line with ControlBindIs s => Some s | _ => control_bind c end).

(** What [base_config_toml("")] parses to: the omitted keys at their defaults. *)
Definition base_config : DaemonConfig :=
  MkDaemonConfig 1000 "info" 5555 5556 default_spine_pub_bind_host default_spine_pub_sndhwm
    default_spine_pub_linger_ms default_spine_pub_send_empty_batches "/tmp/model.mem" 1 0 1 Live []
    IngressConfig_default None.

Definition base_config_toml (extra : list TomlLine) : DaemonConfig := foldr set_line base_config extra.

Definition load_base_config (extra : list TomlLine) : result (LoadError unit unit) DaemonConfig :=
  load (fun _ => Ok "toml"%string) (fun _ => Ok (base_config_toml extra)) "target/daemon-test-toml/case.toml".

(** The error an entry point ends with names the field. *)
Definition names (c : DaemonConfig) (field : string) (e : ConfigError) : bool :=
  says (config_error_to_string c e) field.

Definition load_fails (extra : list TomlLine) (needles : list string) : bool :=
  match load_base_config extra with
  | Err (Invalid e) => forallb (fun needle => names (base_config_toml extra) needle e) needles
  | _ => false
  end.

(** No checkpoint is on disk: a configuration error must come before that one. *)
Definition no_file : Fs := MkFs (fun _ => Ok false) (fun _ => false) (fun _ => false) (fun _ => Err tt).

Abbreviation bounded_run := (run_for_ticks no_file (fun _ => Err tt) (fun _ => Err tt) (fun b => b)
  demo_with_dimensions demo_set_config (fun s => [s]) (fun _ => "p"%string) demo_net_step demo_mods).
Abbreviation restored := (restore_network no_file (fun _ => Err tt) (fun _ => Err tt) (fun b => b)
  demo_with_dimensions demo_set_config (fun s => [s]) (fun _ => "p"%string)).

Definition try_new_run (c : DaemonConfig) (envs : list TickEnv) : result DaemonError RuntimeStats :=
  try_new c 0 ≫= fun daemon => (bounded_run daemon 0 0 envs).2.

Definition consumers_reject (c : DaemonConfig) (field : string) : bool :=
  match try_new_run c [] with Err (ConfigRejected e) => names c field e | _ => false end &&
  negb (is_ok (try_with_backend c (pair_source stub) (pair_sink stub) 0)) &&
  match restored c with Err (ConfigInvalid e) => names c field e | _ => false end.

Definition both_modes : list RuntimeMode := [Live; Simulation].

(** ** config.rs *)

Definition INVALID_RUNTIME_CONFIGS : list (list TomlLine * string) := [
  ([TickRateHz 0], "tick_rate_hz");
  ([TickRateHz 1000001], "tick_rate_hz");
  ([Channels 0], "channels");
  ([Channels 4097], "channels");
  ([LifCount 0], "lif_count + izh_count");
  ([LifCount 65536], "lif_count + izh_count");
  ([LifCount 257; IzhCount 0; Channels 4096], "dimensions");
  ([ControlBindIs "localhost:9464"], "control_bind");
  ([PubBindHost "tcp://127.0.0.1"], "spine_pub_bind_host");
  ([SensoryCapacity 0], "sensory");
  ([MaxPayloadLen 1048577], "max_payload_len");
  ([Channels 3; MaxPayloadLen 2], "channels")]%string.

Definition invalid_runtime_config_is_rejected_at_every_entry_point : bool :=
  forallb (fun '(body, field) =>
    load_fails body [field] &&
    forallb (fun mode => consumers_reject (set_line (Mode mode) (base_config_toml body)) field) both_modes)
    INVALID_RUNTIME_CONFIGS.

Definition live_mode_rejects_izh_cells_at_load_and_construction : bool :=
  load_fails [IzhCount 1] ["izh_count"%string] && consumers_reject (base_config_toml [IzhCount 1]) "izh_count".

Definition rust_dimensions_reject_multiplication_overflow_before_allocation : bool :=
  forallb (fun mode =>
    consumers_reject (base_config_toml [LifCount 2; Channels u64_max; Mode mode]) "overflows usize") both_modes.

(** One tick of the bounded run, in the loaded configuration. *)
Definition runs_one_tick (c : DaemonConfig) : bool :=
  match try_new_run c [demo_env] with
  | Ok stats => (rs_ticks stats =? 1) &&
      bool_decide (mp_schema_id <$> rs_loaded_checkpoint stats = Some SIMULATION_SCHEMA_ID)
  | Err _ => false
  end.

Definition supported_runtime_boundaries_remain_valid : bool :=
  forallb (fun rate =>
    match load_base_config [TickRateHz rate; Mode Simulation] with Ok c => runs_one_tick c | Err _ => false end)
    [1; 1000000] &&
  forallb (fun '(lif, izh, chans, payload) =>
    is_ok (try_new (base_config_toml [Mode Simulation; ControlBindIs "[::1]:0"; PubBindHost "[::1]"; LifCount lif;
                                      IzhCount izh; Channels chans; MaxPayloadLen payload]) 0))
    [(65535, 0, 1, 4096); (0, 1, 1, 4096); (256, 0, 4096, 4096); (1, 0, 1048576, 1048576)].

Definition pub_bind_host_accepts_supported_hosts_and_rejects_malformed_endpoints : bool :=
  forallb (fun host => load_fails [PubBindHost host] ["spine_pub_bind_host"%string])
    ["";
     "tcp://127.0.0.1"; "127.0.0.1:5556"; "[127.0.0.1]"; "[::1"; "::1]"; "bad host"; "-bad.example";
     "bad..example"; "5555"; "999.999.999.999"]%string &&
  forallb (fun host => is_ok (load_base_config [PubBindHost host]))
    ["127.0.0.1"; "0.0.0.0"; "::1"; "[::1]"; "localhost"; "pub.example."; "1.pub.example";
     "pub.example.123"; "*"]%string.

Definition config_load_rejects_invalid_pub_socket_and_log_options : bool :=
  load_fails [LogLevelIs "verbose"]
    [("invalid log_level " +:+ debug_str "verbose")%string; "error, warn, info, debug, trace"%string] &&
  load_fails [PubSndHwm 0] ["spine_pub_sndhwm must be > 0"%string] &&
  load_fails [PubSndHwm (-1)] ["spine_pub_sndhwm must be > 0"%string] &&
  load_fails [PubLingerMs (-1)] ["spine_pub_linger_ms must be >= 0"%string].

Definition loads_with (extra : list TomlLine) (p : DaemonConfig -> bool) : bool :=
  match load_base_config extra with Ok c => p c | Err _ => false end.

Definition config_load_accepts_defaults_without_pub_socket_keys : bool :=
  loads_with [] (fun c => (spine_pub_sndhwm c =? 1000) && (spine_pub_linger_ms c =? 0) &&
                          bool_decide (spine_pub_bind_host c = "127.0.0.1"%string)).

Definition config_load_accepts_zero_linger_explicitly : bool :=
  loads_with [PubSndHwm 4; PubLingerMs 0] (fun c => (spine_pub_sndhwm c =? 4) && (spine_pub_linger_ms c =? 0)).

Definition endpoint_is (host endpoint : string) : bool := bool_decide (pub_endpoint host 5556 = endpoint).

Definition pub_endpoint_brackets_ipv6_literals : bool :=
  endpoint_is "::1" "tcp://[::1]:5556" && endpoint_is "fe80::1" "tcp://[fe80::1]:5556".

Definition pub_endpoint_leaves_ipv4_and_hostnames_unbracketed : bool :=
  endpoint_is "127.0.0.1" "tcp://127.0.0.1:5556" && endpoint_is "0.0.0.0" "tcp://0.0.0.0:5556" &&
  endpoint_is "localhost" "tcp://localhost:5556".

Definition pub_endpoint_leaves_already_bracketed_hosts_untouched : bool :=
  endpoint_is "[::1]" "tcp://[::1]:5556".

(** ** registry.rs *)

Definition empty_registry : bool :=
  registry_is_empty ∅ && (registry_len ∅ =? 0) && negb (registry_contains ∅ "telemetry").

Definition disabled (name : string) : ServiceConfig := MkServiceConfig name false.

Definition from_configs_ignores_disabled : bool :=
  let registry := from_configs [named "telemetry"; disabled "mining-adapter"] in
  (registry_len registry =? 1) && registry_contains registry "telemetry" &&
  negb (registry_contains registry "mining-adapter").

Definition lookup_returns_service : bool :=
  let registry := from_configs [named "telemetry"; named "critic-ipc"] in
  is_some (registry_get registry "telemetry") && is_some (registry_get registry "critic-ipc") &&
  negb (is_some (registry_get registry "unknown")).

Definition duplicate_names_last_enabled_wins : bool :=
  let registry := from_configs [disabled "telemetry"; named "telemetry"] in
  (registry_len registry =? 1) &&
  match registry_get registry "telemetry" with Some service => sc_enabled service | None => false end.

Definition duplicate_enabled_then_disabled_is_removed : bool :=
  let registry := from_configs [named "telemetry"; disabled "telemetry"] in
  negb (registry_contains registry "telemetry") && (registry_len registry =? 0).

(** ** logging.rs *)

(** A filter parser that refuses an unclosed bracket, as tracing's does. *)
Definition demo_try_new (value : string) : result string string :=
  require (negb (starts_with "["%char (as_bytes value)) || ends_with "]"%char (as_bytes value))
    "invalid filter directive"%string ≫= fun _ => Ok value.

Abbreviation resolve := (resolve_filter (fun level => level) demo_try_new).

Definition accepts_all_supported_toml_levels : bool :=
  forallb (fun level => is_ok (resolve level None)) ["error"; "warn"; "info"; "debug"; "trace"]%string.

Definition rejects_target_syntax_as_a_toml_level : bool :=
  match validate_log_level "brainstem_daemon=debug" with
  | Err level => says (log_level_message level) "expected one of"
  | Ok _ => false
  end.

Definition valid_environment_filter_overrides_without_a_diagnostic : bool :=
  match resolve "error" (Some "brainstem_daemon=debug,info"%string) with
  | Ok resolved => negb (is_some (fallback_diagnostic (fun e => e) resolved))
  | Err _ => false
  end.

Definition invalid_environment_filter_falls_back_with_one_diagnostic : bool :=
  match resolve "debug" (Some "[invalid"%string) ≫= fun r => ok_or (fallback_diagnostic (fun e => e) r) EmptyString with
  | Ok diagnostic => says diagnostic "Invalid RUST_LOG" &&
      says diagnostic ("falling back to TOML log_level=" +:+ debug_str "debug")
  | Err _ => false
  end.

(** ** All of them *)

Definition config_tests : list bool := [
  invalid_runtime_config_is_rejected_at_every_entry_point;
  live_mode_rejects_izh_cells_at_load_and_construction;
  rust_dimensions_reject_multiplication_overflow_before_allocation;
  supported_runtime_boundaries_remain_valid;
  pub_bind_host_accepts_supported_hosts_and_rejects_malformed_endpoints;
  config_load_rejects_invalid_pub_socket_and_log_options;
  config_load_accepts_defaults_without_pub_socket_keys; config_load_accepts_zero_linger_explicitly;
  pub_endpoint_brackets_ipv6_literals; pub_endpoint_leaves_ipv4_and_hostnames_unbracketed;
  pub_endpoint_leaves_already_bracketed_hosts_untouched;
  empty_registry; from_configs_ignores_disabled; lookup_returns_service; duplicate_names_last_enabled_wins;
  duplicate_enabled_then_disabled_is_removed;
  accepts_all_supported_toml_levels; rejects_target_syntax_as_a_toml_level;
  valid_environment_filter_overrides_without_a_diagnostic;
  invalid_environment_filter_falls_back_with_one_diagnostic].

Lemma config_tests_pass : forallb (fun passed => passed) config_tests = true.
Proof. by vm_compute. Qed.
