(* ===== verification/TestBackend.v ===== *)
(** * The unit tests of the typed ingress and the ZeroMQ backend
    (src/ingress/corpus.rs, src/backend.rs)

    What crosses the wire is named by a table: the JSON of corpus-ipc is a
    library, so a frame is a name, [from_slice] looks it up, and a name outside
    the table is one the decoder refuses (a foreign schema, a NaN written as
    [null]).  The other end of the SUB socket is the list of the next receives,
    the other end of the PUB socket the frames it took.  Left out: the tests of
    libzmq's own teardown.  [backend_tests_pass] runs the others. *)

From Stdlib Require Import SpecFloat.
From stdpp Require Import pretty.
From S2P Require Import Prelude Floats Packet NetAddr Corpus Backend Process TestConfig.
Local Open Scope Z_scope.

(** ** corpus.rs: fixtures *)

Definition non_finite : list f32 := [S754_nan; S754_infinity false; S754_infinity true].

(** corpus-ipc's [check_finite_slice] on the values, naming the first slot. *)
Fixpoint check_finite_slice (index : Z) (values : list f32) : result string unit :=
  match values with
  | [] => Ok tt
  | v :: rest =>
    if is_finite v then check_finite_slice (index + 1) rest
    else Err ("values[" +:+ pretty index +:+ "] is not finite")%string
  end.
Definition validate (batch : StimulusBatch) : result string unit := check_finite_slice 0 (sb_values batch).

Definition f_quarter32 : f32 := f32_div f_one32 (f32_of_int 4).

Definition sample_batch : StimulusBatch :=
  MkStimulusBatch (Some "smoke"%string) 7 1000 [f_one32; f_zero; f_quarter32; f_half32]
    (Some [true; false; true; true])
    (Some (MkBatchMetadata None (Some "thalamic-relay-fixture"%string) {["schema"%string := STIMULUS_SCHEMA]})).

Definition with_values (values : list f32) (mask : option (list bool)) (b : StimulusBatch) : StimulusBatch :=
  MkStimulusBatch (sb_session_id b) (sb_batch_id b) (sb_timestamp b) values mask (sb_metadata b).
Definition with_timestamp (t : Z) (b : StimulusBatch) : StimulusBatch :=
  MkStimulusBatch (sb_session_id b) (sb_batch_id b) t (sb_values b) (sb_valid_mask b) (sb_metadata b).
Definition with_schema (schema : string) (b : StimulusBatch) : StimulusBatch :=
  MkStimulusBatch (sb_session_id b) (sb_batch_id b) (sb_timestamp b) (sb_values b) (sb_valid_mask b)
    ((fun m => MkBatchMetadata (bm_processing_latency_ns m) (bm_source m) (<["schema"%string := schema]> (bm_custom m)))
     <$> sb_metadata b).

Definition policy : IngressPolicy := MkIngressPolicy 4 (Some 1000000000).

Abbreviation accept batch := (accept_ipc_message validate (Stimuli batch) policy 1000).

Definition fails_with {A} (p : IngressError -> bool) (m : result IngressError A) : bool :=
  match m with Err e => p e | Ok _ => false end.
Definition gives {A} (p : A -> bool) {E} (m : result E A) : bool := match m with Ok a => p a | Err _ => false end.

Definition is_stimulus (e : IngressError) : bool := match e with StimulusInvalid _ => true | _ => false end.
Definition is_deserialize (e : IngressError) : bool := match e with Deserialize _ => true | _ => false end.
Definition is_stale (e : IngressError) : bool := match e with Stale _ _ => true | _ => false end.

(** A decoder of named frames. *)
Definition decoder (table : list (string * IpcMessage)) (buf : string) : result string IpcMessage :=
  ok_or (snd <$> list_find (fun entry => entry.1 = buf) table ≫= fun entry => Some entry.2)
    "invalid type: null, expected f32"%string.

(** ** corpus.rs: tests *)

Definition valid_mask_survives_json_round_trip : bool :=
  gives (fun packet =>
    bool_decide (valid_mask packet = Some [true; false; true; true]) &&
    bool_decide (stimuli packet = [f_one32; f_zero; f_quarter32; f_half32]) &&
    bool_decide (batch_id packet = Some 7) && bool_decide (session_id packet = Some "smoke"%string))
    (accept_ipc_json validate (decoder [("sample"%string, Stimuli sample_batch)]) "sample" policy 1000).

Definition width_mismatch_fails : bool :=
  fails_with (fun e => match e with Width 4 5 => true | _ => false end)
    (accept (with_values (sb_values sample_batch ++ [f_half32]) (Some [true; false; true; true; true]) sample_batch)).

Definition unspecified_width_accepts_any_channel_count : bool :=
  gives (fun packet => len (stimuli packet) =? 4)
    (accept_ipc_message validate (Stimuli sample_batch) (MkIngressPolicy 0 (Some 1000000000)) 1000).

Definition stale_batch_fails : bool :=
  fails_with is_stale (accept_ipc_message validate (Stimuli (with_timestamp 0 sample_batch)) policy 2000000000).

Definition future_timestamp_fails : bool :=
  fails_with (fun e => match e with Future 5000 1000 => true | _ => false end)
    (accept (with_timestamp 5000 sample_batch)).

Definition unknown_schema_fails_loudly : bool :=
  fails_with (fun e => match e with Schema e => says (schema_error_to_string e) "unsupported schema" | _ => false end)
    (accept (with_schema "corpus-ipc.stimulus.v0" sample_batch)).

Definition copied_udp_json_is_not_ipc_message : bool :=
  fails_with is_deserialize (accept_ipc_json validate (decoder []) "udp" policy 1000).

Definition unexpected_variant_fails : bool :=
  fails_with (fun e => match e with UnexpectedVariant name => bool_decide (name = "Ping"%string) | _ => false end)
    (accept_ipc_message validate MsgPing policy 1000).

Definition non_finite_stimulus_value_is_rejected_by_validate_on_decoded_struct : bool :=
  forallb (fun bad => fails_with is_stimulus
    (accept (with_values [bad; f_zero; f_quarter32; f_half32] (sb_valid_mask sample_batch) sample_batch))) non_finite.

Definition non_finite_stimulus_in_masked_slot_is_still_rejected : bool :=
  fails_with (fun e => match e with StimulusInvalid msg => says msg "values[1]" | _ => false end)
    (accept (with_values [f_zero; S754_nan; f_quarter32; f_half32] (Some [true; false; true; true]) sample_batch)).

(** serde writes NaN and the infinities as [null], which [f32] does not parse. *)
Definition to_json (batch : StimulusBatch) : string := if all_finite (sb_values batch) then "sample" else "null".

Definition non_finite_stimulus_value_cannot_round_trip_json : bool :=
  forallb (fun bad =>
    fails_with is_deserialize
      (accept_ipc_json validate (decoder [("sample"%string, Stimuli sample_batch)])
         (to_json (with_values [bad; f_zero; f_quarter32; f_half32] (sb_valid_mask sample_batch) sample_batch))
         policy 1000)) non_finite.

(** ** backend.rs: the source *)

Definition now : Z := 1700000000000000000.

Definition sample_frame (channels batch_id : Z) : StimulusBatch :=
  MkStimulusBatch (Some "zmq-loopback"%string) batch_id now (f_one32 :: replicate (Z.to_nat (channels - 1)) f_zero)
    (Some (imap (fun i _ => negb (bool_decide (i = 1%nat))) (replicate (Z.to_nat channels) tt)))
    (Some (MkBatchMetadata None (Some "thalamic-relay-fixture"%string) {["schema"%string := STIMULUS_SCHEMA]})).

Definition f_tenths (n : Z) : f32 := f32_div (f32_of_int n) (f32_of_int 10).
Definition levels : list f32 := [f_tenths 4; f_tenths 3; f_tenths 2; f_one32].

(** The frames the publisher sends in these tests. *)
Definition wire : list (string * IpcMessage) := [
  ("frame 100", Stimuli (sample_frame 4 100));
  ("frame 101", Stimuli (sample_frame 4 101));
  ("ping", MsgPing);
  ("mods", Neuromodulators
    (MkNeuromodulatorSnapshot 1 (f_tenths 4) (f_tenths 3) (f_tenths 2) f_one32))]%string.

(** A connected source; the receives that find nothing are the polls before the
    frame has crossed. *)
Definition bind_loopback (channels : Z) (recvs : list Recv) : ZmqStimulusSource :=
  set_socket (Some recvs) (with_max_age 5000000000 (with_channels channels)).

Abbreviation next := (zmq_next_ingress validate (decoder wire)).

(** Polls until there is a packet; [None] when a poll fails or none came. *)
Fixpoint poll_ingress (polls : nat) (p : IngressPacket -> bool) (s : ZmqStimulusSource) :
    ZmqStimulusSource * option IngressPacket :=
  match polls with
  | O => (s, None)
  | S polls =>
    match next s with
    | (s, Err _) => (s, None)
    | (s, Ok (Some packet)) => if p packet then (s, Some packet) else poll_ingress polls p s
    | (s, Ok None) => poll_ingress polls p s
    end
  end.
Abbreviation any := (fun _ : IngressPacket => true).

Definition packet_is (p : IngressPacket -> bool) (r : option IngressPacket) : bool :=
  match r with Some packet => p packet | None => false end.

Definition typed_json_frame_round_trips_over_zmq : bool :=
  packet_is (fun packet =>
    negb (rejected packet) && bool_decide (batch_id packet = Some 100) &&
    bool_decide (valid_mask packet ≫= (.!! 1%nat) = Some false) &&
    bool_decide (head (stimuli packet) = Some f_one32) &&
    bool_decide (session_id packet = Some "zmq-loopback"%string))
    (poll_ingress 50 any (bind_loopback 4 [Eagain; Frame "frame 100" now])).2.

Definition rejected_frame_does_not_hard_fail_ingress : bool :=
  let s := bind_loopback 4 [Eagain; Frame "ping" now; Eagain; Frame "frame 101" (now + 1)] in
  let '(s, ping) := poll_ingress 50 any s in
  packet_is (fun packet => rejected packet && bool_decide (stimuli packet = [])) ping &&
  packet_is (fun packet => bool_decide (batch_id packet = Some 101))
    (poll_ingress 50 (fun packet => negb (rejected packet)) s).2.

Definition holds_levels (packet : IngressPacket) : bool :=
  bool_decide (modulators packet = Some levels) && bool_decide (stimuli packet = []).

Definition idle_ticks_hold_last_modulators : bool :=
  let s := bind_loopback 4 [Eagain; Frame "mods" now] in
  let '(s, packet) := poll_ingress 50 (fun packet => is_some (modulators packet)) s in
  packet_is holds_levels packet &&
  match (next s).2 with
  | Ok (Some idle) => holds_levels idle && negb (rejected idle)
  | _ => false
  end.

(** Fifty polls around the frame whose NaN became [null]. *)
Fixpoint polls_never_hold (polls : nat) (saw_rejected : bool) (s : ZmqStimulusSource) : bool :=
  match polls with
  | O => saw_rejected
  | S polls =>
    match next s with
    | (s, Ok (Some packet)) =>
      negb (is_some (modulators packet)) && polls_never_hold polls (saw_rejected || rejected packet) s
    | (s, Ok None) => polls_never_hold polls saw_rejected s
    | (_, Err _) => false
    end
  end.

Definition non_finite_modulators_are_never_held_or_replayed : bool :=
  polls_never_hold 50 false (bind_loopback 4 [Eagain; Frame "null" now]).

(** ** backend.rs: the sink *)

Definition sample_spikes : list SpikeEvent := [MkSpikeEvent 0 7 f_one32; MkSpikeEvent 3 9 f_half32].

(** The frame of a batch, with its fields in short for serde's JSON. *)
Definition payload (batch : SpikeBatch) : result string string :=
  Ok (if bool_decide (pb_spikes batch = []) then "{Spikes: []} " else "{Spikes: [..]} ")%string ≫= fun head =>
  Ok (head +:+ pretty (pb_batch_id batch) +:+ " " +:+ pretty (pb_timestamp batch))%string.

Abbreviation emits := (zmq_emit payload).
Definition ms (n : Z) : Z := n * 1000000.

Definition stats_are (attempts suppresses failures : Z) (k : ZmqSpikeSink) : bool :=
  (attempted (zk_stats k) =? attempts) && (suppressed (zk_stats k) =? suppresses) && (failed (zk_stats k) =? failures).

Fixpoint emit_many (count : nat) (k : ZmqSpikeSink) : option ZmqSpikeSink :=
  match count with
  | O => Some k
  | S count => match emits sample_spikes (ms 1) k with (k, Ok _) => emit_many count k | (_, Err _) => None end
  end.

Definition emitted_many (p : ZmqSpikeSink -> bool) (k : ZmqSpikeSink) : bool :=
  match emit_many (Z.to_nat 10000) k with Some k => p k | None => false end.

Definition no_subscriber_emit_is_ok_and_counts_attempted : bool :=
  emitted_many (stats_are 10000 0 0) (sink_new []).

Definition failed_socket_send_counts_attempt_and_failure_not_suppression : bool :=
  let '(k, r) := emits sample_spikes 0 (sink_new [Err "Operation not supported"%string]) in
  negb (is_ok r) && stats_are 1 0 1 k.

(** A frame a subscriber gets. *)
Definition received (k : ZmqSpikeSink) : option string := last (zk_sent k).

Definition empty_batch_policy_sends_when_enabled : bool :=
  let '(k, r) := emits [] (ms 2) (sink_with_policy [] true) in
  is_ok r && stats_are 1 0 0 k && bool_decide (received k = Some "{Spikes: []} 2 2000000"%string).

Definition empty_batch_policy_suppresses_when_disabled : bool :=
  let '(k, r) := emits [] (ms 2) (sink_with_policy [] false) in
  is_ok r && stats_are 0 1 0 k && negb (is_some (received k)) &&
  let '(k, r) := emits sample_spikes (ms 3) k in
  is_ok r && (attempted (zk_stats k) =? 1) && is_some (received k).

(** One frame received first; what the subscriber then misses does not show. *)
Definition drops_are_not_observable (k : ZmqSpikeSink) : bool :=
  let '(k, r) := emits sample_spikes (ms 1) k in
  let before := attempted (zk_stats k) in
  is_ok r && is_some (received k) && emitted_many (stats_are (before + 10000) 0 0) k.

Definition disconnected_subscriber_drops_are_not_observable : bool := drops_are_not_observable (sink_new []).
Definition slow_connected_subscriber_over_sndhwm_drops_are_not_observable : bool :=
  drops_are_not_observable (sink_with_policy [] true).

Definition wire_payload_is_preserved_round_trip : bool :=
  let '(k, r) := emits sample_spikes (ms 1234) (sink_new []) in
  is_ok r && bool_decide (received k = Some "{Spikes: [..]} 1234 1234000000"%string).

(** ** All of them *)

Definition backend_tests : list bool := [
  valid_mask_survives_json_round_trip; width_mismatch_fails; unspecified_width_accepts_any_channel_count;
  stale_batch_fails; future_timestamp_fails; unknown_schema_fails_loudly; copied_udp_json_is_not_ipc_message;
  unexpected_variant_fails; non_finite_stimulus_value_is_rejected_by_validate_on_decoded_struct;
  non_finite_stimulus_in_masked_slot_is_still_rejected; non_finite_stimulus_value_cannot_round_trip_json;
  typed_json_frame_round_trips_over_zmq; rejected_frame_does_not_hard_fail_ingress;
  idle_ticks_hold_last_modulators; non_finite_modulators_are_never_held_or_replayed;
  no_subscriber_emit_is_ok_and_counts_attempted;
  failed_socket_send_counts_attempt_and_failure_not_suppression;
  empty_batch_policy_sends_when_enabled; empty_batch_policy_suppresses_when_disabled;
  disconnected_subscriber_drops_are_not_observable;
  slow_connected_subscriber_over_sndhwm_drops_are_not_observable; wire_payload_is_preserved_round_trip].

Lemma backend_tests_pass : forallb (fun passed => passed) backend_tests = true.
Proof. by vm_compute. Qed.
