(* ===== verification/TestCheckpoint.v ===== *)
(** * The unit tests of the checkpoint loader (src/checkpoint/tests.rs)

    A fixture directory is the list of its files.  A sidecar file holds a tag
    and [parse_document] gives the document its JSON stands for, as serde would,
    or refuses it (broken JSON, an overflowing literal).  Where a test looks for
    words of the message, the model has the error that message is of.
    [checkpoint_tests_pass] runs all the tests. *)

From Stdlib Require Import Ascii SpecFloat.
From S2P Require Import Prelude Floats Packet NetAddr Text Queue Ingress Config Checkpoint TestConfig.
Local Open Scope Z_scope.

(** ** Fixtures *)

Definition files : Type := list (path * string).

Definition raw (body : string) : list Z := code <$> as_bytes body.
Definition file_at (fixture : files) (p : path) : option string :=
  snd <$> list_find (fun file => file.1 = p) fixture ≫= fun file => Some file.2.
(** A proper prefix of some file's path. *)
Definition is_directory (fixture : files) (p : path) : bool :=
  existsb (fun file => bool_decide (take (length p) file.1 = p) && negb (bool_decide (file.1 = p))) fixture.

Definition unique_dir (fixture : files) : Fs := {|
  fs_try_exists := fun p => Ok (is_some (file_at fixture p) || is_directory fixture p);
  fs_is_dir := is_directory fixture;
  fs_is_file := fun p => is_some (file_at fixture p);
  fs_read := fun p => ok_or (raw <$> file_at fixture p) tt;
|}.

Definition live_config (model_path : string) (lif channels : Z) : DaemonConfig :=
  MkDaemonConfig 1000 "info" 5555 5556 "127.0.0.1" 1000 0 true model_path lif 0 channels Live
    [named "telemetry"] IngressConfig_default None.

Definition cents (n : Z) : f64 := f64_div (f64_of_int n) (f64_of_int 100).

Definition neuron (potential : Z) (last_spike : bool) (weights : list f64) (output : OutputWeightsField) : SidecarNeuron :=
  MkSidecarNeuron (cents 85) (cents potential) f_one64 last_spike weights output.

Definition first_neuron : SidecarNeuron := neuron 10 false [cents 50; cents (-25)] Absent.
Definition document (source lineage : option string) (neurons : list SidecarNeuron) : SidecarDocument :=
  MkSidecarDocument source (Some "v3_state_telemetry"%string) (Some "signed"%string) lineage neurons.

(** [valid_sidecar_json()] with its last weight and its source. *)
Definition sidecar (last_weight : f64) (source : option string) : SidecarDocument :=
  document source (Some "test-fixture"%string) [first_neuron; neuron 0 true [cents 10; last_weight] Absent].
Definition julia : option string := Some "spikenaut_julia"%string.
Definition valid_sidecar_json : SidecarDocument := sidecar (cents 75) julia.

(** 1e40: finite, beyond a single. *)
Fixpoint ten_to (n : nat) : f64 := match n with O => f_one64 | S n => f64_mul (ten_to n) (f64_of_int 10) end.

Definition documents : list (string * SidecarDocument) := [
  ("valid", valid_sidecar_json);
  ("output weights", document julia None
     [neuron 10 false [cents 50; cents (-25)] Present; neuron 0 true [cents 10; cents 75] Present]);
  ("null output weights", document julia None [neuron 10 false [cents 50; cents (-25)] Present]);
  ("1e40", sidecar (ten_to 40) julia);
  ("blank", document julia None
     [neuron 0 false [f_zero; f_zero] Absent; neuron 0 false [f_zero; f_zero] Absent]);
  ("other trainer", sidecar (cents 75) (Some "other_trainer"%string));
  ("no source", sidecar (cents 75) None)]%string.

Definition hubs : list (string * HubConfig) := [
  ("hub", MkHubConfig (Some "spikenaut-snn"%string) (Some 2) (Some 2));
  ("other hub", MkHubConfig (Some "not-spikenaut"%string) (Some 2) (Some 2))]%string.

Definition decodes {A} (table : list (string * A)) (text : string) : result unit A :=
  ok_or (snd <$> list_find (fun entry => entry.1 = text) table ≫= fun entry => Some entry.2) tt.

Definition components (model_path : string) : path := from_bytes <$> split_on "/"%char (as_bytes model_path) [].

Abbreviation restore_network_in fixture := (restore_network (unique_dir fixture) (decodes documents) (decodes hubs)
  (fun bytes => bytes) demo_with_dimensions demo_set_config components (fun p => default EmptyString (last p))).

(** The directory [dir] with one file. *)
Definition write_json (name body : string) : files := [(["dir"; name]%string, body)].

Definition restores (fixture : files) (c : DaemonConfig)
    (p : @SpikingNetwork unit Z unit -> ModelProvenance -> bool) : bool :=
  match restore_network_in fixture c with Ok (network, provenance) => p network provenance | Err _ => false end.

Definition restore_failed (fixture : files) (c : DaemonConfig) (p : CheckpointError -> bool) : bool :=
  match restore_network_in fixture c with Err e => p e | Ok _ => false end.

(** A sidecar at [dir/snn_model.json], for a network of [lif] cells. *)
Definition rejects_sidecar (body : string) (lif channels : Z) (p : CheckpointError -> bool) : bool :=
  restore_failed (write_json "snn_model.json" body) (live_config "dir/snn_model.json" lif channels) p.

(** ** What loads *)

Definition first_weight_is (i j : nat) (w : f64) (network : @SpikingNetwork unit Z unit) : bool :=
  bool_decide ((sn_neurons network !! i ≫= fun n => ln_weights n !! j) = Some (f32_of_f64 w)).

Definition weights_restored (network : @SpikingNetwork unit Z unit) : bool :=
  (len (sn_neurons network) =? 2) && first_weight_is 0 0 (cents 50) network && first_weight_is 1 1 (cents 75) network.

Definition live_loads_valid_sidecar_and_records_provenance : bool :=
  restores (write_json "snn_model.json" "valid") (live_config "dir/snn_model.json" 2 2) (fun network provenance =>
    weights_restored network && (sn_iz_neurons network =? 0) && (sn_num_channels network =? 2) &&
    bool_decide (ln_last_spike <$> sn_neurons network !! 1%nat = Some true) &&
    bool_decide (stdp_reward_lr (sn_stdp_config network) = f_zero) &&
    bool_decide (provenance = MkModelProvenance SCHEMA_ID ["dir"; "snn_model.json"]%string
      (hex_sha256 (fun bytes => bytes) (raw "valid")) "spikenaut-snn:test-fixture"
      (Some "v3_state_telemetry"%string) julia (Some "test-fixture"%string))).

Definition live_loads_legacy_sidecar_omitting_output_weights : bool :=
  restores (write_json "snn_model.json" "valid") (live_config "dir/snn_model.json" 2 2)
    (fun network _ => weights_restored network).

Definition live_resolves_huggingface_directory_layout : bool :=
  restores [(["dir"; "dataset"; "merged_v2"; "snn_model.json"], "valid"); (["dir"; "config.json"], "hub")]%string
    (live_config "dir" 2 2) (fun _ provenance =>
      bool_decide (mp_source_path provenance = ["dir"; "dataset"; "merged_v2"; "snn_model.json"]%string) &&
      bool_decide (mp_schema_id provenance = SCHEMA_ID)).

(** ** What is rejected *)

Definition output_weights (e : CheckpointError) : bool := match e with OutputWeights _ => true | _ => false end.

Definition live_rejects_sidecar_with_output_weights : bool := rejects_sidecar "output weights" 2 2 output_weights.
Definition live_rejects_sidecar_with_null_output_weights : bool :=
  rejects_sidecar "null output weights" 1 2 output_weights.

Definition live_rejects_missing_checkpoint : bool :=
  restore_failed [] (live_config "/no/such/snn_model.json" 2 2)
    (fun e => match e with NotFound _ => true | _ => false end).

Definition live_rejects_mem_dump : bool :=
  restore_failed (write_json "parameters_weights.mem" "0134") (live_config "dir/parameters_weights.mem" 2 2)
    (fun e => match e with MemDump => true | _ => false end).

Definition bad_json (e : CheckpointError) : bool := match e with SidecarJson _ => true | _ => false end.

Definition live_rejects_corrupt_json : bool := rejects_sidecar "{not json" 2 2 bad_json.

Definition live_rejects_dimension_mismatch : bool :=
  rejects_sidecar "valid" 16 2 (fun e => match e with LifCountMismatch n => n =? 2 | _ => false end).
Definition live_rejects_channel_mismatch : bool :=
  rejects_sidecar "valid" 2 16 (fun e => match e with ChannelsMismatch n => n =? 2 | _ => false end).

(** 1e400 is out of range for the parser already. *)
Definition live_rejects_non_finite_weight : bool := rejects_sidecar "1e400" 2 2 bad_json.

Definition live_rejects_weight_that_overflows_f32 : bool :=
  rejects_sidecar "1e40" 2 2 (fun e => match e with OverflowsF32 _ => true | _ => false end).

(** The parsed document, its first weight overwritten. *)
Definition live_rejects_nan_after_parse : bool :=
  match validate_finite_parameters (document julia (Some "test-fixture"%string)
          [neuron 10 false [S754_nan; cents (-25)] Absent; neuron 0 true [cents 10; cents 75] Absent]) with
  | Err (NotFinite 0) => true
  | _ => false
  end.

Definition live_rejects_blank_weights : bool :=
  rejects_sidecar "blank" 2 2 (fun e => match e with Blank => true | _ => false end).

Definition bad_source (source : option string) (e : CheckpointError) : bool :=
  match e with BadSource got => bool_decide (got = source) | _ => false end.

Definition live_rejects_incompatible_source : bool :=
  rejects_sidecar "other trainer" 2 2 (bad_source (Some "other_trainer"%string)).
Definition live_rejects_missing_source : bool := rejects_sidecar "no source" 2 2 (bad_source None).

(** Both configuration errors carry the words the test looks for. *)
Definition config_says (c : DaemonConfig) (needle : string) (e : CheckpointError) : bool :=
  match e with ConfigInvalid e => says (config_error_to_string c e) needle | _ => false end.

Definition live_rejects_nonzero_izh_count : bool :=
  let c := set_line (IzhCount 5) (live_config "dir/snn_model.json" 2 2) in
  restore_failed (write_json "snn_model.json" "valid") c (config_says c "LIF-only").

Definition live_rejects_hub_model_type_mismatch : bool :=
  restore_failed [(["dir"; "snn_model.json"], "valid"); (["dir"; "config.json"], "other hub")]%string
    (live_config "dir" 2 2)
    (fun e => match e with HubModelType t => bool_decide (t = "not-spikenaut"%string) | _ => false end).

Definition restore_rejects_neuron_count_overflow_before_allocation : bool :=
  let c := foldr set_line (live_config "/no/such/snn_model.json" 2 2) [Mode Simulation; LifCount u64_max; IzhCount 1] in
  restore_failed [] c (config_says c "overflows usize").

Definition live_does_not_silently_replace_failed_load_with_blank_state : bool :=
  negb (is_ok (restore_network_in [] (live_config "/no/such/snn_model.json" 2 2))).

(** ** Simulation *)

Definition simulation_uses_blank_with_dimensions_and_does_not_claim_spikenaut : bool :=
  let c := foldr set_line (live_config "/no/such/model.json" 4 8) [Mode Simulation; IzhCount 1] in
  restores [] c (fun network provenance =>
    (len (sn_neurons network) =? 4) && (sn_iz_neurons network =? 1) && (sn_num_channels network =? 8) &&
    forallb (fun n => forallb (fun w => bool_decide (w = f_zero)) (ln_weights n)) (sn_neurons network) &&
    bool_decide (mp_schema_id provenance = SIMULATION_SCHEMA_ID) &&
    bool_decide (mp_model_id provenance = "simulation/blank"%string) &&
    bool_decide (mp_content_sha256 provenance = "none"%string) &&
    bool_decide (stdp_reward_lr (sn_stdp_config network) =
                 stdp_reward_lr (sn_stdp_config (demo_with_dimensions 4 1 8)))).

(** ** All of them *)

Definition checkpoint_tests : list bool := [
  live_loads_valid_sidecar_and_records_provenance; live_rejects_sidecar_with_output_weights;
  live_rejects_sidecar_with_null_output_weights; live_loads_legacy_sidecar_omitting_output_weights;
  live_resolves_huggingface_directory_layout; live_rejects_missing_checkpoint; live_rejects_mem_dump;
  live_rejects_corrupt_json; live_rejects_dimension_mismatch; live_rejects_channel_mismatch;
  live_rejects_non_finite_weight; live_rejects_weight_that_overflows_f32; live_rejects_nan_after_parse;
  live_rejects_blank_weights; live_rejects_incompatible_source; live_rejects_missing_source;
  live_rejects_nonzero_izh_count; live_rejects_hub_model_type_mismatch;
  simulation_uses_blank_with_dimensions_and_does_not_claim_spikenaut;
  restore_rejects_neuron_count_overflow_before_allocation;
  live_does_not_silently_replace_failed_load_with_blank_state].

Lemma checkpoint_tests_pass : forallb (fun passed => passed) checkpoint_tests = true.
Proof. by vm_compute. Qed.
