(* ===== verification/TestDaemon.v ===== *)
(** * The unit tests of the daemon and its tick (src/daemon.rs)

    The test sources are scripts of results, the last one repeated; the network
    is the part of the engine these tests look at, its step count and its
    modulators (the decay rates the engine derives are the neuromod crate's, as
    is the serde shape of its network: those assertions are left out, with the
    two tests of TOML's [ingress] section).  The
    ingress handle a test keeps is the one in the tick's state.
    [daemon_tests_pass] runs all the tests on the model. *)

From Stdlib Require Import SpecFloat.
From S2P Require Import Prelude Floats Packet NetAddr Queue QueueConc Ingress Health Config Backend Checkpoint Diagnostics.
From S2P Require Import Tick Daemon TestConfig.
Local Open Scope Z_scope.

(** ** Fixtures *)

Definition tenth (n : Z) : f32 := f32_div (f32_of_int n) (f32_of_int 10).
Definition hundredth (n : Z) : f32 := f32_div (f32_of_int n) (f32_of_int 100).
Definition non_finites : list f32 := [S754_nan; S754_infinity false; S754_infinity true].

Definition sample_config : DaemonConfig :=
  MkDaemonConfig 1000 "info" 5555 5556 "127.0.0.1" 1000 0 true "/tmp/model.mem" 16 5 16 Simulation
    [named "telemetry"; named "critic-ipc"] IngressConfig_default None.

(** A live configuration whose checkpoint is missing. *)
Definition live_config_without_checkpoint : DaemonConfig :=
  foldr set_line sample_config [Mode Live; IzhCount 0].

(** [IngressPacket { stimuli, modulators, batch_id, ..Default::default() }]. *)
Definition packet (stimuli : list f32) (modulators : option (list f32)) (id : option Z) : IngressPacket :=
  MkPacket stimuli modulators None id None None false.
Definition tagged_packet (tag : Z) : IngressPacket := packet [f32_of_int tag] None None.
Definition with_mask (mask : list bool) (p : IngressPacket) : IngressPacket :=
  MkPacket (stimuli p) (modulators p) (Some mask) (batch_id p) (timestamp_ns p) (session_id p) (rejected p).
Definition as_rejected (p : IngressPacket) : IngressPacket :=
  MkPacket (stimuli p) (modulators p) (valid_mask p) (batch_id p) (timestamp_ns p) (session_id p) true.

(** [RepeatingSource], [SequenceIngressSource], [FailingSource], [NoneSource], ... *)
Record ScriptedSource := MkScript { script : list (result string (option IngressPacket)) }.

#[export] Instance scripted_source : StimulusSource ScriptedSource := {
  next_ingress := fun s => match script s with
    | r :: (_ :: _) as rest => (MkScript rest, r)
    | [r] => (s, r)
    | [] => (s, Ok None)
    end;
  initialize := fun _ => mret tt;
  source_shutdown := default_shutdown;
}.

Definition repeating (p : IngressPacket) : ScriptedSource := MkScript [Ok (Some p)].
Definition sequence (ps : list IngressPacket) : ScriptedSource := MkScript ((fun p => Ok (Some p)) <$> ps).
Definition none_source : ScriptedSource := MkScript [].
Definition failing (messages : list string) : ScriptedSource := MkScript (Err <$> messages).

Record TestNetwork := MkTestNetwork { global_step : Z; net_modulators : NeuroModulators }.
Definition with_dimensions : TestNetwork := MkTestNetwork 0 demo_mods.
Definition step (net : TestNetwork) (_ : list f32) (m : NeuroModulators) : TestNetwork * result string (list Z) :=
  (MkTestNetwork (global_step net + 1) m, Ok []).

#[export] Instance NeuroModulators_eq_dec : EqDecision NeuroModulators.
Proof. solve_decision. Defined.

(** ** The tick fixture *)

Abbreviation Fixture := (TickState ScriptedSource TestNetwork CollectingSpikeSink).

Definition fixture_on (i : BoundedIngress) (channels interval : Z) (source : ScriptedSource) : Fixture :=
  MkTick _ _ _ source with_dimensions CollectingSpikeSink_new (replicate (Z.to_nat channels) f_zero) []
    i (handle_started HealthLimits_default 0) RuntimeStats_default (TickDiagnostics_new interval).

(** The test, on an ingress of the given configuration. *)
Definition with_fixture (cfg : IngressConfig) (channels interval : Z) (source : ScriptedSource)
    (test : Fixture -> bool) : bool :=
  match BoundedIngress_new cfg with Ok i => test (fixture_on i channels interval source) | Err _ => false end.

(** The clock stands 5 ms after the start of the process. *)
Definition env : TickEnv := MkEnv (fun _ => 5000000) (Some 7000000) (fun i => i).
Definition tick (st : Fixture) : Fixture := run_tick step demo_mods env st.
Definition ticked (n : Z) (st : Fixture) : Fixture := Nat.iter (Z.to_nat n) tick st.

Definition snap (st : Fixture) : HealthSnapshot := snapshot (ts_health st) 5000000.
Definition live (st : Fixture) : bool := hs_live (snap st).
Definition fresh (st : Fixture) : bool := is_some (if_age_ms (hs_input_freshness (snap st))).

Definition batches_are (accepts rejects : Z) (st : Fixture) : bool :=
  (rs_accepted_batches (ts_stats st) =? accepts) && (rs_rejected_batches (ts_stats st) =? rejects).
Definition steps_are (n : Z) (st : Fixture) : bool := rs_ticks (ts_stats st) =? n.
Definition emits_are (n : Z) (st : Fixture) : bool := len (emitted (ts_sink st)) =? n.
Definition logged (emits suppresses held : Z) (st : Fixture) : bool :=
  (rs_diagnostic_emissions (ts_stats st) =? emits) && (rs_suppressed_diagnostics (ts_stats st) =? suppresses) &&
  (suppressed_total (ts_diagnostics st) =? held).
Definition last_batch_is (id : option Z) (st : Fixture) : bool :=
  bool_decide (rs_last_batch_id (ts_stats st) = id).
Definition stimuli_are (xs : list f32) (st : Fixture) : bool := bool_decide (ts_stimuli st = xs).
Definition modulators_are (m : NeuroModulators) (st : Fixture) : bool :=
  bool_decide (net_modulators (ts_network st) = m).
Definition all (checks : list (Fixture -> bool)) (st : Fixture) : bool := forallb (fun check => check st) checks.

(** Accepted, then the test on the fixture with the new queue contents. *)
Definition enqueued (class : MessageClass) (p : IngressPacket) (rest : Fixture -> bool) (st : Fixture) : bool :=
  let '(i, next) := enqueue (ts_ingress st) class p 0 0 in
  match next with Return outcome => outcome_accepted outcome | Queue.Wait _ _ => false end &&
  rest (with_ingress i st).

Definition drive_repeating (p : IngressPacket) (ticks interval : Z) (test : Fixture -> bool) : bool :=
  with_fixture IngressConfig_default 1 interval (repeating p) (fun st => test (ticked ticks st)).

Fixpoint drive_direct_enqueues (packets : list IngressPacket) (test : Fixture -> bool) (st : Fixture) : bool :=
  match packets with
  | [] => test st
  | p :: rest => enqueued Sensory p (fun st => drive_direct_enqueues rest test (tick st)) st
  end.

(** ** Construction *)

Definition built (c : DaemonConfig) (p : BrainstemDaemon StubStimulusSource NoopSpikeSink -> bool) : bool :=
  match BrainstemDaemon_new c 0 with Some daemon => p daemon | None => false end.

Definition daemon_builds_registry_from_config : bool :=
  built sample_config (fun daemon =>
    let registry := bd_registry daemon in
    (registry_len registry =? 2) && registry_contains registry "telemetry" && registry_contains registry "critic-ipc").

Definition daemon_is_live_not_ready_before_run : bool :=
  built sample_config (fun daemon =>
    let s := health_snapshot daemon 0 in
    hs_live s && negb (hs_ready s) && bool_decide (hs_phase s = PhStarting) && negb (bool_decide (hs_reasons s = []))).

Definition daemon_ignores_disabled_services : bool :=
  let c := sample_config in
  built (MkDaemonConfig (tick_rate_hz c) (log_level c) (spine_sub_port c) (spine_pub_port c) (spine_pub_bind_host c)
    (spine_pub_sndhwm c) (spine_pub_linger_ms c) (spine_pub_send_empty_batches c) (model_path c) (lif_count c)
    (izh_count c) (Config.channels c) (runtime_mode c) (services c ++ [MkServiceConfig "mining-adapter" false])
    (Config.ingress c) (control_bind c))
    (fun daemon => negb (registry_contains (bd_registry daemon) "mining-adapter")).

Definition refuses (lines : list TomlLine) (needles : list string) : bool :=
  let c := foldr set_line sample_config lines in
  match try_with_backend c (pair_source stub) (pair_sink stub) 0 with
  | Err (ConfigRejected e) => forallb (fun needle => names c needle e) needles
  | _ => false
  end.

Definition daemon_allows_u16_max_total_neurons : bool :=
  let c := foldr set_line sample_config [LifCount u16_max; IzhCount 0] in
  is_ok (try_with_backend c (pair_source stub) (pair_sink stub) 0).

Definition daemon_rejects_total_neurons_above_u16_max : bool :=
  refuses [LifCount u16_max; IzhCount 1] ["lif_count + izh_count"; "exceeds u16::MAX"]%string.
Definition daemon_rejects_neuron_count_usize_overflow : bool :=
  refuses [LifCount u64_max; IzhCount 1] ["overflows usize"%string].
Definition constructor_rejects_invalid_tick_rate_before_runtime_exists : bool :=
  refuses [TickRateHz 0] ["tick_rate_hz"%string].
Definition daemon_rejects_zero_ingress_capacity : bool :=
  refuses [SensoryCapacity 0] ["sensory"; "capacity"]%string.

(** ** Decoding *)

Definition decoded (p : IngressPacket) (channels : nat) : list f32 * NeuroModulators :=
  decode_inputs demo_mods p (replicate channels f_zero).

Definition decode_inputs_fills_stimuli : bool :=
  let xs := tenth <$> [1; 2; 3; 4] in bool_decide ((decoded (packet xs None None) 4).1 = xs).

Definition decode_inputs_takes_modulators_when_present : bool :=
  let m := (decoded (packet (replicate 4 f_zero) (Some (tenth <$> [5; 6; 7; 8])) None) 4).2 in
  bool_decide (m = MkModulators (tenth 5) (tenth 6) (tenth 7) (tenth 8)).

Definition decode_inputs_ignores_extra_modulator_tail : bool :=
  let m := (decoded (packet (replicate 2 f_zero) (Some (tenth <$> [1; 2; 3; 4; 9])) None) 2).2 in
  bool_decide (m = MkModulators (tenth 1) (tenth 2) (tenth 3) (tenth 4)).

Definition decode_inputs_defaults_modulators_when_short : bool :=
  let '(xs, m) := decoded (packet [tenth 1; tenth 2] None None) 4 in
  bool_decide (xs = [tenth 1; tenth 2; f_zero; f_zero]) && bool_decide (m = demo_mods).

Definition decode_inputs_zeros_invalid_channels : bool :=
  let p := with_mask [true; false; true; true] (packet [f_one32; tenth 5; hundredth 25; tenth 1] None (Some 1)) in
  bool_decide ((decoded p 4).1 = [f_one32; f_zero; hundredth 25; tenth 1]).

(** ** Startup *)

Abbreviation take_restored := (take_restored_network no_file (fun _ => Err tt) (fun _ => Err tt) (fun b => b)
  demo_with_dimensions demo_set_config (fun s => [s]) (fun _ => "p"%string)).
Abbreviation run_live daemon := (run no_file (fun _ => Err tt) (fun _ => Err tt) (fun b => b)
  demo_with_dimensions demo_set_config (fun s => [s]) (fun _ => "p"%string) demo_net_step demo_mods
  (fun _ => Ok tt) daemon 0 0 []).

Definition built_live (p : BrainstemDaemon StubStimulusSource NoopSpikeSink -> bool) (c : DaemonConfig) : bool :=
  match try_new c 0 with Ok daemon => p daemon | Err _ => false end.

Definition live_restore_fails_closed_without_replacing_with_blank_network : bool :=
  built_live (fun daemon => match restored (bd_config daemon) with Err (NotFound _) => true | _ => false end)
    live_config_without_checkpoint.

(** [run] returns at once: no loop event is needed. *)
Definition run_fails_before_tick_loop_when_live_checkpoint_is_missing : bool :=
  built_live (fun daemon => match run_live daemon with
    | Some (w, Err _) => is_shutdown (w_ingress w)
    | _ => false
    end) live_config_without_checkpoint.

Definition with_blocking_control (c : DaemonConfig) : DaemonConfig :=
  let i := IngressConfig_default in
  MkDaemonConfig (tick_rate_hz c) (log_level c) (spine_sub_port c) (spine_pub_port c) (spine_pub_bind_host c)
    (spine_pub_sndhwm c) (spine_pub_linger_ms c) (spine_pub_send_empty_batches c) (model_path c) (lif_count c)
    (izh_count c) (Config.channels c) (runtime_mode c) (services c)
    (MkIngressConfig (sensory_capacity i) (sensory_policy i) (reward_capacity i) (reward_policy i) 1 BlockTimeout
       (telemetry_capacity i) (telemetry_policy i) 60000 (max_payload_len i)) (control_bind c).

Definition on_handle (i : BoundedIngress) (daemon : BrainstemDaemon StubStimulusSource NoopSpikeSink) :
    BrainstemDaemon StubStimulusSource NoopSpikeSink :=
  MkDaemon _ _ (bd_config daemon) (bd_registry daemon) (bd_source daemon) (bd_sink daemon) i (bd_health daemon).

(** The second producer sleeps on the full queue; the failed startup closes the
    ingress, and it wakes to find it closed. *)
Definition run_unblocks_waiting_producer_when_startup_fails : bool :=
  built_live (fun daemon =>
    let '(i, first) := enqueue (bd_ingress daemon) Control (tagged_packet 1) 0 0 in
    let '(i, second) := enqueue i Control (tagged_packet 2) 0 0 in
    match first, second with
    | Return outcome, Queue.Wait started remaining =>
      outcome_accepted outcome && (0 <? cm_producer_waits (metrics_class (ingress_metrics i) Control)) &&
      match run_live (on_handle i daemon) with
      | Some (w, Err _) =>
        let '(_, woken) := enqueue_wake (w_ingress w) Control (tagged_packet 2) (Some (started + remaining)) started 1000000 false
                             1000000 1000000 in
        match woken with Return outcome => bool_decide (outcome = Shutdown) | Queue.Wait _ _ => false end &&
        is_shutdown (w_ingress w)
      | _ => false
      end
    | _, _ => false
    end) (with_blocking_control live_config_without_checkpoint).

Definition rejects_pair (lif chans : Z) (provenance : ModelProvenance) (needle : string) : bool :=
  match take_restored live_config_without_checkpoint (Some (demo_with_dimensions lif 0 chans, provenance)) with
  | Err e => says (restore_error_to_string e) needle
  | Ok _ => false
  end.

Definition live_run_rejects_simulation_provenance : bool :=
  rejects_pair 16 16
    (MkModelProvenance SIMULATION_SCHEMA_ID ["<simulation>"%string] "none" "simulation/blank" None None None)
    "validated Spikenaut checkpoint".

Definition live_run_rejects_dimension_mismatched_restored_network : bool :=
  rejects_pair 1 1
    (MkModelProvenance SCHEMA_ID ["snn_model.json"%string] "abcd" "spikenaut-snn:test" None None None) "dimensions".

(** ** Ticks *)

(** The stub source yields the empty packet on every tick. *)
Definition stub_backend_basic_tick : bool :=
  with_fixture IngressConfig_default 2 1000 (repeating IngressPacket_default) (fun st =>
    let st := tick (with_stats (ts_stats st) TickDiagnostics_default st) in
    emits_are 1 st && live st && is_some (hs_last_successful_tick_ms (snap st)) &&
    negb (if_stale (hs_input_freshness (snap st))) && negb (fresh st)).

Definition receive_errors_are (n : Z) (st : Fixture) : bool := rs_receive_errors (ts_stats st) =? n.

Definition repeated_receive_errors_are_bounded_and_fully_counted : bool :=
  with_fixture IngressConfig_default 1 10 (failing ["synthetic receive failure"%string]) (fun st =>
    all [receive_errors_are 25; batches_are 0 25; logged 3 22 4] (ticked 25 st)).

Definition receive_limiter_emits_immediately_when_error_identity_changes : bool :=
  with_fixture IngressConfig_default 1 1000 (failing (replicate 5 "transient failure"%string ++ ["connection lost"%string]))
    (fun st => all [receive_errors_are 6; logged 2 4 0] (ticked 6 st)).

(** ** Non-finite input from the backend *)

Definition assert_non_finite_stimulus_rejected (value : f32) : bool :=
  drive_repeating (packet [value] None (Some 7)) 25 10
    (all [batches_are 0 25; last_batch_is None; steps_are 25; emits_are 25; live; fun st => negb (fresh st);
          logged 3 22 4]).

Definition non_finite_stimulus_is_rejected_and_bounded : bool :=
  forallb assert_non_finite_stimulus_rejected non_finites.

Definition non_finite_modulator_is_rejected_and_state_untouched : bool :=
  drive_repeating (packet [f_zero] (Some [S754_nan; f_zero; f_zero; f_zero]) (Some 9)) 3 1000
    (all [batches_are 0 3; emits_are 3; live; modulators_are demo_mods]).

Definition finite_wrong_width_packet_is_accepted_not_rejected : bool :=
  let wide := tenth <$> [1; 2; 3] in
  drive_repeating (packet wide None (Some 11)) 1 1000 (all [batches_are 1 0; last_batch_is (Some 11); emits_are 1]) &&
  drive_repeating (packet wide None None) 1 1000 (batches_are 0 0).

Definition non_finite_in_masked_slot_is_still_rejected : bool :=
  drive_repeating (with_mask [false] (packet [S754_nan] None (Some 13))) 2 1000
    (all [batches_are 0 2; fun st => negb (is_some (rs_last_valid_mask (ts_stats st))); emits_are 2]).

Definition empty_input_is_accepted_and_ticks : bool :=
  drive_repeating IngressPacket_default 1 1000 (all [batches_are 0 0; emits_are 1; fun st => negb (fresh st)]).

Definition finite_packet_after_backend_non_finite_rejection_is_accepted : bool :=
  with_fixture IngressConfig_default 1 1000
    (sequence [packet [S754_nan] None (Some 1); packet [hundredth 25] None (Some 2)]) (fun st =>
    all [batches_are 1 1; last_batch_is (Some 2); stimuli_are [hundredth 25]; steps_are 2; emits_are 2; fresh]
      (ticked 2 st)).

Definition queued_finite_sensory_survives_backend_non_finite_drop : bool :=
  with_fixture IngressConfig_default 1 1000 (repeating (packet [S754_nan] None (Some 4)))
    (enqueued Sensory (packet [hundredth 75] None (Some 3)) (fun st =>
      all [fun st => rs_rejected_batches (ts_stats st) =? 1; steps_are 1; stimuli_are [hundredth 75]; emits_are 1]
        (tick st))).

Fixpoint alternating_nan (n : nat) (even : bool) : list IngressPacket :=
  match n with
  | O => []
  | S n => packet (if even then [S754_nan; f_zero] else [f_zero; S754_nan]) None (Some 1) ::
           alternating_nan n (negb even)
  end.

Definition non_finite_limiter_is_stable_across_alternating_indices : bool :=
  with_fixture IngressConfig_default 2 10 (sequence (alternating_nan 25 true)) (fun st =>
    all [batches_are 0 25; logged 3 22 4; live] (ticked 25 st)).

Definition already_rejected_non_finite_packet_is_counted_once : bool :=
  forallb (fun p => drive_repeating (as_rejected p) 3 1000
    (all [batches_are 0 3; steps_are 3; emits_are 3; live; fun st => negb (fresh st)]))
    [packet [S754_nan] None (Some 3); packet [f_zero] (Some [S754_infinity false; f_zero; f_zero; f_zero]) (Some 4)].

Definition already_rejected_finite_packet_is_counted_once_and_still_ticks : bool :=
  drive_repeating (as_rejected (packet [tenth 5] None (Some 5))) 2 1000
    (all [batches_are 0 2; steps_are 2; emits_are 2; live; fresh]).

(** ** Non-finite input enqueued directly *)

Definition assert_direct_enqueue_non_finite_rejected (class : MessageClass) (p : IngressPacket) : bool :=
  with_fixture IngressConfig_default 2 1000 none_source
    (enqueued class p (fun st =>
      let st := run_tick_published step demo_mods env st in
      all [live; fun st => rs_rejected_batches (ts_stats st) =? 1; steps_are 0;
           fun st => bool_decide (hs_counters (snap st) = counters_of (ts_stats st));
           fun st => rc_rejected_batches (hs_counters (snap st)) =? 1;
           emits_are 0; modulators_are demo_mods] st)).

Definition direct_enqueue_non_finite_stimulus_is_rejected_not_fatal : bool :=
  forallb (fun value => assert_direct_enqueue_non_finite_rejected Sensory (packet [value; f_zero] None None)) non_finites.

Definition direct_enqueue_non_finite_modulator_is_rejected_not_fatal : bool :=
  forallb (fun value => assert_direct_enqueue_non_finite_rejected Reward
    (packet [] (Some [value; f_zero; f_zero; f_zero]) None)) non_finites.

Definition finite_packet_after_direct_enqueue_non_finite_rejection_is_accepted : bool :=
  with_fixture IngressConfig_default 1 1000 none_source
    (drive_direct_enqueues [packet [S754_nan] None (Some 10); packet [tenth 5] None (Some 11)]
      (all [batches_are 0 1; last_batch_is None; steps_are 1; emits_are 1; stimuli_are [tenth 5]; live])).

(** ** [first_non_finite] *)

Definition first_non_finite_classifies_ingress_packets : bool :=
  let finds want p := bool_decide (first_non_finite p = want) in
  finds None IngressPacket_default &&
  finds None (packet [f_zero; f_one32; f32_div (f32_of_int (-5)) (f32_of_int 2)] (Some (tenth <$> [1; 2; 3; 4])) None) &&
  forallb (fun value => finds (Some (Stimulus 1)) (packet [f_zero; value; f32_of_int 3] None None)) non_finites &&
  finds (Some (Modulator 1)) (packet [f_zero; f_one32] (Some [f_zero; S754_nan; f_zero; f_zero]) None) &&
  finds (Some (Stimulus 0)) (with_mask [false] (packet [S754_infinity false] None None)) &&
  finds (Some (Modulator 1)) (packet [] (Some [f_zero; S754_nan]) None).

(** ** What a tick gives the network *)

(** [run_tick_for_test]: a fresh ingress, health, report and diagnostics each
    time, with the network, the sink and the buffers of the caller. *)
Definition run_tick_for_test (st : Fixture) : Fixture :=
  match BoundedIngress_new IngressConfig_default with
  | Ok i => tick (MkTick _ _ _ (ts_source st) (ts_network st) (ts_sink st) (ts_stimuli st) (ts_spike_buf st) i
                    (handle_started HealthLimits_default 0) RuntimeStats_default TickDiagnostics_default)
  | Err _ => st
  end.

Definition steps_and_modulators (n : Z) (m : NeuroModulators) (st : Fixture) : bool :=
  (global_step (ts_network st) =? n) && modulators_are m st.

Definition tick_once (p : IngressPacket) (test : Fixture -> bool) : bool :=
  with_fixture IngressConfig_default 2 1000 (repeating p) (fun st => test (run_tick_for_test st)).

Definition tick_applies_neuromod_06_modulator_snapshot : bool :=
  tick_once (packet (replicate 2 f_zero) (Some [tenth 5; hundredth 25; tenth 8; tenth 1]) None)
    (all [emits_are 1; steps_and_modulators 1 (MkModulators (tenth 5) (hundredth 25) (tenth 8) (tenth 1))]).

Definition tick_defaults_modulators_when_ingress_omits_them : bool :=
  tick_once (packet [tenth 2; tenth 3] None None) (all [emits_are 1; modulators_are demo_mods]).

Definition tick_loop_emits_one_batch_per_step : bool :=
  with_fixture IngressConfig_default 2 1000
    (repeating (packet [tenth 4; tenth 1] (Some (replicate 4 f_zero)) None)) (fun st =>
    all [emits_are 3; steps_and_modulators 3 demo_mods] (Nat.iter 3 run_tick_for_test st)).

(** ** The tick and the ingress *)

Definition depths_are_zero (classes : list MessageClass) (st : Fixture) : bool :=
  forallb (fun class => cm_depth (metrics_class (ingress_metrics (ts_ingress st)) class) =? 0) classes.

Definition run_tick_drains_control_and_backend_sensory : bool :=
  with_fixture tiny_fixture 2 1000
    (repeating (packet [tenth 1; tenth 2] (Some [tenth 5; f_zero; f_zero; f_zero]) None))
    (enqueued Control (tagged_packet 9) (fun st =>
      all [stimuli_are [tenth 1; tenth 2]; depths_are_zero [Control; Sensory; Reward]; emits_are 1] (tick st))).

Definition run_tick_skips_backend_none_without_evicting_sensory : bool :=
  with_fixture tiny_fixture 2 1000 none_source
    (enqueued Sensory (packet [tenth 3; tenth 4] None None) (fun st =>
      all [stimuli_are [tenth 3; tenth 4]; depths_are_zero [Sensory]; emits_are 1] (tick st))).

(** ** Signals *)

Definition shutdown_signal_returns_on_sigterm : bool := is_some (shutdown_signal (Ok tt) [SIGTERM]).

(** ** All of them *)

Definition daemon_tests : list bool := [
  daemon_builds_registry_from_config; daemon_is_live_not_ready_before_run; daemon_ignores_disabled_services;
  decode_inputs_fills_stimuli; decode_inputs_takes_modulators_when_present;
  decode_inputs_ignores_extra_modulator_tail; decode_inputs_defaults_modulators_when_short;
  decode_inputs_zeros_invalid_channels; daemon_allows_u16_max_total_neurons;
  daemon_rejects_total_neurons_above_u16_max; daemon_rejects_neuron_count_usize_overflow;
  live_restore_fails_closed_without_replacing_with_blank_network;
  run_fails_before_tick_loop_when_live_checkpoint_is_missing;
  constructor_rejects_invalid_tick_rate_before_runtime_exists;
  run_unblocks_waiting_producer_when_startup_fails; live_run_rejects_simulation_provenance;
  live_run_rejects_dimension_mismatched_restored_network; stub_backend_basic_tick;
  repeated_receive_errors_are_bounded_and_fully_counted;
  receive_limiter_emits_immediately_when_error_identity_changes; non_finite_stimulus_is_rejected_and_bounded;
  non_finite_modulator_is_rejected_and_state_untouched; finite_wrong_width_packet_is_accepted_not_rejected;
  non_finite_in_masked_slot_is_still_rejected; empty_input_is_accepted_and_ticks;
  direct_enqueue_non_finite_stimulus_is_rejected_not_fatal;
  direct_enqueue_non_finite_modulator_is_rejected_not_fatal;
  finite_packet_after_backend_non_finite_rejection_is_accepted;
  queued_finite_sensory_survives_backend_non_finite_drop;
  finite_packet_after_direct_enqueue_non_finite_rejection_is_accepted;
  non_finite_limiter_is_stable_across_alternating_indices; already_rejected_non_finite_packet_is_counted_once;
  already_rejected_finite_packet_is_counted_once_and_still_ticks; first_non_finite_classifies_ingress_packets;
  tick_applies_neuromod_06_modulator_snapshot; tick_defaults_modulators_when_ingress_omits_them;
  tick_loop_emits_one_batch_per_step; daemon_rejects_zero_ingress_capacity;
  run_tick_drains_control_and_backend_sensory;
  run_tick_skips_backend_none_without_evicting_sensory; shutdown_signal_returns_on_sigterm].

Lemma daemon_tests_pass : forallb (fun passed => passed) daemon_tests = true.
Proof. by vm_compute. Qed.
