(* ===== verification/TestControl.v ===== *)
(** * The unit tests of the control surface (src/control.rs)

    Requests are the bytes the tests send; a test that talks to a listener goes
    through the connection handler.  serde's JSON of a snapshot is replaced by
    its three members the tests read.  [control_tests_pass] runs all the tests
    on the model. *)

From Stdlib Require Import Ascii.
From S2P Require Import Prelude NetAddr Text Queue Health HealthView Control Process.
Local Open Scope Z_scope.

(** ** Fixtures *)

Definition quoted (s : string) : bytes := chr 34 :: as_bytes s ++ [chr 34].
Definition member (name : string) (value : bytes) : bytes := quoted name ++ as_bytes ":" ++ value.
Definition json_bool (b : bool) : bytes := as_bytes (if b then "true" else "false").
Definition object (members : list bytes) : bytes :=
  as_bytes "{" ++ mjoin (imap (fun i m => (if bool_decide (i = O) then [] else as_bytes ",") ++ m) members) ++ as_bytes "}".

Definition counters_json (c : RuntimeCounters) : bytes :=
  object [member "ticks" (show_dec (rc_ticks c)); member "accepted_batches" (show_dec (rc_accepted_batches c));
          member "rejected_batches" (show_dec (rc_rejected_batches c));
          member "receive_errors" (show_dec (rc_receive_errors c)); member "emit_errors" (show_dec (rc_emit_errors c));
          member "dropped_spikes" (show_dec (rc_dropped_spikes c));
          member "diagnostic_emissions" (show_dec (rc_diagnostic_emissions c));
          member "suppressed_diagnostics" (show_dec (rc_suppressed_diagnostics c))].
Definition to_vec (s : HealthSnapshot) : option bytes :=
  Some (object [member "live" (json_bool (hs_live s)); member "ready" (json_bool (hs_ready s));
                member "counters" (counters_json (hs_counters s))]).

(** The health events of a fixture, all at the clock's start. *)
Definition machine (events : list HealthEvent) : HealthMachine :=
  fold_left (fun m e => health_apply e 0 m) events (HealthMachine_new HealthLimits_default).

Definition ready_snap : HealthSnapshot :=
  snapshot (machine [ProcessStarted; InitializationCompleted;
                     CheckpointValidated (MkCheckpointIdentity "soma16" None); IngressObserved]) 0.
Definition starting_snap : HealthSnapshot := snapshot (machine [ProcessStarted]) 0.
Definition counters : RuntimeCounters := MkRuntimeCounters 11 10 3 2 1 4 5 6.
Definition counted_snap : HealthSnapshot := snapshot (machine [ProcessStarted; CountersPublished counters]) 0.

Definition request (line : string) : bytes := as_bytes line ++ crlf ++ crlf.
Definition answers (line : string) (s : HealthSnapshot) : bytes := render_http to_vec (request line) s.

(** [raw.starts_with(..)] and [raw.contains(..)]. *)
Definition begins (raw : bytes) (pre : string) : bool := is_some (strip_bytes (as_bytes pre) raw).
Definition holds (raw : bytes) (part : bytes) : bool := contains part raw.

(** ** Requests *)

Definition livez_and_readyz_use_status_codes : bool :=
  begins (answers "GET /livez HTTP/1.1" ready_snap) "HTTP/1.1 200 OK" &&
  begins (answers "GET /readyz HTTP/1.1" ready_snap) "HTTP/1.1 200 OK" &&
  begins (answers "GET /livez HTTP/1.1" starting_snap) "HTTP/1.1 200 OK" &&
  begins (answers "GET /readyz HTTP/1.1" starting_snap) "HTTP/1.1 503" &&
  negb (hs_ready starting_snap) && bool_decide (RStarting ∈ hs_reasons starting_snap).

Definition health_json_is_always_200 : bool :=
  let raw := answers "GET /health HTTP/1.1" starting_snap in
  begins raw "HTTP/1.1 200 OK" && holds raw (member "live" (json_bool true)) && holds raw (member "ready" (json_bool false)).

Definition health_json_carries_every_runtime_counter : bool :=
  match after_blank_line (answers "GET /health HTTP/1.1" counted_snap) with
  | Some body => holds body (member "counters" (counters_json counters))
  | None => false
  end.

Definition metrics_expose_runtime_counters_as_total_counters : bool :=
  let raw := answers "GET /metrics HTTP/1.1" counted_snap in
  forallb (fun line => holds raw (lf :: as_bytes line ++ [lf]))
    ["brainstem_ticks_total 11"; "brainstem_accepted_batches_total 10"; "brainstem_rejected_batches_total 3";
     "brainstem_receive_errors_total 2"; "brainstem_emit_errors_total 1"; "brainstem_dropped_spikes_total 4";
     "brainstem_diagnostic_emissions_total 5"; "brainstem_suppressed_diagnostics_total 6"]%string &&
  holds raw (as_bytes "# TYPE brainstem_ticks_total counter").

Definition unknown_path_and_method : bool :=
  begins (answers "GET /nope HTTP/1.1" ready_snap) "HTTP/1.1 404" &&
  begins (answers "POST /health HTTP/1.1" ready_snap) "HTTP/1.1 405".

(** ** Connections *)

(** [http_get] against the handler, which reads the request at once. *)
Definition http_get (path : string) (m : HealthMachine) : bytes :=
  let sent := as_bytes ("GET " +:+ path +:+ " HTTP/1.1") ++ crlf ++ as_bytes "Host: localhost" ++ crlf ++ crlf in
  match handle_connection to_vec [(0, Some sent)] (fun _ => Completes 0 tt) false m 0 with
  | Ok raw => raw
  | Err _ => []
  end.

Definition livez_is_200_while_readyz_is_503_before_checkpoint : bool :=
  let health := machine [ProcessStarted] in
  holds (http_get "/livez" health) (as_bytes "HTTP/1.1 200") &&
  holds (http_get "/readyz" health) (as_bytes "HTTP/1.1 503") &&
  let body := http_get "/health" health in
  holds body (member "live" (json_bool true)) && holds body (member "ready" (json_bool false)) &&
  match serve_listener false (replicate 3 (Accept true) ++ [ShutdownChanged (Some true)]) with
  | Some (server, _) => cs_stopped server
  | None => false
  end.

(** No served permit is left, every busy one is. *)
Definition saturated_control_writes_503 : bool :=
  let '(server, effect) := spawn_control_conn (MkControlServer MAX_CONTROL_CONNS 0 false) in
  bool_decide (effect = BusyReply) && (cs_served server =? MAX_CONTROL_CONNS) &&
  match write_busy_http (fun _ => Completes 0 tt) with
  | Ok raw => holds raw (as_bytes "HTTP/1.1 503") && holds raw (as_bytes "busy")
  | Err _ => false
  end.

Definition fully_saturated_control_closes_without_reply : bool :=
  bool_decide ((spawn_control_conn (MkControlServer MAX_CONTROL_CONNS MAX_BUSY_CONNS false)).2 = Closed).

Definition control_response_is_503_when_snapshot_would_block : bool :=
  let raw := control_response to_vec (request "GET /livez HTTP/1.1") true (machine [ProcessStarted]) 0 in
  begins raw "HTTP/1.1 503" && holds raw (as_bytes "busy").

(** ** All of them *)

Definition control_tests : list bool := [
  livez_and_readyz_use_status_codes; health_json_is_always_200; health_json_carries_every_runtime_counter;
  metrics_expose_runtime_counters_as_total_counters; unknown_path_and_method;
  livez_is_200_while_readyz_is_503_before_checkpoint; saturated_control_writes_503;
  fully_saturated_control_closes_without_reply; control_response_is_503_when_snapshot_would_block].

Lemma control_tests_pass : forallb (fun passed => passed) control_tests = true.
Proof. by vm_compute. Qed.
