(* ===== verification/TestSmoke.v ===== *)
(** * The integration tests (tests/thalamic_brainstem_smoke.rs with its fixture
    tests/fixtures/thalamic_producer.rs, tests/live_fixture.rs,
    tests/config_startup.rs)

    A producer encodes a telemetry frame through the typed contract, the frame
    crosses, the packet is queued and the daemon restores its checkpoint and
    ticks: the whole chain, with a codec that has the round trip for JSON.  The
    engine of these tests spikes on the channels that are driven.
    [smoke_tests_pass] runs the tests on the model; [publish_keeps_safety] is
    the point of the fixture, for every producer and transport. *)

From Stdlib Require Import Ascii SpecFloat.
From S2P Require Import Prelude Floats Packet NetAddr Text Queue Ingress Health Config Corpus Backend Checkpoint.
From S2P Require Import Diagnostics Tick Daemon Startup Workload Process TestConfig TestBackend TestCheckpoint.
Local Open Scope Z_scope.

(** ** The producer (thalamic_producer.rs) *)

Record ThalamicProducer := MkThalamic {
  safety_healthy : bool;
  published : Z;
  publish_errors : Z;
}.

Definition ThalamicProducer_new : ThalamicProducer := MkThalamic true 0 0.

(** [xs[i] = x], where the vector is that long. *)
Definition simulate_telemetry (now_ns batch_id : Z) (channels : nat) : StimulusBatch := {|
  sb_session_id := Some "thalamic-smoke"%string;
  sb_batch_id := batch_id;
  sb_timestamp := now_ns;
  sb_values := <[1%nat := f_zero]> (<[O := f_one32]> (replicate channels f_zero));
  sb_valid_mask := Some (<[1%nat := false]> (replicate channels true));
  sb_metadata := Some (MkBatchMetadata (Some 1000) (Some "thalamic-relay-fixture"%string)
    {["schema"%string := STIMULUS_SCHEMA; "provenance"%string := "simulated-telemetry"%string]});
|}.

Section Producer.
Variable to_vec : IpcMessage -> result string string.
Variable validate : StimulusBatch -> result string unit.

Definition encode_frame (batch : StimulusBatch) : result string string :=
  map_err (fun err => "thalamic fixture produced an invalid StimulusBatch: " +:+ err)%string (validate batch)
    ≫= fun _ => to_vec (Stimuli batch).

(** The transport, if there is one: how a send of the frame ends. *)
Definition publish (transport : option (string -> result string unit)) (frame : string) (t : ThalamicProducer) :
    ThalamicProducer :=
  match transport with
  | Some send =>
    match send frame with
    | Ok _ => MkThalamic (safety_healthy t) (wadd64 (published t) 1) (publish_errors t)
    | Err _ => MkThalamic (safety_healthy t) (published t) (wadd64 (publish_errors t) 1)
    end
  | None => MkThalamic (safety_healthy t) (published t) (wadd64 (publish_errors t) 1)
  end.
End Producer.

Definition safety_tick (thermal_ok : bool) (t : ThalamicProducer) : ThalamicProducer :=
  MkThalamic thermal_ok (published t) (publish_errors t).

(** No publish, however it ends, touches the safety flag, and each is counted on
    exactly one side. *)
Lemma publish_keeps_safety transport frame t :
  let t' := publish transport frame t in
  safety_healthy t' = safety_healthy t /\
  ((published t' = wadd64 (published t) 1 /\ publish_errors t' = publish_errors t) \/
   (published t' = published t /\ publish_errors t' = wadd64 (publish_errors t) 1)).
Proof. unfold publish. destruct transport as [send|]; [destruct (send frame)|]; simpl; auto. Qed.

(** ** Fixtures *)

Definition CHANNELS : nat := 4.
Definition now_ns : Z := 1700000000000000000.

Definition smoke_neuron (weights : list Z) : SidecarNeuron :=
  MkSidecarNeuron (cents 85) f_zero (cents 2) false (cents <$> weights) Absent.
Definition smoke_sidecar_json : SidecarDocument :=
  document julia (Some "thalamic-smoke"%string)
    (smoke_neuron <$> [[200; 12; 13; 14]; [15; 16; 17; 18]; [19; 20; 21; 22]; [23; 24; 25; 26]]).

Definition live_fixture_json : SidecarDocument :=
  document julia (Some "live-fixture-v1"%string)
    (imap (fun i _ => neuron 0 false (<[i := f_one64]> (replicate 16 f_zero)) Absent) (replicate 16 tt)).

Definition FIXTURE_SHA256 : string := "f97771291000a3d805375d410b46a7232b54b003aaa3f1d9662ea5f9b09af848".

Definition smoke_config : DaemonConfig := live_config "dir/snn_model.json" 4 4.

(** A network that spikes where it is driven. *)
Fixpoint driven_from (i : Z) (stim : list f32) : list Z :=
  match stim with
  | [] => []
  | x :: stim => (if bool_decide (x = f_zero) then [] else [i]) ++ driven_from (i + 1) stim
  end.
Definition driven (net : @SpikingNetwork unit Z unit) (stim : list f32) (_ : NeuroModulators) :
    @SpikingNetwork unit Z unit * result string (list Z) := (net, Ok (driven_from 0 stim)).

Abbreviation bounded body := (run_for_ticks (unique_dir (write_json "snn_model.json" body))
  (decodes [("smoke"%string, smoke_sidecar_json); ("live fixture"%string, live_fixture_json)]) (decodes [])
  (fun _ => hex_decode FIXTURE_SHA256) demo_with_dimensions demo_set_config components
  (fun p => default EmptyString (last p)) driven demo_mods).

Definition env : TickEnv := MkEnv (fun _ => 5000000) (Some now_ns) (fun i => i).

(** [QueuedStimulusSource]. *)
Record QueuedSource := MkQueued { queued : list (result string IngressPacket) }.
#[export] Instance queued_source : StimulusSource QueuedSource := {
  next_ingress := fun s => match queued s with
    | Ok p :: rest => (MkQueued rest, Ok (Some p))
    | Err e :: rest => (MkQueued rest, Err e)
    | [] => (s, Ok None)
    end;
  initialize := fun _ => mret tt;
  source_shutdown := default_shutdown;
}.

(** One tick of the daemon on the queued packets. *)
Definition ticks_once (packets : list (result string IngressPacket)) (p : RuntimeStats -> bool) : bool :=
  match try_with_backend smoke_config (MkQueued packets) CollectingSpikeSink_new 0 with
  | Ok daemon => gives p (bounded "smoke"%string daemon 1 2 [env]).2
  | Err _ => false
  end.

Definition smoke_policy : IngressPolicy := MkIngressPolicy 4 (Some 1000000000).
Abbreviation accepts frame := (accept_ipc_json TestBackend.validate demo_codec_slice frame smoke_policy now_ns).
Abbreviation encodes := (encode_frame demo_to_vec TestBackend.validate).
Abbreviation sent := (publish (Some (fun _ => Ok tt))).

Definition loaded (stats : RuntimeStats) : bool := is_some (rs_loaded_checkpoint stats).
Definition stats_of (ticks accepts rejects : Z) (stats : RuntimeStats) : bool :=
  (rs_ticks stats =? ticks) && (rs_accepted_batches stats =? accepts) && (rs_rejected_batches stats =? rejects).

(** ** thalamic_brainstem_smoke.rs *)

Definition checkpoint_is_loaded_instead_of_blank_network : bool :=
  ticks_once [] (fun stats =>
    bool_decide (mp_model_id <$> rs_loaded_checkpoint stats = Some "spikenaut-snn:thalamic-smoke"%string) &&
    bool_decide (mp_schema_id <$> rs_loaded_checkpoint stats = Some "spikenaut-sidecar-json/v1"%string)).

Definition typed_frame_crosses_ipc_and_produces_runtime_result : bool :=
  let batch := simulate_telemetry now_ns 42 CHANNELS in
  gives (fun bytes =>
    let thalamic := sent bytes ThalamicProducer_new in
    (published thalamic =? 1) && safety_healthy thalamic &&
    gives (fun packet =>
      bool_decide (batch_id packet = Some 42) && bool_decide (valid_mask packet = sb_valid_mask batch) &&
      bool_decide (session_id packet = Some "thalamic-smoke"%string) &&
      ticks_once [Ok packet] (fun stats =>
        stats_of 1 1 0 stats && bool_decide (rs_last_batch_id stats = Some 42) &&
        bool_decide (rs_last_valid_mask stats = sb_valid_mask batch) && loaded stats))
      (accepts bytes))
    (encodes batch).

Definition rejected_frame_is_counted_without_stopping_the_loop : bool :=
  ticks_once [Ok (MkPacket [] None None None None None true)] (stats_of 1 0 1).

Definition validity_mask_survives_wire_contract : bool :=
  let batch := simulate_telemetry now_ns 1 CHANNELS in
  match encodes batch ≫= demo_codec_slice with
  | Ok (Stimuli got) =>
    bool_decide (sb_valid_mask got = sb_valid_mask batch) && (len (sb_values got) =? 4) &&
    bool_decide (sb_valid_mask got ≫= (.!! 1%nat) = Some false)
  | _ => false
  end.

(** [err.to_string()] of the error, which says [needle]. *)
Definition refused (needle : string) (r : result IngressError IngressPacket) : bool :=
  fails_with (fun e => says (ingress_error_to_string e) needle) r.

Definition schema_incompatibility_fails_loudly : bool :=
  refused "deserialize" (accept_ipc_json TestBackend.validate (decoder []) "udp" smoke_policy now_ns) &&
  gives (fun bytes => refused "schema" (accepts bytes))
    (demo_to_vec (Stimuli (with_schema "not-a-supported-schema" (simulate_telemetry now_ns 2 CHANNELS)))) &&
  gives (fun bytes => refused "Ping" (accepts bytes)) (demo_to_vec MsgPing).

Definition thalamic_stays_healthy_when_brainstem_unavailable : bool :=
  gives (fun bytes =>
    let thalamic := publish None bytes (safety_tick true ThalamicProducer_new) in
    safety_healthy thalamic && (publish_errors thalamic =? 1) && (published thalamic =? 0) &&
    let thalamic := sent bytes (safety_tick false thalamic) in
    negb (safety_healthy thalamic) && (published thalamic =? 1) &&
    safety_healthy (safety_tick true thalamic)) (encodes (simulate_telemetry now_ns 9 CHANNELS)).

(** A producer gone with its fault, its successor's frame through the daemon. *)
Definition restarted_frame_ticks (batch : Z) (test : ThalamicProducer -> bool) : bool :=
  negb (safety_healthy (safety_tick false ThalamicProducer_new)) &&
  let restarted := ThalamicProducer_new in
  safety_healthy restarted &&
  gives (fun bytes =>
    test (sent bytes restarted) &&
    gives (fun packet => ticks_once [Ok packet] (fun stats => stats_of 1 1 0 stats && loaded stats)) (accepts bytes))
    (encodes (simulate_telemetry now_ns batch CHANNELS)).

Definition thalamic_restart_keeps_hardware_safety_out_of_brainstem : bool :=
  restarted_frame_ticks 7 (fun restarted =>
    (published restarted =? 1) && safety_healthy restarted && negb (safety_healthy (safety_tick false restarted))).

(** ** live_fixture.rs *)

(** [Drive] and [Capture], with the calls they get. *)
Record Drive := MkDrive { shut_down : bool }.
#[export] Instance drive_source : StimulusSource Drive := {
  next_ingress := mret (Some (MkPacket (<[3%nat := f_one32]> (replicate 16 f_zero)) None None None None None false));
  initialize := fun _ => mret tt;
  source_shutdown := modify (fun _ => MkDrive true);
}.

Record Capture := MkCapture { cap_spikes : list SpikeEvent; cap_flushes : Z }.
#[export] Instance capture_sink : SpikeSink Capture := {
  emit := fun spikes _ => modify (fun k => MkCapture (cap_spikes k ++ spikes) (cap_flushes k));
  flush := modify (fun k => MkCapture (cap_spikes k) (cap_flushes k + 1));
}.

Definition live_fixture_restores_ticks_and_shuts_down : bool :=
  match try_with_backend (live_config "dir/snn_model.json" 16 16) (MkDrive false) (MkCapture [] 0) 0 with
  | Ok daemon =>
    let '(w, r) := bounded "live fixture"%string daemon 1 2 (replicate 5 env) in
    gives (fun stats =>
      stats_of 5 0 0 stats && (rs_emit_errors stats =? 0) &&
      bool_decide ((fun p => (mp_content_sha256 p, mp_model_id p)) <$> rs_loaded_checkpoint stats =
                   Some (FIXTURE_SHA256, "spikenaut-snn:live-fixture-v1"%string))) r &&
    negb (bool_decide (cap_spikes (w_sink w) = [])) &&
    forallb (fun s => channel s =? 3) (cap_spikes (w_sink w)) &&
    (cap_flushes (w_sink w) =? 1) && shut_down (w_source w)
  | Err _ => false
  end.

(** ** config_startup.rs *)

(** The port is taken and the checkpoint is missing, both of which come later. *)
Definition startup_config (lines : list TomlLine) : DaemonConfig :=
  foldr set_line (foldr set_line base_config [ControlBindIs "127.0.0.1:40000"]) lines.

(** The process ends on the configuration error, having printed it and nothing
    else: no socket was opened, no logging started. *)
Definition exits_at_once {A} (lines : list TomlLine) (field : string)
    (started : list StartupEffect * result (StartupError unit unit) A) : bool :=
  match started with
  | ([PrintError], Err (LoadFailed (Invalid e))) => names (startup_config lines) field e
  | _ => false
  end.

Abbreviation starts run lines := (run no_file (fun _ => Err tt) (fun _ => Err tt) (fun b => b)
  demo_with_dimensions demo_set_config components (fun _ => "p"%string) None
  (fun _ => Ok "toml"%string) (fun _ => Ok (startup_config lines)) (fun level => level) demo_try_new).
Abbreviation stub_start lines := (starts (@run_stub unit Z unit unit unit string string) lines (Some "case.toml"%string) None 0 []).
Abbreviation zmq_start lines := (starts (@run_zmq unit Z unit unit unit string string) lines
  (fun _ => Err "Address already in use"%string) (Some "case.toml"%string) None [] 0 []).

Definition invalid_configuration_exits_before_checkpoint_or_socket_startup : bool :=
  forallb (fun '(lines, field) =>
    exits_at_once lines field (stub_start lines) && exits_at_once lines field (zmq_start lines))
  [([TickRateHz 0], "tick_rate_hz"); ([Channels 0], "channels"); ([Channels 1048577], "dimensions");
   ([LifCount 65536], "lif_count"); ([IzhCount 1], "izh_count");
   ([ControlBindIs "localhost:40000"], "control_bind");
   ([PubBindHost "tcp://127.0.0.1"], "spine_pub_bind_host")]%string.

(** ** All of them *)

Definition smoke_tests : list bool := [
  checkpoint_is_loaded_instead_of_blank_network; typed_frame_crosses_ipc_and_produces_runtime_result;
  rejected_frame_is_counted_without_stopping_the_loop; validity_mask_survives_wire_contract;
  schema_incompatibility_fails_loudly; thalamic_stays_healthy_when_brainstem_unavailable;
  thalamic_restart_keeps_hardware_safety_out_of_brainstem; live_fixture_restores_ticks_and_shuts_down;
  invalid_configuration_exits_before_checkpoint_or_socket_startup].

Lemma smoke_tests_pass : forallb (fun passed => passed) smoke_tests = true.
Proof. by vm_compute. Qed.
